(* ===== verification/_CoqProject ===== *)
-Q . S2P
Prelude.v
Rpc.v
Amount.v
Privacy.v
KeystoreLock.v
KeystoreStore.v
Chain.v
Sync.v
SyncProps.v
SyncLive.v
SyncTurns.v
SyncExample.v
AsyncOp.v
Payments.v
SendMany.v
ShieldCoinbase.v
ZebraView.v
Params.v
ListUnspent.v
Text.v
Network.v
Auth.v
MigrateConf.v
Http.v
ViewTx.v
Balances.v
ListTx.v
Addresses.v
Keys.v
NewAccounts.v
ImportKeys.v
AddressTools.v
WalletStatus.v
Script.v
RawTx.v
WalletDb.v
Zewif.v
MigrateWallet.v
Zaino.v
ZainoView.v
Config.v
Identity.v
Commands.v
Connection.v
Backends.v
Mempool.v
Reader.v
Literal.v
OpenRpc.v
MethodTable.v
