(* ===== verification/Prelude.v ===== *)
(** * Zallet, a verification development

    Zallet is a Zcash full-node wallet: a process that follows a node's best
    chain, keeps a wallet database (the crate [zcash_client_sqlite]) and an
    encrypted keystore, and serves a JSON-RPC interface. This library models the
    wallet's own logic and proves what it promises. Where the repository holds
    two copies of a file, zallet-core/src is followed when it has one (sync,
    keystore, z_sendmany, z_viewtransaction, migrate-zcashd-wallet), else
    zallet/src.

    ** How the program fits together

    Four tasks of the sync engine share the wallet and a chain backend. A
    backend hands out _views_, each the chain of one captured tip; the engine
    asks a view for the point where the wallet left its chain, rewinds the
    wallet there, scans the blocks above it, and follows the tip. RPC methods
    run concurrently with it. Those that spend check their parameters, obtain a
    proposal from the wallet, check it against the caller's privacy policy,
    collect the keys from the keystore and start an asynchronous operation
    whose result the client collects later. The keystore decrypts its
    identities when unlocked, and a task it spawns locks it again. A request
    reaches a method through two HTTP layers: one that authenticates the client
    against the configured users and the cookie, and one that turns the dialects
    of older clients into JSON-RPC 2.0 and the answers back.

    ** The files

    - [Prelude] (this file): [outcome] (a value, a Rust error, or a panic),
      [M] (the same with a world threaded through, what was changed before a
      failure staying changed), machine integers, and the rules [post],
      [triple] and [keeps] for reasoning about both. Every theorem that says
      "does not panic" is about the constructor [Panic], which [unwrap],
      [expect], [assert!] and overflow reach.
    - [Rpc]: json_rpc/server/error.rs and rpc_call_compatibility.rs: JSON values,
      error objects, error codes, and the middleware that rewrites errors.
    - [Amount]: json_rpc/utils.rs: decimal amounts to zatoshis and back.
    - [Params]: json_rpc/utils.rs: accounts, heights, confirmations, and the
      other parameters of many methods.
    - [Privacy]: json_rpc/payments.rs: the lattice of privacy policies and the
      check of a proposal against one.
    - [KeystoreLock]: keystore.rs: locking, unlocking and the relock tasks, as a
      transition system ([step], [reachable]); walletpassphrase, walletlock.
    - [KeystoreStore]: keystore.rs: encryption to the recipients and the tables
      of mnemonics, legacy seeds and standalone keys.
    - [Chain]: chain.rs, chain/error.rs, sync/locator.rs: the interface
      [ChainView] with its laws [ChainViewLaws], and block locators.
    - [Sync], [SyncProps], [SyncLive], [SyncTurns], [SyncExample]: sync.rs,
      sync/steps.rs: the engine, against [ChainView] and the wallet interface [SyncEnv]; [steady_state_turn],
      [initialize_turn], [recover_history_turn] and [data_requests_turn] are the
      bodies of the tasks' loops, and the tasks interleave turn by turn. The
      last file has a concrete chain and wallet meeting all the laws.
    - [ZebraView]: chain/zebra.rs, zebra/reader.rs: the pinned view of the
      zebra-state backend, over a node whose best chain moves and a cache that
      other tasks use too.
    - [Mempool]: chain/zebra.rs: the stream of mempool transactions and the
      status of spent outputs.
    - [Reader]: zebra/reader.rs, zebra/convert.rs: the requests to the read-state
      service, which implement the node interface of [ZebraView] ([reader_node]).
    - [AsyncOp]: json_rpc/asyncop.rs and the three operation methods.
    - [Payments], [SendMany], [ShieldCoinbase]: json_rpc/payments.rs,
      methods/z_send_many.rs, methods/z_shieldcoinbase.rs: payment requests,
      the two spending methods, broadcasting, and their errors.
    - [ListUnspent], [Balances], [ListTx], [ViewTx]: methods/list_unspent.rs,
      get_balances.rs, z_get_total_balance.rs, get_notes_count.rs,
      list_transactions.rs, view_transaction.rs: what the wallet holds and did.
    - [Addresses]: methods/list_accounts.rs, get_account.rs, list_addresses.rs,
      list_unified_receivers.rs, get_address_for_account.rs.
    - [Keys]: what the account methods use of the keystore, as an interface
      ([KeystoreOps], [KeystoreContract]) that [KeystoreLock] and [KeystoreStore]
      together implement.
    - [NewAccounts], [ImportKeys]: methods/get_new_account.rs,
      recover_accounts.rs, import_key.rs, export_key.rs, z_import_address.rs,
      against that interface.
    - [AddressTools], [WalletStatus]: methods/convert_tex.rs,
      validate_address.rs, verify_message.rs, get_wallet_status.rs.
    - [Text]: the text functions of the Rust standard library the others use:
      splitting, trimming, UTF-8 validity, parsing and printing integers.
    - [Network]: network.rs: network types and regtest activation heights.
    - [Auth]: json_rpc/server/authorization.rs, server/cookie.rs, server.rs,
      json_rpc.rs, commands/rpc_cli.rs, commands/add_rpc_user.rs: credentials,
      the cookie file, and the check.
    - [Http]: json_rpc/server/http_request_compatibility.rs.
    - [MigrateConf]: commands/migrate_zcash_conf.rs.
    - [Script], [RawTx]: methods/decode_script.rs, get_raw_transaction.rs,
      decode_raw_transaction.rs: scripts and transactions as JSON.
    - [WalletDb]: database.rs, database/ext/migrations/initial_setup.rs: opening
      the wallet database.
    - [Zewif], [MigrateWallet]: keystore/zewif.rs over [KeystoreStore], and
      commands/migrate_zcashd_wallet.rs: the import of a zcashd wallet.
    - [Zaino]: chain/zaino.rs: the view of the zaino backend, over a snapshot of
      its index, and the other operations of that backend.
    - [ZainoView]: that view as an implementation of [ChainView], and the sync
      engine over it.
    - [Backends]: src/backends, src/crates/zebra-read-state and chain/zebra/rpc.rs:
      what the backends' own crates have beyond the two views, from starting
      them to the Ironwood pool.
    - [Config]: config.rs, commands.rs: the configuration's values and paths,
      and the example file.
    - [Identity]: commands/generate_encryption_identity.rs and the part of
      keystore.rs that opens a keystore: the identity's file, and reading it.
    - [Commands]: commands/init_wallet_encryption.rs, generate_mnemonic.rs,
      import_mnemonic.rs, export_mnemonic.rs,
      regtest/generate_account_and_miner_address.rs, repair/truncate_wallet.rs,
      start.rs: the commands around the keystore, and the life of the process.
    - [Literal], [OpenRpc], [MethodTable]: build.rs (the generation of the OpenRPC
      table), methods/openrpc.rs, help.rs, stop.rs, and methods.rs: the traits
      with their documentation, what the server says of its methods, and what
      each implementation hands to its module.
    - [Connection]: database/connection.rs: the locks of the wallet database's
      connections, as a transition system over tasks ([step], [run]).

    A function of the source is a definition of the same name; loops and closures
    that deserve a name have one ([step_back_loop], [note_output]). An
    asynchronous function is a computation in [M] over the state it shares; where
    other parties can run in between, the state is a history ([env k] at the
    [k]-th read, in [AsyncOp] and [ZebraView]), a list of the states that others
    can see ([Identity]) or a transition system ([KeystoreLock], [Connection]).

    Code that is not in the repository is a class: [KeyCrypto] (age, BIP 39,
    ZIP 32), [ZatoshisOps], [HeightOps] and [ChainTypes] (zcash_protocol and
    zcash_primitives), [SyncEnv], [SpendOps], [SendOps], [ShieldOps],
    [UnspentOps], [BalanceOps], [ListTxOps], [ViewOps], [AddressOps],
    [AddressTables], [AccountOps], [ImportOps] and [StatusOps]
    (zcash_client_backend, its codecs and the database), [NodeOps],
    [ReadStateService] and [MempoolOps] (zebra-state and its RPC), [BranchOps] (consensus branches), [AuthOps] and [HttpOps]
    (hashes, base64, files, JSON text), [MigrateOps] (file paths, TOML),
    [ToolOps] (secp256k1), [ScriptOps] and [RawTxOps] (zcash_script, the parsed
    transactions), [DbOps] (the migrator, semver), [ZewifOps], [DumpOps] and
    [MigrateWalletOps] (the zewif crates), [ZainoOps] (zaino's index),
    [AgeFiles] (age's identity files), [MnemonicOps], [WalletOps]. What
    the code relies on is the matching class of laws ([ZatoshisLaws],
    [SyncLaws], ...), whose fields state documented behaviour; each theorem
    with such a hypothesis has a witness, a concrete instance on which the
    definitions are evaluated.

    ** What is shown

    - Spending: a proposal is handed to construction exactly when it reveals
      nothing that the policy forbids ([Privacy.enforce_privacy_policy_correct],
      against the set of things a step reveals, [SendMany.z_sendmany_correct],
      [ShieldCoinbase.z_shieldcoinbase_correct]); payment requests pay exactly
      what was asked ([Payments.build_request_correct]); policies form a
      lattice; broadcasting reports partial failure.
    - Sync: an iteration of [steady_state] brings the wallet to the view's tip
      through any reorg and never panics once the wallet has history; no block
      at or above the shutdown height enters the wallet, under any
      interleaving of the tasks; the walk back to the best chain terminates.
      When nothing fails and the reorg is within reach of the locator, the
      iteration does reach the tip ([SyncLive]). Rewinding the wallet may reach a
      lower height than the one asked for, which the code does not look at: the
      theorems say which blocks are then left. The whole loop, its recovery from a
      block conflict included, never has the wallet at a block in conflict with
      one it has, and when rewinding is exact, never panics and keeps the wallet
      at a block it has ([SyncTurns]). Over zaino all this holds on an index
      without side chains, the shutdown height on any ([ZainoView]).
    - Chain: locators are well formed; every read of a Zebra view answers from
      the captured tip's chain whatever the node does ([ZebraView]), except
      [find_fork_point], which asks the live chain: the laws of [ChainViewLaws] on
      fork points can fail for it once the node leaves the view's chain.
    - Keystore: what is stored decrypts again; an unlocked keystore always has a
      task that will lock it, and stays unlocked until the deadline; the races
      and the overflow that escape this are theorems too.
    - First use: from an empty data directory, the commands that make an identity,
      set the recipients and import a mnemonic leave a wallet whose seed is read
      back with that identity, and with its passphrase if it has one
      ([Commands.first_use]); the identity's file is never replaced, seen
      incomplete or, with key material in it, readable by others, whatever fails.
    - The wallet database's connections: in every interleaving the accesses
      behave as if they were made one after the other, and there is no deadlock
      ([Connection]).
    - [start] runs until a task ends, and does not report the task's error.
    - The zaino view answers every read from the chain of its snapshot
      ([Zaino.zaino_reads_one_chain]), but its fork point need not be an entry of
      the locator. The newer zebra backend refuses recent tree states where the
      node has no Ironwood tree ([Backends]).
    - Operations: a result is delivered exactly once.
    - The wallet database: opening accepts exactly the databases of a compatible
      version and the configured network and changes no other; a creation that
      stops half way cannot be opened again.
    - Import of a zcashd wallet: every secret is in the keystore, and decrypts,
      before the wallet database changes; what the imported document says of
      accounts and birthdays.
    - Accounts: every address is listed once and in its place; an address is
      derived for exactly the receivers asked for; new and recovered accounts
      come from a seed of the fingerprint named, with the tree state before
      their birthday; what an import that fails leaves behind; a key exported
      after its import is that key.
    - The server: a client with a configured user or the cookie is let in and
      nobody else; the cookie lives as long as the server; each dialect gets the
      answer its JSON-RPC 2.0 request would get. What [help] and [rpc.discover]
      say is what the source documents, through the escaping that the build
      script writes and the compiler reads, and each method's implementation
      hands over the parameters described, in order ([MethodTable]).
    - Configuration: migrating a zcashd configuration refines a relation between
      its lines and the settings they mean, and prints exactly their warnings; the example file sets the two
      required fields and shows every other one, commented, with the value it has when
      unset, or a made-up one for the two that have none.
    - Amounts and parameters: [parse_fixed_point] computes the exact value of a
      decimal grammar without overflow, and formatting is its inverse; an
      account number selects an account only in a wallet of one seed.
    - Listings: exactly which outputs, transactions and transaction parts the
      wallet methods list, pages that cut a list without gap or repetition, and
      totals that are exact or reported as overflowing; a decoded script or
      transaction describes its bytes, in the block that contains it.

    ** Bounds and fuel

    Machine integers are [Z] with their ranges checked ([i64], [u32], [u64]:
    out of range is [Panic]) or saturating where the source saturates.
    [step_back_loop] takes the height it starts from as fuel: each round but
    the last lowers the height, and [SyncProps.step_back_to_best_chain_correct]
    shows that it never runs out. [split_batches] takes the length of the
    range, each batch having at least one block. [digit_count] takes 20, the
    digits of a [u64], and the trimming of white space the length of the text.
    [skip_separators] takes the length of the path. [write_section_inner] takes 2, the depth to which sections nest, and
    [Config.generate_example_correct] shows that it is enough.
    [hex_len] goes up to 6, the digits of the greatest code point.
    All other recursion is structural. Streams are lists: a
    stream is what it yields up to its end or its first error.

    ** What is not modelled

    The parsing of the command line, the serde derivations, logging, localised
    text (kept as message keys), the SQL of zcash_client_sqlite and the schema of
    the keystore, the pool of connections, network I/O of the backends, and the
    decryptor task, which is generic code of zcash_client_backend around one queue. Sleeps
    and timers are points at which other parties may run. Of src/backends, what
    repeats the views of zallet/src/components/chain is not modelled a second
    time. The decoding of a method's parameters from JSON is generated by
    jsonrpsee and is not modelled; nor are the build script's completions and
    manual pages. *)

From Stdlib Require Export ZArith Lia Ascii.
From stdpp Require Export base tactics option list list_numbers numbers strings gmap fin_maps.

#[global] Open Scope Z_scope.

(** ** Results of Rust computations

    A call either returns a value, returns early with an error (the [Err] of a
    [Result], or the [None] of an [Option] when [E] is [unit]), or panics. *)
Inductive outcome (E A : Type) : Type :=
  | Ret (a : A)
  | Err (e : E)
  | Panic.

Arguments Ret {E A} a.
Arguments Err {E A} e.
Arguments Panic {E A}.

#[export] Instance outcome_ret E : MRet (outcome E) := fun A a => Ret a.

#[export] Instance outcome_bind E : MBind (outcome E) := fun A B f m =>
  match m with
  | Ret a => f a
  | Err e => Err e
  | Panic => Panic
  end.

#[export] Instance outcome_fmap E : FMap (outcome E) := fun A B f m =>
  match m with
  | Ret a => Ret (f a)
  | Err e => Err e
  | Panic => Panic
  end.

#[export] Instance outcome_eq_dec E A `{EqDecision E, EqDecision A} :
  EqDecision (outcome E A).
Proof. solve_decision. Defined.

(** [Result::map_err]. *)
Definition map_err {E F A} (f : E -> F) (m : outcome E A) : outcome F A :=
  match m with
  | Ret a => Ret a
  | Err e => Err (f e)
  | Panic => Panic
  end.

(** [Option::ok_or]. *)
Definition ok_or {E A} (o : option A) (e : E) : outcome E A :=
  match o with
  | Some a => Ret a
  | None => Err e
  end.

(** [Option::expect], [Option::unwrap]. *)
Definition expect {E A} (o : option A) : outcome E A :=
  match o with
  | Some a => Ret a
  | None => Panic
  end.

(** [Result::ok]. *)
Definition ok {E A} (m : outcome E A) : option A :=
  match m with
  | Ret a => Some a
  | _ => None
  end.

Definition is_ret {E A} (m : outcome E A) : bool :=
  match m with
  | Ret _ => true
  | _ => false
  end.

Definition is_panic {E A} (m : outcome E A) : bool :=
  match m with
  | Panic => true
  | _ => false
  end.

(** The error reached by an [if cond { return Err(e) }] statement. *)
Definition ensure {E} (b : bool) (e : E) : outcome E unit :=
  if b then Ret tt else Err e.

(** [assert!]. *)
Definition assert {E} (b : bool) : outcome E unit :=
  if b then Ret tt else Panic.

(** ** Stateful computations

    [M W E A] threads a world [W] through a computation that may fail; what
    the world was changed to before a failure stays changed. *)
Definition M (W E A : Type) : Type := W -> outcome E A * W.

#[export] Instance M_ret W E : MRet (M W E) := fun A a w => (Ret a, w).

#[export] Instance M_bind W E : MBind (M W E) := fun A B f m w =>
  match m w with
  | (Ret a, w') => f a w'
  | (Err e, w') => (Err e, w')
  | (Panic, w') => (Panic, w')
  end.

Definition lift {W E A} (m : outcome E A) : M W E A := fun w => (m, w).
Definition throw {W E A} (e : E) : M W E A := lift (Err e).
Definition get {W E} : M W E W := fun w => (Ret w, w).
Definition put {W E} (w : W) : M W E unit := fun _ => (Ret tt, w).
Definition modify {W E} (f : W -> W) : M W E unit := fun w => (Ret tt, f w).
Definition gets {W E A} (f : W -> A) : M W E A := fun w => (Ret (f w), w).

(** [map_err] on a stateful call. *)
Definition with_err {W E F A} (f : E -> F) (m : M W E A) : M W F A := fun w =>
  let '(r, w') := m w in (map_err f r, w').

(** Runs a call and hands its [Result] over as a value (a [match] on it). *)
Definition attempt {W E F A} (m : M W E A) : M W F (E + A) := fun w =>
  match m w with
  | (Ret a, w') => (Ret (inr a), w')
  | (Err e, w') => (Ret (inl e), w')
  | (Panic, w') => (Panic, w')
  end.

(** A [for] loop whose body may fail. *)
Fixpoint for_each {W E A} (f : A -> M W E unit) (l : list A) : M W E unit :=
  match l with
  | [] => mret tt
  | x :: l => _ ← f x; for_each f l
  end.

(** A [for] loop over loop-carried variables [s]. *)
Fixpoint foldM {E A S} (f : S -> A -> outcome E S) (s : S) (l : list A) : outcome E S :=
  match l with
  | [] => Ret s
  | x :: l => s' ← f s x; foldM f s' l
  end.

(** [iter().map(f).collect::<Result<_, _>>()]. *)
Fixpoint traverse {E A B} (f : A -> outcome E B) (l : list A) : outcome E (list B) :=
  match l with
  | [] => Ret []
  | x :: l => y ← f x; ys ← traverse f l; Ret (y :: ys)
  end.

(** The same with effects, in iteration order. *)
Fixpoint mapM {W E A B} (f : A -> M W E B) (l : list A) : M W E (list B) :=
  match l with
  | [] => mret []
  | x :: l => y ← f x; ys ← mapM f l; mret (y :: ys)
  end.

(** ** Machine integers *)
Definition i64_min : Z := -9223372036854775808.
Definition i64_max : Z := 9223372036854775807.
Definition u32_max : Z := 4294967295.
Definition u64_max : Z := 18446744073709551615.
Definition in_i64 (z : Z) : bool := bool_decide (i64_min <= z <= i64_max).
Definition in_u32 (z : Z) : bool := bool_decide (0 <= z <= u32_max).
Definition in_u64 (z : Z) : bool := bool_decide (0 <= z <= u64_max).

(** Overflow-checked results: an out-of-range result panics, so a proof that
    the outcome is not [Panic] covers the wrapping build profile as well. *)
Definition i64 {E} (z : Z) : outcome E Z := if in_i64 z then Ret z else Panic.
Definition u32 {E} (z : Z) : outcome E Z := if in_u32 z then Ret z else Panic.
Definition u64 {E} (z : Z) : outcome E Z := if in_u64 z then Ret z else Panic.

(** [u32::saturating_sub] and friends, on values already in range. *)
Definition saturating_sub (a b : Z) : Z := Z.max 0 (a - b).
Definition u32_saturating_add (a b : Z) : Z := Z.min u32_max (a + b).
Definition u64_saturating_add (a b : Z) : Z := Z.min u64_max (a + b).
Definition u32_checked_add (a b : Z) : option Z :=
  if in_u32 (a + b) then Some (a + b) else None.

(** ** Strings *)

(** The one-character string holding a quotation mark. *)
Definition dquote : string := String (Ascii.ascii_of_nat 34) EmptyString.

Definition is_ascii_digit (c : Ascii.ascii) : bool :=
  let n := Ascii.nat_of_ascii c in (48 <=? n)%nat && (n <=? 57)%nat.

(** [char::to_digit(10)] of an ASCII digit. *)
Definition digit_val (c : Ascii.ascii) : Z := Z.of_nat (Ascii.nat_of_ascii c) - 48.

(** ** Automation *)
Create HintDb zallet.

Lemma bind_Ret {E A B} (m : outcome E A) (f : A -> outcome E B) b :
  m ≫= f = Ret b <-> exists a, m = Ret a /\ f a = Ret b.
Proof.
  destruct m; cbn; split; try (intros (? & ? & ?)); try congruence; eauto.
Qed.

Lemma bind_Panic {E A B} (m : outcome E A) (f : A -> outcome E B) :
  m ≫= f = Panic <-> m = Panic \/ exists a, m = Ret a /\ f a = Panic.
Proof.
  destruct m; cbn; split; try (intros [?|(? & ? & ?)]); try congruence; eauto.
Qed.

Lemma bind_Err {E A B} (m : outcome E A) (f : A -> outcome E B) e :
  m ≫= f = Err e <-> m = Err e \/ exists a, m = Ret a /\ f a = Err e.
Proof.
  destruct m; cbn; split; try (intros [?|(? & ? & ?)]); try congruence; eauto.
  intros [= ->]; auto.
Qed.

Lemma fmap_Ret {E A B} (m : outcome E A) (f : A -> B) b :
  f <$> m = Ret b <-> exists a, m = Ret a /\ f a = b.
Proof.
  destruct m; cbn; split; try (intros (? & ? & ?)); try congruence; eauto.
  intros [= <-]; eauto.
Qed.

Lemma ensure_Ret {E} b (e : E) u : ensure b e = Ret u <-> b = true.
Proof. destruct b, u; cbn; intuition congruence. Qed.

Lemma assert_Ret {E} b u : assert (E:=E) b = Ret u <-> b = true.
Proof. destruct b, u; cbn; intuition congruence. Qed.

Lemma ok_or_Ret {E A} (o : option A) (e : E) a : ok_or o e = Ret a <-> o = Some a.
Proof. destruct o; cbn; intuition congruence. Qed.

Lemma i64_Ret {E} z z' : i64 (E:=E) z = Ret z' <-> z' = z /\ i64_min <= z <= i64_max.
Proof.
  unfold i64, in_i64. case_bool_decide; intuition congruence.
Qed.

Lemma i64_in_range {E} z : i64_min <= z <= i64_max -> i64 (E:=E) z = Ret z.
Proof. intros. unfold i64, in_i64. by rewrite bool_decide_true. Qed.

Lemma traverse_Ret {E A B} (f : A -> outcome E B) l ys :
  traverse f l = Ret ys <-> Forall2 (fun x y => f x = Ret y) l ys.
Proof.
  revert ys; induction l as [|x l IH]; intros ys; cbn.
  - split; [intros [= <-]; constructor | by inversion 1].
  - rewrite bind_Ret. setoid_rewrite bind_Ret. split.
    + intros (y & Hy & zs & Hz & [= <-]). constructor; [done | by apply IH].
    + inversion 1 as [|? ? ? ? Hx Hl]; subst. eexists; split; [exact Hx|].
      eexists; split; [by apply IH | done].
Qed.

Lemma bind_not_Panic {E A B} (m : outcome E A) (f : A -> outcome E B) :
  m <> Panic -> (forall a, m = Ret a -> f a <> Panic) -> m ≫= f <> Panic.
Proof. destruct m; cbn; eauto. Qed.

Lemma map_err_not_Panic {E F A} (g : E -> F) (m : outcome E A) : m <> Panic -> map_err g m <> Panic.
Proof. by destruct m. Qed.

Lemma traverse_not_Panic {E A B} (f : A -> outcome E B) l :
  (forall x, f x <> Panic) -> traverse f l <> Panic.
Proof.
  intros Hf. induction l as [|x l IH]; [done|].
  apply bind_not_Panic; [apply Hf|]. intros y _. by apply bind_not_Panic.
Qed.

Lemma list_filter_ext {A} (P Q : A -> Prop) `{!forall x, Decision (P x), !forall x, Decision (Q x)} (l : list A) :
  (forall x, x ∈ l -> P x <-> Q x) -> filter P l = filter Q l.
Proof.
  induction l as [|x l IH]; intros HPQ; [done|]. rewrite !filter_cons.
  rewrite IH by (intros; apply HPQ; by right).
  specialize (HPQ x (list_elem_of_here _ _)). repeat case_decide; tauto.
Qed.

(** Total correctness of a computation: it does not panic, its result
    satisfies [P], its error satisfies [Q]. *)
Definition post {E A} (m : outcome E A) (P : A -> Prop) (Q : E -> Prop) : Prop :=
  match m with
  | Ret a => P a
  | Err e => Q e
  | Panic => False
  end.

Lemma post_bind {E A B} (m : outcome E A) (f : A -> outcome E B) P Q :
  post m (fun a => post (f a) P Q) Q -> post (m ≫= f) P Q.
Proof. by destruct m. Qed.

Lemma post_mono {E A} (m : outcome E A) (P P' : A -> Prop) (Q Q' : E -> Prop) :
  post m P Q -> (forall a, P a -> P' a) -> (forall e, Q e -> Q' e) -> post m P' Q'.
Proof. destruct m; cbn; eauto. Qed.

Lemma post_and {E A} (m : outcome E A) (P P' : A -> Prop) (Q Q' : E -> Prop) :
  post m P Q -> post m P' Q' -> post m (fun a => P a /\ P' a) (fun e => Q e /\ Q' e).
Proof. destruct m; cbn; auto. Qed.

Lemma post_Ret {E A} (m : outcome E A) (P : A -> Prop) (Q : E -> Prop) a :
  post m P Q -> m = Ret a -> P a.
Proof. by intros H ->. Qed.

Lemma post_Err {E A} (m : outcome E A) (P : A -> Prop) (Q : E -> Prop) e :
  post m P Q -> m = Err e -> Q e.
Proof. by intros H ->. Qed.

Lemma post_not_Panic {E A} (m : outcome E A) (P : A -> Prop) (Q : E -> Prop) :
  post m P Q -> m <> Panic.
Proof. by intros H ->. Qed.

Lemma post_i64 {E} z (P : Z -> Prop) (Q : E -> Prop) :
  i64_min <= z <= i64_max -> P z -> post (i64 z) P Q.
Proof. intros Hz HP. by rewrite i64_in_range. Qed.

(** ** Reasoning about stateful computations *)

Lemma run_bind {W E A B} (m : M W E A) (f : A -> M W E B) w :
  (m ≫= f) w = match m w with
               | (Ret a, w') => f a w'
               | (Err e, w') => (Err e, w')
               | (Panic, w') => (Panic, w')
               end.
Proof. done. Qed.

Lemma run_bind_Ret {W E A B} (m : M W E A) (f : A -> M W E B) w b w' :
  (m ≫= f) w = (Ret b, w') <-> exists a w1, m w = (Ret a, w1) /\ f a w1 = (Ret b, w').
Proof.
  rewrite run_bind. destruct (m w) as [[a|e|] w1]; split; try done; try (by intros (? & ? & [=] & _)).
  - eauto.
  - by intros (? & ? & [= <- <-] & ?).
Qed.

Lemma run_lift_Ret {W E A} (m : outcome E A) (w : W) a w' :
  lift m w = (Ret a, w') <-> m = Ret a /\ w' = w.
Proof. unfold lift. split; [by intros [= -> ->]|by intros [-> ->]]. Qed.

Lemma run_get_Ret {W E} (w a w' : W) : get (E:=E) w = (Ret a, w') <-> a = w /\ w' = w.
Proof. unfold get. split; [by intros [= -> ->]|by intros [-> ->]]. Qed.

Lemma run_ret_Ret {W E A} (x : A) (w : W) a w' : mret (M:=M W E) x w = (Ret a, w') <-> a = x /\ w' = w.
Proof. split; [by intros [= -> ->]|by intros [-> ->]]. Qed.

Lemma run_with_err_Ret {W E F A} (g : E -> F) (m : M W E A) w a w' :
  with_err g m w = (Ret a, w') <-> m w = (Ret a, w').
Proof.
  unfold with_err. destruct (m w) as [[x|e|] w1]; cbn; split; try done; by intros [= -> ->].
Qed.

Lemma map_err_Ret {E F A} (g : E -> F) (m : outcome E A) a : map_err g m = Ret a <-> m = Ret a.
Proof. destruct m; cbn; split; try done; by intros [= ->]. Qed.

(** Total correctness: from a world in [P] the computation does not panic, and
    ends in [Q] with its result or in [R] with its error. *)
Definition triple {W E A} (P : W -> Prop) (m : M W E A) (Q : A -> W -> Prop) (R : E -> W -> Prop) : Prop :=
  forall w, P w ->
    match m w with
    | (Ret a, w') => Q a w'
    | (Err e, w') => R e w'
    | (Panic, _) => False
    end.

Lemma triple_bind {W E A B} (P : W -> Prop) (m : M W E A) (f : A -> M W E B) Q' Q R :
  triple P m Q' R -> (forall a, triple (Q' a) (f a) Q R) -> triple P (m ≫= f) Q R.
Proof.
  intros Hm Hf w Hw. specialize (Hm w Hw). unfold mbind, M_bind.
  destruct (m w) as [[a|e|] w']; [|done|done]. by apply Hf.
Qed.

Lemma triple_conseq {W E A} (P P' : W -> Prop) (m : M W E A) (Q Q' : A -> W -> Prop) (R R' : E -> W -> Prop) :
  triple P' m Q' R' -> (forall w, P w -> P' w) -> (forall a w, Q' a w -> Q a w) ->
  (forall e w, R' e w -> R e w) -> triple P m Q R.
Proof.
  intros Hm HP HQ HR w Hw. specialize (Hm w (HP w Hw)). destruct (m w) as [[a|e|] w']; eauto.
Qed.

Lemma triple_pre {W E A} (P P' : W -> Prop) (m : M W E A) Q R :
  triple P' m Q R -> (forall w, P w -> P' w) -> triple P m Q R.
Proof. intros Hm HP. by eapply triple_conseq. Qed.

Lemma triple_ret {W E A} (P : W -> Prop) (a : A) (Q : A -> W -> Prop) (R : E -> W -> Prop) :
  (forall w, P w -> Q a w) -> triple P (mret a) Q R.
Proof. intros HQ w Hw. by apply HQ. Qed.

Lemma triple_lift {W E A} (P : W -> Prop) (m : outcome E A) (Q : A -> W -> Prop) (R : E -> W -> Prop) :
  m <> Panic -> (forall a w, m = Ret a -> P w -> Q a w) -> (forall e w, m = Err e -> P w -> R e w) ->
  triple P (lift m) Q R.
Proof. intros Hp HQ HR w Hw. unfold lift. destruct m; eauto. Qed.

(** A call that does not touch the world, then the rest. *)
Lemma triple_lift_bind {W E A B} (P : W -> Prop) (m : outcome E A) (f : A -> M W E B) Q R :
  m <> Panic -> (forall e w, m = Err e -> P w -> R e w) -> (forall a, m = Ret a -> triple P (f a) Q R) ->
  triple P (lift m ≫= f) Q R.
Proof.
  intros Hp HR Hf w Hw. unfold mbind, M_bind, lift. destruct m as [a|e|]; [by apply (Hf a)|by apply HR|done].
Qed.

Lemma triple_get_bind {W E B} (w : W) (f : W -> M W E B) Q R :
  triple (fun w' => w' = w) (f w) Q R -> triple (fun w' => w' = w) (get ≫= f) Q R.
Proof. intros Hf w' ->. by apply Hf. Qed.

(** Whatever happens, panics included, [m] goes from [P] to [P], and its
    results satisfy [Q]. *)
Definition keeps {W E A} (P : W -> Prop) (m : M W E A) (Q : A -> Prop) : Prop :=
  forall w, P w -> P (m w).2 /\ forall a, (m w).1 = Ret a -> Q a.

Lemma keeps_bind {W E A B} (P : W -> Prop) (m : M W E A) (f : A -> M W E B) Q' Q :
  keeps P m Q' -> (forall a, Q' a -> keeps P (f a) Q) -> keeps P (m ≫= f) Q.
Proof.
  intros Hm Hf w Hw. destruct (Hm w Hw) as [Hw' Ha]. unfold mbind, M_bind.
  destruct (m w) as [[a|e|] w']; cbn in *; [|done|done]. by apply (Hf a (Ha a eq_refl)).
Qed.

Lemma keeps_weaken {W E A} (P : W -> Prop) (m : M W E A) (Q Q' : A -> Prop) :
  keeps P m Q -> (forall a, Q a -> Q' a) -> keeps P m Q'.
Proof. intros Hm HQ w Hw. destruct (Hm w Hw). eauto. Qed.

Lemma keeps_ret {W E A} (P : W -> Prop) (a : A) (Q : A -> Prop) :
  Q a -> keeps (E:=E) P (mret a) Q.
Proof. intros HQ w Hw. cbn. split; [done|]. by intros ? [= <-]. Qed.

Lemma keeps_lift {W E A} (P : W -> Prop) (m : outcome E A) (Q : A -> Prop) :
  (forall a, m = Ret a -> Q a) -> keeps P (lift m) Q.
Proof. intros HQ w Hw. cbn. eauto. Qed.

Lemma keeps_attempt {W E F A} (P : W -> Prop) (m : M W E A) (Q : A -> Prop) :
  keeps P m Q -> keeps (E:=F) P (attempt m) (fun _ => True).
Proof.
  intros Hm w Hw. destruct (Hm w Hw) as [Hw' _]. unfold attempt.
  by destruct (m w) as [[]].
Qed.

Lemma keeps_for_each {W E A} (P : W -> Prop) (f : A -> M W E unit) (l : list A) :
  (forall x, keeps P (f x) (fun _ => True)) -> keeps P (for_each f l) (fun _ => True).
Proof.
  intros Hf. induction l as [|x l IH]; [by apply keeps_ret|].
  cbn. by eapply keeps_bind; [apply Hf|].
Qed.

(** Turns a hypothesis saying that a chain of binds returned into the
    equations of its steps. *)
Ltac inv_ret :=
  repeat match goal with
  | H : _ ≫= _ = Ret _ |- _ => apply bind_Ret in H; destruct H as (? & ? & ?)
  | H : mbind _ _ = Ret _ |- _ => apply bind_Ret in H; destruct H as (? & ? & ?)
  | H : ensure _ _ = Ret _ |- _ => apply ensure_Ret in H
  | H : assert _ = Ret _ |- _ => apply assert_Ret in H
  | H : ok_or _ _ = Ret _ |- _ => apply ok_or_Ret in H
  | H : i64 _ = Ret _ |- _ => apply i64_Ret in H; destruct H as [-> ?]
  | H : Ret _ = Ret _ |- _ => injection H as H; try subst
  | H : Err _ = Ret _ |- _ => discriminate H
  | H : Panic = Ret _ |- _ => discriminate H
  end.
