(* ===== verification/Rpc.v ===== *)
(** Values and errors of the JSON-RPC server
    (src/zallet/src/components/json_rpc/server/error.rs and
    server/rpc_call_compatibility.rs): the [JsonValue] a method receives, the
    [ErrorObject] it fails with, the zcashd error codes, and the middleware
    that rewrites the framework's invalid-parameter errors. *)

From S2P Require Export Prelude.

(** [serde_json::Value] with the [arbitrary_precision] feature: a number is
    kept as its text. Objects keep their entries in order. *)
Inductive JsonValue :=
  | JNull
  | JBool (b : bool)
  | JNumber (text : string)
  | JString (s : string)
  | JArray (l : list JsonValue)
  | JObject (o : list (string * JsonValue)).

(** Text sent to a client: a literal or formatted string, or a localised
    message, which is named by its Fluent key and its arguments. *)
Inductive message :=
  | Text (s : string)
  | Fl (key : string) (args : list (string * message))
  | Cat (a b : message).

(** [jsonrpsee::types::ErrorCode]. *)
Inductive ErrorCode :=
  | ParseError
  | OversizedRequest
  | InvalidRequest
  | MethodNotFound
  | ServerIsBusy
  | InvalidParams
  | InternalError
  | ServerError (code : Z).

(** [jsonrpsee::types::ErrorObject]; [data] is the raw JSON text, if any. *)
Record ErrorObject := {
  code : ErrorCode;
  msg : message;
  data : option string
}.

(** The [RpcResult] of the methods. *)
Abbreviation RpcResult := (outcome ErrorObject).

(** ** Bitcoin RPC error codes *)
Inductive LegacyCode :=
  | Misc
  | ForbiddenBySafeMode
  | Type_
  | InvalidAddressOrKey
  | OutOfMemory
  | InvalidParameter
  | Database
  | Deserialization
  | Verify
  | VerifyRejected
  | VerifyAlreadyInChain
  | InWarmup
  | ClientNotConnected
  | ClientInInitialDownload
  | ClientNodeAlreadyAdded
  | ClientNodeNotAdded
  | ClientNodeNotConnected
  | ClientInvalidIpOrSubnet
  | Wallet
  | WalletInsufficientFunds
  | WalletAccountsUnsupported
  | WalletKeypoolRanOut
  | WalletUnlockNeeded
  | WalletPassphraseIncorrect
  | WalletWrongEncState
  | WalletEncryptionFailed
  | WalletAlreadyUnlocked
  | WalletBackupRequired.

#[export] Instance LegacyCode_eq_dec : EqDecision LegacyCode.
Proof. solve_decision. Defined.

#[export] Instance ErrorCode_eq_dec : EqDecision ErrorCode.
Proof. solve_decision. Defined.

(** The discriminants ([code as i32]). *)
Definition legacy_discriminant (c : LegacyCode) : Z :=
  match c with
  | Misc => -1
  | ForbiddenBySafeMode => -2
  | Type_ => -3
  | InvalidAddressOrKey => -5
  | OutOfMemory => -7
  | InvalidParameter => -8
  | Database => -20
  | Deserialization => -22
  | Verify => -25
  | VerifyRejected => -26
  | VerifyAlreadyInChain => -27
  | InWarmup => -28
  | ClientNotConnected => -9
  | ClientInInitialDownload => -10
  | ClientNodeAlreadyAdded => -23
  | ClientNodeNotAdded => -24
  | ClientNodeNotConnected => -29
  | ClientInvalidIpOrSubnet => -30
  | Wallet => -4
  | WalletInsufficientFunds => -6
  | WalletAccountsUnsupported => -11
  | WalletKeypoolRanOut => -12
  | WalletUnlockNeeded => -13
  | WalletPassphraseIncorrect => -14
  | WalletWrongEncState => -15
  | WalletEncryptionFailed => -16
  | WalletAlreadyUnlocked => -17
  | WalletBackupRequired => -18
  end.

(** [impl From<LegacyCode> for ErrorCode]. *)
Definition from_legacy (c : LegacyCode) : ErrorCode := ServerError (legacy_discriminant c).

(** [with_message], with a message that is not a literal. *)
Definition with_message (c : LegacyCode) (m : message) : ErrorObject :=
  {| code := from_legacy c; msg := m; data := None |}.

Definition with_static (c : LegacyCode) (m : string) : ErrorObject :=
  {| code := from_legacy c; msg := Text m; data := None |}.

(** ** [FixRpcResponseMiddleware] *)

Inductive ResponsePayload :=
  | Success (result : JsonValue)
  | Error (e : ErrorObject).

Record MethodResponse := {
  id : JsonValue;
  payload : ResponsePayload
}.

Definition is_error (r : MethodResponse) : bool :=
  match payload r with
  | Error _ => true
  | Success _ => false
  end.

(** [str::trim_matches] of the quotation mark. *)
Fixpoint trim_start_quotes (s : list Ascii.ascii) : list Ascii.ascii :=
  match s with
  | c :: s' => if bool_decide (c = Ascii.ascii_of_nat 34) then trim_start_quotes s' else s
  | [] => []
  end.

Definition trim_quotes (s : string) : string :=
  String.string_of_list_ascii
    (rev (trim_start_quotes (rev (trim_start_quotes (String.list_ascii_of_string s))))).

(** The body of [call] once the inner service has answered. *)
Definition fix_rpc_response (response : MethodResponse) : outcome Empty_set MethodResponse :=
  if is_error response then
    match payload response with
    | Success _ => Panic
    | Error err =>
        match code err, option_map trim_quotes (data err) with
        | MethodNotFound, _ => Ret response
        | InvalidParams, Some d =>
            if bool_decide (d = "No more params") then Ret response
            else Ret {| id := id response;
                        payload := Error (with_message InvalidParameter (Text d)) |}
        | InvalidParams, None =>
            Ret {| id := id response;
                   payload := Error (with_message InvalidParameter (msg err)) |}
        | _, _ => Ret response
        end
    end
  else Ret response.

(** ** Lemmas *)

Lemma legacy_discriminant_inj c c' :
  legacy_discriminant c = legacy_discriminant c' -> c = c'.
Proof. by destruct c, c'. Qed.

#[export] Instance legacy_discriminant_Inj : Inj (=) (=) legacy_discriminant.
Proof. intros c c'. apply legacy_discriminant_inj. Qed.

#[export] Instance from_legacy_Inj : Inj (=) (=) from_legacy.
Proof. intros c c' [= H]. by apply (inj legacy_discriminant). Qed.

(** Two errors built from different codes differ, whatever their messages. *)
Lemma with_static_code c c' m m' : with_static c m = with_static c' m' -> c = c'.
Proof. intros [= H _]. by apply (inj legacy_discriminant). Qed.

(** What [FixRpcResponseMiddleware] promises: it never panics; the request
    id is kept; a success, and an error that is not an invalid-parameters
    error, pass through unchanged; every invalid-parameters error leaves with
    zcashd's [InvalidParameter] code unless its data says that the parameters
    were too many, its message being the error's data when there is one; and
    the middleware is idempotent. *)
Theorem fix_rpc_response_correct r :
  exists r',
    fix_rpc_response r = Ret r' /\ id r' = id r /\ fix_rpc_response r' = Ret r' /\
    match payload r with
    | Success _ => r' = r
    | Error e =>
        if bool_decide (code e = InvalidParams /\
                        option_map trim_quotes (data e) <> Some "No more params")
        then payload r' = Error (with_message InvalidParameter
               (match data e with Some d => Text (trim_quotes d) | None => msg e end))
        else r' = r
    end.
Proof.
  destruct r as [i [v|[c m d]]]; unfold fix_rpc_response; cbn; [by eauto|].
  destruct c; cbn; try (eexists; split_and!; [done..|]; by rewrite bool_decide_false by naive_solver).
  destruct d as [d|]; cbn; [case_bool_decide as Hd|].
  - rewrite Hd. eexists; split_and!; [done| done | by cbn; rewrite bool_decide_true|].
    by rewrite bool_decide_false by naive_solver.
  - eexists; split_and!; [done..|]. by rewrite bool_decide_true by (split; congruence).
  - eexists; split_and!; [done..|]. by rewrite bool_decide_true by (split; congruence).
Qed.
