(* ===== verification/Amount.v ===== *)
(** Amounts in JSON-RPC parameters
    (src/zallet/src/components/json_rpc/utils.rs, lines 322-588):
    [parse_fixed_point], a decimal parser that works on machine integers,
    [zatoshis_from_value] on top of it, and [zec_str], its formatting inverse.

    [parse_fixed_point] is specified against a grammar of decimals
    ([decimal], [wf_decimal], [render]) and their exact rational value. *)

From S2P Require Import Prelude Rpc.

(** ** The parser *)

Definition UPPER_BOUND : Z := 1000000000000000000 - 1.

(** A byte that can start a character (UTF-8 continuation bytes cannot). *)
Definition is_char_boundary (s : string) : bool :=
  match s with
  | EmptyString => true
  | String c _ => let n := Ascii.nat_of_ascii c in (n <? 128)%nat || (192 <=? n)%nat
  end.

(** [s.split_at_checked(1)]: the first byte, when it is a character. *)
Definition split_at_checked_1 (s : string) : option (Ascii.ascii * string) :=
  match s with
  | EmptyString => None
  | String c rest => if is_char_boundary rest then Some (c, rest) else None
  end.

(** The loop [for _ in 0..=*mantissa_tzeros] of [process_mantissa_digit];
    [Err] is its [return false]. *)
Fixpoint shift_mantissa (n : nat) (mantissa : Z) : outcome unit Z :=
  match n with
  | O => Ret mantissa
  | S n =>
      if UPPER_BOUND `div` 10 <? mantissa then Err tt
      else mantissa ← i64 (mantissa * 10); shift_mantissa n mantissa
  end.

(** The two mutable variables are [mantissa] and [mantissa_tzeros]. *)
Definition process_mantissa_digit (ch : Ascii.ascii) (s : Z * Z) : outcome unit (Z * Z) :=
  let '(mantissa, mantissa_tzeros) := s in
  if Ascii.eqb ch "0" then
    mantissa_tzeros ← i64 (mantissa_tzeros + 1); Ret (mantissa, mantissa_tzeros)
  else
    mantissa ← shift_mantissa (Z.to_nat (mantissa_tzeros + 1)) mantissa;
    mantissa ← i64 (mantissa + digit_val ch);
    Ret (mantissa, 0).

(** The loops over [val.char_indices()]: [body] runs on each digit, and the
    loop leaves [val] at the first character that is not one. *)
Fixpoint digit_loop {S} (body : Ascii.ascii -> S -> outcome unit S) (val : string) (s : S) :
    outcome unit (string * S) :=
  match val with
  | EmptyString => Ret (EmptyString, s)
  | String ch rest =>
      if is_ascii_digit ch then s ← body ch s; digit_loop body rest s
      else Ret (val, s)
  end.

(** The body of the fraction's loop: it also counts the digits. *)
Definition fraction_digit (ch : Ascii.ascii) (s : Z * Z * Z) : outcome unit (Z * Z * Z) :=
  let '(mantissa, mantissa_tzeros, point_ofs) := s in
  s ← process_mantissa_digit ch (mantissa, mantissa_tzeros);
  point_ofs ← i64 (point_ofs + 1);
  Ret (s, point_ofs).

(** The body of the exponent's loop. *)
Definition exponent_digit (ch : Ascii.ascii) (exponent : Z) : outcome unit Z :=
  if UPPER_BOUND `div` 10 <? exponent then Err tt
  else e10 ← i64 (exponent * 10); i64 (e10 + digit_val ch).

(** The last loop, [for _ in 0..exponent], with its two-sided bound. *)
Fixpoint scale_mantissa (n : nat) (mantissa : Z) : outcome unit Z :=
  match n with
  | O => Ret mantissa
  | S n =>
      if bool_decide (- (UPPER_BOUND `div` 10) <= mantissa <= UPPER_BOUND `div` 10) then
        mantissa ← i64 (mantissa * 10); scale_mantissa n mantissa
      else Err tt
  end.

Definition parse_sign (val : string) : bool * string :=
  match split_at_checked_1 val with
  | Some (c, rest) => if Ascii.eqb c "-" then (true, rest) else (false, val)
  | None => (false, val)
  end.

Definition parse_integer_part (val : string) : outcome unit (string * (Z * Z)) :=
  match split_at_checked_1 val with
  | Some (c, rest) =>
      if Ascii.eqb c "0" then Ret (rest, (0, 0))
      else if is_ascii_digit c then digit_loop process_mantissa_digit val (0, 0)
      else Err tt
  | None => Err tt
  end.

Definition parse_fraction_part (val : string) (s : Z * Z) : outcome unit (string * (Z * Z * Z)) :=
  match split_at_checked_1 val with
  | Some (c, rest) =>
      if Ascii.eqb c "." then
        match split_at_checked_1 rest with
        | Some (d, _) => if is_ascii_digit d then digit_loop fraction_digit rest (s, 0) else Err tt
        | None => Err tt
        end
      else Ret (val, (s, 0))
  | None => Ret (val, (s, 0))
  end.

Definition parse_exponent_sign (val : string) : bool * string :=
  match split_at_checked_1 val with
  | Some (c, rest) =>
      if Ascii.eqb c "+" then (false, rest)
      else if Ascii.eqb c "-" then (true, rest) else (false, val)
  | None => (false, val)
  end.

(** The [exponent], before its sign is applied, and [exponent_sign]. *)
Definition parse_exponent_part (val : string) : outcome unit (string * (bool * Z)) :=
  match split_at_checked_1 val with
  | Some (c, rest) =>
      if Ascii.eqb c "e" || Ascii.eqb c "E" then
        let '(exponent_sign, val) := parse_exponent_sign rest in
        match split_at_checked_1 val with
        | Some (d, _) =>
            if is_ascii_digit d then
              '(val, exponent) ← digit_loop exponent_digit val 0;
              Ret (val, (exponent_sign, exponent))
            else Err tt
        | None => Err tt
        end
      else Ret (val, (false, 0))
  | None => Ret (val, (false, 0))
  end.

(** From "finalize exponent" to the end of the function. *)
Definition finalize (mantissa_sign : bool) (mantissa mantissa_tzeros point_ofs : Z)
    (exponent_sign : bool) (exponent decimals : Z) : outcome unit Z :=
  exponent ← (if exponent_sign then i64 (- exponent) else Ret exponent);
  exponent ← i64 (exponent - point_ofs);
  exponent ← i64 (exponent + mantissa_tzeros);
  mantissa ← (if mantissa_sign then i64 (- mantissa) else Ret mantissa);
  exponent ← i64 (exponent + decimals);
  if exponent <? 0 then Err tt
  else if 18 <=? exponent then Err tt
  else
    mantissa ← scale_mantissa (Z.to_nat exponent) mantissa;
    if bool_decide (- UPPER_BOUND <= mantissa <= UPPER_BOUND) then Ret mantissa else Err tt.

(** [Err tt] is the function's [None]. *)
Definition parse_fixed_point (val : string) (decimals : Z) : outcome unit Z :=
  let '(mantissa_sign, val) := parse_sign val in
  '(val, s) ← parse_integer_part val;
  '(val, (mantissa, mantissa_tzeros, point_ofs)) ← parse_fraction_part val s;
  '(val, (exponent_sign, exponent)) ← parse_exponent_part val;
  if bool_decide (val = EmptyString) then
    finalize mantissa_sign mantissa mantissa_tzeros point_ofs exponent_sign exponent decimals
  else Err tt.

(** ** Amounts *)

Definition COIN : Z := 100000000.
Definition MAX_MONEY : Z := 21000000 * COIN.

(** ** Amounts as decimals *)

(** The decimals inside a [JsonZec] (rust_decimal). *)
Class DecimalOps := {
  JsonZec : Type;
  decimal_of : Z -> JsonZec;
  decimal_div : JsonZec -> JsonZec -> JsonZec;
  trunc_with_scale : JsonZec -> Z -> JsonZec
}.

Definition value_from_zat_balance `{DecimalOps} (value : Z) : JsonZec :=
  trunc_with_scale (decimal_div (decimal_of value) (decimal_of COIN)) 8.

Definition value_from_zatoshis `{DecimalOps} (value : Z) : JsonZec := value_from_zat_balance value.

(** [zcash_protocol::value::BalanceError]. *)
Inductive BalanceError := Overflow | Underflow.

(** [Zatoshis] of the [zcash_protocol] crate, as integers. *)
Class ZatoshisOps := {
  from_nonnegative_i64 : Z -> outcome BalanceError Z
}.

(** What the crate documents of it: amounts are in [0..=MAX_MONEY]. *)
Class ZatoshisLaws `{ZatoshisOps} := {
  from_nonnegative_i64_spec : forall z,
    from_nonnegative_i64 z =
      if z <? 0 then Err Underflow else if MAX_MONEY <? z then Err Overflow else Ret z
}.

Definition zatoshis_from_value `{ZatoshisOps} (value : JsonValue) : RpcResult Z :=
  amount_str ← match value with
    | JString s => Ret s
    | JNumber n => Ret n
    | _ => Err (with_static Type_ "Amount is not a number or string")
    end;
  amount ← map_err (fun _ => with_static Type_ "Invalid amount") (parse_fixed_point amount_str 8);
  map_err (fun e => match e with
    | Underflow => with_static InvalidParameter "Invalid parameter, amount must be positive"
    | Overflow => with_static Type_ "Amount out of range"
    end) (from_nonnegative_i64 amount).

(** The [k] lowest decimal digits of [n] ([{:08}] for [k = 8]). *)
Fixpoint digits_fixed (k : nat) (n : Z) : string :=
  match k with
  | O => EmptyString
  | S k => (digits_fixed k (n / 10) +:+ String (Ascii.ascii_of_nat (Z.to_nat (n mod 10) + 48)) EmptyString)%string
  end.

(** How many digits [{}] prints, up to [fuel]. *)
Fixpoint digit_count (fuel : nat) (n : Z) : nat :=
  match fuel with
  | O => O
  | S fuel => if n <? 10 then 1%nat else S (digit_count fuel (n / 10))
  end.

(** A [u64] has at most twenty digits. *)
Definition show_u64 (n : Z) : string := digits_fixed (digit_count 20 n) n.

Definition zec_str (zatoshis : Z) : string :=
  (show_u64 (zatoshis / 100000000) +:+ "." +:+ digits_fixed 8 (zatoshis mod 100000000))%string.

(** ** A grammar of decimals *)

Fixpoint all_digits (s : string) : bool :=
  match s with
  | EmptyString => true
  | String c s => is_ascii_digit c && all_digits s
  end.

(** The number reached by reading the digits [s] after having read [acc]. *)
Fixpoint num_from (acc : Z) (s : string) : Z :=
  match s with
  | EmptyString => acc
  | String c s => num_from (acc * 10 + digit_val c) s
  end.

Record decimal := Decimal {
  dec_neg : bool;
  dec_int : string;
  dec_frac : option string;
  dec_exp : option (Ascii.ascii * option Ascii.ascii * string)
}.

Definition digits1 (s : string) : Prop := s <> EmptyString /\ all_digits s = true.

Definition wf_int (s : string) : Prop :=
  s = "0"%string \/ exists c r, s = String c r /\ c <> "0"%char /\ all_digits s = true.

Definition wf_exp (x : Ascii.ascii * option Ascii.ascii * string) : Prop :=
  (x.1.1 = "e"%char \/ x.1.1 = "E"%char) /\
  (x.1.2 = None \/ x.1.2 = Some "+"%char \/ x.1.2 = Some "-"%char) /\ digits1 x.2.

Definition wf_decimal (d : decimal) : Prop :=
  wf_int (dec_int d) /\ from_option digits1 True (dec_frac d) /\
  from_option wf_exp True (dec_exp d).

Definition render_exp (x : option (Ascii.ascii * option Ascii.ascii * string)) : string :=
  match x with
  | None => EmptyString
  | Some (m, None, ds) => String m ds
  | Some (m, Some c, ds) => String m (String c ds)
  end.

Definition render_frac (f : option string) (rest : string) : string :=
  match f with
  | None => rest
  | Some ds => String "." (ds +:+ rest)
  end.

Definition render (d : decimal) : string :=
  let body := (dec_int d +:+ render_frac (dec_frac d) (render_exp (dec_exp d)))%string in
  if dec_neg d then String "-" body else body.

(** The digits read as one number, the digits after the point, the exponent. *)
Definition frac_digits (d : decimal) : string := default EmptyString (dec_frac d).
Definition dec_num (d : decimal) : Z := num_from (num_from 0 (dec_int d)) (frac_digits d).
Definition dec_scale (d : decimal) : Z := Z.of_nat (String.length (frac_digits d)).

Definition exp_value (x : Ascii.ascii * option Ascii.ascii * string) : Z :=
  if bool_decide (x.1.2 = Some "-"%char) then - num_from 0 x.2 else num_from 0 x.2.

Definition dec_exponent (d : decimal) : Z := from_option exp_value 0 (dec_exp d).
Definition dec_sign (d : decimal) : Z := if dec_neg d then -1 else 1.

(** The decimal, shifted by [decimals], is exactly the integer [z]. *)
Definition denotes (d : decimal) (decimals z : Z) : Prop :=
  let e := dec_exponent d + decimals - dec_scale d in
  dec_sign d * dec_num d * 10 ^ Z.max 0 e = z * 10 ^ Z.max 0 (- e).

(** The loop over digits, without the text that follows them. *)
Fixpoint fold_digits {S} (body : Ascii.ascii -> S -> outcome unit S) (s : S) (ds : string) :
    outcome unit S :=
  match ds with
  | EmptyString => Ret s
  | String c ds => s ← body c s; fold_digits body s ds
  end.

Fixpoint span_digits (s : string) : string * string :=
  match s with
  | EmptyString => (EmptyString, EmptyString)
  | String c r =>
      if is_ascii_digit c then let '(ds, r) := span_digits r in (String c ds, r)
      else (EmptyString, s)
  end.

Definition no_digit_head (s : string) : Prop :=
  match s with
  | EmptyString => True
  | String c _ => is_ascii_digit c = false
  end.

(** ** Lemmas on digits and digit loops *)

#[local] Arguments is_ascii_digit : simpl never.
#[local] Arguments digit_val : simpl never.
#[local] Arguments num_from : simpl nomatch.
#[local] Arguments String.append : simpl nomatch.
#[local] Arguments Z.pow : simpl never.
#[local] Arguments Z.mul : simpl never.
#[local] Arguments Z.add : simpl never.
#[local] Arguments Z.of_nat : simpl never.

Lemma digit_val_range c : is_ascii_digit c = true -> 0 <= digit_val c <= 9.
Proof.
  unfold is_ascii_digit, digit_val. rewrite andb_true_iff, !Nat.leb_le. lia.
Qed.

Lemma digit_val_zero c : is_ascii_digit c = true -> digit_val c = 0 -> c = "0"%char.
Proof.
  intros _ H. rewrite <-(Ascii.ascii_nat_embedding c).
  unfold digit_val in H. by replace (Ascii.nat_of_ascii c) with 48%nat by lia.
Qed.

Lemma digit_boundary c r : is_ascii_digit c = true -> is_char_boundary (String c r) = true.
Proof.
  unfold is_ascii_digit, is_char_boundary.
  rewrite andb_true_iff, orb_true_iff, Nat.ltb_lt, !Nat.leb_le. lia.
Qed.

Lemma split1_Some s c r : split_at_checked_1 s = Some (c, r) -> s = String c r.
Proof. destruct s; cbn; [done|]. destruct (is_char_boundary s); naive_solver. Qed.

Lemma split1_String c r :
  is_char_boundary r = true -> split_at_checked_1 (String c r) = Some (c, r).
Proof. cbn. by intros ->. Qed.

Lemma span_digits_spec s :
  s = ((span_digits s).1 +:+ (span_digits s).2)%string /\
  all_digits (span_digits s).1 = true /\ no_digit_head (span_digits s).2.
Proof.
  induction s as [|c s IH]; [done|]; cbn.
  destruct (is_ascii_digit c) eqn:Hc; [|done].
  destruct (span_digits s) as [ds r]; cbn in *.
  destruct IH as (-> & ? & ?). split_and!; [done|by rewrite Hc|done].
Qed.

Lemma digit_loop_app {S} (body : Ascii.ascii -> S -> outcome unit S) ds r s :
  all_digits ds = true -> no_digit_head r ->
  digit_loop body (ds +:+ r) s = (s ← fold_digits body s ds; Ret (r, s)).
Proof.
  revert s; induction ds as [|c ds IH]; intros s; cbn.
  - intros _. destruct r as [|c r]; [done|]; cbn. by intros ->.
  - rewrite andb_true_iff. intros [-> Hds] Hr. destruct (body c s); cbn; auto.
Qed.

Lemma digit_loop_span {S} (body : Ascii.ascii -> S -> outcome unit S) val s :
  digit_loop body val s =
    (s ← fold_digits body s (span_digits val).1; Ret ((span_digits val).2, s)).
Proof.
  destruct (span_digits_spec val) as (Hs & ? & ?).
  rewrite Hs at 1. by apply digit_loop_app.
Qed.

Lemma num_from_linear acc s :
  num_from acc s = acc * 10 ^ Z.of_nat (String.length s) + num_from 0 s.
Proof.
  revert acc; induction s as [|c s IH]; intros acc; cbn [num_from String.length].
  - change (10 ^ Z.of_nat 0) with 1. lia.
  - rewrite Nat2Z.inj_succ, Z.pow_succ_r by lia.
    rewrite IH, (IH (0 * 10 + digit_val c)). ring.
Qed.

Lemma num_from_bounds s :
  all_digits s = true -> 0 <= num_from 0 s < 10 ^ Z.of_nat (String.length s).
Proof.
  induction s as [|c s IH]; cbn [all_digits num_from String.length]; [done|].
  rewrite andb_true_iff. intros [Hc Hs]. specialize (IH Hs).
  apply digit_val_range in Hc. rewrite num_from_linear.
  rewrite Nat2Z.inj_succ, Z.pow_succ_r by lia. nia.
Qed.

Lemma pow10_pos n : 0 <= n -> 0 < 10 ^ n.
Proof. intros. apply Z.pow_pos_nonneg; lia. Qed.

Lemma pow10_succ (n : nat) : 10 ^ Z.of_nat (S n) = 10 * 10 ^ Z.of_nat n.
Proof. rewrite Nat2Z.inj_succ, Z.pow_succ_r; lia. Qed.

(** ** The integer loops *)

Lemma upper_bound_tenth : UPPER_BOUND `div` 10 = 99999999999999999.
Proof. reflexivity. Qed.

Lemma shift_mantissa_post n m :
  0 <= m ->
  post (shift_mantissa n m)
    (fun m' => m' = m * 10 ^ Z.of_nat n /\ (n = O \/ m' <= UPPER_BOUND - 9))
    (fun _ => UPPER_BOUND < m * 10 ^ Z.of_nat n).
Proof.
  revert m; induction n as [|n IH]; intros m Hm; [cbn; split; [lia|by left]|].
  cbn [shift_mantissa]. rewrite upper_bound_tenth, pow10_succ.
  pose proof (pow10_pos (Z.of_nat n) ltac:(lia)).
  destruct (99999999999999999 <? m) eqn:Hlt; [apply Z.ltb_lt in Hlt|apply Z.ltb_ge in Hlt].
  - cbn. unfold UPPER_BOUND. nia.
  - apply post_bind, post_i64; [unfold i64_min, i64_max; lia|].
    eapply post_mono; [apply IH; lia| |cbn; intros _; lia].
    cbn. intros m' [-> Hn]. split; [ring|right].
    destruct Hn as [->|Hn]; [|exact Hn]. cbn. unfold UPPER_BOUND. lia.
Qed.

Lemma scale_mantissa_post n m :
  - UPPER_BOUND <= m <= UPPER_BOUND ->
  post (scale_mantissa n m)
    (fun m' => m' = m * 10 ^ Z.of_nat n /\ - UPPER_BOUND <= m' <= UPPER_BOUND)
    (fun _ => UPPER_BOUND < Z.abs m * 10 ^ Z.of_nat n).
Proof.
  revert m; induction n as [|n IH]; intros m Hm; [cbn; lia|].
  cbn [scale_mantissa]. rewrite upper_bound_tenth, pow10_succ.
  pose proof (pow10_pos (Z.of_nat n) ltac:(lia)).
  case_bool_decide as Hlt.
  - apply post_bind, post_i64; [unfold i64_min, i64_max; lia|].
    eapply post_mono; [apply IH; unfold UPPER_BOUND; lia| |].
    + cbn. intros m' [-> ?]. split; [ring|lia].
    + cbn. intros _. rewrite Z.abs_mul. lia.
  - cbn. unfold UPPER_BOUND in *. nia.
Qed.

Lemma exponent_digits_post ds e :
  all_digits ds = true -> 0 <= e <= UPPER_BOUND ->
  post (fold_digits exponent_digit e ds)
    (fun e' => e' = num_from e ds /\ 0 <= e' <= UPPER_BOUND)
    (fun _ => UPPER_BOUND < num_from e ds).
Proof.
  revert e; induction ds as [|c ds IH]; intros e; cbn [all_digits fold_digits num_from]; [done|].
  rewrite andb_true_iff. intros [Hc Hds] He. apply digit_val_range in Hc.
  apply post_bind. unfold exponent_digit. rewrite upper_bound_tenth.
  destruct (99999999999999999 <? e) eqn:Hlt; [apply Z.ltb_lt in Hlt|apply Z.ltb_ge in Hlt].
  - cbn. rewrite num_from_linear. pose proof (num_from_bounds ds Hds).
    pose proof (pow10_pos (Z.of_nat (String.length ds)) ltac:(lia)).
    unfold UPPER_BOUND. nia.
  - apply post_bind, post_i64; [unfold i64_min, i64_max; lia|].
    apply post_i64; [unfold i64_min, i64_max; lia|].
    apply IH; [done|unfold UPPER_BOUND; lia].
Qed.

(** After reading the number [N], the mantissa and its pending trailing zeros
    stand for [N], and the mantissa is in lowest terms. *)
Definition mant_inv (N : Z) (s : Z * Z) : Prop :=
  N = s.1 * 10 ^ s.2 /\ 0 <= s.1 <= UPPER_BOUND /\ 0 <= s.2 /\ (s.1 = 0 \/ s.1 mod 10 <> 0).

(** [N] cannot be shifted into the range of the result: a prefix of it that
    ends in a nonzero digit is already out of range. *)
Definition too_big (N : Z) : Prop :=
  exists P r q, N = P * 10 ^ r + q /\ 0 <= r /\ 0 <= q < 10 ^ r /\
    UPPER_BOUND < P /\ P mod 10 <> 0.

Lemma process_mantissa_digit_post c N m tz :
  is_ascii_digit c = true -> mant_inv N (m, tz) -> tz < 10 ^ 18 ->
  post (process_mantissa_digit c (m, tz))
    (fun s => mant_inv (N * 10 + digit_val c) s /\ s.2 <= tz + 1 /\
       (N * 10 + digit_val c = 0 -> s.2 = tz + 1))
    (fun _ => UPPER_BOUND < N * 10 + digit_val c /\ (N * 10 + digit_val c) mod 10 <> 0).
Proof.
  intros Hc (HN & Hm & Htz & Hlow) Hbig; cbn in *.
  assert (0 <= digit_val c <= 9) by by apply digit_val_range.
  destruct (Ascii.eqb_spec c "0") as [->|Hnz].
  - apply post_bind, post_i64; [unfold i64_min, i64_max; lia|]. cbn.
    change (digit_val "0") with 0. split; [|cbn; lia].
    repeat split; cbn; try lia. rewrite HN, Z.pow_add_r by lia. change (10 ^ 1) with 10. ring.
  - assert (digit_val c <> 0) by (intros ?; by apply Hnz, digit_val_zero).
    assert (N * 10 = m * 10 ^ Z.of_nat (Z.to_nat (tz + 1))) as HN10.
    { rewrite HN, Z2Nat.id, Z.pow_add_r by lia. change (10 ^ 1) with 10. ring. }
    assert ((N * 10 + digit_val c) mod 10 <> 0) as Hmod.
    { rewrite Z.add_comm, Z_mod_plus_full, Z.mod_small; lia. }
    apply post_bind. eapply post_mono; [apply shift_mantissa_post; lia| |].
    + cbn. intros m' [-> [Hn|Hle]]; [lia|]. rewrite <-HN10 in *.
      apply post_bind, post_i64; [unfold i64_min, i64_max, UPPER_BOUND in *; nia|].
      cbn. split; [|nia]. repeat split; cbn; [|nia|lia|lia|auto].
      change (10 ^ 0) with 1. lia.
    + cbn. intros _ ?. split; [lia|done].
Qed.

Lemma mantissa_digits_post ds N m tz :
  all_digits ds = true -> mant_inv N (m, tz) ->
  tz + Z.of_nat (String.length ds) <= 10 ^ 18 ->
  post (fold_digits process_mantissa_digit (m, tz) ds)
    (fun s => mant_inv (num_from N ds) s /\ s.2 <= tz + Z.of_nat (String.length ds) /\
       (num_from N ds = 0 -> s.2 = tz + Z.of_nat (String.length ds)))
    (fun _ => too_big (num_from N ds)).
Proof.
  revert N m tz; induction ds as [|c ds IH]; intros N m tz;
    cbn [all_digits fold_digits num_from String.length]; [split; [done|cbn; lia]|].
  rewrite andb_true_iff, Nat2Z.inj_succ. intros [Hc Hds] Hinv Hlen.
  apply post_bind.
  eapply post_mono; [apply (process_mantissa_digit_post c N); [done..|lia]| |].
  - intros [m' tz'] (Hinv' & Htz & Hz); cbn in Htz, Hz.
    eapply post_mono; [apply (IH _ _ _ Hds Hinv'); lia| |done].
    cbn. intros s (? & ? & Hs). split; [done|split; [lia|]]. intros Hzero. rewrite (Hs Hzero).
    rewrite num_from_linear in Hzero. pose proof (num_from_bounds ds Hds).
    apply digit_val_range in Hc. destruct Hinv as (HN & Hm & ? & _); cbn in *.
    assert (0 <= N) by (rewrite HN; apply Z.mul_nonneg_nonneg; [lia|apply Z.pow_nonneg; lia]).
    pose proof (pow10_pos (Z.of_nat (String.length ds)) ltac:(lia)).
    rewrite Hz by nia. lia.
  - intros _ [Hgt Hmod]. rewrite num_from_linear.
    exists (N * 10 + digit_val c), (Z.of_nat (String.length ds)), (num_from 0 ds).
    repeat split; try lia; by apply num_from_bounds.
Qed.

Lemma fraction_digit_eq c s po :
  fraction_digit c (s, po) =
    (s' ← process_mantissa_digit c s; po' ← i64 (po + 1); Ret (s', po')).
Proof. by destruct s. Qed.

(** The fraction's loop is the same loop with a digit count. *)
Lemma fraction_digits ds s po :
  0 <= po -> po + Z.of_nat (String.length ds) <= 10 ^ 18 ->
  fold_digits fraction_digit (s, po) ds =
    (fun s' => (s', po + Z.of_nat (String.length ds))) <$>
      fold_digits process_mantissa_digit s ds.
Proof.
  revert s po; induction ds as [|c ds IH]; intros s po;
    cbn [fold_digits String.length]; intros Hpo Hlen.
  - cbn. by rewrite Z.add_0_r.
  - rewrite Nat2Z.inj_succ in Hlen. rewrite fraction_digit_eq.
    destruct (process_mantissa_digit c s) as [s'| |]; cbn; [|done..].
    rewrite i64_in_range by (unfold i64_min, i64_max; lia). cbn.
    rewrite IH by lia. by rewrite Nat2Z.inj_succ, <-Z.add_assoc, Z.add_1_l.
Qed.

(** ** The stages of the parser *)

(** Inputs longer than this do not fit in memory; shorter ones cannot make the
    counters overflow. *)
Definition max_len : Z := 10 ^ 17.

Lemma num_from_app acc a b : num_from acc (a +:+ b) = num_from (num_from acc a) b.
Proof. revert acc; induction a; intros; cbn; auto. Qed.

Lemma length_append (a b : string) :
  String.length (a +:+ b)%string = (String.length a + String.length b)%nat.
Proof. induction a; cbn; auto. Qed.

Lemma too_big_from N ds : all_digits ds = true -> too_big N -> too_big (num_from N ds).
Proof.
  intros Hds (P & r & q & -> & Hr & Hq & HP & Hmod).
  pose proof (num_from_bounds ds Hds). set (n := Z.of_nat (String.length ds)) in *.
  exists P, (r + n), (q * 10 ^ n + num_from 0 ds).
  rewrite num_from_linear. fold n. rewrite Z.pow_add_r by lia.
  assert (0 < 10 ^ n) by (apply pow10_pos; lia).
  repeat split; try lia; try nia; done.
Qed.

Lemma mant_inv_zero : mant_inv 0 (0, 0).
Proof. split_and!; cbn; try (by left); unfold UPPER_BOUND; lia. Qed.

Lemma nonzero_head_pos c ds :
  c <> "0"%char -> all_digits (String c ds) = true -> 0 < num_from 0 (String c ds).
Proof.
  cbn [all_digits num_from]. rewrite andb_true_iff. intros Hc [Hd Hds].
  assert (digit_val c <> 0) by (intros ?; by apply Hc, digit_val_zero).
  apply digit_val_range in Hd. rewrite num_from_linear.
  pose proof (num_from_bounds ds Hds).
  pose proof (pow10_pos (Z.of_nat (String.length ds)) ltac:(lia)). nia.
Qed.

Lemma parse_integer_post val :
  Z.of_nat (String.length val) <= max_len ->
  post (parse_integer_part val)
    (fun '(rest, s) => exists ip, wf_int ip /\ val = (ip +:+ rest)%string /\
       mant_inv (num_from 0 ip) s /\ s.2 <= Z.of_nat (String.length ip) /\
       (num_from 0 ip = 0 -> s.2 = 0))
    (fun _ => True).
Proof.
  intros Hlen. unfold parse_integer_part.
  destruct (split_at_checked_1 val) as [[c r]|] eqn:Hs; [|done].
  apply split1_Some in Hs as ->. destruct (Ascii.eqb_spec c "0") as [->|Hc].
  - exists "0"%string. split_and!; [by left|done|by apply mant_inv_zero|cbn; lia|done].
  - destruct (is_ascii_digit c) eqn:Hd; [|done].
    rewrite digit_loop_span. destruct (span_digits_spec (String c r)) as (Hsp & Hds & _).
    apply post_bind. eapply post_mono; [apply (mantissa_digits_post _ 0 0 0 Hds)| |done].
    + by apply mant_inv_zero.
    + rewrite Hsp, length_append in Hlen. unfold max_len in Hlen. lia.
    + assert (span_digits (String c r) =
        (String c (span_digits r).1, (span_digits r).2)) as Heq
        by (cbn; rewrite Hd; by destruct (span_digits r)).
      rewrite Heq in *. intros s (Hinv & Htz & _). cbn [fst snd] in *.
      eexists. split_and!; [|exact Hsp|exact Hinv|lia|]; [right; by eexists _, _|].
      intros Hzero. pose proof (nonzero_head_pos c _ Hc Hds). lia.
Qed.

Lemma parse_fraction_post val N s :
  Z.of_nat (String.length val) <= max_len -> mant_inv N s -> s.2 <= max_len ->
  post (parse_fraction_part val s)
    (fun '(rest, (s', po)) => exists f, from_option digits1 True f /\ val = render_frac f rest /\
       mant_inv (num_from N (default EmptyString f)) s' /\
       po = Z.of_nat (String.length (default EmptyString f)) /\
       s'.2 <= s.2 + po /\
       (num_from N (default EmptyString f) = 0 -> s'.2 = s.2 + po))
    (fun _ => True).
Proof.
  intros Hlen Hinv Hs2. unfold parse_fraction_part.
  assert (post (E:=unit) (Ret (val, (s, 0))) (fun '(rest, (s', po)) =>
    exists f, from_option digits1 True f /\ val = render_frac f rest /\
       mant_inv (num_from N (default EmptyString f)) s' /\
       po = Z.of_nat (String.length (default EmptyString f)) /\
       s'.2 <= s.2 + po /\
       (num_from N (default EmptyString f) = 0 -> s'.2 = s.2 + po)) (fun _ => True)) as Hnone.
  { exists None. cbn. split_and!; try done; intros; lia. }
  destruct (split_at_checked_1 val) as [[c r]|] eqn:Hs; [|done].
  apply split1_Some in Hs as ->. destruct (Ascii.eqb_spec c ".") as [->|_]; [|done].
  destruct (split_at_checked_1 r) as [[d r']|] eqn:Hs; [|done].
  apply split1_Some in Hs as ->. destruct (is_ascii_digit d) eqn:Hd; [|done].
  rewrite digit_loop_span. destruct (span_digits_spec (String d r')) as (Hsp & Hds & _).
  assert ((span_digits (String d r')).1 <> EmptyString) as Hne.
  { cbn. rewrite Hd. by destruct (span_digits r'). }
  set (val' := String d r') in *. destruct (span_digits val') as [ds rest]; cbn [fst snd] in *.
  assert (Z.of_nat (String.length ds) < max_len) as Hl.
  { change (String.length (String "." val')) with (S (String.length val')) in Hlen.
    rewrite Hsp, length_append in Hlen. lia. }
  unfold max_len in *. apply post_bind. rewrite fraction_digits by lia. destruct s as [m tz].
  pose proof (mantissa_digits_post ds N m tz Hds Hinv ltac:(cbn in *; lia)) as Hp.
  destruct (fold_digits process_mantissa_digit (m, tz) ds) as [s'| |]; cbn in *; [|done..].
  exists (Some ds). destruct Hp as (? & ? & Hz). cbn.
  split_and!; [done|by rewrite Hsp|done|lia|lia|]. intros Hzero. rewrite (Hz Hzero). lia.
Qed.

Lemma parse_exponent_post val :
  post (parse_exponent_part val)
    (fun '(rest, (es, e)) => 0 <= e <= UPPER_BOUND /\
       (rest = EmptyString -> exists x, from_option wf_exp True x /\ val = render_exp x /\
         (if es then - e else e) = from_option exp_value 0 x))
    (fun _ => True).
Proof.
  unfold parse_exponent_part.
  assert (post (E:=unit) (Ret (val, (false, 0)))
    (fun '(rest, (es, e)) => 0 <= e <= UPPER_BOUND /\
       (rest = EmptyString -> exists x, from_option wf_exp True x /\ val = render_exp x /\
         (if es : bool then - e else e) = from_option exp_value 0 x)) (fun _ => True)) as Hnone.
  { cbn. split; [unfold UPPER_BOUND; lia|]. intros ->. by exists None. }
  destruct (split_at_checked_1 val) as [[c r]|] eqn:Hs; [|done].
  apply split1_Some in Hs as ->.
  destruct (Ascii.eqb c "e" || Ascii.eqb c "E") eqn:Hc; [|done]. clear Hnone.
  rewrite orb_true_iff, !Ascii.eqb_eq in Hc.
  assert (exists sg, r = (match sg with Some s => String s (parse_exponent_sign r).2 | None => (parse_exponent_sign r).2 end)
    /\ (sg = None \/ sg = Some "+"%char \/ sg = Some "-"%char)
    /\ (parse_exponent_sign r).1 = bool_decide (sg = Some "-"%char)) as (sg & Hr & Hsg & Hes).
  { unfold parse_exponent_sign.
    destruct (split_at_checked_1 r) as [[c' r']|] eqn:Hs; [|by exists None; auto].
    apply split1_Some in Hs as ->.
    destruct (Ascii.eqb_spec c' "+") as [->|_]; [by exists (Some "+"%char); auto|].
    destruct (Ascii.eqb_spec c' "-") as [->|_]; [by exists (Some "-"%char); auto|by exists None; auto]. }
  destruct (parse_exponent_sign r) as [es v]; cbn [fst snd] in *.
  destruct (split_at_checked_1 v) as [[d v']|] eqn:Hs; [|done].
  apply split1_Some in Hs as Hv. destruct (is_ascii_digit d) eqn:Hd; [|done].
  rewrite digit_loop_span. destruct (span_digits_spec v) as (Hsp & Hds & _).
  assert ((span_digits v).1 <> EmptyString) as Hne.
  { rewrite Hv. cbn. rewrite Hd. by destruct (span_digits v'). }
  pose proof (exponent_digits_post _ 0 Hds ltac:(unfold UPPER_BOUND; lia)) as Hp.
  destruct (span_digits v) as [ds rest]; cbn [fst snd] in *.
  destruct (fold_digits exponent_digit 0 ds) as [e| |]; cbn in *; [|done..].
  destruct Hp as [-> He]. split; [done|intros ->]. exists (Some (c, sg, ds)); cbn.
  split_and!; [done| |by rewrite Hes; unfold exp_value; cbn [fst snd]; destruct (bool_decide _)].
  rewrite Hr, Hsp. assert (ds +:+ "" = ds)%string as -> by (clear; induction ds; cbn; congruence).
  by destruct sg.
Qed.

Lemma finalize_post neg m tz po es e dec :
  0 <= m <= UPPER_BOUND -> 0 <= tz <= 2 * max_len -> 0 <= po <= max_len ->
  0 <= e <= UPPER_BOUND -> 0 <= dec <= max_len ->
  let E := (if es : bool then - e else e) + dec - po + tz in
  post (finalize neg m tz po es e dec)
    (fun z => 0 <= E < 18 /\ z = (if neg : bool then -1 else 1) * m * 10 ^ E /\
       - UPPER_BOUND <= z <= UPPER_BOUND)
    (fun _ => E < 0 \/ 18 <= E \/ 0 <= E /\ UPPER_BOUND < m * 10 ^ E).
Proof.
  intros Hm Htz Hpo He Hdec E. unfold max_len, UPPER_BOUND in Hm, Htz, Hpo, He, Hdec.
  unfold finalize.
  assert (forall x : bool, (if x then i64 (- e) else Ret e) = Ret (E:=unit) (if x then - e else e)) as ->
    by (intros []; [rewrite i64_in_range; [done|unfold i64_min, i64_max; lia]|done]).
  cbn [mbind outcome_bind].
  set (X := if es then - e else e) in *.
  assert (- 1000000000000000000 <= X <= 1000000000000000000) by (destruct es; subst X; lia).
  apply post_bind, post_i64; [unfold i64_min, i64_max; lia|].
  apply post_bind, post_i64; [unfold i64_min, i64_max; lia|].
  assert (forall x : bool, (if x then i64 (- m) else Ret m) =
    Ret (E:=unit) ((if x then -1 else 1) * m)) as ->.
  { intros []; [rewrite i64_in_range; [f_equal; lia|unfold i64_min, i64_max; lia]|f_equal; lia]. }
  cbn [mbind outcome_bind].
  apply post_bind, post_i64; [unfold i64_min, i64_max; lia|].
  replace (X - po + tz + dec) with E by (subst E; lia).
  destruct (E <? 0) eqn:H0; [apply Z.ltb_lt in H0; cbn; lia|apply Z.ltb_ge in H0].
  destruct (18 <=? E) eqn:H18; [apply Z.leb_le in H18; cbn; lia|apply Z.leb_gt in H18].
  apply post_bind.
  eapply post_mono; [apply scale_mantissa_post; unfold UPPER_BOUND; destruct neg; lia| |].
  - cbn. rewrite Z2Nat.id by lia. intros z [-> Hz]. rewrite bool_decide_true by done. cbn.
    split; [lia|by split].
  - cbn. rewrite Z2Nat.id by lia. intros _ Hbig. right; right. split; [lia|].
    replace (Z.abs _) with m in Hbig by (destruct neg; lia). exact Hbig.
Qed.

Lemma mant_inv_pos N s : mant_inv N s -> 0 <= N.
Proof.
  intros (-> & ? & ? & _). apply Z.mul_nonneg_nonneg; [lia|apply Z.pow_nonneg; lia].
Qed.

Lemma mant_inv_zero_iff N s : mant_inv N s -> (N = 0 <-> s.1 = 0).
Proof.
  intros (-> & ? & ? & _). pose proof (pow10_pos s.2 ltac:(lia)). nia.
Qed.

(** [m * 10^tz] scaled by [10^e] is [m * 10^(e+tz)], when that is an integer. *)
Lemma scale_shift m tz e :
  0 <= tz -> 0 <= e + tz ->
  m * 10 ^ tz * 10 ^ Z.max 0 e = m * 10 ^ (e + tz) * 10 ^ Z.max 0 (- e).
Proof.
  intros. rewrite <-!Z.mul_assoc, <-!Z.pow_add_r by lia. do 2 f_equal. lia.
Qed.

(** What the result stands for, once the stages have returned. *)
Definition parsed (val : string) (decimals z : Z) (d : decimal) : Prop :=
  wf_decimal d /\ val = render d /\ denotes d decimals z /\
  - UPPER_BOUND <= z <= UPPER_BOUND /\
  (dec_num d = 0 -> 0 <= dec_exponent d + decimals < 18).

Lemma parse_sign_spec val :
  val = (if (parse_sign val).1 then String "-" (parse_sign val).2 else (parse_sign val).2).
Proof.
  unfold parse_sign. destruct (split_at_checked_1 val) as [[c r]|] eqn:Hs; [|done].
  apply split1_Some in Hs as ->. by destruct (Ascii.eqb_spec c "-") as [->|].
Qed.

Lemma length_render_frac f r :
  (String.length r <= String.length (render_frac f r))%nat /\
  (String.length (default EmptyString f) <= String.length (render_frac f r))%nat.
Proof. destruct f; cbn; rewrite ?length_append; lia. Qed.

Lemma parse_fixed_point_post val decimals :
  Z.of_nat (String.length val) <= max_len -> 0 <= decimals <= max_len ->
  post (parse_fixed_point val decimals)
    (fun z => exists d, parsed val decimals z d) (fun _ => True).
Proof.
  intros Hlen Hdec. unfold parse_fixed_point. pose proof (parse_sign_spec val) as Hval.
  destruct (parse_sign val) as [neg body]; cbn [fst snd] in Hval.
  assert (Z.of_nat (String.length body) <= max_len) as Hb by (destruct neg; subst val; cbn in *; lia).
  apply post_bind. eapply post_mono; [by apply parse_integer_post| |done].
  intros [rest s] (ip & Hip & Hbody & Hinv & Hs2 & Hz). rewrite Hbody, length_append in Hb.
  apply post_bind. eapply post_mono; [apply (parse_fraction_post rest (num_from 0 ip) s); [lia|done|lia]| |done].
  intros [rest' [[m tz] po]] (f & Hf & Hrest & Hinv' & Hpo & Hs2' & Hz').
  pose proof (length_render_frac f rest') as [? ?]. rewrite <-Hrest in *. cbn in Hs2', Hz'.
  apply post_bind. eapply post_mono; [apply parse_exponent_post| |done].
  intros [rest'' [es e]] [He Hexp]. case_bool_decide as Hend; [|done].
  destruct (Hexp Hend) as (x & Hx & Hr' & Hev).
  destruct (Hinv') as (HN & Hm & Htz & _); cbn in HN, Hm, Htz.
  eapply post_mono; [apply finalize_post; lia| |done]. cbn. intros z (HE & Hzz & Hrange).
  exists (Decimal neg ip f x). unfold parsed. split_and!; try lia.
  - done.
  - rewrite Hval, Hbody, Hrest, Hr'. done.
  - unfold denotes, dec_num, dec_sign, dec_exponent, dec_scale, frac_digits; cbn.
    rewrite <-Hev, <-Hpo, HN, Hzz. set (X := if es then - e else e) in *.
    rewrite <-!Z.mul_assoc. f_equal. rewrite !Z.mul_assoc, scale_shift by lia. do 3 f_equal.
  - unfold dec_num, dec_exponent, frac_digits; cbn. intros Hzero. rewrite <-Hev.
    assert (num_from 0 ip = 0) as Hip0.
    { rewrite num_from_linear in Hzero. pose proof (mant_inv_pos _ _ Hinv).
      pose proof (mant_inv_pos _ _ Hinv').
      assert (all_digits (default EmptyString f) = true) as Hd by (destruct f; [apply Hf|done]).
      pose proof (num_from_bounds _ Hd). 
      pose proof (pow10_pos (Z.of_nat (String.length (default EmptyString f))) ltac:(lia)). nia. }
    rewrite (Hz' Hzero), (Hz Hip0) in HE. lia.
Qed.

(** ** Rendering is unambiguous *)

Lemma span_digits_app ds r :
  all_digits ds = true -> no_digit_head r -> span_digits (ds +:+ r) = (ds, r).
Proof.
  induction ds as [|c ds IH]; cbn [all_digits]; intros Hds Hr.
  - destruct r as [|c r]; [done|]. cbn in *. by rewrite Hr.
  - apply andb_true_iff in Hds as [Hc Hds]. cbn. by rewrite Hc, IH.
Qed.

Lemma digits_app_inj a b r r' :
  all_digits a = true -> all_digits b = true -> no_digit_head r -> no_digit_head r' ->
  (a +:+ r = b +:+ r')%string -> a = b /\ r = r'.
Proof.
  intros Ha Hb Hr Hr' Heq.
  pose proof (span_digits_app a r Ha Hr) as H1. rewrite Heq, span_digits_app in H1 by done.
  by injection H1.
Qed.

Lemma app_empty_r (s : string) : (s +:+ "")%string = s.
Proof. induction s; cbn; congruence. Qed.

Lemma wf_int_digits ip : wf_int ip -> all_digits ip = true /\ ip <> EmptyString.
Proof. intros [->|(c & r & -> & _ & ?)]; done. Qed.

Lemma render_exp_head x :
  from_option wf_exp True x ->
  no_digit_head (render_exp x) /\ is_char_boundary (render_exp x) = true /\
  (forall r, render_exp x <> String "." r).
Proof.
  destruct x as [[[m sg] ds]|]; [|done]. intros ([Hm|Hm] & _ & _); cbn in Hm; subst m;
    destruct sg; cbn; (split_and!; [done|done|congruence]).
Qed.

Lemma render_frac_head f r :
  no_digit_head r -> is_char_boundary r = true ->
  no_digit_head (render_frac f r) /\ is_char_boundary (render_frac f r) = true.
Proof. by destruct f. Qed.

Lemma boundary_digits ds r :
  all_digits ds = true -> is_char_boundary r = true -> is_char_boundary (ds +:+ r)%string = true.
Proof.
  destruct ds as [|c ds]; [done|]. cbn [all_digits]. rewrite andb_true_iff. intros [? _] _.
  by apply digit_boundary.
Qed.

Lemma render_exp_inj x x' :
  from_option wf_exp True x -> from_option wf_exp True x' ->
  render_exp x = render_exp x' -> x = x'.
Proof.
  assert (forall c ds, digits1 (String c ds) -> c <> "+"%char /\ c <> "-"%char) as Hsig.
  { intros c ds [_ Hd]. cbn in Hd. apply andb_true_iff in Hd as [Hd _].
    split; intros ->; discriminate Hd. }
  destruct x as [[[m sg] ds]|], x' as [[[m' sg'] ds']|]; cbn; try done;
    [|by destruct sg|by destruct sg'].
  intros (_ & Hsg & Hds) (_ & Hsg' & Hds'); cbn in *.
  destruct sg as [c|], sg' as [c'|]; intros [= -> Heq]; try congruence; subst.
  - apply Hsig in Hds'. naive_solver.
  - apply Hsig in Hds. naive_solver.
Qed.

Lemma render_frac_inj f f' x x' :
  from_option digits1 True f -> from_option digits1 True f' ->
  from_option wf_exp True x -> from_option wf_exp True x' ->
  render_frac f (render_exp x) = render_frac f' (render_exp x') -> f = f' /\ x = x'.
Proof.
  intros Hf Hf' Hx Hx'.
  destruct (render_exp_head x Hx) as (? & _ & Hp), (render_exp_head x' Hx') as (? & _ & Hp').
  destruct f as [ds|], f' as [ds'|]; cbn; intros Heq.
  - injection Heq as Heq. destruct Hf, Hf'.
    apply digits_app_inj in Heq as [-> ?]; [|done..]. by rewrite (render_exp_inj x x').
  - by destruct (Hp' _ (eq_sym Heq)).
  - by destruct (Hp _ Heq).
  - by rewrite (render_exp_inj x x').
Qed.

Lemma digits_not_sign ds r r' : ds <> EmptyString -> all_digits ds = true ->
  (ds +:+ r)%string <> String "-" r'.
Proof. by destruct ds as [|c ds]; [|cbn; intros _ H [= -> _]]. Qed.

Lemma render_inj d d' : wf_decimal d -> wf_decimal d' -> render d = render d' -> d = d'.
Proof.
  destruct d as [n ip f x], d' as [n' ip' f' x']. intros (Hip & Hf & Hx) (Hip' & Hf' & Hx').
  cbn [dec_int dec_frac dec_exp] in *. unfold render; cbn [dec_neg dec_int dec_frac dec_exp].
  apply wf_int_digits in Hip as [Hd Hne], Hip' as [Hd' Hne'].
  destruct (render_exp_head x Hx) as (H1 & H2 & _), (render_exp_head x' Hx') as (H3 & H4 & _).
  destruct (render_frac_head f _ H1 H2), (render_frac_head f' _ H3 H4). intros Heq.
  assert (n = n' /\ (ip +:+ render_frac f (render_exp x) =
    ip' +:+ render_frac f' (render_exp x'))%string) as [-> Hb].
  { destruct n, n'; [by injection Heq| | |done].
    - by destruct (digits_not_sign ip' _ _ Hne' Hd' (eq_sym Heq)).
    - by destruct (digits_not_sign ip _ _ Hne Hd Heq). }
  apply digits_app_inj in Hb as [-> Hb]; [|done..].
  by apply render_frac_inj in Hb as [-> ->].
Qed.

Lemma denotes_unique d decimals z z' : denotes d decimals z -> denotes d decimals z' -> z = z'.
Proof.
  unfold denotes. cbn zeta. intros H1 H2. rewrite H1 in H2.
  apply Z.mul_reg_r in H2; [done|]. pose proof (pow10_pos (Z.max 0 (- (dec_exponent d + decimals - dec_scale d)))). lia.
Qed.

(** ** The stages on rendered decimals *)

Lemma split1_digits ds r :
  digits1 ds -> is_char_boundary r = true ->
  exists c ds', ds = String c ds' /\ is_ascii_digit c = true /\
    split_at_checked_1 (ds +:+ r) = Some (c, (ds' +:+ r)%string).
Proof.
  intros [Hne Hd] Hr. destruct ds as [|c ds]; [done|].
  cbn in Hd. apply andb_true_iff in Hd as [Hc Hd]. exists c, ds. split_and!; try done.
  by apply split1_String, boundary_digits.
Qed.

Lemma parse_integer_complete ip r :
  wf_int ip -> no_digit_head r -> is_char_boundary r = true ->
  Z.of_nat (String.length ip) <= max_len ->
  post (parse_integer_part (ip +:+ r)) (fun p => p.1 = r) (fun _ => too_big (num_from 0 ip)).
Proof.
  intros Hip Hr Hb Hlen. unfold parse_integer_part. destruct Hip as [->|(c & t & -> & Hc & Hd)].
  - change ("0" +:+ r)%string with (String "0" r). by rewrite split1_String.
  - destruct (split1_digits (String c t) r) as (c' & t' & [= <- <-] & Hcd & ->); [done..|].
    destruct (Ascii.eqb_spec c "0"); [done|]. rewrite Hcd, digit_loop_app by done.
    apply post_bind. eapply post_mono; [|done|intros e He; exact He].
    eapply post_mono; [apply (mantissa_digits_post _ 0 0 0 Hd mant_inv_zero)|done|done].
    unfold max_len in Hlen. lia.
Qed.

Lemma parse_fraction_complete f x N s :
  from_option digits1 True f -> from_option wf_exp True x -> mant_inv N s -> s.2 <= max_len ->
  Z.of_nat (String.length (default EmptyString f)) <= max_len ->
  post (parse_fraction_part (render_frac f (render_exp x)) s) (fun p => p.1 = render_exp x)
    (fun _ => too_big (num_from N (default EmptyString f))).
Proof.
  intros Hf Hx Hinv Hs2 Hlen. destruct (render_exp_head x Hx) as (Hd & Hb & Hp).
  unfold parse_fraction_part. destruct f as [ds|]; cbn [render_frac from_option Datatypes.id] in *.
  - destruct (split1_digits ds (render_exp x)) as (c & t & Hds & Hc & Hs); [done..|].
    rewrite split1_String by (apply boundary_digits; [apply Hf|done]).
    rewrite Hs. cbn [Ascii.eqb Bool.eqb]. rewrite Hc, digit_loop_app by (done || apply Hf).
    unfold max_len in *. rewrite fraction_digits by lia. destruct s as [m tz].
    pose proof (mantissa_digits_post ds N m tz (proj2 Hf) Hinv ltac:(cbn in *; lia)) as Hq.
    by destruct (fold_digits process_mantissa_digit (m, tz) ds).
  - destruct (split_at_checked_1 (render_exp x)) as [[c r]|] eqn:Hs; [|done].
    destruct (Ascii.eqb_spec c ".") as [->|]; [|done]. by apply split1_Some, Hp in Hs.
Qed.

Lemma exponent_sign_complete sg ds :
  digits1 ds -> (sg = None \/ sg = Some "+"%char \/ sg = Some "-"%char) ->
  parse_exponent_sign (match sg with Some c => String c ds | None => ds end) =
    (bool_decide (sg = Some "-"%char), ds).
Proof.
  intros Hds Hsg. destruct (split1_digits ds EmptyString Hds eq_refl) as (c & t & -> & Hc & Hs).
  rewrite app_empty_r in Hs. unfold parse_exponent_sign.
  destruct Hsg as [->|[->| ->]].
  - rewrite Hs. destruct (Ascii.eqb_spec c "+") as [->|]; [done|].
    destruct (Ascii.eqb_spec c "-") as [->|]; [done|]. done.
  - by rewrite split1_String by by apply digit_boundary.
  - by rewrite split1_String by by apply digit_boundary.
Qed.

Lemma parse_exponent_complete x :
  from_option wf_exp True x ->
  post (parse_exponent_part (render_exp x)) (fun p => p.1 = EmptyString)
    (fun _ => UPPER_BOUND < Z.abs (from_option exp_value 0 x)).
Proof.
  destruct x as [[[m sg] ds]|]; [|done]. intros (Hm & Hsg & Hds); cbn in Hm, Hsg, Hds.
  unfold parse_exponent_part.
  assert (render_exp (Some (m, sg, ds)) =
    String m (match sg with Some c => String c ds | None => ds end)) as -> by by destruct sg.
  destruct (split1_digits ds EmptyString Hds eq_refl) as (c & t & Hct & Hc & Hs).
  rewrite app_empty_r in Hs.
  rewrite split1_String by (destruct Hsg as [->|[->| ->]]; [|done..]; rewrite Hct; by apply digit_boundary).
  assert (Ascii.eqb m "e" || Ascii.eqb m "E" = true) as -> by by destruct Hm as [->| ->].
  rewrite exponent_sign_complete by done. rewrite Hs, Hc.
  rewrite <-(app_empty_r ds) at 1. rewrite digit_loop_app by (done || apply Hds).
  pose proof (exponent_digits_post ds 0 (proj2 Hds) ltac:(unfold UPPER_BOUND; lia)) as Hp.
  destruct (fold_digits exponent_digit 0 ds); cbn in *; [done| |done].
  unfold exp_value; cbn. destruct (bool_decide _); lia.
Qed.

(** ** Errors happen only on decimals that are out of range *)

Lemma denotes_abs d decimals z :
  0 <= dec_num d -> denotes d decimals z ->
  let e := dec_exponent d + decimals - dec_scale d in
  dec_num d * 10 ^ Z.max 0 e = Z.abs z * 10 ^ Z.max 0 (- e).
Proof.
  unfold denotes, dec_sign. cbn zeta. intros Hn Hd.
  set (e := dec_exponent d + decimals - dec_scale d) in *.
  pose proof (pow10_pos (Z.max 0 e)). pose proof (pow10_pos (Z.max 0 (- e))).
  apply (f_equal Z.abs) in Hd. rewrite !Z.abs_mul in Hd.
  rewrite (Z.abs_eq (10 ^ Z.max 0 e)), (Z.abs_eq (10 ^ Z.max 0 (- e))) in Hd by lia.
  rewrite (Z.abs_eq (dec_num d)) in Hd by lia. destruct (dec_neg d); cbn in Hd; lia.
Qed.

Lemma mod10_pow r : 0 < r -> exists k, 10 ^ r = 10 * k.
Proof. intros. exists (10 ^ (r - 1)). by rewrite <-Z.pow_succ_r, Z.sub_1_r, Z.succ_pred by lia. Qed.

Lemma too_big_denotes N a b A :
  too_big N -> 0 <= a -> 0 <= b -> (a = 0 \/ b = 0) -> N * 10 ^ a = A * 10 ^ b ->
  0 <= A -> UPPER_BOUND < A.
Proof.
  intros (P & r & q & -> & Hr & Hq & HP & Hmod) Ha Hb Hab Heq HA.
  pose proof (pow10_pos r Hr). pose proof (pow10_pos a Ha).
  assert (0 < UPPER_BOUND) by (unfold UPPER_BOUND; lia).
  destruct Hab as [-> | ->].
  - change (10 ^ 0) with 1 in Heq. destruct (Z.le_gt_cases b r) as [Hbr|Hbr].
    + replace r with (b + (r - b)) in Heq by lia. rewrite Z.pow_add_r in Heq by lia.
      pose proof (pow10_pos b Hb). pose proof (pow10_pos (r - b) ltac:(lia)).
      assert (P * 10 ^ (r - b) * 10 ^ b <= A * 10 ^ b) as Hle by lia.
      apply Z.mul_le_mono_pos_r in Hle; [nia|lia].
    + exfalso. apply Hmod. replace b with (r + (b - r)) in Heq by lia.
      rewrite Z.pow_add_r in Heq by lia. destruct (mod10_pow (b - r) ltac:(lia)) as [k Hk].
      rewrite Hk in Heq.
      assert (10 ^ r * (10 * (A * k) - P) = q) as Hq' by lia.
      assert (10 * (A * k) - P = 0) as HP0.
      { clear - Hq Hq'. set (t := 10 * (A * k) - P) in *. set (c := 10 ^ r) in *.
        destruct (Z.lt_trichotomy t 0) as [?|[?|?]]; nia. }
      assert (P = 10 * (A * k)) as -> by lia.
      rewrite Z.mul_comm. apply Z_mod_mult.
  - change (10 ^ 0) with 1 in Heq. assert (P <= P * 10 ^ r + q) by nia. nia.
Qed.

Lemma lowest_terms m k A : 0 < k -> m = A * 10 ^ k -> m mod 10 = 0.
Proof.
  intros Hk ->. destruct (mod10_pow k Hk) as [j ->].
  replace (A * (10 * j)) with (A * j * 10) by ring. apply Z_mod_mult.
Qed.

Lemma ten18_le m E : 1 <= m -> 18 <= E -> UPPER_BOUND < m * 10 ^ E.
Proof.
  intros Hm HE. assert (10 ^ 18 <= 10 ^ E) by (apply Z.pow_le_mono_r; lia).
  unfold UPPER_BOUND. change (10 ^ 18) with 1000000000000000000 in *. nia.
Qed.

(** [finalize] fails only when no integer in range is denoted. *)
Lemma finalize_err N m tz e A :
  mant_inv N (m, tz) -> N <> 0 -> N * 10 ^ Z.max 0 e = A * 10 ^ Z.max 0 (- e) -> 0 <= A ->
  e + tz < 0 \/ 18 <= e + tz \/ 0 <= e + tz /\ UPPER_BOUND < m * 10 ^ (e + tz) ->
  UPPER_BOUND < A.
Proof.
  intros Hinv HN Heq HA Herr. pose proof (mant_inv_zero_iff _ _ Hinv) as Hz.
  destruct Hinv as (-> & Hm & Htz & Hlow); cbn in *.
  assert (m <> 0) by tauto. destruct Hlow as [|Hlow]; [done|].
  destruct (Z.lt_ge_cases (e + tz) 0) as [Hneg|Hpos].
  - exfalso. apply Hlow. apply (lowest_terms m (- (e + tz)) A); [lia|].
    rewrite Z.max_l, Z.max_r in Heq by lia.
    replace (- e) with (- (e + tz) + tz) in Heq by lia.
    rewrite Z.pow_add_r in Heq by lia. change (10 ^ 0) with 1 in Heq.
    pose proof (pow10_pos tz Htz). apply Z.mul_reg_r with (10 ^ tz); lia.
  - assert (A = m * 10 ^ (e + tz)) as ->.
    { rewrite scale_shift in Heq by lia. apply Z.mul_reg_r in Heq; [done|].
      pose proof (pow10_pos (Z.max 0 (- e))). lia. }
    destruct Herr as [?|[?|?]]; [lia| |lia]. apply ten18_le; lia.
Qed.

Lemma big_pow_lt n k : 0 <= n -> n < k -> 10 ^ n < 10 ^ k.
Proof. intros. apply Z.pow_lt_mono_r; lia. Qed.

Lemma lt_pow10 n : 0 <= n -> n < 10 ^ n.
Proof. intros. apply Z.pow_gt_lin_r; lia. Qed.

(** An exponent of more than eighteen digits cannot be compensated. *)
Lemma exponent_err N sc X dec A :
  0 < N < 10 ^ (2 * max_len) -> 0 <= sc <= max_len -> 0 <= dec <= max_len ->
  UPPER_BOUND < Z.abs X -> 0 <= A ->
  N * 10 ^ Z.max 0 (X + dec - sc) = A * 10 ^ Z.max 0 (- (X + dec - sc)) ->
  UPPER_BOUND < A.
Proof.
  intros HN Hsc Hdec HX HA Heq.
  assert (max_len = 100000000000000000) as Hml by reflexivity.
  unfold UPPER_BOUND in HX. destruct (Z.lt_ge_cases X 0) as [Hneg|Hpos].
  - exfalso. rewrite Z.max_l, Z.max_r in Heq by lia. change (10 ^ 0) with 1 in Heq.
    assert (10 ^ (2 * max_len) < 10 ^ (- (X + dec - sc))) by (apply big_pow_lt; lia).
    assert (A <> 0) by lia. nia.
  - rewrite Z.max_r, Z.max_l in Heq by lia. change (10 ^ 0) with 1 in Heq.
    rewrite Z.mul_1_r in Heq. subst A. apply ten18_le; lia.
Qed.

Lemma wf_frac_digits d : wf_decimal d -> all_digits (frac_digits d) = true.
Proof. intros (_ & Hf & _). unfold frac_digits. destruct (dec_frac d); [apply Hf|done]. Qed.

Lemma all_digits_app a b :
  all_digits a = true -> all_digits b = true -> all_digits (a +:+ b) = true.
Proof.
  induction a as [|c a IH]; [done|]. cbn. intros [-> ?]%andb_true_iff ?. auto.
Qed.

Lemma dec_num_bounds d : wf_decimal d ->
  0 <= dec_num d < 10 ^ (Z.of_nat (String.length (dec_int d)) + dec_scale d).
Proof.
  intros Hwf. unfold dec_num, dec_scale. rewrite <-num_from_app, <-Nat2Z.inj_add, <-length_append.
  apply num_from_bounds, all_digits_app; [|by apply wf_frac_digits]. apply wf_int_digits, Hwf.
Qed.

Lemma dec_num_zero d : wf_decimal d -> dec_num d = 0 -> num_from 0 (dec_int d) = 0.
Proof.
  intros Hwf. unfold dec_num. rewrite num_from_linear. intros Hn.
  pose proof (num_from_bounds _ (wf_frac_digits d Hwf)).
  pose proof (num_from_bounds _ (proj1 (wf_int_digits _ (proj1 Hwf)))).
  pose proof (pow10_pos (Z.of_nat (String.length (frac_digits d))) ltac:(lia)). nia.
Qed.

(** The ways in which a stage's error shows that nothing in range is denoted. *)
Lemma parsed_in_range val decimals z d :
  parsed val decimals z d -> ~ UPPER_BOUND < Z.abs z.
Proof. intros (_ & _ & _ & ? & _). unfold UPPER_BOUND in *. lia. Qed.

Lemma parsed_abs val decimals z d :
  parsed val decimals z d ->
  let e := dec_exponent d + decimals - dec_scale d in
  dec_num d * 10 ^ Z.max 0 e = Z.abs z * 10 ^ Z.max 0 (- e).
Proof.
  intros (Hwf & _ & Hden & _). apply denotes_abs; [|done]. by apply dec_num_bounds.
Qed.

Lemma too_big_not_parsed val decimals z d :
  too_big (dec_num d) -> ~ parsed val decimals z d.
Proof.
  intros Htb Hp. apply (parsed_in_range _ _ _ _ Hp).
  eapply too_big_denotes; [exact Htb| | | |exact (parsed_abs _ _ _ _ Hp)|]; lia.
Qed.

Lemma exponent_not_parsed val decimals z d :
  Z.of_nat (String.length (dec_int d)) + dec_scale d <= max_len -> 0 <= decimals <= max_len ->
  UPPER_BOUND < Z.abs (dec_exponent d) -> ~ parsed val decimals z d.
Proof.
  intros Hl Hdec Hexp Hp. pose proof Hp as (Hwf & _ & _ & _ & Hz).
  pose proof (dec_num_bounds d Hwf) as [HN1 HN2]. assert (0 <= dec_scale d) by (unfold dec_scale; lia).
  destruct (Z.eq_dec (dec_num d) 0) as [H0|H0].
  - specialize (Hz H0). unfold UPPER_BOUND, max_len in *. lia.
  - apply (parsed_in_range _ _ _ _ Hp).
    assert (10 ^ (Z.of_nat (String.length (dec_int d)) + dec_scale d) <= 10 ^ (2 * max_len))
      by (apply Z.pow_le_mono_r; lia).
    eapply exponent_err; [| | |exact Hexp| |exact (parsed_abs _ _ _ _ Hp)]; lia.
Qed.

Lemma finalize_not_parsed val decimals z d m tz :
  mant_inv (dec_num d) (m, tz) -> (dec_num d = 0 -> tz = dec_scale d) ->
  let E := dec_exponent d + decimals - dec_scale d + tz in
  E < 0 \/ 18 <= E \/ 0 <= E /\ UPPER_BOUND < m * 10 ^ E ->
  ~ parsed val decimals z d.
Proof.
  cbn zeta. intros Hinv Hs0 Herr Hp. destruct (Z.eq_dec (dec_num d) 0) as [H0|H0].
  - pose proof Hp as (_ & _ & _ & _ & Hz). specialize (Hz H0). rewrite (Hs0 H0) in Herr.
    pose proof (proj1 (mant_inv_zero_iff _ _ Hinv) H0) as Hm0; cbn in Hm0. subst m.
    unfold UPPER_BOUND in Herr. lia.
  - apply (parsed_in_range _ _ _ _ Hp).
    eapply finalize_err; [exact Hinv|done|exact (parsed_abs _ _ _ _ Hp)|lia|done].
Qed.

Lemma parse_sign_complete d : wf_decimal d ->
  parse_sign (render d) =
    (dec_neg d, (dec_int d +:+ render_frac (dec_frac d) (render_exp (dec_exp d)))%string).
Proof.
  intros (Hip & Hf & Hx). destruct (render_exp_head _ Hx) as (H1 & H2 & _).
  destruct (render_frac_head (dec_frac d) _ H1 H2) as [_ Hb].
  apply wf_int_digits in Hip as [Hd Hne]. unfold render, parse_sign.
  destruct (split1_digits (dec_int d) _ (conj Hne Hd) Hb) as (c & t & Heq & Hc & Hs).
  destruct (dec_neg d).
  - rewrite split1_String; [done|by apply boundary_digits].
  - rewrite Hs. destruct (Ascii.eqb_spec c "-") as [->|]; [done|]. by rewrite Heq.
Qed.

Lemma render_length d :
  Z.of_nat (String.length (dec_int d)) + Z.of_nat (String.length (frac_digits d)) <=
    Z.of_nat (String.length (render d)) /\
  Z.of_nat (String.length (dec_int d)) +
    Z.of_nat (String.length (render_frac (dec_frac d) (render_exp (dec_exp d)))) <=
    Z.of_nat (String.length (render d)).
Proof.
  pose proof (length_render_frac (dec_frac d) (render_exp (dec_exp d))) as [_ Hf].
  unfold render, frac_digits. destruct (dec_neg d); cbn; rewrite !length_append; lia.
Qed.

Lemma parse_render d decimals :
  wf_decimal d -> Z.of_nat (String.length (render d)) <= max_len -> 0 <= decimals <= max_len ->
  post (parse_fixed_point (render d) decimals) (fun _ => True)
    (fun _ => forall z, ~ parsed (render d) decimals z d).
Proof.
  intros Hwf Hlen Hdec. pose proof (render_length d) as [Hl1 Hl2].
  pose proof (wf_frac_digits d Hwf) as Hfd. fold (dec_scale d) in Hl1.
  pose proof Hwf as (Hip & Hf & Hx).
  destruct (render_exp_head _ Hx) as (Hd & Hb & _).
  destruct (render_frac_head (dec_frac d) _ Hd Hb) as [Hd' Hb'].
  unfold parse_fixed_point. rewrite parse_sign_complete by done.
  apply post_bind. eapply post_mono; [apply post_and;
    [apply parse_integer_complete; [done..|unfold dec_scale in *; lia]
    |apply parse_integer_post; rewrite length_append; lia]| |].
  2: { intros _ [Htb _] z. apply too_big_not_parsed. by apply too_big_from. }
  intros [rest s] [Hr (ip & Hip' & Heq & Hinv & Hs2 & Hs0)]; cbn in Hr; subst rest.
  apply wf_int_digits in Hip as [Hipd _], Hip' as [Hipd' _].
  apply digits_app_inj in Heq as [<- _]; [|done..].
  apply post_bind. eapply post_mono; [apply post_and;
    [apply (parse_fraction_complete _ _ (num_from 0 (dec_int d)));
      [done..|unfold dec_scale in *; lia|change (dec_scale d <= max_len); lia]
    |apply (parse_fraction_post _ (num_from 0 (dec_int d)));
      [lia|done|unfold dec_scale in *; lia]]| |].
  2: { intros _ [Htb _] z. by apply too_big_not_parsed. }
  intros [rest [[m tz] po]] [Hr (f & Hf' & Heq & Hinv' & Hpo & Hs2' & Hs0')]; cbn in Hr; subst rest.
  apply render_frac_inj in Heq as [<- _]; [|done..]. change (mant_inv (dec_num d) (m, tz)) in Hinv'.
  change (po = dec_scale d) in Hpo. cbn in Hs2', Hs0'.
  apply post_bind. eapply post_mono; [apply post_and;
    [by apply parse_exponent_complete|apply parse_exponent_post]| |].
  2: { intros _ [Hexp _] z. apply exponent_not_parsed; [unfold dec_scale in *; lia|done|exact Hexp]. }
  intros [rest [es e]] [Hr [He Hexp]]; cbn in Hr; subst rest.
  destruct (Hexp eq_refl) as (x & Hx' & Heq & Hev).
  apply render_exp_inj in Heq as <-; [|done..]. fold (dec_exponent d) in Hev.
  rewrite bool_decide_true by done.
  pose proof Hinv' as (_ & Hm & Htz & _); cbn in Hm, Htz. rewrite Hpo in *.
  eapply post_mono; [apply finalize_post; unfold dec_scale in *; lia|done|]. cbn. rewrite Hev.
  intros _ Herr z. apply (finalize_not_parsed _ _ _ _ m tz Hinv'); [|done].
  intros H0. rewrite Hs0' by done. rewrite Hs0; [lia|by apply dec_num_zero].
Qed.

(** The parser returns what a decimal denotes. *)
Lemma parse_fixed_point_parsed val decimals z d :
  Z.of_nat (String.length val) <= max_len -> 0 <= decimals <= max_len ->
  parsed val decimals z d -> parse_fixed_point val decimals = Ret z.
Proof.
  intros Hlen Hdec Hp. pose proof (parse_fixed_point_post _ _ Hlen Hdec) as Hpost.
  pose proof Hp as (Hwf & -> & Hden & _).
  pose proof (parse_render d decimals Hwf Hlen Hdec) as Hc.
  destruct (parse_fixed_point (render d) decimals) as [z'|[]|]; cbn in *; [|by destruct (Hc z)|done].
  destruct Hpost as (d' & Hwf' & Heq & Hden' & _).
  apply render_inj in Heq as <-; [|done..]. by rewrite (denotes_unique d decimals z z').
Qed.

(** C32. parse_fixed_point never overflows its machine integers and returns z
    exactly when the text is a well-formed decimal (optional minus, no
    redundant leading zero, optional fraction, optional exponent) whose value
    times 10^decimals is the integer z of at most 18 digits, with one
    exception: a decimal whose digits are all zero is accepted only when its
    exponent plus decimals is in [0, 18), so that 0e-9 is refused for 8
    decimals. (The text and decimals are at most what memory can hold.) *)
Theorem parse_fixed_point_correct val decimals :
  Z.of_nat (String.length val) <= max_len -> 0 <= decimals <= max_len ->
  parse_fixed_point val decimals <> Panic /\
  forall z, parse_fixed_point val decimals = Ret z <->
    exists d, wf_decimal d /\ val = render d /\ denotes d decimals z /\
      - UPPER_BOUND <= z <= UPPER_BOUND /\
      (dec_num d = 0 -> 0 <= dec_exponent d + decimals < 18).
Proof.
  intros Hlen Hdec. pose proof (parse_fixed_point_post _ _ Hlen Hdec) as Hpost.
  split; [by eapply post_not_Panic|]. intros z. split.
  - intros Hr. exact (post_Ret _ _ _ _ Hpost Hr).
  - intros (d & Hp). by apply (parse_fixed_point_parsed _ _ _ d).
Qed.

Lemma parse_fixed_point_correct_witness :
  parse_fixed_point "-1.50e3" 8 <> Panic /\
  (parse_fixed_point "-1.50e3" 8 = Ret (-150000000000) <->
   exists d, wf_decimal d /\ "-1.50e3"%string = render d /\ denotes d 8 (-150000000000) /\
      - UPPER_BOUND <= -150000000000 <= UPPER_BOUND /\
      (dec_num d = 0 -> 0 <= dec_exponent d + 8 < 18)).
Proof.
  destruct (parse_fixed_point_correct "-1.50e3" 8) as [H1 H2];
    [vm_compute; discriminate|split; vm_compute; discriminate|].
  split; [exact H1|exact (H2 _)].
Defined.

(** ** Formatting *)

Lemma digit_char d : 0 <= d <= 9 ->
  is_ascii_digit (Ascii.ascii_of_nat (Z.to_nat d + 48)) = true /\
  digit_val (Ascii.ascii_of_nat (Z.to_nat d + 48)) = d.
Proof.
  intros. unfold is_ascii_digit, digit_val. rewrite Ascii.nat_ascii_embedding by lia.
  rewrite andb_true_iff, !Nat.leb_le. lia.
Qed.

Lemma digits_fixed_spec k n : 0 <= n ->
  all_digits (digits_fixed k n) = true /\ String.length (digits_fixed k n) = k /\
  num_from 0 (digits_fixed k n) = n mod 10 ^ Z.of_nat k.
Proof.
  revert n; induction k as [|k IH]; intros n Hn.
  - cbn. by rewrite Z.mod_1_r.
  - pose proof (Z.mod_pos_bound n 10 ltac:(lia)).
    assert (0 <= n / 10) by (apply Z.div_pos; lia).
    destruct (digit_char (n mod 10) ltac:(lia)) as [Hd Hv].
    destruct (IH (n / 10) ltac:(done)) as (Ha & Hl & Hnum). cbn [digits_fixed]. split_and!.
    + apply all_digits_app; [done|]. cbn. by rewrite Hd.
    + rewrite length_append, Hl. cbn. lia.
    + rewrite num_from_app, Hnum. cbn [num_from]. rewrite Hv, pow10_succ.
      rewrite (Z.rem_mul_r n 10) by (pose proof (pow10_pos (Z.of_nat k)); lia). ring.
Qed.

Lemma digit_count_spec fuel n : 0 <= n < 10 ^ Z.of_nat fuel -> (0 < fuel)%nat ->
  (0 < digit_count fuel n)%nat /\ n < 10 ^ Z.of_nat (digit_count fuel n) /\
  (n = 0 -> digit_count fuel n = 1%nat) /\
  (0 < n -> 10 ^ (Z.of_nat (digit_count fuel n) - 1) <= n).
Proof.
  revert n; induction fuel as [|fuel IH]; intros n Hn Hf; [lia|]. cbn [digit_count].
  destruct (n <? 10) eqn:Hlt; [apply Z.ltb_lt in Hlt|apply Z.ltb_ge in Hlt].
  - change (10 ^ Z.of_nat 1) with 10. change (10 ^ (Z.of_nat 1 - 1)) with 1. lia.
  - rewrite pow10_succ in Hn.
    assert (0 < fuel)%nat as Hf' by (destruct fuel; [change (10 ^ Z.of_nat 0) with 1 in Hn; lia|lia]).
    assert (1 <= n / 10) by (apply Z.div_le_lower_bound; lia).
    destruct (IH (n / 10)) as (H1 & H2 & _ & H3); [|done|].
    { split; [lia|]. apply Z.div_lt_upper_bound; lia. }
    pose proof (Z.div_mod n 10 ltac:(lia)). pose proof (Z.mod_pos_bound n 10 ltac:(lia)).
    split_and!; [lia| |lia|].
    + rewrite pow10_succ. lia.
    + intros _. rewrite Nat2Z.inj_succ. replace (Z.succ _ - 1) with (Z.succ (Z.of_nat (digit_count fuel (n / 10)) - 1)) by lia.
      rewrite Z.pow_succ_r by lia. specialize (H3 ltac:(lia)). lia.
Qed.

Lemma digit_count_le fuel n : (digit_count fuel n <= fuel)%nat.
Proof.
  revert n; induction fuel as [|fuel IH]; intros n; cbn [digit_count]; [lia|].
  destruct (n <? 10); [lia|]. specialize (IH (n / 10)). lia.
Qed.

Lemma wf_show_u64 n : 0 <= n <= u64_max -> wf_int (show_u64 n) /\ num_from 0 (show_u64 n) = n /\
  (String.length (show_u64 n) <= 20)%nat.
Proof.
  intros Hn. unfold show_u64. unfold u64_max in Hn.
  destruct (digit_count_spec 20 n) as (Hc & Hlt & H0 & Hge); [split; [lia|]|lia|].
  { change (10 ^ Z.of_nat 20) with 100000000000000000000. lia. }
  destruct (digits_fixed_spec (digit_count 20 n) n) as (Hd & Hl & Hnum); [lia|].
  rewrite Z.mod_small in Hnum by lia.
  pose proof (digit_count_le 20 n).
  split_and!; [|done|lia].
  destruct (Z.eq_dec n 0) as [->|Hn0]; [by left|right].
  destruct (digits_fixed (digit_count 20 n) n) as [|c r] eqn:Hs; [rewrite <-Hl in Hc; cbn in Hc; lia|].
  exists c, r. split_and!; [done| |done]. intros ->.
  cbn [String.length] in Hl. cbn [num_from all_digits] in Hnum, Hd. change (digit_val "0") with 0 in Hnum.
  apply andb_true_iff in Hd as [_ Hd]. pose proof (num_from_bounds r Hd).
  specialize (Hge ltac:(lia)). rewrite <-Hl in Hge.
  rewrite Nat2Z.inj_succ in Hge.
  replace (Z.succ (Z.of_nat (String.length r)) - 1) with (Z.of_nat (String.length r)) in Hge by lia.
  change (0 * 10 + 0) with 0 in Hnum. lia.
Qed.

(** [zec_str n] is the decimal that denotes [n] zatoshis. *)
Lemma zec_str_parsed n : 0 <= n <= UPPER_BOUND ->
  parsed (zec_str n) 8 n
    (Decimal false (show_u64 (n / 100000000)) (Some (digits_fixed 8 (n mod 100000000))) None) /\
  Z.of_nat (String.length (zec_str n)) <= max_len.
Proof.
  intros Hn. pose proof (Z.div_pos n 100000000 ltac:(lia) ltac:(lia)).
  pose proof (Z.mod_pos_bound n 100000000 ltac:(lia)).
  pose proof (Z.div_mod n 100000000 ltac:(lia)) as Hdm.
  destruct (wf_show_u64 (n / 100000000)) as (Hw & Hi & Hl);
    [unfold UPPER_BOUND, u64_max in *; lia|].
  destruct (digits_fixed_spec 8 (n mod 100000000)) as (Hd & Hl8 & Hf); [lia|].
  change (10 ^ Z.of_nat 8) with 100000000 in Hf.
  rewrite (Z.mod_small (n mod 100000000)) in Hf by lia.
  split.
  - unfold parsed. split_and!; cbn [dec_int dec_frac dec_exp from_option]; try done; try lia.
    unfold denotes, dec_num, dec_sign, dec_exponent, dec_scale, frac_digits;
        cbn [dec_neg dec_int dec_frac dec_exp from_option Datatypes.id].
    rewrite num_from_linear, Hl8, Hi, Hf. change (10 ^ Z.of_nat 8) with 100000000.
    change (Z.max 0 _) with 0 at 1. change (Z.max 0 _) with 0. change (10 ^ 0) with 1. lia.
  - unfold zec_str. rewrite !length_append, Hl8. unfold max_len. cbn [String.length]. lia.
Qed.

(** ** Amount parameters *)

Section amounts.
Context `{ZatoshisLaws}.

(** [zatoshis_from_value] accepts exactly the strings and numbers that are
    decimals of a whole number of zatoshis between 0 and [MAX_MONEY], and
    returns that number; what it rejects it rejects with the [Type_] or the
    [InvalidParameter] code, the latter exactly for negative amounts; it never
    panics. *)
Theorem zatoshis_from_value_correct value text :
  value = JString text \/ value = JNumber text -> Z.of_nat (String.length text) <= max_len ->
  (forall n, zatoshis_from_value value = Ret n <->
     0 <= n <= MAX_MONEY /\ exists d, parsed text 8 n d) /\
  (forall e, zatoshis_from_value value = Err e ->
     code e = from_legacy Type_ \/
     code e = from_legacy InvalidParameter /\ exists n d, n < 0 /\ parsed text 8 n d) /\
  zatoshis_from_value value <> Panic.
Proof.
  intros Hv Hlen.
  assert (zatoshis_from_value value = zatoshis_from_value (JString text)) as ->
    by by destruct Hv; subst.
  assert (0 <= 8 <= max_len) as H8 by (unfold max_len; lia). clear Hv value.
  pose proof (parse_fixed_point_post text 8 Hlen H8) as Hp.
  assert (forall n d, parsed text 8 n d -> parse_fixed_point text 8 = Ret n) as Hc
    by (intros; by eapply parse_fixed_point_parsed).
  unfold zatoshis_from_value; cbn.
  destruct (parse_fixed_point text 8) as [z|[]|]; cbn; [|split_and!; try done|done].
  - rewrite from_nonnegative_i64_spec.
    destruct (z <? 0) eqn:H1; [apply Z.ltb_lt in H1|apply Z.ltb_ge in H1;
      destruct (MAX_MONEY <? z) eqn:H2; [apply Z.ltb_lt in H2|apply Z.ltb_ge in H2]]; cbn;
      split_and!; try done.
    + intros n. split; [done|]. intros (Hn & d & Hd). apply Hc in Hd. injection Hd. lia.
    + intros e [= <-]. right. naive_solver.
    + intros n. split; [done|]. intros (Hn & d & Hd). apply Hc in Hd. injection Hd. lia.
    + intros e [= <-]. by left.
    + intros n. split; [by intros [= <-]|]. intros (Hn & d & Hd). apply Hc in Hd. congruence.
  - intros n. split; [done|]. intros (_ & d & Hd). by apply Hc in Hd.
  - intros e [= <-]. by left.
Qed.

(** Round trip: formatting an amount with [zec_str] and reading it back
    with [zatoshis_from_value] gives the same number of zatoshis, for every
    amount that can exist. *)
Theorem zec_str_round_trip n :
  0 <= n <= MAX_MONEY -> zatoshis_from_value (JString (zec_str n)) = Ret n.
Proof.
  intros Hn. unfold MAX_MONEY, COIN in Hn.
  destruct (zec_str_parsed n) as [Hp Hl]; [unfold UPPER_BOUND; lia|].
  unfold zatoshis_from_value; cbn [mbind outcome_bind].
  assert (0 <= 8 <= max_len) as H8 by (unfold max_len; lia).
  rewrite (parse_fixed_point_parsed _ _ _ _ Hl H8 Hp). cbn.
  rewrite from_nonnegative_i64_spec. unfold MAX_MONEY, COIN.
  destruct (Z.ltb_spec n 0); [lia|]. destruct (Z.ltb_spec (21000000 * 100000000) n); [lia|done].
Qed.
End amounts.

(** The crate's behaviour, as a concrete instance for the examples. *)
Definition zatoshis_example : ZatoshisOps := {|
  from_nonnegative_i64 z :=
    if z <? 0 then Err Underflow else if MAX_MONEY <? z then Err Overflow else Ret z
|}.

Lemma zatoshis_example_laws : @ZatoshisLaws zatoshis_example.
Proof. by constructor. Defined.

Lemma zatoshis_from_value_correct_witness :
  exists d, parsed "1.5" 8 150000000 d.
Proof.
  destruct (@zatoshis_from_value_correct _ zatoshis_example_laws (JNumber "1.5") "1.5") as [H _];
    [by right|by vm_compute; intros|].
  exact (proj2 (proj1 (H 150000000) ltac:(vm_compute; reflexivity))).
Defined.

Lemma zec_str_round_trip_witness :
  @zatoshis_from_value zatoshis_example (JString "20999999.99999999") = Ret 2099999999999999.
Proof.
  apply (@zec_str_round_trip _ zatoshis_example_laws 2099999999999999).
  split; vm_compute; intros ?; discriminate.
Defined.
