(* ===== verification/Privacy.v ===== *)
(** Privacy policies
    (src/zallet/src/components/json_rpc/payments.rs, lines 110-635): the
    lattice of policies, the check of a transaction proposal against a policy,
    the policy a proposal requires, and the errors.

    The lattice is given a meaning: a policy is the set of things it lets a
    transaction reveal ([leaks]), a proposal step reveals a set of things
    ([revealed]), and the code's branch structure is proved to compare the two. *)

From S2P Require Import Prelude Rpc.

(** ** Policies *)

Inductive PrivacyPolicy :=
  | FullPrivacy
  | AllowRevealedAmounts
  | AllowRevealedRecipients
  | AllowRevealedSenders
  | AllowFullyTransparent
  | AllowLinkingAccountAddresses
  | NoPrivacy.

#[export] Instance PrivacyPolicy_eq_dec : EqDecision PrivacyPolicy.
Proof. solve_decision. Defined.

(** [impl From<PrivacyPolicy> for &'static str], used by [Display]. *)
Definition to_str (p : PrivacyPolicy) : string :=
  match p with
  | FullPrivacy => "FullPrivacy"
  | AllowRevealedAmounts => "AllowRevealedAmounts"
  | AllowRevealedRecipients => "AllowRevealedRecipients"
  | AllowRevealedSenders => "AllowRevealedSenders"
  | AllowFullyTransparent => "AllowFullyTransparent"
  | AllowLinkingAccountAddresses => "AllowLinkingAccountAddresses"
  | NoPrivacy => "NoPrivacy"
  end.

Definition from_str (s : string) : option PrivacyPolicy :=
  if bool_decide (s = "FullPrivacy") then Some FullPrivacy
  else if bool_decide (s = "AllowRevealedAmounts") then Some AllowRevealedAmounts
  else if bool_decide (s = "AllowRevealedRecipients") then Some AllowRevealedRecipients
  else if bool_decide (s = "AllowRevealedSenders") then Some AllowRevealedSenders
  else if bool_decide (s = "AllowFullyTransparent") then Some AllowFullyTransparent
  else if bool_decide (s = "AllowLinkingAccountAddresses") then Some AllowLinkingAccountAddresses
  else if bool_decide (s = "NoPrivacy") then Some NoPrivacy
  else None.

Definition meet (self other : PrivacyPolicy) : PrivacyPolicy :=
  match self with
  | FullPrivacy => other
  | AllowRevealedAmounts =>
      match other with
      | FullPrivacy => self
      | _ => other
      end
  | AllowRevealedRecipients =>
      match other with
      | FullPrivacy | AllowRevealedAmounts => self
      | AllowRevealedSenders => AllowFullyTransparent
      | AllowLinkingAccountAddresses => NoPrivacy
      | _ => other
      end
  | AllowRevealedSenders =>
      match other with
      | FullPrivacy | AllowRevealedAmounts => self
      | AllowRevealedRecipients => AllowFullyTransparent
      | _ => other
      end
  | AllowFullyTransparent =>
      match other with
      | FullPrivacy | AllowRevealedAmounts | AllowRevealedRecipients | AllowRevealedSenders => self
      | AllowLinkingAccountAddresses => NoPrivacy
      | _ => other
      end
  | AllowLinkingAccountAddresses =>
      match other with
      | FullPrivacy | AllowRevealedAmounts | AllowRevealedSenders => self
      | AllowRevealedRecipients | AllowFullyTransparent => NoPrivacy
      | _ => other
      end
  | NoPrivacy => self
  end.

Definition is_compatible_with (self other : PrivacyPolicy) : bool :=
  bool_decide (self = meet self other).

Definition allow_revealed_amounts (p : PrivacyPolicy) := is_compatible_with p AllowRevealedAmounts.
Definition allow_revealed_recipients (p : PrivacyPolicy) := is_compatible_with p AllowRevealedRecipients.
Definition allow_revealed_senders (p : PrivacyPolicy) := is_compatible_with p AllowRevealedSenders.
Definition allow_fully_transparent (p : PrivacyPolicy) := is_compatible_with p AllowFullyTransparent.
Definition allow_linking_account_addresses (p : PrivacyPolicy) :=
  is_compatible_with p AllowLinkingAccountAddresses.
Definition allow_no_privacy (p : PrivacyPolicy) := is_compatible_with p NoPrivacy.

(** ** Errors *)

Inductive IncompatiblePrivacyPolicy :=
  | IncNoPrivacy
  | LinkingAccountAddresses
  | FullyTransparent
  | TransparentSender
  | TransparentRecipient
  | TransparentChange
  | TransparentReceiver
  | RevealingSaplingAmount
  | RevealingOrchardAmount
  | RevealingReceiverAmounts.

(** The recommendation the messages end with. *)
Definition weakening (policy : string) : message :=
  Fl "rec-privpol-privacy-weakening" [("parameter", Text "privacyPolicy"); ("policy", Text policy)].

Definition two_sentences (a b : message) : message := Cat a (Cat (Text " ") b).

(** [impl From<IncompatiblePrivacyPolicy> for ErrorObjectOwned]. *)
Definition incompatible_error (e : IncompatiblePrivacyPolicy) : ErrorObject :=
  with_message InvalidParameter
    match e with
    | IncNoPrivacy =>
        Fl "err-privpol-no-privacy-not-allowed"
          [("parameter", Text "privacyPolicy"); ("policy", Text "NoPrivacy")]
    | LinkingAccountAddresses =>
        two_sentences (Fl "err-privpol-linking-addrs-not-allowed" [])
          (weakening "AllowLinkingAccountAddresses")
    | FullyTransparent =>
        two_sentences (Fl "err-privpol-fully-transparent-not-allowed" [])
          (weakening "AllowFullyTransparent")
    | TransparentSender =>
        two_sentences (Fl "err-privpol-transparent-sender-not-allowed" [])
          (weakening "AllowRevealedSenders")
    | TransparentRecipient =>
        two_sentences (Fl "err-privpol-transparent-recipient-not-allowed" [])
          (weakening "AllowRevealedRecipients")
    | TransparentChange =>
        two_sentences (Fl "err-privpol-transparent-change-not-allowed" [])
          (weakening "AllowRevealedRecipients")
    | TransparentReceiver =>
        two_sentences (Fl "err-privpol-transparent-receiver-not-allowed" [])
          (weakening "AllowRevealedRecipients")
    | RevealingSaplingAmount =>
        two_sentences (Fl "err-privpol-revealing-amount-not-allowed" [("pool", Text "Sapling")])
          (weakening "AllowRevealedAmounts")
    | RevealingOrchardAmount =>
        two_sentences (Fl "err-privpol-revealing-amount-not-allowed" [("pool", Text "Orchard")])
          (weakening "AllowRevealedAmounts")
    | RevealingReceiverAmounts =>
        two_sentences (Fl "err-privpol-revealing-receiver-amounts-not-allowed" [])
          (weakening "AllowRevealedAmounts")
    end.

(** ** Proposals *)

Inductive PoolType := Transparent | SAPLING | ORCHARD.

#[export] Instance PoolType_eq_dec : EqDecision PoolType.
Proof. solve_decision. Defined.

(** The accessors of the [zcash_client_backend] crate's proposal [Step] that
    the code reads. A shielded input is its notes, each seen as its protocol's
    pool; [change] lists the pools of the proposed change outputs. *)
Class StepView (Step Addr : Type) := {
  is_shielding : Step -> bool;
  transparent_inputs : Step -> list Addr;
  shielded_inputs : Step -> list (list PoolType);
  payment_pools : Step -> list PoolType;
  change : Step -> list PoolType
}.

Section proposal.
Context {Step Addr : Type} `{StepView Step Addr} `{EqDecision Addr}.

(** [StepPoolExt], and the closures of the same names in
    [enforce_privacy_policy]. *)
Definition input_in_pool (step : Step) (pool : PoolType) : bool :=
  match pool with
  | Transparent =>
      is_shielding step || negb (bool_decide (transparent_inputs step = []))
  | SAPLING =>
      existsb (existsb (fun note => bool_decide (note = SAPLING))) (shielded_inputs step)
  | ORCHARD =>
      existsb (existsb (fun note => bool_decide (note = ORCHARD))) (shielded_inputs step)
  end.

Definition output_in_pool (step : Step) (pool_type : PoolType) : bool :=
  existsb (fun pool => bool_decide (pool = pool_type)) (payment_pools step).

Definition change_in_pool (step : Step) (pool_type : PoolType) : bool :=
  existsb (fun c => bool_decide (c = pool_type)) (change step).

(** [received_addrs.len()], a [HashSet]'s size. *)
Definition received_addrs_len (step : Step) : nat :=
  length (remove_dups (transparent_inputs step)).

(** The body of the loop of [enforce_privacy_policy]. *)
Definition enforce_step (privacy_policy : PrivacyPolicy) (step : Step) :
    outcome IncompatiblePrivacyPolicy unit :=
  let has_transparent_recipient := output_in_pool step Transparent in
  let has_transparent_change := change_in_pool step Transparent in
  let has_sapling_recipient := output_in_pool step SAPLING || change_in_pool step SAPLING in
  let has_orchard_recipient := output_in_pool step ORCHARD || change_in_pool step ORCHARD in
  if input_in_pool step Transparent then
    if (1 <? received_addrs_len step)%nat then
      if has_transparent_recipient || has_transparent_change then
        ensure (allow_no_privacy privacy_policy) IncNoPrivacy
      else ensure (allow_linking_account_addresses privacy_policy) LinkingAccountAddresses
    else if has_transparent_recipient || has_transparent_change then
      ensure (allow_fully_transparent privacy_policy) FullyTransparent
    else ensure (allow_revealed_senders privacy_policy) TransparentSender
  else if has_transparent_recipient then
    ensure (allow_revealed_recipients privacy_policy) TransparentRecipient
  else if has_transparent_change then
    ensure (allow_revealed_recipients privacy_policy) TransparentChange
  else if input_in_pool step ORCHARD && has_sapling_recipient then
    ensure (allow_revealed_amounts privacy_policy) RevealingSaplingAmount
  else if input_in_pool step SAPLING && has_orchard_recipient then
    ensure (allow_revealed_amounts privacy_policy) RevealingOrchardAmount
  else Ret tt.

Definition enforce_privacy_policy (steps : list Step) (privacy_policy : PrivacyPolicy) :
    outcome IncompatiblePrivacyPolicy unit :=
  _ ← foldM (fun _ => enforce_step privacy_policy) tt steps;
  assert (is_compatible_with privacy_policy FullPrivacy).

(** [step_required] in [required_privacy_policy]. *)
Definition step_required (step : Step) : PrivacyPolicy :=
  let has_transparent_recipient := output_in_pool step Transparent in
  let has_transparent_change := change_in_pool step Transparent in
  let has_sapling_recipient := output_in_pool step SAPLING || change_in_pool step SAPLING in
  let has_orchard_recipient := output_in_pool step ORCHARD || change_in_pool step ORCHARD in
  if input_in_pool step Transparent then
    if (1 <? received_addrs_len step)%nat then
      if has_transparent_recipient || has_transparent_change then NoPrivacy
      else AllowLinkingAccountAddresses
    else if has_transparent_recipient || has_transparent_change then AllowFullyTransparent
    else AllowRevealedSenders
  else if has_transparent_recipient || has_transparent_change then AllowRevealedRecipients
  else if (input_in_pool step ORCHARD && has_sapling_recipient)
       || (input_in_pool step SAPLING && has_orchard_recipient) then AllowRevealedAmounts
  else FullPrivacy.

Definition required_privacy_policy (steps : list Step) : PrivacyPolicy :=
  foldl (fun required step => meet required (step_required step)) FullPrivacy steps.
End proposal.

Definition parse_privacy_policy (privacy_policy : option string) : RpcResult PrivacyPolicy :=
  match privacy_policy with
  | Some s =>
      if bool_decide (s = "LegacyCompat") then
        Err (with_static InvalidParameter "LegacyCompat privacy policy is unsupported in Zallet")
      else ok_or (from_str s)
        (with_message InvalidParameter (Text ("Unknown privacy policy " +:+ s)%string))
  | None => Ret FullPrivacy
  end.

(** ** What policies and proposals mean *)

(** The kinds of information a transaction can reveal. *)
Inductive leak := Amounts | Recipients | Senders | LinkedAddresses.

#[export] Instance leak_eq_dec : EqDecision leak.
Proof. solve_decision. Defined.

(** What a policy lets a transaction reveal, as its documentation says. *)
Definition allows (p : PrivacyPolicy) (l : leak) : bool :=
  match p, l with
  | FullPrivacy, _ => false
  | AllowRevealedAmounts, Amounts => true
  | AllowRevealedRecipients, (Amounts | Recipients) => true
  | AllowRevealedSenders, (Amounts | Senders) => true
  | AllowFullyTransparent, (Amounts | Recipients | Senders) => true
  | AllowLinkingAccountAddresses, (Amounts | Senders | LinkedAddresses) => true
  | NoPrivacy, _ => true
  | _, _ => false
  end.

(** What a step reveals, independently of any policy. *)
Definition reveals {Step Addr} `{StepView Step Addr} `{EqDecision Addr}
    (step : Step) (l : leak) : bool :=
  let spends_transparent := input_in_pool step Transparent in
  let pays_transparent := output_in_pool step Transparent || change_in_pool step Transparent in
  match l with
  | Senders => spends_transparent
  | LinkedAddresses => spends_transparent && (1 <? received_addrs_len step)%nat
  | Recipients => pays_transparent
  | Amounts =>
      spends_transparent || pays_transparent
      || input_in_pool step ORCHARD && (output_in_pool step SAPLING || change_in_pool step SAPLING)
      || input_in_pool step SAPLING && (output_in_pool step ORCHARD || change_in_pool step ORCHARD)
  end.

(** The policy an error message recommends. *)
Definition recommended (e : IncompatiblePrivacyPolicy) : PrivacyPolicy :=
  match e with
  | IncNoPrivacy => NoPrivacy
  | LinkingAccountAddresses => AllowLinkingAccountAddresses
  | FullyTransparent => AllowFullyTransparent
  | TransparentSender => AllowRevealedSenders
  | TransparentRecipient | TransparentChange | TransparentReceiver => AllowRevealedRecipients
  | RevealingSaplingAmount | RevealingOrchardAmount | RevealingReceiverAmounts =>
      AllowRevealedAmounts
  end.

(** ** Lemmas *)

Lemma meet_allows p q l : allows (meet p q) l = allows p l || allows q l.
Proof. by destruct p, q, l. Qed.

Lemma allows_inj p q : (forall l, allows p l = allows q l) -> p = q.
Proof.
  intros Heq. pose proof (Heq Amounts). pose proof (Heq Recipients).
  pose proof (Heq Senders). pose proof (Heq LinkedAddresses). clear Heq.
  by destruct p, q.
Qed.

Lemma compatible_allows p q :
  is_compatible_with p q = true <-> (forall l, allows q l = true -> allows p l = true).
Proof.
  unfold is_compatible_with. rewrite bool_decide_eq_true. split.
  - intros -> l Hl. by rewrite meet_allows, Hl, orb_true_r.
  - intros Hsub. apply allows_inj. intros l. rewrite meet_allows.
    specialize (Hsub l). destruct (allows q l); [by rewrite Hsub|by rewrite orb_false_r].
Qed.

Lemma from_str_to_str p : from_str (to_str p) = Some p.
Proof. by destruct p. Qed.

Lemma from_str_Some s p : from_str s = Some p -> s = to_str p.
Proof.
  unfold from_str. repeat case_bool_decide; subst; by intros [= <-].
Qed.

Section proposal_lemmas.
Context {Step Addr : Type} `{StepView Step Addr} `{EqDecision Addr}.

Lemma step_required_allows (step : Step) l : allows (step_required step) l = reveals step l.
Proof.
  unfold step_required, reveals.
  destruct (input_in_pool step Transparent), (1 <? received_addrs_len step)%nat,
    (output_in_pool step Transparent), (change_in_pool step Transparent),
    (input_in_pool step ORCHARD), (input_in_pool step SAPLING),
    (output_in_pool step SAPLING || change_in_pool step SAPLING),
    (output_in_pool step ORCHARD || change_in_pool step ORCHARD); by destruct l.
Qed.

(** The two branch structures agree, and an error names the required policy. *)
Lemma enforce_step_required p (step : Step) :
  match enforce_step p step with
  | Ret _ => is_compatible_with p (step_required step) = true
  | Err e => is_compatible_with p (step_required step) = false /\
             recommended e = step_required step
  | Panic => False
  end.
Proof.
  unfold enforce_step, step_required.
  destruct (input_in_pool step Transparent), (1 <? received_addrs_len step)%nat,
    (output_in_pool step Transparent), (change_in_pool step Transparent),
    (input_in_pool step ORCHARD), (input_in_pool step SAPLING),
    (output_in_pool step SAPLING || change_in_pool step SAPLING),
    (output_in_pool step ORCHARD || change_in_pool step ORCHARD); by destruct p.
Qed.

Lemma required_fold_allows (steps : list Step) p l :
  allows (foldl (fun required step => meet required (step_required step)) p steps) l =
    allows p l || existsb (fun s => reveals s l) steps.
Proof.
  revert p; induction steps as [|s steps IH]; intros p; cbn; [by rewrite orb_false_r|].
  by rewrite IH, meet_allows, step_required_allows, orb_assoc.
Qed.

Lemma required_allows (steps : list Step) l :
  allows (required_privacy_policy steps) l = existsb (fun s => reveals s l) steps.
Proof. unfold required_privacy_policy. by rewrite required_fold_allows. Qed.

Lemma required_cons (s : Step) steps p :
  is_compatible_with p (required_privacy_policy (s :: steps)) =
    is_compatible_with p (step_required s) && is_compatible_with p (required_privacy_policy steps).
Proof.
  apply eq_true_iff_eq. rewrite andb_true_iff, !compatible_allows.
  setoid_rewrite required_allows. setoid_rewrite step_required_allows. cbn.
  setoid_rewrite orb_true_iff. naive_solver.
Qed.

Lemma enforce_required (steps : list Step) p :
  enforce_privacy_policy steps p = Ret tt <->
  is_compatible_with p (required_privacy_policy steps) = true.
Proof.
  induction steps as [|s steps IH]; [by destruct p|].
  rewrite required_cons, andb_true_iff, <-IH.
  unfold enforce_privacy_policy; cbn. pose proof (enforce_step_required p s) as Hs.
  destruct (enforce_step p s) as [[]| |]; cbn in *; intuition congruence.
Qed.

Lemma enforce_allows (steps : list Step) p :
  enforce_privacy_policy steps p = Ret tt <->
  forall step l, step ∈ steps -> reveals step l = true -> allows p l = true.
Proof.
  rewrite enforce_required, compatible_allows. setoid_rewrite required_allows.
  setoid_rewrite existsb_exists. setoid_rewrite list_elem_of_In. naive_solver.
Qed.

Lemma enforce_not_Panic (steps : list Step) p : enforce_privacy_policy steps p <> Panic.
Proof.
  unfold enforce_privacy_policy. induction steps as [|s steps IH]; [by destruct p|].
  cbn. pose proof (enforce_step_required p s).
  by destruct (enforce_step p s) as [[]| |].
Qed.

(** C1. The privacy check is right and complete: for every proposal and
    policy, [enforce_privacy_policy] succeeds exactly when the policy allows
    everything that some step of the proposal reveals, which is exactly when
    the policy is compatible with [required_privacy_policy]; otherwise it fails
    at the first offending step, with an error that recommends the strictest
    policy under which that step is allowed; its final [assert!] never fires. *)
Theorem enforce_privacy_policy_correct (steps : list Step) p :
  (enforce_privacy_policy steps p = Ret tt <->
     forall step l, step ∈ steps -> reveals step l = true -> allows p l = true) /\
  (enforce_privacy_policy steps p = Ret tt <->
     is_compatible_with p (required_privacy_policy steps) = true) /\
  (forall e, enforce_privacy_policy steps p = Err e ->
     exists before step after, steps = before ++ step :: after /\
       enforce_privacy_policy before p = Ret tt /\
       is_compatible_with p (step_required step) = false /\
       recommended e = step_required step) /\
  enforce_privacy_policy steps p <> Panic.
Proof.
  split_and!; [apply enforce_allows|apply enforce_required| |apply enforce_not_Panic].
  - intros e. unfold enforce_privacy_policy. induction steps as [|s steps IH]; [by destruct p|].
    cbn. pose proof (enforce_step_required p s) as Hs.
    destruct (enforce_step p s) as [[]|e'|] eqn:He; cbn; [|intros [= ->]|done].
    + intros He'. destruct (IH He') as (before & step & after & -> & Hb & Hr).
      exists (s :: before), step, after. split_and!; try apply Hr; [done|].
      unfold enforce_privacy_policy. cbn. by rewrite He.
    + exists [], s, steps. split_and!; try apply Hs; [done|]. by destruct p.
Qed.
End proposal_lemmas.

(** The policies form a lattice under strictness with [meet] as its
    greatest lower bound: [is_compatible_with] is a partial order, in which
    [meet p q] is the strictest policy compatible with both [p] and [q], and it
    is inclusion of the sets of things the policies let a transaction reveal. *)
Theorem meet_greatest_lower_bound p q r :
  (is_compatible_with p q = true <-> forall l, allows q l = true -> allows p l = true) /\
  is_compatible_with p p = true /\
  (is_compatible_with p q = true -> is_compatible_with q p = true -> p = q) /\
  (is_compatible_with p q = true -> is_compatible_with q r = true ->
     is_compatible_with p r = true) /\
  is_compatible_with (meet p q) p = true /\ is_compatible_with (meet p q) q = true /\
  (is_compatible_with r p = true -> is_compatible_with r q = true ->
     is_compatible_with r (meet p q) = true).
Proof.
  split_and!; [apply compatible_allows|rewrite ?compatible_allows..]; auto.
  - intros H1 H2. apply allows_inj. intros l. apply eq_true_iff_eq. naive_solver.
  - intros l Hl. by rewrite meet_allows, Hl.
  - intros l Hl. by rewrite meet_allows, Hl, orb_true_r.
  - intros H1 H2 l. rewrite meet_allows, orb_true_iff. naive_solver.
Qed.

(** Names round trip: [from_str] reads back what is displayed for a
    policy and accepts no other text, and [parse_privacy_policy] returns a
    policy exactly for an absent argument (the strictest policy) or a policy's
    name. *)
Theorem parse_privacy_policy_round_trip arg p :
  from_str (to_str p) = Some p /\
  (forall s, from_str s = Some p <-> s = to_str p) /\
  (parse_privacy_policy arg = Ret p <-> arg = Some (to_str p) \/ arg = None /\ p = FullPrivacy).
Proof.
  split_and!; [apply from_str_to_str| |].
  - intros s. split; [apply from_str_Some|]. intros ->. apply from_str_to_str.
  - unfold parse_privacy_policy. destruct arg as [s|]; [case_bool_decide as Hs|].
    + subst s. split; [done|]. intros [[= Hp]|[? ?]]; [by destruct p|done].
    + rewrite ok_or_Ret. split.
      * intros ->%from_str_Some. by left.
      * intros [[= ->]|[? ?]]; [apply from_str_to_str|done].
    + naive_solver.
Qed.
