(* ===== verification/KeystoreLock.v ===== *)
(** Locking and unlocking of the keystore
    (src/zallet-core/src/components/keystore.rs, [KeyStore::is_locked],
    [unlocked_until], [unlock], [lock] and the relock task; the JSON-RPC methods
    [walletpassphrase], [walletlock] and [getwalletinfo] on top of them).

    The keystore is shared by concurrent calls and by the relock tasks that
    [unlock] spawns, so it is a transition system. A transition is what one
    party does between two points at which another can run: [unlock] and [lock]
    hold the [relock_task] mutex from their first transition to their last, a
    relock task never takes it. Aborting a task stops it at its next await
    point only: a task whose timer has fired may still clear the identities. *)

From S2P Require Import Prelude Rpc.

(** [SystemTime] counts seconds in an [i64]; [SystemTime + Duration] panics
    beyond it. *)
Definition time_max : Z := i64_max.

(** A relock task: asleep until its deadline; past its timer and about to clear
    the identities (possibly waiting for their write lock); or over. *)
Inductive task_state := Sleeping (until : Z) | Woken | Finished.

Record task := Task { st : task_state; aborted : bool }.

#[export] Instance task_state_eq_dec : EqDecision task_state.
Proof. solve_decision. Defined.

(** [JoinHandle::abort]. *)
Definition abort (t : task) : task := {| st := st t; aborted := true |}.

Section lock.
Context {Identity Passphrase : Type}.

(** Whether [encrypted_identities] is [Some], and what decrypting it with a
    passphrase gives (the [age] crate): the identities, or nothing. *)
Context (encrypted : bool) (age_decrypt : Passphrase -> option (list Identity)).

(** Who holds the [relock_task] mutex, and where in its critical section. *)
Inductive holder_state :=
  | Free
  | UnlockAwaiting (decrypted : list Identity) (timeout : Z) (existing : option nat)
  | UnlockSpawning (timeout : Z)
  | LockClearing.

(** [tasks] are the tasks spawned so far, by their join handles' numbers. *)
Record state := State {
  identities : list Identity;
  relock_task : option (Z * nat);
  tasks : list task;
  holder : holder_state;
  now : Z
}.

Definition uses_encrypted_identities : bool := encrypted.

Definition is_locked (s : state) : bool :=
  match identities s with
  | [] => true
  | _ => false
  end.

Definition is_finished (s : state) (t : nat) : bool :=
  match tasks s !! t with
  | Some tk => bool_decide (st tk = Finished)
  | None => true
  end.

(** Only observable while the mutex is free. *)
Definition unlocked_until (s : state) : option Z :=
  match relock_task s with
  | Some (deadline, t) => if is_finished s t then None else Some deadline
  | None => None
  end.

(** [decrypt_identity_file] followed by [into_identities]. *)
Definition decrypt_identity_file (passphrase : Passphrase) : option (list Identity) :=
  if encrypted then age_decrypt passphrase else None.

(** [relock_task.take()] and [abort()]. *)
Definition take_and_abort (s : state) (h : holder_state) : state :=
  {| identities := identities s;
     relock_task := None;
     tasks := match relock_task s with
              | Some (_, t) => alter abort t (tasks s)
              | None => tasks s
              end;
     holder := h;
     now := now s |}.

Definition set_task (s : state) (t : nat) (x : task_state) : state :=
  {| identities := identities s;
     relock_task := relock_task s;
     tasks := alter (fun tk => {| st := x; aborted := aborted tk |}) t (tasks s);
     holder := holder s;
     now := now s |}.

Inductive label :=
  | Tick (to : Z)
  | UnlockBegin (passphrase : Passphrase) (timeout : Z)
  | UnlockWrite
  | UnlockSpawn
  | LockBegin
  | LockFinish
  | TaskWake (t : nat)
  | TaskCancel (t : nat)
  | TaskClear (t : nat).

(** [step l s] is the state after transition [l], if [l] can happen in [s]. *)
Definition step (l : label) (s : state) : option state :=
  match l with
  | Tick to =>
      if to <? now s then None
      else Some {| identities := identities s; relock_task := relock_task s;
                   tasks := tasks s; holder := holder s; now := to |}
  | UnlockBegin passphrase timeout =>
      match holder s, decrypt_identity_file passphrase with
      | Free, Some decrypted =>
          if in_u64 timeout then
            Some (take_and_abort s (UnlockAwaiting decrypted timeout (snd <$> relock_task s)))
          else None
      | _, _ => None
      end
  | UnlockWrite =>
      match holder s with
      | UnlockAwaiting decrypted timeout existing =>
          if match existing with Some t => is_finished s t | None => true end then
            Some {| identities := decrypted; relock_task := relock_task s;
                    tasks := tasks s; holder := UnlockSpawning timeout; now := now s |}
          else None
      | _ => None
      end
  | UnlockSpawn =>
      match holder s with
      | UnlockSpawning timeout =>
          if time_max <? now s + timeout then
            (* [SystemTime::now() + duration] panics; the mutex is released. *)
            Some {| identities := identities s; relock_task := relock_task s;
                    tasks := tasks s; holder := Free; now := now s |}
          else
            Some {| identities := identities s;
                    relock_task := Some (now s + timeout, length (tasks s));
                    tasks := tasks s ++ [{| st := Sleeping (now s + timeout); aborted := false |}];
                    holder := Free; now := now s |}
      | _ => None
      end
  | LockBegin =>
      match holder s with
      | Free => if encrypted then Some (take_and_abort s LockClearing) else None
      | _ => None
      end
  | LockFinish =>
      match holder s with
      | LockClearing =>
          Some {| identities := []; relock_task := relock_task s;
                  tasks := tasks s; holder := Free; now := now s |}
      | _ => None
      end
  | TaskWake t =>
      match tasks s !! t with
      | Some {| st := Sleeping d; aborted := false |} =>
          if d <=? now s then Some (set_task s t Woken) else None
      | _ => None
      end
  | TaskCancel t =>
      match tasks s !! t with
      | Some {| st := Sleeping _; aborted := true |}
      | Some {| st := Woken; aborted := true |} => Some (set_task s t Finished)
      | _ => None
      end
  | TaskClear t =>
      match tasks s !! t with
      | Some {| st := Woken |} =>
          let s := set_task s t Finished in
          Some {| identities := []; relock_task := relock_task s;
                  tasks := tasks s; holder := holder s; now := now s |}
      | _ => None
      end
  end.

Fixpoint run (ls : list label) (s : state) : option state :=
  match ls with
  | [] => Some s
  | l :: ls => match step l s with Some s' => run ls s' | None => None end
  end.

(** [KeyStore::new]: an encrypted identity file starts locked, a plaintext one
    with its identities. *)
Definition new (plaintext : list Identity) (t0 : Z) : state :=
  {| identities := if encrypted then [] else plaintext;
     relock_task := None; tasks := []; holder := Free; now := t0 |}.

(** What a sequence of transitions must not contain. *)
Definition no_lock (l : label) : bool := match l with LockBegin => false | _ => true end.
Definition no_unlock (l : label) : bool := match l with UnlockWrite => false | _ => true end.
Definition only_tasks (l : label) : bool :=
  match l with Tick _ | TaskWake _ | TaskCancel _ | TaskClear _ => true | _ => false end.

(** States reached by transitions that satisfy [ok]. *)
Inductive reachable (ok : state -> label -> bool) (s0 : state) : state -> Prop :=
  | reach_init : reachable ok s0 s0
  | reach_step s l s' :
      reachable ok s0 s -> ok s l = true -> step l s = Some s' -> reachable ok s0 s'.

(** Every transition of a run satisfies [ok]. *)
Fixpoint run_ok (ok : state -> label -> bool) (ls : list label) (s : state) : bool :=
  match ls with
  | [] => true
  | l :: ls => ok s l && match step l s with Some s' => run_ok ok ls s' | None => false end
  end.

(** No [unlock] asks for a time beyond what a [SystemTime] can hold. *)
Definition timeouts_fit (s : state) (l : label) : bool :=
  match l, holder s with
  | UnlockSpawn, UnlockSpawning timeout => now s + timeout <=? time_max
  | _, _ => true
  end.

(** ** JSON-RPC methods *)

(** The value [unlock] returns. *)
Definition unlock (passphrase : Passphrase) : bool :=
  match decrypt_identity_file passphrase with
  | Some _ => true
  | None => false
  end.

Definition unlock_wallet_call (passphrase : Passphrase) : RpcResult unit :=
  if negb uses_encrypted_identities then
    Err (with_static WalletWrongEncState
      "Error: running with an unencrypted wallet, but walletpassphrase was called.")
  else if negb (unlock passphrase) then
    Err (with_static WalletPassphraseIncorrect
      "Error: The wallet passphrase entered was incorrect.")
  else Ret tt.

Definition lock_wallet_call : RpcResult unit :=
  if negb uses_encrypted_identities then
    Err (with_static WalletWrongEncState
      "Error: running with an unencrypted wallet, but walletlock was called.")
  else Ret tt.

Definition ensure_wallet_is_unlocked (s : state) : RpcResult unit :=
  if is_locked s then
    Err (with_static WalletUnlockNeeded
      "Error: Please enter the wallet passphrase with walletpassphrase first.")
  else Ret tt.

(** The [unlocked_until] field of [getwalletinfo]; times are seconds since the
    epoch, and [duration_since(UNIX_EPOCH)] panics on earlier ones. *)
Definition wallet_info_unlocked_until (s : state) : outcome Empty_set (option Z) :=
  if uses_encrypted_identities then
    match unlocked_until s with
    | Some i => if i <? 0 then Panic else Ret (Some i)
    | None => Ret (Some 0)
    end
  else Ret None.
End lock.

Arguments state : clear implicits.
Arguments label : clear implicits.
Arguments holder_state : clear implicits.

(** ** Invariants *)

Section lock_proofs.
Context {Identity Passphrase : Type} (encrypted : bool).
Context (age_decrypt : Passphrase -> option (list Identity)).
#[local] Abbreviation state := (state Identity).
#[local] Abbreviation label := (label Passphrase).
#[local] Abbreviation step := (step (Identity:=Identity) (Passphrase:=Passphrase) encrypted age_decrypt).
#[local] Abbreviation run := (run (Identity:=Identity) (Passphrase:=Passphrase) encrypted age_decrypt).
#[local] Abbreviation reachable := (reachable (Identity:=Identity) (Passphrase:=Passphrase) encrypted age_decrypt).

(** Inverts a transition into its cases. *)
Ltac step_cases H :=
  match type of H with KeystoreLock.step _ _ ?l _ = _ => destruct l end;
  cbn in H; repeat case_match; simplify_eq.

(** The current relock task runs with its deadline and is not being aborted;
    an operation that holds the mutex has taken it. *)
Definition relock_inv (s : state) : Prop :=
  forall d t, relock_task s = Some (d, t) ->
    holder s = Free /\ exists tk, tasks s !! t = Some tk /\ aborted tk = false /\
      (st tk = Sleeping d \/ (d <= now s /\ (st tk = Woken \/ st tk = Finished))).

(** Decrypted identities have a live relock task, between operations. *)
Definition covered_inv (s : state) : Prop :=
  encrypted = true -> identities s <> [] -> holder s = Free ->
  exists d t, relock_task s = Some (d, t) /\ is_finished s t = false.

Definition ok_timeouts (s : state) (l : label) : bool := timeouts_fit s l.

Lemma alter_task x t t' (ts : list task) tk :
  ts !! t' = Some tk ->
  exists tk', alter (fun tk => {| st := x; aborted := aborted tk |}) t ts !! t' = Some tk' /\
    aborted tk' = aborted tk /\ (t <> t' -> st tk' = st tk) /\ (t = t' -> st tk' = x).
Proof.
  intros Htk. destruct (decide (t = t')) as [->|Hne].
  - eexists. split; [by rewrite list_lookup_alter_eq, Htk|]. by cbn.
  - exists tk. rewrite list_lookup_alter_ne by done. naive_solver.
Qed.

(** What a relock task's transition does to the tasks it is not about, and
    which states it needs. *)
Lemma relock_inv_step l s s' : relock_inv s -> step l s = Some s' -> relock_inv s'.
Proof.
  intros HI Hs. step_cases Hs; intros d' t' Hr; cbn in *; try discriminate;
    (* no new task, or the last one *)
    try (simplify_eq; split; [done|]; rewrite lookup_app_r, Nat.sub_diag by done; cbn; by eauto);
    (destruct (HI d' t' Hr) as (Hfree & tk & Htk & Ha & Hst); try congruence; split; try done);
    (* tasks unchanged *)
    try (exists tk; (split_and!; [done..|]); (destruct Hst as [?|[? ?]]; [by left|]);
      right; (split; [lia|done]));
    (* task transitions *)
    match goal with
    | |- context [alter (fun tk => {| st := ?x; aborted := _ |}) ?t _] =>
        destruct (alter_task x t t' _ tk Htk) as (tk' & Hl & Hab & Hne & Heq)
    end;
    exists tk'; (split_and!; [done|congruence|]);
    (destruct (decide (t = t')) as [->|]; [rewrite Heq by done|by rewrite Hne]);
    simplify_eq; cbn in *; try discriminate; right;
    destruct Hst as [?|[? [?|?]]]; simplify_eq; (split; [lia|by auto]).
Qed.

Lemma is_finished_set_task (s : state) t x t0 :
  t <> t0 -> is_finished (set_task s t x) t0 = is_finished s t0.
Proof. intros. unfold is_finished; cbn. by rewrite list_lookup_alter_ne. Qed.

Lemma covered_inv_step l s s' :
  relock_inv s -> covered_inv s -> timeouts_fit s l = true -> step l s = Some s' -> covered_inv s'.
Proof.
  intros HR HI Hok Hs. step_cases Hs; intros Henc Hid Hfree; cbn in *; try congruence.
  - destruct (HI Henc Hid Hfree) as (d & t & ? & ?). by exists d, t.
  - match goal with Hh : holder s = _ |- _ => rewrite Hh in Hok end. lia.
  - eexists _, _. split; [done|]. unfold is_finished; cbn.
    by rewrite lookup_app_r, Nat.sub_diag by done.
  - destruct (HI Henc Hid Hfree) as (d & t0 & Hr & Hf). exists d, t0. split; [done|].
    destruct (decide (t = t0)) as [->|]; [|by rewrite is_finished_set_task].
    unfold is_finished; cbn. rewrite list_lookup_alter_eq. by simplify_option_eq.
  - destruct (HI Henc Hid Hfree) as (d & t0 & Hr & Hf). exists d, t0. split; [done|].
    destruct (decide (t = t0)) as [->|]; [|by rewrite is_finished_set_task].
    destruct (HR _ _ Hr) as (_ & tk & ? & ? & _). by simplify_eq.
  - destruct (HI Henc Hid Hfree) as (d & t0 & Hr & Hf). exists d, t0. split; [done|].
    destruct (decide (t = t0)) as [->|]; [|by rewrite is_finished_set_task].
    destruct (HR _ _ Hr) as (_ & tk & ? & ? & _). by simplify_eq.
Qed.

Lemma reachable_inv ok s0 s :
  (forall s l, ok s l = true -> timeouts_fit s l = true) ->
  relock_task s0 = None -> (encrypted = true -> identities s0 = []) ->
  reachable ok s0 s -> relock_inv s /\ covered_inv s.
Proof.
  intros Hok Hr0 Hid0. induction 1 as [|s l s' _ [HR HC] Hl Hs].
  - split; [by intros d t; rewrite Hr0|]. intros Henc Hid. by destruct Hid; apply Hid0.
  - split; [by eapply relock_inv_step|]. eapply covered_inv_step; eauto.
Qed.

(** *** Without [walletlock], nothing clears the identities early *)

(** Every live relock task is the current one, or is being awaited. *)
Definition owned_inv (s : state) : Prop :=
  forall t tk, tasks s !! t = Some tk -> st tk <> Finished ->
    (exists d, relock_task s = Some (d, t)) \/
    (exists ids timeout, holder s = UnlockAwaiting ids timeout (Some t)).

(** The identities are there until the deadline, and while it is being set. *)
Definition held_inv (s : state) : Prop :=
  (forall d t, relock_task s = Some (d, t) -> now s < d -> identities s <> []) /\
  (forall ids timeout existing, holder s = UnlockAwaiting ids timeout existing -> ids <> []) /\
  (forall timeout, holder s = UnlockSpawning timeout -> identities s <> []) /\
  holder s <> LockClearing.

Definition live (s : state) (t : nat) : Prop :=
  exists tk, tasks s !! t = Some tk /\ st tk <> Finished.

(** A live task was live before, or has just been spawned. *)
Lemma live_back l s s' t :
  step l s = Some s' -> live s' t ->
  live s t \/ l = UnlockSpawn /\ exists d, relock_task s' = Some (d, t).
Proof.
  intros Hs (tk & Htk & Hst). step_cases Hs; cbn in *; try (left; by exists tk).
  - (* unlock aborts the task it takes *)
    left. destruct (relock_task s) as [[d t0]|]; [|by exists tk].
    rewrite list_lookup_alter in Htk. case_decide; subst; [|by exists tk].
    destruct (tasks s !! t) as [tk0|] eqn:Ht; [|done]. exists tk0. split; [done|].
    by injection Htk as <-.
  - apply lookup_snoc_Some in Htk as [[? ?]|[-> ?]]; [left; by exists tk|eauto].
  - left. destruct (relock_task s) as [[d t0]|]; [|by exists tk].
    rewrite list_lookup_alter in Htk. case_decide; subst; [|by exists tk].
    destruct (tasks s !! t) as [tk0|] eqn:Ht; [|done]. exists tk0. split; [done|].
    by injection Htk as <-.
  - left. rewrite list_lookup_alter in Htk. case_decide; subst; [|by exists tk].
    eexists; split; [eassumption|done].
  - left. rewrite list_lookup_alter in Htk. case_decide; subst; [|by exists tk].
    eexists; split; [eassumption|done].
  - left. rewrite list_lookup_alter in Htk. case_decide; subst; [|by exists tk].
    eexists; split; [eassumption|done].
  - left. rewrite list_lookup_alter in Htk. case_decide; subst; [|by exists tk].
    eexists; split; [eassumption|done].
Qed.

Lemma owned_inv_step l s s' :
  relock_inv s -> owned_inv s -> no_lock l = true -> timeouts_fit s l = true ->
  step l s = Some s' -> owned_inv s'.
Proof.
  intros HR HI Hl Hok Hs t tk Htk Hst.
  destruct (live_back l s s' t Hs) as [(tk0 & Htk0 & Hst0)|(_ & Hnew)]; [by exists tk| |by left].
  assert (forall d t, relock_task s = Some (d, t) -> holder s = Free) as HF
    by (intros ? ? Hr; by destruct (HR _ _ Hr)).
  destruct (HI t tk0 Htk0 Hst0) as [(d & Hr)|(ids & timeout & Hh)].
  - specialize (HF _ _ Hr). step_cases Hs; cbn in *; try congruence; try (left; by exists d).
    right. rewrite Hr. cbn. eauto.
  - step_cases Hs; cbn in *; try congruence; try (right; by eauto).
    exfalso. unfold is_finished in *. rewrite Htk0 in *. by case_bool_decide.
Qed.

Lemma held_inv_step l s s' :
  (forall p ids, age_decrypt p = Some ids -> ids <> []) ->
  relock_inv s -> owned_inv s -> held_inv s -> no_lock l = true -> timeouts_fit s l = true ->
  step l s = Some s' -> held_inv s'.
Proof.
  intros Hne HR HO (H1 & H2 & H3 & H4) Hl Hok Hs.
  assert (forall d t, relock_task s = Some (d, t) -> holder s = Free) as HF
    by (intros ? ? Hr; by destruct (HR _ _ Hr)).
  step_cases Hs; cbn in *; try discriminate; try exact (conj H1 (conj H2 (conj H3 H4)));
    unfold held_inv; cbn.
  - split_and!; try done. intros d t Hr Hd. apply (H1 d t Hr). lia.
  - split_and!; try done. intros ids ? ? [= <- _ _].
    unfold decrypt_identity_file in *. destruct encrypted; [by eapply Hne|done].
  - split_and!; try done; intros; by eapply H2.
  - split_and!; try done; intros; by eapply H2.
  - match goal with Hh : holder s = _ |- _ => rewrite Hh in Hok end. lia.
  - split_and!; try done. intros; by eapply H3.
  - assert (exists tk, tasks s !! t = Some tk /\ st tk = Woken) as (tk & Htk & Hw) by eauto.
    destruct (HO t tk Htk) as [[d Hr]|(ids & timeout & Hh)]; [by rewrite Hw|..].
    + destruct (HR _ _ Hr) as (Hfree & tk' & Htk' & _ & Hst). rewrite Hfree.
      split_and!; try done. intros d' t' Hr' Hd'. simplify_eq.
      rewrite Hw in Hst. destruct Hst as [|[? _]]; [done|lia].
    + rewrite Hh. split_and!; try done; [|by rewrite <-Hh].
      intros d t' Hr. apply HF in Hr. congruence.
Qed.

Lemma reachable_held s0 plain :
  (forall p ids, age_decrypt p = Some ids -> ids <> []) ->
  s0 = new (Identity:=Identity) encrypted plain (now s0) ->
  forall s, reachable (fun s l => no_lock l && timeouts_fit s l) s0 s ->
  relock_inv s /\ owned_inv s /\ held_inv s.
Proof.
  intros Hne -> s. induction 1 as [|s l s' _ (HR & HO & HH) Hl Hs].
  - split_and!; [by intros ? ?|by intros ? ?|]. by split_and!.
  - apply andb_true_iff in Hl as [Hl Hok]. split_and!.
    + by eapply relock_inv_step.
    + by eapply owned_inv_step.
    + by eapply held_inv_step.
Qed.

(** Only [UnlockWrite] puts identities in memory. *)
Lemma stays_locked ls s s' :
  forallb no_unlock ls = true -> is_locked s = true -> run ls s = Some s' -> is_locked s' = true.
Proof.
  revert s. induction ls as [|l ls IH]; intros s; cbn; [by intros _ ? [= <-]|].
  intros [Hl Hls]%andb_true_iff Hlock. destruct (step l s) as [s1|] eqn:Hs; [|done].
  apply IH; [done|].
  assert (identities s = []) as Hi by (unfold is_locked in Hlock; by destruct (identities s)).
  clear Hlock. unfold is_locked. step_cases Hs; cbn in *; congruence.
Qed.

Lemma finish_relock s d t :
  relock_inv s -> relock_task s = Some (d, t) -> is_finished s t = false -> d <= now s ->
  exists ls s', forallb only_tasks ls = true /\ run ls s = Some s' /\
    is_locked s' = true /\ now s' = now s.
Proof.
  intros HR Hr Hf Hd. destruct (HR _ _ Hr) as (_ & [x a] & Htk & Ha & Hst); cbn in *. subst a.
  unfold is_finished in Hf. rewrite Htk in Hf. case_bool_decide as Hx; [done|]. cbn in Hx.
  destruct Hst as [->|[_ [->| ->]]]; [| |done].
  - exists [TaskWake t; TaskClear t]. cbn. rewrite Htk. destruct (Z.leb_spec d (now s)); [|lia].
    cbn. rewrite list_lookup_alter_eq, Htk. cbn. eauto.
  - exists [TaskClear t]. cbn. rewrite Htk. cbn. eauto.
Qed.

Lemma run_reachable ok s0 ls s s' :
  reachable ok s0 s -> run_ok encrypted age_decrypt ok ls s = true -> run ls s = Some s' -> reachable ok s0 s'.
Proof.
  revert s. induction ls as [|l ls IH]; intros s Hr; cbn; [by intros _ [= <-]|].
  intros [Hok Hls]%andb_true_iff. destruct (step l s) as [s1|] eqn:Hs; [|done].
  apply IH; [|done]. by eapply reach_step.
Qed.
End lock_proofs.

(** ** Properties *)

Section lock_properties.
Context {Identity Passphrase : Type} (encrypted : bool).
Context (age_decrypt : Passphrase -> option (list Identity)).

(** C5. Provided that no unlock asks for a timeout that takes the clock past
    what a SystemTime holds (timeouts_fit; a longer one makes the keystore
    stay unlocked): in every interleaving of lock/unlock calls, relock tasks
    and clock ticks, between operations an unlocked encrypted keystore has a
    live relock task with a reported deadline, which can run to completion and
    lock the keystore once the deadline has come. *)
Theorem unlocked_will_relock plain t0 s :
  encrypted = true ->
  reachable (Identity:=Identity) encrypted age_decrypt timeouts_fit (new encrypted plain t0) s ->
  holder s = Free -> is_locked s = false ->
  exists d, unlocked_until s = Some d /\
    (d <= now s -> exists ls s', forallb only_tasks ls = true /\
       run encrypted age_decrypt ls s = Some s' /\ is_locked s' = true /\ now s' = now s).
Proof.
  intros Henc Hreach Hfree Hlock.
  destruct (reachable_inv encrypted age_decrypt timeouts_fit (new encrypted plain t0) s)
    as [HR HC]; [done|done|by cbn; intros ->|done|].
  destruct (HC Henc) as (d & t & Hr & Hf); [by unfold is_locked in Hlock; destruct (identities s)|done|].
  exists d. unfold unlocked_until. rewrite Hr, Hf. split; [done|]. intros Hd.
  by eapply finish_relock.
Qed.

(** Locking is effective: once [lock] has returned, the keystore stays
    locked, whatever runs concurrently, until an [unlock] with the right
    passphrase puts identities back. *)
Theorem lock_locks s s1 ls s2 :
  step (Identity:=Identity) encrypted age_decrypt LockFinish s = Some s1 ->
  run encrypted age_decrypt ls s1 = Some s2 -> forallb no_unlock ls = true ->
  is_locked s2 = true.
Proof.
  intros Hs Hrun Hls. apply (stays_locked encrypted age_decrypt ls s1 s2 Hls); [|done].
  cbn in Hs. destruct (holder s); by simplify_eq.
Qed.

(** Unlocking is effective as long as [walletlock] is not called: in any
    interleaving of [unlock] calls, relock tasks and clock ticks, between
    operations the keystore is unlocked until the deadline it reports. (This
    is what awaiting the aborted relock task in [unlock] is for.) *)
Theorem unlocked_until_deadline plain t0 s d t :
  (forall p ids, age_decrypt p = Some ids -> ids <> []) ->
  reachable (Identity:=Identity) encrypted age_decrypt
    (fun s l => no_lock l && timeouts_fit s l) (new encrypted plain t0) s ->
  relock_task s = Some (d, t) -> now s < d ->
  is_locked s = false /\ unlocked_until s = Some d.
Proof.
  intros Hne Hreach Hr Hd.
  destruct (reachable_held encrypted age_decrypt (new encrypted plain t0) plain Hne eq_refl s Hreach)
    as (HR & _ & HH & _).
  specialize (HH _ _ Hr Hd). split; [unfold is_locked; by destruct (identities s)|].
  destruct (HR _ _ Hr) as (_ & tk & Htk & _ & Hst). unfold unlocked_until, is_finished.
  rewrite Hr, Htk. destruct Hst as [->|[? _]]; [done|lia].
Qed.

(** The methods' guards: with plaintext identities both methods fail and
    the keystore, whose identities are there from the start, is never locked,
    so [ensure_wallet_is_unlocked] succeeds; with encrypted ones
    [walletpassphrase] succeeds exactly for a passphrase that decrypts them. *)
Theorem unlock_wallet_call_correct plain t0 p s :
  (unlock_wallet_call (Identity:=Identity) encrypted age_decrypt p = Ret tt <->
     encrypted = true /\ age_decrypt p <> None) /\
  (lock_wallet_call encrypted = Ret tt <-> encrypted = true) /\
  (encrypted = false -> plain <> [] ->
     reachable encrypted age_decrypt (fun _ _ => true) (new encrypted plain t0) s ->
     ensure_wallet_is_unlocked s = Ret tt /\ unlocked_until s = None /\
     wallet_info_unlocked_until encrypted s = Ret None).
Proof.
  unfold unlock_wallet_call, lock_wallet_call, uses_encrypted_identities, unlock,
    decrypt_identity_file. split_and!.
  - destruct encrypted; cbn; [|naive_solver]. by destruct (age_decrypt p); naive_solver.
  - by destruct encrypted.
  - intros Henc Hplain Hreach.
    assert (identities s = plain /\ relock_task s = None /\ holder s = Free /\ tasks s = [])
      as (Hid & Hr & _ & _).
    { clear Hplain. induction Hreach as [|s l s' _ (Hid & Hr & Hh & Ht) _ Hs]; [by rewrite Henc|].
      destruct l; cbn in Hs; rewrite ?Hh, ?Ht in Hs; unfold decrypt_identity_file in Hs;
        rewrite ?Henc in Hs; try done.
      case_match; by simplify_eq. }
    unfold ensure_wallet_is_unlocked, is_locked, unlocked_until, wallet_info_unlocked_until,
      uses_encrypted_identities. rewrite Hid, Hr, Henc. by destruct plain.
Qed.
End lock_properties.

(** *** Concrete keystores *)

(** One identity, and the passphrase [true]. *)
Definition example_decrypt (p : bool) : option (list nat) := if p then Some [7%nat] else None.

Definition example_run (ls : list (label bool)) : option (state nat) :=
  run true example_decrypt ls (new true [] 0).

(** [walletpassphrase] with a timeout that does not fit in a [SystemTime]
    panics after it has put the identities in memory and before it has spawned
    the relock task: the keystore stays unlocked, whatever time passes, until
    the next call, and reports that it is locked. *)
Theorem unlock_overflow_never_relocks :
  exists s, example_run [UnlockBegin true u64_max; UnlockWrite; UnlockSpawn] = Some s /\
    holder s = Free /\ unlocked_until s = None /\
    forall ls s', forallb only_tasks ls = true -> run true example_decrypt ls s = Some s' ->
      is_locked s' = false /\ unlocked_until s' = None /\
      wallet_info_unlocked_until true s' = Ret (Some 0).
Proof.
  eexists. split; [reflexivity|]. split_and!; [done..|].
  assert (forall ls s s', identities s = [7%nat] -> relock_task s = None -> tasks s = [] ->
    forallb only_tasks ls = true -> run true example_decrypt ls s = Some s' ->
    identities s' = [7%nat] /\ relock_task s' = None) as Hgen.
  { induction ls as [|l ls IH]; intros s s' Hi Hr Ht; cbn; [by intros _ [= <-]|].
    intros [Hl Hls]%andb_true_iff. destruct l; cbn; try done; rewrite ?Ht; try done.
    destruct (to <? now s); [done|]. by apply IH. }
  intros ls s' Hls Hrun. apply Hgen in Hrun as [Hi Hr]; [|done..].
  unfold is_locked, wallet_info_unlocked_until, unlocked_until; cbn. by rewrite Hi, Hr.
Qed.

(** With [walletlock] in between, an [unlock] can be undone by the relock
    task of an earlier one: [lock] aborts that task without awaiting it, so a
    task past its timer still clears the identities, and the keystore is locked
    while it reports a deadline in the future. *)
Theorem lock_unlock_race :
  exists s, example_run
    [UnlockBegin true 10; UnlockWrite; UnlockSpawn; Tick 10; TaskWake 0;
     LockBegin; LockFinish; UnlockBegin true 100; UnlockWrite; UnlockSpawn; TaskClear 0] = Some s /\
    holder s = Free /\ unlocked_until s = Some 110 /\ now s = 10 /\ is_locked s = true.
Proof. eexists. split; [reflexivity|]. by split_and!. Qed.

(** An unlocked keystore, just past its deadline. *)
Definition example_unlocked : state nat :=
  State [7%nat] (Some (10, 0%nat)) [Task (Sleeping 10) false] Free 11.

Definition example_labels : list (label bool) :=
  [UnlockBegin true 10; UnlockWrite; UnlockSpawn; Tick 11].

Lemma unlocked_will_relock_witness :
  exists d, unlocked_until example_unlocked = Some d /\
    (d <= 11 -> exists ls s', forallb only_tasks ls = true /\
       run true example_decrypt ls example_unlocked = Some s' /\ is_locked s' = true /\ now s' = 11).
Proof.
  apply (unlocked_will_relock true example_decrypt [] 0 example_unlocked); try reflexivity.
  apply (run_reachable true example_decrypt timeouts_fit _ example_labels (new true [] 0));
    [constructor|vm_compute; reflexivity|vm_compute; reflexivity].
Defined.

Lemma lock_locks_witness :
  is_locked (State (Identity:=nat) [] None [Task Finished true] Free 11) = true.
Proof.
  apply (lock_locks true example_decrypt
    (State [7%nat] None [Task Woken true] LockClearing 11)
    (State [] None [Task Woken true] Free 11) [TaskCancel 0]); vm_compute; reflexivity.
Defined.

Lemma unlocked_until_deadline_witness :
  is_locked (State [7%nat] (Some (10, 0%nat)) [Task (Sleeping 10) false] Free 9) = false /\
  unlocked_until (State [7%nat] (Some (10, 0%nat)) [Task (Sleeping 10) false] Free 9) = Some 10.
Proof.
  apply (unlocked_until_deadline true example_decrypt [] 0
    (State [7%nat] (Some (10, 0%nat)) [Task (Sleeping 10) false] Free 9) 10 0).
  - intros [] ids; [intros [= <-]; discriminate|discriminate].
  - apply (run_reachable true example_decrypt _ _ [UnlockBegin true 10; UnlockWrite; UnlockSpawn; Tick 9]
      (new true [] 0)); [constructor|vm_compute; reflexivity|vm_compute; reflexivity].
  - reflexivity.
  - vm_compute; reflexivity.
Defined.
