(* ===== verification/KeystoreStore.v ===== *)
(** The keystore's database
    (src/zallet-core/src/components/keystore.rs, lines 386-834): age
    recipients, and the tables that hold encrypted mnemonics, legacy seeds and
    standalone keys.

    The tables are modelled as their rows in insertion order and the SQL
    statements as what they do to them; the [age], [bip0039], [sapling] and
    [zcash_keys] crates are the class [KeyCrypto]. *)

From S2P Require Import Prelude Rpc.

(** What the crates provide. [read_recipients] parses the recipient strings;
    [decrypt_diversifier] tells whether a payment address belongs to a viewing
    key; [parse_dfvk] rejects rows that do not hold a viewing key. *)
Class KeyCrypto := {
  Bytes : Type;
  Recipient : Type;
  Identity : Type;
  Fingerprint : Type;
  Mnemonic : Type;
  Seed : Type;
  SaplingKey : Type;
  Dfvk : Type;
  PaymentAddress : Type;
  PublicKey : Type;
  SecretKey : Type;
  TransparentAddress : Type;
  read_recipients : list string -> option (list Recipient);
  age_encrypt : list Recipient -> Bytes -> option Bytes;
  age_decrypt : list Identity -> Bytes -> option Bytes;
  armor : Bytes -> Bytes;
  to_seed : Mnemonic -> Seed;
  into_phrase : Mnemonic -> Bytes;
  from_phrase : Bytes -> option Mnemonic;
  fp_from_seed : Seed -> option Fingerprint;
  seed_bytes : Seed -> Bytes;
  extsk_to_bytes : SaplingKey -> Bytes;
  extsk_from_bytes : Bytes -> option SaplingKey;
  extsk_to_dfvk : SaplingKey -> Dfvk;
  dfvk_to_bytes : Dfvk -> Bytes;
  parse_dfvk : Bytes -> option Dfvk;
  decrypt_diversifier : Dfvk -> PaymentAddress -> bool;
  serialize_pubkey : PublicKey -> Bytes;
  pubkey_address : Bytes -> TransparentAddress -> bool;
  sk_to_bytes : SecretKey -> Bytes;
  sk_from_bytes : Bytes -> option SecretKey;
  #[global] Fingerprint_eq_dec :: EqDecision Fingerprint;
  #[global] Bytes_eq_dec :: EqDecision Bytes
}.

(** What the documentation of the crates promises: decrypting with identities
    that match the recipients gives back what was encrypted to them; phrases,
    keys and viewing keys survive encoding; a mnemonic's seed has a length that
    has a fingerprint. *)
Class KeyCryptoLaws `{KeyCrypto} (matching : list Identity -> list Recipient -> Prop) := {
  age_round_trip : forall ids rs x c,
    matching ids rs -> age_encrypt rs x = Some c -> age_decrypt ids c = Some x;
  phrase_round_trip : forall m, from_phrase (into_phrase m) = Some m;
  seed_fingerprint : forall m, fp_from_seed (to_seed m) <> None;
  extsk_round_trip : forall k, extsk_from_bytes (extsk_to_bytes k) = Some k;
  dfvk_round_trip : forall d, parse_dfvk (dfvk_to_bytes d) = Some d;
  dfvk_to_bytes_inj : forall d d', dfvk_to_bytes d = dfvk_to_bytes d' -> d = d'
}.

(** The errors of this component ([ErrorKind::Generic] with these contexts). *)
Inductive keystore_error :=
  | AgeError
  | DatabaseError
  | MissingRecipients
  | AlreadyInitialized
  | WalletLocked
  | FailedSeedFingerprinting
  | InvalidMnemonic
  | InvalidSaplingKey
  | InvalidTransparentKey.

Section store.
Context `{KeyCrypto}.

(** [available] is whether a database handle can be obtained. *)
Record database := Database {
  available : bool;
  age_recipients : list (string * Z);
  mnemonics : list (Fingerprint * Bytes);
  legacy_seeds : list (Fingerprint * Bytes);
  sapling_keys : list (Bytes * Bytes);
  transparent_keys : list (Bytes * Bytes)
}.

#[local] Abbreviation DB := (M database keystore_error).

(** [INSERT INTO table VALUES (:key, :value) ON CONFLICT (key) DO NOTHING]. *)
Definition insert_or_ignore {K V} `{EqDecision K} (k : K) (v : V) (rows : list (K * V)) :
    list (K * V) :=
  if bool_decide (k ∈ rows.*1) then rows else rows ++ [(k, v)].

(** [SELECT value FROM table WHERE key = :key], by [query_row]. *)
Fixpoint select_row {K V} `{EqDecision K} (k : K) (rows : list (K * V)) : option V :=
  match rows with
  | [] => None
  | (k', v) :: rows => if bool_decide (k' = k) then Some v else select_row k rows
  end.

Definition with_db {A} (f : database -> outcome keystore_error A) : DB A := fun db =>
  if available db then (f db, db) else (Err DatabaseError, db).

Definition with_db_mut (f : database -> database) : DB unit := fun db =>
  if available db then (Ret tt, f db) else (Err DatabaseError, db).

(** An [Encryptor]: the recipients' strings and their parsed form. *)
Record Encryptor := { recipient_strings : list string; recipients : list Recipient }.

Definition from_recipient_strings (strings : list string) : outcome keystore_error Encryptor :=
  rs ← ok_or (read_recipients strings) AgeError;
  Ret {| recipient_strings := strings; recipients := rs |}.

Definition is_empty (e : Encryptor) : bool := bool_decide (recipient_strings e = []).

Definition encrypt (e : Encryptor) (x : Bytes) : outcome keystore_error Bytes :=
  ok_or (age_encrypt (recipients e) x) AgeError.

Definition maybe_encryptor : DB Encryptor :=
  with_db (fun db => from_recipient_strings (age_recipients db).*1).

Definition encryptor : DB Encryptor :=
  e ← maybe_encryptor;
  if is_empty e then throw MissingRecipients else mret e.

Definition initialize_recipients (now : Z) (strings : list string) : DB unit :=
  e ← maybe_encryptor;
  if negb (is_empty e) then throw AlreadyInitialized
  else with_db_mut (fun db =>
    Database (available db) (age_recipients db ++ ((fun s => (s, now)) <$> strings))
      (mnemonics db) (legacy_seeds db) (sapling_keys db) (transparent_keys db)).

Definition list_seed_fingerprints : DB (list Fingerprint) :=
  with_db (fun db => Ret (mnemonics db).*1).

Definition list_legacy_seed_fingerprints : DB (list Fingerprint) :=
  with_db (fun db => Ret (legacy_seeds db).*1).

Definition encrypt_and_store_mnemonic (mnemonic : Mnemonic) : DB Fingerprint :=
  e ← encryptor;
  seed_fp ← lift (expect (fp_from_seed (to_seed mnemonic)));
  encrypted_mnemonic ← lift (encrypt e (into_phrase mnemonic));
  _ ← with_db_mut (fun db =>
    Database (available db) (age_recipients db)
      (insert_or_ignore seed_fp encrypted_mnemonic (mnemonics db))
      (legacy_seeds db) (sapling_keys db) (transparent_keys db));
  mret seed_fp.

Definition encrypt_and_store_legacy_seed (legacy_seed : Seed) : DB Fingerprint :=
  e ← encryptor;
  legacy_seed_fp ← lift (ok_or (fp_from_seed legacy_seed) FailedSeedFingerprinting);
  encrypted_legacy_seed ← lift (encrypt e (seed_bytes legacy_seed));
  _ ← with_db_mut (fun db =>
    Database (available db) (age_recipients db) (mnemonics db)
      (insert_or_ignore legacy_seed_fp encrypted_legacy_seed (legacy_seeds db))
      (sapling_keys db) (transparent_keys db));
  mret legacy_seed_fp.

Definition encrypt_and_store_standalone_sapling_key (sapling_key : SaplingKey) : DB Dfvk :=
  e ← encryptor;
  let dfvk := extsk_to_dfvk sapling_key in
  encrypted_sapling_extsk ← lift (encrypt e (extsk_to_bytes sapling_key));
  _ ← with_db_mut (fun db =>
    Database (available db) (age_recipients db) (mnemonics db) (legacy_seeds db)
      (insert_or_ignore (dfvk_to_bytes dfvk) encrypted_sapling_extsk (sapling_keys db))
      (transparent_keys db));
  mret dfvk.

(** An [EncryptedStandaloneTransparentKey] is its public key and ciphertext. *)
Definition encrypt_standalone_transparent_key (e : Encryptor) (key : PublicKey * SecretKey) :
    outcome keystore_error (PublicKey * Bytes) :=
  encrypted_key_bytes ← encrypt e (sk_to_bytes key.2);
  Ret (key.1, encrypted_key_bytes).

Definition store_encrypted_standalone_transparent_keys (keys : list (PublicKey * Bytes)) : DB unit :=
  with_db_mut (fun db =>
    Database (available db) (age_recipients db) (mnemonics db) (legacy_seeds db) (sapling_keys db)
      (foldl (fun rows key => insert_or_ignore (serialize_pubkey key.1) key.2 rows)
        (transparent_keys db) keys)).

Definition encrypt_and_store_standalone_transparent_key (key : PublicKey * SecretKey) : DB unit :=
  e ← encryptor;
  k ← lift (encrypt_standalone_transparent_key e key);
  store_encrypted_standalone_transparent_keys [k].

(** The decryption methods run under a read lock on [identities]. *)
Definition check_unlocked (identities : list Identity) : DB unit :=
  match identities with
  | [] => throw WalletLocked
  | _ => mret tt
  end.

Definition decrypt_mnemonic (identities : list Identity) (seed_fp : Fingerprint) : DB Bytes :=
  _ ← check_unlocked identities;
  encrypted_mnemonic ← with_db (fun db => ok_or (select_row seed_fp (mnemonics db)) DatabaseError);
  lift (ok_or (age_decrypt identities encrypted_mnemonic) AgeError).

Definition decrypt_seed (identities : list Identity) (seed_fp : Fingerprint) : DB Seed :=
  mnemonic ← decrypt_mnemonic identities seed_fp;
  m ← lift (ok_or (from_phrase mnemonic) InvalidMnemonic);
  mret (to_seed m).

Definition export_mnemonic (identities : list Identity) (seed_fp : Fingerprint) (armored : bool) :
    DB Bytes :=
  e ← encryptor;
  mnemonic ← decrypt_mnemonic identities seed_fp;
  c ← lift (encrypt e mnemonic);
  mret (if armored then armor c else c).

(** The loop over the rows of the Sapling key table. *)
Fixpoint find_sapling_key (identities : list Identity) (address : PaymentAddress)
    (rows : list (Bytes * Bytes)) : outcome keystore_error (option SaplingKey) :=
  match rows with
  | [] => Ret None
  | (dfvk_bytes, encrypted_extsk) :: rows =>
      match parse_dfvk dfvk_bytes with
      | Some dfvk =>
          if decrypt_diversifier dfvk address then
            bytes ← ok_or (age_decrypt identities encrypted_extsk) AgeError;
            extsk ← ok_or (extsk_from_bytes bytes) InvalidSaplingKey;
            Ret (Some extsk)
          else find_sapling_key identities address rows
      | None => find_sapling_key identities address rows
      end
  end.

Definition decrypt_standalone_sapling_key (identities : list Identity) (address : PaymentAddress) :
    DB (option SaplingKey) :=
  _ ← check_unlocked identities;
  rows ← with_db (fun db => Ret (sapling_keys db));
  lift (find_sapling_key identities address rows).

(** The [JOIN] selects the row whose public key the wallet's address table
    gives the transparent address to. *)
Definition decrypt_standalone_transparent_key (identities : list Identity)
    (address : TransparentAddress) : DB SecretKey :=
  _ ← check_unlocked identities;
  encrypted_key_bytes ← with_db (fun db =>
    ok_or (snd <$> head (filter (fun row => pubkey_address row.1 address = true)
      (transparent_keys db))) DatabaseError);
  bytes ← lift (ok_or (age_decrypt identities encrypted_key_bytes) AgeError);
  lift (ok_or (sk_from_bytes bytes) InvalidTransparentKey).
End store.

(** ** Lemmas *)

Section store_proofs.
Context `{HL : KeyCryptoLaws}.

(** Every encrypted row decrypts, with the identities that match the recipients,
    to the secret that its key names. *)
Definition well_formed (ids : list Identity) (db : database) : Prop :=
  available db = true /\ ids <> [] /\ age_recipients db <> [] /\
  (exists rs, read_recipients (age_recipients db).*1 = Some rs /\ matching ids rs) /\
  (forall fp c, (fp, c) ∈ mnemonics db ->
     exists m, age_decrypt ids c = Some (into_phrase m) /\ fp_from_seed (to_seed m) = Some fp) /\
  (forall b c, (b, c) ∈ sapling_keys db ->
     exists k, b = dfvk_to_bytes (extsk_to_dfvk k) /\ age_decrypt ids c = Some (extsk_to_bytes k)).

Lemma insert_or_ignore_elem {K V} `{EqDecision K} (k : K) (v : V) rows x :
  x ∈ insert_or_ignore k v rows -> x ∈ rows \/ x = (k, v).
Proof. unfold insert_or_ignore. case_bool_decide; set_solver. Qed.

Lemma select_row_elem {K V} `{EqDecision K} (k : K) (rows : list (K * V)) v :
  select_row k rows = Some v -> (k, v) ∈ rows.
Proof.
  induction rows as [|[k' v'] rows IH]; cbn; [done|]. case_bool_decide; set_solver.
Qed.

Lemma select_row_None {K V} `{EqDecision K} (k : K) (rows : list (K * V)) :
  select_row k rows = None <-> k ∉ rows.*1.
Proof.
  induction rows as [|[k' v'] rows IH]; cbn; [set_solver|].
  case_bool_decide as Hk; [set_solver|]. rewrite IH. set_solver.
Qed.

Lemma select_row_app {K V} `{EqDecision K} (k : K) (rows rows' : list (K * V)) :
  select_row k (rows ++ rows') =
    match select_row k rows with Some v => Some v | None => select_row k rows' end.
Proof.
  induction rows as [|[k' v'] rows IH]; cbn; [done|]. by case_bool_decide.
Qed.

Lemma select_insert {K V} `{EqDecision K} (k k' : K) (v : V) rows :
  select_row k' (insert_or_ignore k v rows) =
    match select_row k' rows with
    | Some v' => Some v'
    | None => if bool_decide (k = k') then Some v else None
    end.
Proof.
  unfold insert_or_ignore. case_bool_decide as Hin; [|by rewrite select_row_app].
  destruct (select_row k' rows) eqn:Hs; [done|]. apply select_row_None in Hs.
  by rewrite bool_decide_false by congruence.
Qed.

Lemma maybe_encryptor_wf ids db :
  well_formed ids db -> exists e, maybe_encryptor db = (Ret e, db) /\ is_empty e = false /\
    matching ids (recipients e).
Proof.
  intros (Hav & _ & Hne & (rs & Hrs & Hm) & _).
  unfold maybe_encryptor, with_db, from_recipient_strings. rewrite Hav, Hrs. cbn.
  eexists. split; [done|]. split; [|done]. unfold is_empty; cbn.
  apply bool_decide_eq_false. by destruct (age_recipients db).
Qed.

Lemma encryptor_wf ids db :
  well_formed ids db -> exists e, encryptor db = (Ret e, db) /\ matching ids (recipients e).
Proof.
  intros Hwf. destruct (maybe_encryptor_wf ids db Hwf) as (e & He & Hem & Hm).
  exists e. unfold encryptor, mbind, M_bind. by rewrite He, Hem.
Qed.

Lemma encryptor_empty db :
  available db = true -> read_recipients [] <> None -> age_recipients db = [] ->
  encryptor db = (Err MissingRecipients, db).
Proof.
  intros Hav Hr He. unfold encryptor, maybe_encryptor, with_db, from_recipient_strings, mbind, M_bind.
  rewrite Hav, He. cbn. by destruct (read_recipients []).
Qed.

Lemma decrypt_seed_wf ids db fp c :
  well_formed ids db -> select_row fp (mnemonics db) = Some c ->
  exists m, decrypt_seed ids fp db = (Ret (to_seed m), db) /\ age_decrypt ids c = Some (into_phrase m) /\
    fp_from_seed (to_seed m) = Some fp.
Proof.
  intros (Hav & Hids & _ & _ & Hmn & _) Hs.
  destruct (Hmn fp c) as (m & Hd & Hfp); [by apply select_row_elem|]. exists m. split; [|done].
  unfold decrypt_seed, decrypt_mnemonic, check_unlocked, with_db, mbind, M_bind, lift.
  destruct ids; [done|]. cbn. rewrite Hav, Hs. cbn. rewrite Hd. cbn. by rewrite phrase_round_trip.
Qed.

Lemma find_sapling_wf ids (rows : list (Bytes * Bytes)) k address c :
  (forall b c, (b, c) ∈ rows ->
     exists k, b = dfvk_to_bytes (extsk_to_dfvk k) /\ age_decrypt ids c = Some (extsk_to_bytes k)) ->
  select_row (dfvk_to_bytes (extsk_to_dfvk k)) rows = Some c ->
  (forall d, decrypt_diversifier d address = true <-> d = extsk_to_dfvk k) ->
  exists k', find_sapling_key ids address rows = Ret (Some k') /\
    extsk_to_dfvk k' = extsk_to_dfvk k /\ age_decrypt ids c = Some (extsk_to_bytes k').
Proof.
  intros Hrows Hs Haddr. induction rows as [|[b c'] rows IH]; [done|]. cbn in *.
  destruct (Hrows b c') as (k' & -> & Hdec); [set_solver|]. rewrite dfvk_round_trip.
  destruct (decrypt_diversifier (extsk_to_dfvk k') address) eqn:Hd.
  - apply Haddr in Hd. rewrite Hd, bool_decide_true in Hs by done. injection Hs as ->.
    rewrite Hdec. cbn. rewrite extsk_round_trip. cbn. by exists k'.
  - rewrite bool_decide_false in Hs.
    + apply IH; [|done]. intros. apply Hrows. set_solver.
    + intros Heq%dfvk_to_bytes_inj. apply Haddr in Heq. congruence.
Qed.

(** Storing a mnemonic adds its phrase, encrypted to the recipients, unless its
    fingerprint is there. *)
Lemma store_mnemonic_wf ids db m fp db' :
  well_formed ids db -> encrypt_and_store_mnemonic m db = (Ret fp, db') ->
  well_formed ids db' /\ fp_from_seed (to_seed m) = Some fp /\
  exists c, age_decrypt ids c = Some (into_phrase m) /\ mnemonics db' = insert_or_ignore fp c (mnemonics db).
Proof.
  intros Hwf Hst. destruct (encryptor_wf ids db Hwf) as (e & He & Hm).
  pose proof Hwf as (Hav & Hids & Hne & Hrs & Hmn & Hsk).
  unfold encrypt_and_store_mnemonic, mbind, M_bind, lift, encrypt, with_db_mut in Hst.
  rewrite He in Hst. destruct (fp_from_seed (to_seed m)) as [fp0|] eqn:Hfp; [|done]. cbn in Hst.
  destruct (age_encrypt (recipients e) (into_phrase m)) as [c|] eqn:Hc; [|done]. cbn in Hst.
  rewrite Hav in Hst. injection Hst as <- <-.
  pose proof (age_round_trip ids _ _ _ Hm Hc) as Hdec.
  split; [|split; [done|by exists c]].
  split_and!; try done. intros fp' c' [Hin|[= -> ->]]%insert_or_ignore_elem; [by apply Hmn|eauto].
Qed.

(** C24. Storing a mnemonic keeps the store well formed and returns a
    fingerprint under which the keystore, when unlocked, has a seed with that
    fingerprint: the stored mnemonic's seed unless the fingerprint was there
    already, in which case nothing changes. Every other seed stays readable. *)
Theorem stored_mnemonic_decrypts ids db m fp db' :
  well_formed ids db -> encrypt_and_store_mnemonic m db = (Ret fp, db') ->
  well_formed ids db' /\ fp_from_seed (to_seed m) = Some fp /\
  (exists seed, decrypt_seed ids fp db' = (Ret seed, db') /\ fp_from_seed seed = Some fp /\
     (fp ∉ (mnemonics db).*1 -> seed = to_seed m)) /\
  (forall fp' seed, decrypt_seed ids fp' db = (Ret seed, db) ->
     decrypt_seed ids fp' db' = (Ret seed, db')).
Proof.
  intros Hwf Hst. destruct (store_mnemonic_wf ids db m fp db' Hwf Hst) as (Hwf' & Hfp & c & Hdec & Hrows).
  assert (forall fp' c', select_row fp' (mnemonics db) = Some c' ->
    select_row fp' (mnemonics db') = Some c') as Hkeep
    by (intros ? ? Hs; by rewrite Hrows, select_insert, Hs).
  split_and!; [done|done| |].
  - destruct (select_row fp (mnemonics db)) as [c0|] eqn:Hs.
    + destruct (decrypt_seed_wf ids db' fp c0) as (m' & Hd & _ & Hf); [done|by apply Hkeep|].
      eexists. split_and!; [done..|]. intros Hnin%select_row_None. congruence.
    + destruct (decrypt_seed_wf ids db' fp c) as (m' & Hd & Hdm & Hf); [done| |].
      { by rewrite Hrows, select_insert, Hs, bool_decide_true. }
      eexists. split_and!; [done..|]. intros _.
      rewrite Hdec in Hdm. injection Hdm as Hp. apply (f_equal from_phrase) in Hp.
      rewrite !phrase_round_trip in Hp. congruence.
  - intros fp' seed Hd. pose proof Hwf as (Hav & _). destruct (select_row fp' (mnemonics db)) as [c'|] eqn:Hs.
    + destruct (decrypt_seed_wf ids db fp' c') as (m1 & Hd1 & Hm1 & _); [done..|].
      destruct (decrypt_seed_wf ids db' fp' c') as (m2 & Hd2 & Hm2 & _); [done|by apply Hkeep|].
      rewrite Hd in Hd1. injection Hd1 as ->. rewrite Hd2. rewrite Hm1 in Hm2. injection Hm2 as Hp.
      apply (f_equal from_phrase) in Hp. rewrite !phrase_round_trip in Hp. congruence.
    + unfold decrypt_seed, decrypt_mnemonic, with_db, mbind, M_bind in Hd.
      destruct ids; [done|]. cbn in Hd. rewrite Hav, Hs in Hd. done.
Qed.

(** A standalone Sapling key that has been stored is found again, when the
    keystore is unlocked, from any payment address of its viewing key (and of no
    other): the key returned has that viewing key, and is the stored key
    unless one with that viewing key was there already. *)
Theorem stored_sapling_key_found ids db k dfvk db' address :
  well_formed ids db -> encrypt_and_store_standalone_sapling_key k db = (Ret dfvk, db') ->
  (forall d, decrypt_diversifier d address = true <-> d = extsk_to_dfvk k) ->
  well_formed ids db' /\ dfvk = extsk_to_dfvk k /\
  exists k', decrypt_standalone_sapling_key ids address db' = (Ret (Some k'), db') /\
    extsk_to_dfvk k' = dfvk /\ (dfvk_to_bytes dfvk ∉ (sapling_keys db).*1 -> k' = k).
Proof.
  intros Hwf Hst Haddr. destruct (encryptor_wf ids db Hwf) as (e & He & Hm).
  pose proof Hwf as (Hav & Hids & Hne & Hrs & Hmn & Hsk).
  unfold encrypt_and_store_standalone_sapling_key, mbind, M_bind, lift, encrypt, with_db_mut in Hst.
  rewrite He in Hst. destruct (age_encrypt (recipients e) (extsk_to_bytes k)) as [c|] eqn:Hc; [|done].
  cbn in Hst. rewrite Hav in Hst. injection Hst as <- <-.
  pose proof (age_round_trip ids _ _ _ Hm Hc) as Hdec.
  match goal with |- well_formed _ ?d /\ _ => set (db' := d) end.
  assert (well_formed ids db') as Hwf'.
  { split_and!; try done. intros b c' [Hin|[= -> ->]]%insert_or_ignore_elem; [by apply Hsk|eauto]. }
  split_and!; [done|done|].
  pose proof (select_insert (dfvk_to_bytes (extsk_to_dfvk k)) (dfvk_to_bytes (extsk_to_dfvk k)) c
    (sapling_keys db)) as Hsel.
  rewrite bool_decide_true in Hsel by done.
  assert (forall c0, select_row (dfvk_to_bytes (extsk_to_dfvk k)) (sapling_keys db') = Some c0 ->
    exists k', decrypt_standalone_sapling_key ids address db' = (Ret (Some k'), db') /\
      extsk_to_dfvk k' = extsk_to_dfvk k /\ age_decrypt ids c0 = Some (extsk_to_bytes k')) as Hfind.
  { intros c0 Hs0. destruct (find_sapling_wf ids (sapling_keys db') k address c0) as (k' & Hf & ? & ?);
      [apply Hwf'|done|done|]. exists k'. split; [|done].
    unfold decrypt_standalone_sapling_key, check_unlocked, with_db, mbind, M_bind, lift.
    destruct ids; [done|]. cbn -[find_sapling_key] in *. by rewrite Hf. }
  destruct (select_row (dfvk_to_bytes (extsk_to_dfvk k)) (sapling_keys db)) as [c0|] eqn:Hs.
  - destruct (Hfind _ Hsel) as (k' & ? & ? & _). exists k'. split_and!; [done..|].
    intros Hnin%select_row_None. congruence.
  - destruct (Hfind _ Hsel) as (k' & ? & ? & Hd). exists k'. split_and!; [done..|]. intros _.
    rewrite Hdec in Hd. injection Hd as Hp. apply (f_equal extsk_from_bytes) in Hp.
    rewrite !extsk_round_trip in Hp. congruence.
Qed.

(** The guards of the store: while the keystore is locked every decryption
    fails with [WalletLocked]; before it has recipients nothing can be stored;
    once it has, they cannot be set again; none of these failures changes the
    database. *)
Theorem store_guards ids db now strings m k fp address taddr :
  available db = true -> read_recipients [] <> None ->
  (decrypt_mnemonic [] fp db = (Err WalletLocked, db) /\
   decrypt_seed [] fp db = (Err WalletLocked, db) /\
   decrypt_standalone_sapling_key [] address db = (Err WalletLocked, db) /\
   decrypt_standalone_transparent_key [] taddr db = (Err WalletLocked, db)) /\
  (age_recipients db = [] ->
     encrypt_and_store_mnemonic m db = (Err MissingRecipients, db) /\
     encrypt_and_store_standalone_sapling_key k db = (Err MissingRecipients, db) /\
     export_mnemonic ids fp false db = (Err MissingRecipients, db) /\
     initialize_recipients now strings db =
       (Ret tt, Database true ((fun s => (s, now)) <$> strings)
          (mnemonics db) (legacy_seeds db) (sapling_keys db) (transparent_keys db))) /\
  (well_formed ids db ->
     initialize_recipients now strings db = (Err AlreadyInitialized, db)).
Proof.
  intros Hav Hr0. split_and!; try done.
  - intros He. pose proof (encryptor_empty db Hav Hr0 He) as Henc.
    unfold encrypt_and_store_mnemonic, encrypt_and_store_standalone_sapling_key, export_mnemonic,
      mbind, M_bind. rewrite Henc. split_and!; try done.
    unfold initialize_recipients, maybe_encryptor, with_db, from_recipient_strings, with_db_mut,
      mbind, M_bind. rewrite Hav, He. cbn. destruct (read_recipients []); [|done]. cbn. by rewrite ?Hav, ?He.
  - intros Hwf. destruct (maybe_encryptor_wf ids db Hwf) as (e & He & Hem & _).
    unfold initialize_recipients, mbind, M_bind. by rewrite He, Hem.
Qed.
End store_proofs.

(** *** A concrete instance: one-time-pad "encryption" of numbers *)

Definition example_crypto : KeyCrypto.
Proof.
  refine {| Bytes := Z; Recipient := Z; Identity := Z; Fingerprint := Z; Mnemonic := Z; Seed := Z;
    SaplingKey := Z; Dfvk := Z; PaymentAddress := Z; PublicKey := Z; SecretKey := Z;
    TransparentAddress := Z;
    read_recipients strings := Some ((fun s => Z.of_nat (String.length s)) <$> strings);
    age_encrypt rs x := match rs with [] => None | r :: _ => Some (x + r) end;
    age_decrypt ids c := match ids with [] => None | i :: _ => Some (c - i) end;
    armor x := x; to_seed m := 2 * m; into_phrase m := m; from_phrase b := Some b;
    fp_from_seed s := Some (s + 1); seed_bytes s := s;
    extsk_to_bytes k := k; extsk_from_bytes b := Some b; extsk_to_dfvk k := k;
    dfvk_to_bytes d := d; parse_dfvk b := Some b;
    decrypt_diversifier d a := bool_decide (d = a);
    serialize_pubkey p := p; pubkey_address b a := bool_decide (b = a);
    sk_to_bytes k := k; sk_from_bytes b := Some b |}.
Defined.

Definition example_matching (ids : list Z) (rs : list Z) : Prop := ids = rs.

Lemma example_crypto_laws : @KeyCryptoLaws example_crypto example_matching.
Proof.
  constructor; try done.
  intros ids rs x c Hm. cbn in *. unfold example_matching in Hm. subst ids.
  destruct rs as [|r rs]; [done|]. intros [= <-]. f_equal. apply Z.add_simpl_r.
Defined.

Definition example_database : @database example_crypto :=
  @Database example_crypto true [("age1example"%string, 0)] [] [] [] [].

Lemma example_well_formed :
  @well_formed example_crypto example_matching [11] example_database.
Proof.
  split_and!; try done; [by eexists|intros ? ? Hin..]; by apply not_elem_of_nil in Hin.
Defined.

Lemma stored_mnemonic_decrypts_witness :
  exists seed, @decrypt_seed example_crypto [11] 21
    (@encrypt_and_store_mnemonic example_crypto 10 example_database).2 =
      (Ret seed, (@encrypt_and_store_mnemonic example_crypto 10 example_database).2) /\
    seed + 1 = 21.
Proof.
  destruct (@stored_mnemonic_decrypts _ _ example_crypto_laws [11] example_database 10 21
    (@encrypt_and_store_mnemonic example_crypto 10 example_database).2
    example_well_formed eq_refl) as (_ & _ & (seed & Hd & Hf & _) & _).
  exists seed. split; [exact Hd|]. injection Hf as Hf. exact Hf.
Defined.

Lemma stored_sapling_key_found_witness :
  exists k', @decrypt_standalone_sapling_key example_crypto [11] 5
    (@encrypt_and_store_standalone_sapling_key example_crypto 5 example_database).2 =
      (Ret (Some k'), (@encrypt_and_store_standalone_sapling_key example_crypto 5 example_database).2).
Proof.
  destruct (@stored_sapling_key_found _ _ example_crypto_laws [11] example_database 5 5
    (@encrypt_and_store_standalone_sapling_key example_crypto 5 example_database).2 5
    example_well_formed eq_refl) as (_ & _ & k' & Hd & _).
  - intros d. cbn. apply bool_decide_eq_true.
  - exists k'. exact Hd.
Defined.

Lemma store_guards_witness :
  @initialize_recipients example_crypto 3 ["age1other"%string] example_database =
    (Err AlreadyInitialized, example_database).
Proof.
  exact (proj2 (proj2 (@store_guards example_crypto example_matching [11] example_database 3 ["age1other"%string]
    0 0 0 0 0 eq_refl ltac:(discriminate))) example_well_formed).
Defined.
