(* ===== verification/Chain.v ===== *)
(** The wallet's interface to a chain backend
    (src/zallet/src/components/chain.rs, chain/error.rs) and the block locators
    used to find where the wallet left the best chain
    (src/zallet/src/components/sync/locator.rs).

    [ChainView] is the trait; [ChainViewLaws] states its documentation: every
    read reflects one fixed chain; [ForkPointLaws] what it says of fork points. The
    sync engine is proved against them. *)

From stdpp Require Import sorting.
From S2P Require Import Prelude Rpc.

(** Types of the crates: hashes, headers, blocks, transactions, note commitment
    tree states, statuses. *)
Class ChainTypes := {
  BlockHash : Type;
  BlockHeader : Type;
  Block : Type;
  Transaction : Type;
  TxId : Type;
  ChainState : Type;
  header_hash : BlockHeader -> BlockHash;
  claimed_height : Block -> Z;
  block_header : Block -> BlockHeader;
  #[global] BlockHash_eq_dec :: EqDecision BlockHash;
  #[global] TxId_eq_dec :: EqDecision TxId;
  #[global] TxId_countable :: Countable TxId
}.

(** [BlockHeight] arithmetic of the [zcash_protocol] crate on [u32] heights:
    exact when the result is a height; going below zero gives some height that
    is not above the operand. *)
Class HeightOps := {
  height_add : Z -> Z -> Z;
  height_sub : Z -> Z -> Z
}.

Class HeightLaws `{HeightOps} := {
  height_add_spec : forall a b, 0 <= a -> 0 <= b -> a + b <= u32_max -> height_add a b = a + b;
  height_sub_spec : forall a b, 0 <= b <= a -> height_sub a b = a - b;
  height_sub_range : forall a b, 0 <= a -> 0 <= b -> 0 <= height_sub a b <= a
}.

(** The three classes of errors, with their text. *)
Inductive ChainError :=
  | Unavailable (e : string)
  | InvalidData (e : string)
  | Backend (e : string).

Definition backend (source : string) : ChainError := Backend source.
Definition unavailable (source : string) : ChainError := Unavailable source.
Definition invalid_data (source : string) : ChainError := InvalidData source.

Section chain.
Context `{ChainTypes}.

Record ChainBlock := { height : Z; hash : BlockHash }.

#[export] Instance ChainBlock_eq_dec : EqDecision ChainBlock.
Proof. solve_decision. Defined.

(** A [BlockLocator] is its hashes. *)
Definition BlockLocator : Type := list BlockHash.

(** The loop of [BlockLocator::from_blocks], with its [assert!]. *)
Fixpoint from_blocks_loop (prev_height : option Z) (blocks : list ChainBlock) :
    outcome Empty_set BlockLocator :=
  match blocks with
  | [] => Ret []
  | block :: blocks =>
      _ ← match prev_height with
          | Some prev => assert (height block <? prev)
          | None => Ret tt
          end;
      hashes ← from_blocks_loop (Some (height block)) blocks;
      Ret (hash block :: hashes)
  end.

Definition from_blocks (blocks : list ChainBlock) : outcome Empty_set BlockLocator :=
  from_blocks_loop None blocks.

(** [ChainTx]. *)
Record ChainTx := {
  inner : Transaction;
  raw : list Byte.byte;
  block_hash : option BlockHash;
  mined_height : option Z;
  block_time : option Z
}.

Inductive TransactionStatus :=
  | TxidNotRecognized
  | NotInMainChain
  | Mined (h : Z).

(** A stream of blocks: the blocks it yields, then its end or an error. *)
Record stream := Stream { items : list Block; failure : option ChainError }.

(** The trait [ChainView]. *)
Class ChainView (V : Type) := {
  tip : V -> outcome ChainError ChainBlock;
  find_fork_point : V -> BlockLocator -> outcome ChainError (option ChainBlock);
  tree_state_as_of : V -> Z -> outcome ChainError (option ChainState);
  get_block_header : V -> Z -> outcome ChainError (option BlockHeader);
  get_block : V -> Z -> outcome ChainError (option Block);
  stream_blocks_to_tip : V -> Z -> outcome ChainError stream;
  stream_blocks : V -> Z * Z -> outcome ChainError stream;
  get_mempool_stream : V -> outcome ChainError (option (list Transaction));
  get_transaction : V -> TxId -> outcome ChainError (option ChainTx);
  get_transaction_status : V -> TxId -> outcome ChainError TransactionStatus
}.

(** The heights [s, s + 1, ..] of the blocks of a stream, which are the blocks
    of the chain [at_height] at those heights. *)
Fixpoint follows (at_height : Z -> option BlockHash) (s : Z) (bs : list Block) : Prop :=
  match bs with
  | [] => True
  | b :: bs =>
      claimed_height b = s /\ at_height s = Some (header_hash (block_header b)) /\
      follows at_height (s + 1) bs
  end.

(** What the trait's documentation promises: all reads are those of one chain,
    [at_height v], up to the tip. *)
Class ChainViewLaws (V : Type) `{ChainView V} := {
  at_height : V -> Z -> option BlockHash;
  tip_spec : forall v b, tip v = Ret b ->
    0 <= height b < u32_max /\ at_height v (height b) = Some (hash b) /\
    forall h, height b < h -> at_height v h = None;
  get_block_header_spec : forall v h o, get_block_header v h = Ret o ->
    option_map header_hash o = at_height v h;
  get_block_spec : forall v h b, get_block v h = Ret (Some b) ->
    claimed_height b = h /\ at_height v h = Some (header_hash (block_header b));
  stream_to_tip_spec : forall v s st, stream_blocks_to_tip v s = Ret st -> follows (at_height v) s (items st);
  stream_to_tip_complete : forall v s b st, tip v = Ret b -> 0 <= s -> stream_blocks_to_tip v s = Ret st ->
    failure st = None -> Z.of_nat (length (items st)) = Z.max 0 (height b + 1 - s);
  stream_blocks_spec : forall v r st, r.1 < r.2 -> stream_blocks v r = Ret st ->
    follows (at_height v) r.1 (items st) /\ r.1 + Z.of_nat (length (items st)) <= r.2
}.

(** The fork point is the block of the locator that is on the view's chain. *)
Class ForkPointLaws (V : Type) `{ChainViewLaws V} := {
  find_fork_point_Some : forall v l b, find_fork_point v l = Ret (Some b) ->
    hash b ∈ l /\ at_height v (height b) = Some (hash b);
  find_fork_point_None : forall v l b, find_fork_point v l = Ret None ->
    hash b ∈ l -> at_height v (height b) <> Some (hash b)
}.
End chain.

(** ** Block locators *)

Definition MAX_LOCATOR_DEPTH : Z := 1000.

(** [std::iter::successors(Some(1u32), |step| step.checked_mul(2))]. *)
Definition locator_steps : list Z := (fun k => 2 ^ Z.of_nat k) <$> seq 0 32.

(** [Iterator::take_while]. *)
Fixpoint take_while {A} (f : A -> bool) (l : list A) : list A :=
  match l with
  | [] => []
  | x :: l => if f x then x :: take_while f l else []
  end.

(** [u32::checked_sub]. *)
Definition checked_sub (a b : Z) : option Z := if b <=? a then Some (a - b) else None.

Definition locator_block_heights (tip : Z) : list Z :=
  let min := saturating_sub tip MAX_LOCATOR_DEPTH in
  take_while (fun height => min <? height) (tip :: omap (checked_sub tip) locator_steps) ++ [min].

(** The loop of [build_block_locator]; [get_block_hash] reads the wallet. *)
Fixpoint locator_blocks `{ChainTypes} {E} (get_block_hash : Z -> outcome E (option BlockHash))
    (heights : list Z) : outcome E (list ChainBlock) :=
  match heights with
  | [] => Ret []
  | height :: heights =>
      o ← get_block_hash height;
      blocks ← locator_blocks get_block_hash heights;
      Ret (match o with
           | Some hash => {| height := height; hash := hash |} :: blocks
           | None => blocks
           end)
  end.

Definition build_block_locator `{ChainTypes} {E} (get_block_hash : Z -> outcome E (option BlockHash))
    (tip : Z) : outcome E BlockLocator :=
  blocks ← locator_blocks get_block_hash (locator_block_heights tip);
  map_err (fun e : Empty_set => match e with end) (from_blocks blocks).

(** ** Lemmas *)

Lemma take_while_app_prefix {A} (f : A -> bool) (l : list A) :
  exists l', l = take_while f l ++ l' /\ Forall (fun x => f x = true) (take_while f l).
Proof.
  induction l as [|x l [l' [IH1 IH2]]]; cbn; [by exists []|].
  destruct (f x) eqn:Hf; [|by exists (x :: l)].
  exists l'. split; [by rewrite IH1 at 1|by constructor].
Qed.

(** Strictly decreasing lists of heights. *)
Abbreviation decreasing := (StronglySorted Z.gt).

Lemma decreasing_app l l' :
  decreasing (l ++ l') <-> decreasing l /\ decreasing l' /\ (forall x y, x ∈ l -> y ∈ l' -> x > y).
Proof.
  induction l as [|x l IH]; cbn.
  - split; [|by intros (_ & ? & _)]. intros. split_and!; [constructor|done|set_solver].
  - split.
    + inversion 1 as [|? ? Hs Hf]; subst. apply IH in Hs as (? & ? & Hlt).
      rewrite Forall_app in Hf. destruct Hf as [Hf1 Hf2]. split_and!; [by constructor|done|].
      intros a b [-> |Ha]%elem_of_cons Hb; [|by apply Hlt].
      by eapply Forall_forall in Hf2.
    + intros (Hs & Hs' & Hlt). inversion Hs as [|? ? Hs1 Hf]; subst. constructor.
      * apply IH. split_and!; [done..|]. intros. apply Hlt; set_solver.
      * apply Forall_app. split; [done|]. apply Forall_forall. intros. apply Hlt; set_solver.
Qed.

Lemma decreasing_checked_sub tip l :
  StronglySorted Z.lt l -> decreasing (omap (checked_sub tip) l).
Proof.
  induction 1 as [|x l Hs IH Hf]; [constructor|]. cbn. unfold checked_sub at 1.
  destruct (Z.leb_spec x tip); [|done]. constructor; [done|].
  apply Forall_forall. intros y (z & Hz & Hy)%list_elem_of_omap.
  rewrite Forall_forall in Hf. specialize (Hf z Hz). unfold checked_sub in Hy.
  destruct (z <=? tip); simplify_eq. lia.
Qed.

Lemma locator_steps_sorted : StronglySorted Z.lt locator_steps /\ Forall (fun x => 0 < x) locator_steps.
Proof.
  split; [|by repeat constructor]. by repeat constructor.
Qed.

(** The sampled heights above a floor, for any positive steps. *)
Lemma sampled_bounds tip floor steps h :
  Forall (fun x => 0 < x) steps ->
  h ∈ take_while (fun height => floor <? height) (tip :: omap (checked_sub tip) steps) ->
  floor < h <= tip.
Proof.
  intros Hp Hh.
  destruct (take_while_app_prefix (fun h => floor <? h) (tip :: omap (checked_sub tip) steps))
    as (l' & Heq & Hf).
  assert (h ∈ tip :: omap (checked_sub tip) steps) as Hin by (rewrite Heq; apply elem_of_app; by left).
  rewrite Forall_forall in Hf, Hp. apply Hf, Z.ltb_lt in Hh. split; [done|].
  apply elem_of_cons in Hin as [-> |(z & Hz & Hy)%list_elem_of_omap]; [lia|].
  specialize (Hp z Hz). unfold checked_sub in Hy. destruct (z <=? tip); simplify_eq. lia.
Qed.

Lemma sampled_decreasing tip floor steps :
  StronglySorted Z.lt steps -> Forall (fun x => 0 < x) steps ->
  decreasing (take_while (fun height => floor <? height) (tip :: omap (checked_sub tip) steps) ++ [floor]).
Proof.
  intros Hs Hp.
  assert (decreasing (tip :: omap (checked_sub tip) steps)) as Hl.
  { constructor; [by apply decreasing_checked_sub|].
    apply Forall_forall. intros y (z & Hz & Hy)%list_elem_of_omap. unfold checked_sub in Hy.
    rewrite Forall_forall in Hp. specialize (Hp z Hz). destruct (z <=? tip); simplify_eq. lia. }
  destruct (take_while_app_prefix (fun h => floor <? h) (tip :: omap (checked_sub tip) steps))
    as (l' & Heq & _).
  rewrite Heq in Hl. apply decreasing_app in Hl as (Hl & _ & _). apply decreasing_app. split_and!.
  - done.
  - by repeat constructor.
  - intros x y Hx ->%list_elem_of_singleton. apply sampled_bounds in Hx; [lia|done].
Qed.

Lemma sampled_head tip floor steps :
  floor <= tip ->
  head (take_while (fun height => floor <? height) (tip :: omap (checked_sub tip) steps) ++ [floor]) = Some tip.
Proof.
  intros. cbn [take_while]. destruct (Z.ltb_spec floor tip); [done|]. cbn. f_equal. lia.
Qed.

Lemma locator_heights_facts tip : 0 <= tip ->
  decreasing (locator_block_heights tip) /\
  (forall h, h ∈ locator_block_heights tip -> Z.max 0 (tip - 1000) <= h <= tip) /\
  last (locator_block_heights tip) = Some (Z.max 0 (tip - 1000)) /\
  head (locator_block_heights tip) = Some tip.
Proof.
  intros Htip. unfold locator_block_heights, saturating_sub, MAX_LOCATOR_DEPTH.
  destruct locator_steps_sorted as [Hs Hp]. revert Hs Hp. generalize locator_steps.
  intros steps Hs Hp. split_and!.
  - by apply sampled_decreasing.
  - intros h [Hh|Hh%list_elem_of_singleton]%elem_of_app; [|lia].
    apply sampled_bounds in Hh; [lia|done].
  - by rewrite last_snoc.
  - apply sampled_head. lia.
Qed.

Section locator.
Context `{ChainTypes}.

Lemma from_blocks_loop_decreasing prev blocks :
  decreasing (height <$> blocks) -> (forall p b, prev = Some p -> head blocks = Some b -> p > height b) ->
  from_blocks_loop prev blocks = Ret (hash <$> blocks).
Proof.
  revert prev. induction blocks as [|b bs IH]; intros prev; [done|]; cbn.
  inversion 1 as [|? ? Hs Hf]; subst. intros Hp. rewrite IH; [|done|].
  - destruct prev as [p|]; [|done]. specialize (Hp p b eq_refl eq_refl).
    destruct (Z.ltb_spec (height b) p); [done|lia].
  - intros p b' [= <-] Hb'. destruct bs as [|b'' bs]; [done|]. injection Hb' as ->.
    cbn in Hf. by inversion Hf.
Qed.

Lemma locator_blocks_spec {E} (get : Z -> outcome E (option BlockHash)) hs blocks :
  decreasing hs -> locator_blocks get hs = Ret blocks ->
  decreasing (height <$> blocks) /\ (forall h, h ∈ (height <$> blocks) -> h ∈ hs) /\
  (forall b, b ∈ blocks <-> height b ∈ hs /\ get (height b) = Ret (Some (hash b))).
Proof.
  revert blocks. induction hs as [|h hs IH]; intros blocks Hs; cbn.
  { intros [= <-]. split_and!; [constructor|set_solver|]. set_solver. }
  inversion Hs as [|? ? Hs' Hf]; subst.
  intros (x & Hg & (bs & Hbs & [= <-])%bind_Ret)%bind_Ret.
  destruct (IH _ Hs' Hbs) as (IH1 & IH2 & IH3). rewrite Forall_forall in Hf.
  assert (h ∉ hs) as Hnin by (intros Hin; apply Hf in Hin; lia).
  destruct x as [hh|]; split_and!.
  - cbn. constructor; [done|]. apply Forall_forall. intros y Hy. by apply Hf, IH2.
  - set_solver.
  - intros b. rewrite elem_of_cons, IH3, elem_of_cons. split.
    + intros [-> |[? ?]]; cbn; auto.
    + intros [[<- |?] Hg']; [left|by right]. rewrite Hg in Hg'. injection Hg' as ->. by destruct b.
  - done.
  - set_solver.
  - intros b. rewrite IH3, elem_of_cons. split; [naive_solver|].
    intros [[-> |?] Hg']; [congruence|done].
Qed.

Lemma locator_blocks_not_Panic {E} (get : Z -> outcome E (option BlockHash)) hs :
  (forall h, get h <> Panic) -> locator_blocks get hs <> Panic.
Proof.
  intros Hnp. induction hs as [|h hs IH]; [done|]. cbn.
  intros [?|(o & _ & [?|(bs & _ & ?)]%bind_Panic)]%bind_Panic; [by eapply Hnp|by apply IH|done].
Qed.

(** Block locators are well formed: for every tip, the locator heights
    strictly decrease from the tip to [max(0, tip - 1000)], so
    [BlockLocator::from_blocks] never panics, and the locator built holds the
    hashes of exactly the wallet's blocks at those heights, highest first. *)
Theorem build_block_locator_correct {E} (get_block_hash : Z -> outcome E (option BlockHash)) tip :
  0 <= tip -> (forall h, get_block_hash h <> Panic) ->
  decreasing (locator_block_heights tip) /\
  (forall h, h ∈ locator_block_heights tip -> Z.max 0 (tip - 1000) <= h <= tip) /\
  last (locator_block_heights tip) = Some (Z.max 0 (tip - 1000)) /\
  head (locator_block_heights tip) = Some tip /\
  build_block_locator get_block_hash tip <> Panic /\
  forall l, build_block_locator get_block_hash tip = Ret l ->
    exists blocks, l = hash <$> blocks /\ decreasing (height <$> blocks) /\
      forall b, b ∈ blocks <->
        height b ∈ locator_block_heights tip /\ get_block_hash (height b) = Ret (Some (hash b)).
Proof.
  intros Htip Hnp. destruct (locator_heights_facts tip Htip) as (Hdec & Hrange & Hlast & Hhead).
  unfold build_block_locator. clear Htip. revert Hdec Hrange Hlast Hhead.
  generalize (locator_block_heights tip). intros hs Hdec Hrange Hlast Hhead.
  assert (forall blocks, locator_blocks get_block_hash hs = Ret blocks ->
    from_blocks blocks = Ret (hash <$> blocks)) as Hfb.
  { intros blocks Hb. apply from_blocks_loop_decreasing; [|done].
    by eapply locator_blocks_spec. }
  split_and!; [done..| |].
  - intros [Hb|(blocks & Hb & Hfb')]%bind_Panic.
    + by eapply locator_blocks_not_Panic.
    + by rewrite (Hfb _ Hb) in Hfb'.
  - intros l (blocks & Hb & Hl)%bind_Ret.
    rewrite (Hfb _ Hb) in Hl. injection Hl as <-. exists blocks. split; [done|].
    destruct (locator_blocks_spec _ _ _ Hdec Hb) as (? & _ & ?). done.
Qed.
End locator.

(** A wallet that knows every block up to height 12, with heights as hashes. *)
Definition example_chain : ChainTypes.
Proof.
  refine {| BlockHash := Z; BlockHeader := Z; Block := Z * Z; Transaction := Z; TxId := Z;
    ChainState := Z; header_hash h := h; claimed_height := fst; block_header := snd |}.
Defined.

Lemma build_block_locator_correct_witness :
  @build_block_locator example_chain unit
    (fun h => Ret (if 11 <? h then None else Some (100 + h))) 12 = Ret [111; 110; 108; 104; 100] /\
  @build_block_locator example_chain unit
    (fun h => Ret (if 11 <? h then None else Some (100 + h))) 12 <> Panic.
Proof.
  split; [vm_compute; reflexivity|].
  apply (@build_block_locator_correct example_chain unit
    (fun h => Ret (if 11 <? h then None else Some (100 + h))) 12); [lia|].
  intros h. discriminate.
Defined.
