(* ===== verification/Sync.v ===== *)
(** The sync engine
    (src/zallet-core/src/components/sync.rs and sync/steps.rs, with
    src/zallet/src/components/sync/error.rs): how the wallet follows the chain
    tip through reorgs ([steady_state]), catches up on history
    ([recover_history]), starts up ([initialize]), and answers the wallet's
    requests for data ([data_requests]).

    The chain is any implementation of [ChainView]; the wallet database and the
    block scanner are the class [SyncEnv]. The tasks never end by themselves,
    so each is modelled by the body of its loop. *)

From S2P Require Import Prelude Rpc Chain.

Inductive ControlFlow (B C : Type) := Break (b : B) | Continue (c : C).
Arguments Break {B C} b.
Arguments Continue {B C} c.

(** The [SqliteClientError]s the code tells apart. *)
Inductive SqliteClientError :=
  | BlockConflict (height : Z)
  | SqliteOther (e : string).

Inductive SyncError :=
  | BatchDecryptorUnavailable
  | ChainErr (e : ChainError)
  | Scan (e : string)
  | Tree (e : string)
  | Other (e : SqliteClientError)
  | WalletDivergedBelowBirthday (birthday : Z).

(** A scan range of the [zcash_client_backend] crate: a half-open range of
    heights and a priority. *)
Record ScanRange := Range { range_start : Z; range_end : Z; priority : Z }.

Inductive TransactionDataRequest `{ChainTypes} :=
  | GetStatus (txid : TxId)
  | Enhancement (txid : TxId)
  | TransactionsInvolvingAddress (address : string) (start : Z) (end_ : option Z).

(** The parts of [zcash_client_sqlite] and [zcash_client_backend] the engine
    calls. Reads of the wallet are functions of it, writes are stateful. *)
Class SyncEnv `{ChainTypes} := {
  Wallet : Type;
  Source : Type;
  View : Type;
  Queued : Type;
  Keys : Type;
  Vtx : Type;
  Nullifiers : Type;
  BlockMetadata : Type;
  ScannedBlock : Type;
  Account : Type;
  Address : Type;
  KeyScope : Type;
  SubtreeRoots : Type;
  #[global] view_ops :: ChainView View;
  snapshot : Source -> outcome ChainError View * Source;
  get_sapling_subtree_roots : Source -> outcome ChainError SubtreeRoots;
  get_orchard_subtree_roots : Source -> outcome ChainError SubtreeRoots;
  get_address_unspent_outpoints : View -> string -> outcome ChainError (list (TxId * Z));
  get_address_tx_ids : View -> string -> Z * Z -> outcome ChainError (list TxId);
  txid_is_null : TxId -> bool;
  get_wallet_birthday : Wallet -> outcome SqliteClientError (option Z);
  get_block_hash : Wallet -> Z -> outcome SqliteClientError (option BlockHash);
  block_metadata : Wallet -> Z -> outcome SqliteClientError (option BlockMetadata);
  suggest_scan_ranges : Wallet -> outcome SqliteClientError (list ScanRange);
  get_account_ids : Wallet -> outcome SqliteClientError (list Account);
  get_transparent_receivers : Wallet -> Account -> outcome SqliteClientError (list (Address * option KeyScope));
  nullifiers_unspent : Wallet -> outcome SqliteClientError Nullifiers;
  transaction_data_requests : Wallet -> outcome SqliteClientError (list TransactionDataRequest);
  get_spendable_transparent_outputs : Wallet -> string -> Z -> outcome SqliteClientError (list (TxId * Z));
  (** Returns the height reached, which may be lower than the one asked for. *)
  truncate_to_height : Z -> M Wallet SqliteClientError Z;
  update_chain_tip : Z -> M Wallet SqliteClientError unit;
  put_sapling_subtree_roots : SubtreeRoots -> M Wallet SqliteClientError unit;
  put_orchard_subtree_roots : SubtreeRoots -> M Wallet SqliteClientError unit;
  put_blocks : ChainState -> list ScannedBlock -> M Wallet SqliteClientError unit;
  decrypt_and_store_transaction : Transaction -> option Z -> M Wallet SqliteClientError unit;
  set_transaction_status : TxId -> TransactionStatus -> M Wallet SqliteClientError unit;
  notify_address_checked : string -> Z -> M Wallet SqliteClientError unit;
  queue_block : Block -> option Queued;
  await_result : Queued -> option (Keys * BlockHeader * Vtx);
  state_metadata : ChainState -> BlockMetadata;
  full_scan_block : Z -> BlockHeader -> Vtx -> Keys -> Nullifiers -> option BlockMetadata ->
    list (Address * (Account * option KeyScope)) -> outcome SyncError ScannedBlock;
  update_with : Nullifiers -> ScannedBlock -> Nullifiers;
  to_block_metadata : ScannedBlock -> BlockMetadata;
  scanned_height : ScannedBlock -> Z;
  PRIORITY_HISTORIC : Z;
  PRIORITY_VERIFY : Z;
  truncate_start : ScanRange -> Z -> option ScanRange;
  truncate_end : ScanRange -> Z -> option ScanRange;
  split_at : ScanRange -> Z -> option (ScanRange * ScanRange)
}.

Section sync.
Context `{SyncEnv} `{HeightOps}.

(** What the tasks share: the wallet, the chain source, the boundary between
    the regions of [steady_state] and [recover_history], the number of
    tip-change notifications; and [steady_state]'s [prev_tip], whose changes
    outlive a failed iteration. *)
Record world := World {
  wallet : Wallet;
  source : Source;
  boundary : Z;
  notified : Z;
  prev_tip : ChainBlock
}.

#[local] Abbreviation Sync := (M world SyncError).

Definition set_wallet (w : world) (x : Wallet) : world :=
  World x (source w) (boundary w) (notified w) (prev_tip w).
Definition set_prev_tip (b : ChainBlock) : Sync unit := modify (fun w =>
  World (wallet w) (source w) (boundary w) (notified w) b).
Definition notify_one : Sync unit := modify (fun w =>
  World (wallet w) (source w) (boundary w) (notified w + 1) (prev_tip w)).

(** A read of the wallet, a write to it, and a read of a chain view, with the
    conversions of their errors ([?] and [map_err(SyncError::Chain)]). *)
Definition read {A} (f : Wallet -> outcome SqliteClientError A) : Sync A :=
  fun w => (map_err Other (f (wallet w)), w).
Definition write {A} (m : M Wallet SqliteClientError A) : Sync A :=
  fun w => let '(r, x) := m (wallet w) in (map_err Other r, set_wallet w x).
Definition chain {A} (m : outcome ChainError A) : Sync A := lift (map_err ChainErr m).
Definition take_snapshot : Sync View := fun w =>
  let '(r, s) := snapshot (source w) in
  (map_err ChainErr r, World (wallet w) s (boundary w) (notified w) (prev_tip w)).

(** A stream consumed to its end. *)
Definition stream_end (s : stream) : Sync unit :=
  match failure s with
  | Some e => throw (ChainErr e)
  | None => mret tt
  end.

(** ** Steps *)

Definition update_subtree_roots : Sync unit :=
  s ← gets source;
  sapling_roots ← chain (get_sapling_subtree_roots s);
  _ ← write (put_sapling_subtree_roots sapling_roots);
  orchard_roots ← chain (get_orchard_subtree_roots s);
  write (put_orchard_subtree_roots orchard_roots).

(** The index as the list of insertions, latest last. *)
Definition transparent_address_index (x : Wallet) :
    outcome SqliteClientError (list (Address * (Account * option KeyScope))) :=
  accounts ← get_account_ids x;
  entries ← traverse (fun account =>
    receivers ← get_transparent_receivers x account;
    Ret (map (fun r => (r.1, (account, r.2))) receivers)) accounts;
  Ret (concat entries).

Definition clamp_to_boundary (range : Z * Z) (shutdown_height : option Z) :
    ControlFlow Z (option Z) :=
  let end_ := match shutdown_height with Some h => Z.min h range.2 | None => range.2 end in
  if end_ <=? range.1 then Break end_
  else if end_ <? range.2 then Continue (Some end_)
  else Continue None.

(** The loop that queues blocks for batch decryption. *)
Fixpoint queue_blocks (blocks : list Block) : outcome SyncError (list (Z * Queued)) :=
  match blocks with
  | [] => Ret []
  | block :: blocks =>
      result ← ok_or (queue_block block) BatchDecryptorUnavailable;
      batch ← queue_blocks blocks;
      Ret ((claimed_height block, result) :: batch)
  end.

(** The loop that waits on the batch and scans each block. *)
Fixpoint scan_batch (addresses : list (Address * (Account * option KeyScope)))
    (nullifiers : Nullifiers) (prior_block_metadata : option BlockMetadata)
    (batch : list (Z * Queued)) : outcome SyncError (list ScannedBlock) :=
  match batch with
  | [] => Ret []
  | (height, result) :: batch =>
      '(scanning_keys, header, vtx) ← ok_or (await_result result) BatchDecryptorUnavailable;
      scanned_block ← full_scan_block height header vtx scanning_keys nullifiers
        prior_block_metadata addresses;
      scanned_blocks ← scan_batch addresses (update_with nullifiers scanned_block)
        (Some (to_block_metadata scanned_block)) batch;
      Ret (scanned_block :: scanned_blocks)
  end.

Definition scan_blocks (chain_view : View) (scan_range : ScanRange)
    (shutdown_height : option Z) : Sync (ControlFlow Z unit) :=
  match clamp_to_boundary (range_start scan_range, range_end scan_range) shutdown_height with
  | Break end_ => mret (Break end_)
  | Continue clamped =>
      let scan_range :=
        match clamped with
        | Some end_ => Range (range_start scan_range) end_ (priority scan_range)
        | None => scan_range
        end in
      o ← chain (tree_state_as_of chain_view (height_sub (range_start scan_range) 1));
      match o with
      | Some from_state =>
          blocks_to_apply ← chain (stream_blocks chain_view (range_start scan_range, range_end scan_range));
          batch ← lift (queue_blocks (items blocks_to_apply));
          _ ← stream_end blocks_to_apply;
          nullifiers ← read nullifiers_unspent;
          addresses ← read transparent_address_index;
          scanned_blocks ← lift (scan_batch addresses nullifiers (Some (state_metadata from_state)) batch);
          _ ← write (put_blocks from_state scanned_blocks);
          mret (match clamped with Some end_ => Break end_ | None => Continue tt end)
      | None =>
          _ ← chain (tip chain_view);
          mret (Continue tt)
      end
  end.

Definition scan_block (chain_view : View) (block : Block) (shutdown_height : option Z) :
    Sync (ControlFlow Z unit) :=
  let height := claimed_height block in
  if match shutdown_height with Some h => h <=? height | None => false end then
    mret (Break height)
  else
    o ← chain (tree_state_as_of chain_view (height_sub height 1));
    from_state ← lift (ok_or o (ChainErr (backend
      "Programming error: tried to scan block ahead of the chain view's tip")));
    result ← lift (ok_or (queue_block block) BatchDecryptorUnavailable);
    nullifiers ← read nullifiers_unspent;
    addresses ← read transparent_address_index;
    '(scanning_keys, header, vtx) ← lift (ok_or (await_result result) BatchDecryptorUnavailable);
    scanned ← lift (full_scan_block height header vtx scanning_keys nullifiers
      (Some (state_metadata from_state)) addresses);
    _ ← write (put_blocks from_state [scanned]);
    mret (Continue tt).

(** ** Finding the fork point *)

Definition update_boundary (current_boundary tip_height : Z) : Z :=
  Z.max current_boundary (height_sub tip_height 100).

Definition is_retryable (error : SyncError) : bool :=
  match error with
  | ChainErr (Unavailable _) => true
  | _ => false
  end.

Definition FORK_SEARCH_STEP : Z := 10.

Definition rewind_step (height birthday : Z) : Z * bool :=
  let next := Z.max (saturating_sub height FORK_SEARCH_STEP) birthday in
  (next, next <=? birthday).

(** The loop of [step_back_to_best_chain]; [None] is running out of fuel. *)
Fixpoint step_back_loop {V} `{ChainView V} (fuel : nat) (chain_view : V) (height birthday : Z)
    (wallet_hash : Z -> outcome SyncError (option BlockHash)) :
    option (outcome SyncError ChainBlock) :=
  match fuel with
  | O => None
  | S fuel =>
      let '(height, reached_birthday) := rewind_step height birthday in
      match wallet_hash height with
      | Err e => Some (Err e)
      | Panic => Some Panic
      | Ret wh =>
          match (match wh with
                 | Some wh =>
                     best ← map_err ChainErr (get_block_header chain_view height);
                     Ret (if bool_decide (header_hash <$> best = Some wh) then Some wh else None)
                 | None => Ret None
                 end) with
          | Err e => Some (Err e)
          | Panic => Some Panic
          | Ret (Some wh) => Some (Ret {| height := height; hash := wh |})
          | Ret None =>
              if reached_birthday then Some (Err (WalletDivergedBelowBirthday birthday))
              else step_back_loop fuel chain_view height birthday wallet_hash
          end
      end
  end.

(** Each step but the last lowers the height: its value is fuel enough. *)
Definition step_back_to_best_chain {V} `{ChainView V} (chain_view : V) (prev_tip : ChainBlock)
    (birthday : Z) (wallet_hash : Z -> outcome SyncError (option BlockHash)) :
    outcome SyncError ChainBlock :=
  match step_back_loop (S (Z.to_nat (height prev_tip))) chain_view (height prev_tip) birthday wallet_hash with
  | Some r => r
  | None => Panic
  end.

Definition locate_fork_point (chain_view : View) (prev_tip : ChainBlock) : Sync ChainBlock :=
  o ← read get_wallet_birthday;
  let birthday := default 0 o in
  locator ← read (fun x => build_block_locator (get_block_hash x) (height prev_tip));
  fork ← chain (find_fork_point chain_view locator);
  match fork with
  | Some fork_point => mret fork_point
  | None =>
      if bool_decide (locator = []) then mret prev_tip
      else
        x ← gets wallet;
        lift (step_back_to_best_chain chain_view prev_tip birthday
          (fun height => map_err Other (get_block_hash x height)))
  end.

(** ** [steady_state] *)

(** The loop that applies the blocks after the fork point. *)
Fixpoint apply_blocks (chain_view : View) (shutdown_height : option Z) (blocks : list Block) :
    Sync (ControlFlow Z unit) :=
  match blocks with
  | [] => mret (Continue tt)
  | block :: blocks =>
      p ← gets prev_tip;
      _ ← lift (assert (claimed_height block =? height_add (height p) 1));
      flow ← scan_block chain_view block shutdown_height;
      match flow with
      | Break boundary => mret (Break boundary)
      | Continue _ =>
          _ ← write (update_chain_tip (claimed_height block));
          _ ← set_prev_tip {| height := claimed_height block;
                              hash := header_hash (block_header block) |};
          apply_blocks chain_view shutdown_height blocks
      end
  end.

(** The [if tip_changed] block. *)
Definition follow_tip (chain_view : View) (current_tip : ChainBlock) (shutdown_height : option Z) :
    Sync (ControlFlow Z unit) :=
  _ ← modify (fun w => World (wallet w) (source w)
    (update_boundary (boundary w) (height current_tip)) (notified w) (prev_tip w));
  _ ← notify_one;
  p ← gets prev_tip;
  fork_point ← locate_fork_point chain_view p;
  _ ← lift (assert (height fork_point <=? height current_tip));
  blocks_to_apply ← chain (stream_blocks_to_tip chain_view (height_add (height fork_point) 1));
  _ ← (if bool_decide (fork_point = p) then mret tt
       else
         _ ← lift (assert (height fork_point <? height p));
         _ ← write (truncate_to_height (height fork_point));
         set_prev_tip fork_point);
  flow ← apply_blocks chain_view shutdown_height (items blocks_to_apply);
  match flow with
  | Break boundary => mret (Break boundary)
  | Continue _ => _ ← stream_end blocks_to_apply; mret (Continue tt)
  end.

(** Wallet transactions in the mempool, until it is superseded. *)
Definition follow_mempool (chain_view : View) : Sync (ControlFlow Z unit) :=
  mempool ← chain (get_mempool_stream chain_view);
  _ ← for_each (fun tx => write (decrypt_and_store_transaction tx None)) (default [] mempool);
  mret (Continue tt).

Definition steady_state_iteration (shutdown_height : option Z) : Sync (ControlFlow Z unit) :=
  chain_view ← take_snapshot;
  current_tip ← chain (tip chain_view);
  p ← gets prev_tip;
  let tip_changed := negb (bool_decide (current_tip = p)) in
  flow ← (if tip_changed then follow_tip chain_view current_tip shutdown_height
          else mret (Continue tt));
  match flow with
  | Break boundary => mret (Break boundary)
  | Continue _ =>
      match shutdown_height with
      | Some h => if h <=? height current_tip then mret (Break h) else follow_mempool chain_view
      | None => follow_mempool chain_view
      end
  end.

(** The recovery of [steady_state] from a conflict with the wallet's block at a height. *)
Definition recover_conflict (height : Z) : Sync (ControlFlow unit unit) :=
  let rewind_height := height_sub height 1 in
  o ← read (fun x => get_block_hash x rewind_height);
  hash ← lift (ok_or o (WalletDivergedBelowBirthday rewind_height));
  chain_view ← take_snapshot;
  fork_point ← locate_fork_point chain_view {| Chain.height := rewind_height; hash := hash |};
  _ ← write (truncate_to_height (Chain.height fork_point));
  _ ← set_prev_tip fork_point;
  mret (Continue tt).

(** One turn of the loop of [steady_state]; [Break] ends the task. *)
Definition steady_state_turn (shutdown_height : option Z) : Sync (ControlFlow unit unit) :=
  r ← attempt (steady_state_iteration shutdown_height);
  match r with
  | inr (Continue _) => mret (Continue tt)
  | inr (Break _) => mret (Break tt)
  | inl error =>
      if is_retryable error then mret (Continue tt)
      else
        match error with
        | Other (BlockConflict height) => recover_conflict height
        | _ => throw error
        end
  end.

(** ** [initialize] *)

(** The filter on suggested ranges. *)
Definition initial_range (starting_boundary : Z) (r : ScanRange) : option ScanRange :=
  if priority r =? PRIORITY_VERIFY then Some r
  else if PRIORITY_HISTORIC <=? priority r then truncate_start r starting_boundary
  else None.

(** One turn of the loop: [Some] is its [break]. *)
Definition initialize_turn (shutdown_height : option Z) : Sync (option (ChainBlock * Z)) :=
  chain_view ← take_snapshot;
  current_tip ← chain (tip chain_view);
  _ ← write (update_chain_tip (height current_tip));
  let starting_boundary := update_boundary 0 (height current_tip) in
  ranges ← read suggest_scan_ranges;
  match head (omap (initial_range starting_boundary) ranges) with
  | None =>
      no_metadata ← (if 0 <? height current_tip then
          m ← read (fun x => block_metadata x (height current_tip));
          mret (match m with Some _ => false | None => true end)
        else mret false);
      _ ← (if no_metadata : bool then
             r ← attempt (F:=SyncError) (
               o ← chain (get_block chain_view (height current_tip));
               tip_block ← lift (ok_or o (ChainErr (backend
                 "chain view did not return its own tip block")));
               scan_block chain_view tip_block shutdown_height);
             mret tt
           else mret tt);
      mret (Some (current_tip, starting_boundary))
  | Some scan_range =>
      r ← attempt (scan_blocks chain_view scan_range shutdown_height);
      match r with
      | inr (Break _) => mret (Some (current_tip, starting_boundary))
      | inr (Continue _) => mret None
      | inl error => if is_retryable error then mret None else throw error
      end
  end.

(** ** [recover_history] *)

(** The iterator that limits how many blocks are scanned at a time. *)
Fixpoint split_batches (fuel : nat) (remaining : ScanRange) (batch_size : Z) : list ScanRange :=
  match fuel with
  | O => [remaining]
  | S fuel =>
      match split_at remaining (height_add (range_start remaining) batch_size) with
      | Some (cur, next) => cur :: split_batches fuel next batch_size
      | None => [remaining]
      end
  end.

(** A range cannot be split more often than it has blocks. *)
Definition batches (r : ScanRange) (batch_size : Z) : list ScanRange :=
  split_batches (Z.to_nat (range_end r - range_start r)) r batch_size.

Fixpoint recover_batches (shutdown_height : option Z) (ranges : list ScanRange) : Sync unit :=
  match ranges with
  | [] => mret tt
  | scan_range :: ranges =>
      chain_view ← take_snapshot;
      flow ← scan_blocks chain_view scan_range shutdown_height;
      match flow with
      | Break _ => mret tt
      | Continue _ =>
          latest_ranges ← read suggest_scan_ranges;
          let scan_ranges_updated :=
            match latest_ranges with
            | range :: _ => priority scan_range <? priority range
            | [] => false
            end in
          if scan_ranges_updated then mret tt else recover_batches shutdown_height ranges
      end
  end.

(** One turn of the loop; with no range to scan it waits. *)
Definition recover_history_turn (batch_size : Z) (shutdown_height : option Z) : Sync unit :=
  upper_boundary ← gets boundary;
  ranges ← read suggest_scan_ranges;
  match head (omap (fun r => truncate_end r upper_boundary) ranges) with
  | None => mret tt
  | Some scan_range => recover_batches shutdown_height (batches scan_range batch_size)
  end.

(** ** [data_requests] *)

Definition address_request_bounds (block_range_start : Z) (block_range_end : option Z)
    (view_tip : Z) : (Z * Z) * Z :=
  let tip_exclusive := height_add view_tip 1 in
  let end_ := match block_range_end with
              | Some e => Z.min e tip_exclusive
              | None => tip_exclusive
              end in
  let end_ := Z.max end_ block_range_start in
  let as_of_height := saturating_sub end_ 1 in
  ((block_range_start, end_), as_of_height).

Definition service_address_request (chain_view : View) (address : string) (start : Z)
    (end_ : option Z) (view_tip : Z) : Sync unit :=
  let '(range, as_of_height) := address_request_bounds start end_ view_tip in
  chain_unspent ← chain (get_address_unspent_outpoints chain_view address);
  our_outputs ← read (fun x => get_spendable_transparent_outputs x address (height_add view_tip 1));
  let any_spent := existsb (fun output => negb (bool_decide (output ∈ chain_unspent))) our_outputs in
  _ ← (if any_spent then
         txids ← chain (get_address_tx_ids chain_view address range);
         for_each (fun txid =>
           o ← chain (get_transaction chain_view txid);
           match o with
           | Some tx => write (decrypt_and_store_transaction (inner tx) (mined_height tx))
           | None => mret tt
           end) txids
       else mret tt);
  write (notify_address_checked address as_of_height).

(** The body of the loop over requests, in the build without a spend index. *)
Definition handle_request (chain_view : View) (view_tip : Z) (request : TransactionDataRequest) :
    Sync unit :=
  match request with
  | GetStatus txid =>
      if txid_is_null txid then mret tt
      else
        status ← chain (get_transaction_status chain_view txid);
        write (set_transaction_status txid status)
  | Enhancement txid =>
      if txid_is_null txid then mret tt
      else
        o ← chain (get_transaction chain_view txid);
        match o with
        | Some tx => write (decrypt_and_store_transaction (inner tx) (mined_height tx))
        | None => write (set_transaction_status txid TxidNotRecognized)
        end
  | TransactionsInvolvingAddress address start end_ =>
      r ← attempt (F:=SyncError) (service_address_request chain_view address start end_ view_tip);
      mret tt
  end.

(** One turn of the loop, once the tip has changed. *)
Definition data_requests_turn : Sync unit :=
  chain_view ← take_snapshot;
  requests ← read transaction_data_requests;
  match requests with
  | [] => mret tt
  | _ =>
      view_tip ← chain (tip chain_view);
      for_each (handle_request chain_view (height view_tip)) requests
  end.
End sync.

(** ** What the wallet crates promise *)

(** The wallet has the block with this hash at this height. *)
Definition knows `{SyncEnv} (x : Wallet) (h : Z) (hs : BlockHash) : Prop :=
  get_block_hash x h = Ret (Some hs).

Section known.
Context `{SyncEnv}.

(** A write that leaves the wallet's blocks as they are. *)
Definition keeps_blocks {A} (m : M Wallet SqliteClientError A) : Prop :=
  forall x h hs, knows (m x).2 h hs <-> knows x h hs.
End known.

(** The documented effect of the calls on the wallet's blocks: [put_blocks] is
    a transaction that adds the scanned blocks, whose heights and hashes are
    those of the blocks queued; [truncate_to_height] removes the blocks above
    the height it returns, the one asked for or, when the wallet cannot be rolled
    back to that one, a lower one; the other calls do not touch blocks. A block hash determines
    its block's height ([hash_height]). *)
Class SyncLaws `{SyncEnv} := {
  #[global] view_laws :: ChainViewLaws View;
  hash_height : BlockHash -> Z;
  scanned_hash : ScannedBlock -> BlockHash;
  at_height_hash : forall v h hs, at_height v h = Some hs -> hash_height hs = h;
  queue_header : forall b q k hdr vtx,
    queue_block b = Some q -> await_result q = Some (k, hdr, vtx) -> hdr = block_header b;
  full_scan_block_spec : forall h hdr vtx k n m a sb, full_scan_block h hdr vtx k n m a = Ret sb ->
    scanned_height sb = h /\ scanned_hash sb = header_hash hdr;
  put_blocks_ok : forall st sbs x x', put_blocks st sbs x = (Ret tt, x') ->
    forall h hs, knows x' h hs <->
      (exists sb, sb ∈ sbs /\ scanned_height sb = h /\ scanned_hash sb = hs) \/
      (h ∉ scanned_height <$> sbs) /\ knows x h hs;
  put_blocks_failed : forall st sbs x, (put_blocks st sbs x).1 <> Ret tt -> 
    forall h hs, knows (put_blocks st sbs x).2 h hs <-> knows x h hs;
  truncate_ok : forall t x r x', truncate_to_height t x = (Ret r, x') ->
    r <= t /\ forall h hs, knows x' h hs <-> h <= r /\ knows x h hs;
  truncate_failed : forall t x, (forall r, (truncate_to_height t x).1 <> Ret r) ->
    forall h hs, knows (truncate_to_height t x).2 h hs <-> knows x h hs;
  update_chain_tip_blocks : forall t, keeps_blocks (update_chain_tip t);
  sapling_roots_blocks : forall r, keeps_blocks (put_sapling_subtree_roots r);
  orchard_roots_blocks : forall r, keeps_blocks (put_orchard_subtree_roots r);
  store_transaction_blocks : forall t h, keeps_blocks (decrypt_and_store_transaction t h);
  set_status_blocks : forall t st, keeps_blocks (set_transaction_status t st);
  notify_checked_blocks : forall a h, keeps_blocks (notify_address_checked a h)
}.

(** No call panics, the view's being asked for heights up to a limit above its tip. *)
Class SyncNoPanic `{SyncEnv} := {
  height_limit : Z;
  limit_in_range : height_limit < u32_max;
  tip_below_limit : forall v b, tip v = Ret b -> height b < height_limit;
  snapshot_total : forall s, (snapshot s).1 <> Panic;
  tip_total : forall v, tip v <> Panic;
  find_fork_point_total : forall v l, find_fork_point v l <> Panic;
  get_block_header_total : forall v h, 0 <= h <= height_limit -> get_block_header v h <> Panic;
  tree_state_total : forall v h, 0 <= h <= height_limit -> tree_state_as_of v h <> Panic;
  stream_to_tip_total : forall v s, 0 <= s <= height_limit -> stream_blocks_to_tip v s <> Panic;
  mempool_total : forall v, get_mempool_stream v <> Panic;
  birthday_total : forall x, get_wallet_birthday x <> Panic;
  block_hash_total : forall x h, get_block_hash x h <> Panic;
  nullifiers_total : forall x, nullifiers_unspent x <> Panic;
  accounts_total : forall x, get_account_ids x <> Panic;
  receivers_total : forall x a, get_transparent_receivers x a <> Panic;
  truncate_total : forall t x, (truncate_to_height t x).1 <> Panic;
  update_chain_tip_total : forall t x, (update_chain_tip t x).1 <> Panic;
  put_blocks_total : forall st sbs x, (put_blocks st sbs x).1 <> Panic;
  store_transaction_total : forall t h x, (decrypt_and_store_transaction t h x).1 <> Panic;
  full_scan_block_total : forall h hdr vtx k n m a, full_scan_block h hdr vtx k n m a <> Panic
}.

(** ** The divergence height is never crossed *)

Section boundary.
Context `{HE : SyncEnv} `{HL : !SyncLaws} `{HH : HeightOps} `{HHL : !HeightLaws}.

(** All the wallet's blocks are below [s]. *)
Definition below (s : Z) (w : world) : Prop :=
  forall h hs, knows (wallet w) h hs -> h < s.

(** One turn of one of the tasks, whatever its outcome. *)
Inductive engine_step (batch_size : Z) (shutdown_height : option Z) : world -> world -> Prop :=
  | step_subtree_roots w : engine_step batch_size shutdown_height w (update_subtree_roots w).2
  | step_initialize w : engine_step batch_size shutdown_height w (initialize_turn shutdown_height w).2
  | step_steady_state w : engine_step batch_size shutdown_height w (steady_state_turn shutdown_height w).2
  | step_recover_history w :
      engine_step batch_size shutdown_height w (recover_history_turn batch_size shutdown_height w).2
  | step_data_requests w : engine_step batch_size shutdown_height w (data_requests_turn w).2
  | step_environment w src :
      engine_step batch_size shutdown_height w
        (World (wallet w) src (boundary w) (notified w) (prev_tip w)).

Lemma clamp_to_boundary_spec r s :
  match clamp_to_boundary r (Some s) with
  | Break e => e = Z.min s r.2 /\ e <= r.1
  | Continue (Some e) => e = s /\ r.1 < s < r.2
  | Continue None => r.1 < r.2 <= s
  end.
Proof.
  unfold clamp_to_boundary.
  destruct (Z.leb_spec (Z.min s r.2) r.1); [done|].
  destruct (Z.ltb_spec (Z.min s r.2) r.2); lia.
Qed.

Lemma follows_heights at_h s bs b : follows at_h s bs -> b ∈ bs ->
  s <= claimed_height b < s + Z.of_nat (length bs).
Proof.
  revert s; induction bs as [|b' bs IH]; intros s; cbn; [set_solver|].
  intros (Hh & _ & Hf) [->|Hb]%elem_of_cons; [lia|]. specialize (IH _ Hf Hb). lia.
Qed.

Lemma queue_blocks_heights bs batch : queue_blocks bs = Ret batch -> batch.*1 = claimed_height <$> bs.
Proof.
  revert batch; induction bs as [|b bs IH]; intros batch; cbn; [by intros [= <-]|].
  intros (q & _ & (rest & Hr & [= <-])%bind_Ret)%bind_Ret. cbn. by rewrite (IH rest Hr).
Qed.

Lemma scan_batch_heights a n m batch sbs :
  scan_batch a n m batch = Ret sbs -> scanned_height <$> sbs = batch.*1.
Proof.
  revert n m sbs; induction batch as [|[h q] batch IH]; intros n m sbs; cbn; [by intros [= <-]|].
  intros ([[k hdr] vtx] & _ & (sb & Hsb & (rest & Hr & [= <-])%bind_Ret)%bind_Ret)%bind_Ret.
  cbn. rewrite (IH _ _ _ Hr). by destruct (full_scan_block_spec _ _ _ _ _ _ _ _ Hsb) as [-> _].
Qed.

Lemma keeps_write_blocks {A} s (m : M Wallet SqliteClientError A) :
  keeps_blocks m -> keeps (below s) (write m) (fun _ => True).
Proof.
  intros Hm w Hw. unfold write. specialize (Hm (wallet w)).
  destruct (m (wallet w)) as [r x]; cbn in *. split; [|done].
  intros h hs Hk. by apply (Hw h hs), Hm.
Qed.

Lemma keeps_put_blocks s st sbs :
  (forall h, h ∈ scanned_height <$> sbs -> h < s) -> keeps (below s) (write (put_blocks st sbs)) (fun _ => True).
Proof.
  intros Hs w Hw. unfold write.
  pose proof (put_blocks_ok st sbs (wallet w)) as Hok.
  pose proof (put_blocks_failed st sbs (wallet w)) as Hf.
  destruct (put_blocks st sbs (wallet w)) as [r x]; cbn in *. split; [|done].
  intros h hs Hk. destruct r as [[]|e|].
  - apply (Hok x eq_refl) in Hk as [(sb & Hin & Hh & _)|[_ Hk]]; [|by apply (Hw h hs)].
    apply Hs. rewrite <-Hh. by apply list_elem_of_fmap_2.
  - apply (Hw h hs). by apply Hf.
  - apply (Hw h hs). by apply Hf.
Qed.

Lemma keeps_truncate s t : keeps (below s) (write (truncate_to_height t)) (fun _ => True).
Proof.
  intros w Hw. unfold write.
  pose proof (truncate_ok t (wallet w)) as Hok. pose proof (truncate_failed t (wallet w)) as Hf.
  destruct (truncate_to_height t (wallet w)) as [r x]; cbn in *. split; [|done].
  intros h hs Hk. apply (Hw h hs). destruct r as [r|e|].
  - by apply (Hok r x eq_refl) in Hk as [_ ?].
  - by apply Hf.
  - by apply Hf.
Qed.

(** The steps that do not write blocks. *)
Lemma keeps_read {A} s (f : Wallet -> outcome SqliteClientError A) : keeps (below s) (read f) (fun _ => True).
Proof. by intros w Hw. Qed.

Lemma keeps_chain {A} s (m : outcome ChainError A) (Q : A -> Prop) :
  (forall a, m = Ret a -> Q a) -> keeps (below s) (chain m) Q.
Proof. intros HQ. apply keeps_lift. by destruct m; intros ? [= <-]; apply HQ. Qed.

Lemma keeps_snapshot s : keeps (below s) take_snapshot (fun _ => True).
Proof. intros w Hw. unfold take_snapshot. by destruct (snapshot (source w)). Qed.

Lemma keeps_gets {A} s (f : world -> A) : keeps (E:=SyncError) (below s) (gets f) (fun _ => True).
Proof. by intros w Hw. Qed.

Lemma keeps_modify s f : (forall w, wallet (f w) = wallet w) ->
  keeps (E:=SyncError) (below s) (modify f) (fun _ => True).
Proof. intros Hf w Hw. cbn. split; [|done]. unfold below. by rewrite Hf. Qed.

Lemma keeps_throw {A} s (e : SyncError) (Q : A -> Prop) : keeps (below s) (throw e) Q.
Proof. by intros w Hw. Qed.

Lemma keeps_True {A} s (m : M world SyncError A) Q :
  keeps (below s) m Q -> keeps (below s) m (fun _ => True).
Proof. intros Hm. by eapply keeps_weaken. Qed.

Lemma keeps_chain_any {A} s (m : outcome ChainError A) : keeps (below s) (chain m) (fun _ => True).
Proof. by apply keeps_chain. Qed.

Lemma keeps_lift_any {A} s (m : outcome SyncError A) : keeps (below s) (lift m) (fun _ => True).
Proof. by apply keeps_lift. Qed.

Lemma keeps_ret_any {A} s (a : A) : keeps (E:=SyncError) (below s) (mret a) (fun _ => True).
Proof. by apply keeps_ret. Qed.

#[local] Hint Resolve keeps_read keeps_chain_any keeps_snapshot keeps_gets keeps_throw
  keeps_truncate keeps_lift_any keeps_ret_any : zallet.
#[local] Hint Extern 3 (keeps _ (modify _) _) => by apply keeps_modify : zallet.
#[local] Hint Extern 4 (keeps _ (write _) _) =>
  apply keeps_write_blocks; first [apply update_chain_tip_blocks | apply sapling_roots_blocks
    | apply orchard_roots_blocks | apply store_transaction_blocks | apply set_status_blocks
    | apply notify_checked_blocks] : zallet.

(** Goes through the binds and branches of a computation. *)
Ltac keeps_tac :=
  repeat match goal with
  | |- keeps _ (_ ≫= _) _ =>
      eapply keeps_bind; [solve [eauto with zallet]|let a := fresh "a" in intros a _]
  | |- keeps _ (match ?x with _ => _ end) _ => destruct x
  | |- keeps _ (if ?b then _ else _) _ => destruct b
  | |- keeps _ (let '(_, _) := ?x in _) _ => destruct x
  end; try solve [eauto with zallet].

Lemma keeps_stream_end s st : keeps (below s) (stream_end st) (fun _ => True).
Proof. unfold stream_end. keeps_tac. Qed.

Lemma keeps_scan_block s v b : keeps (below s) (scan_block v b (Some s)) (fun _ => True).
Proof.
  unfold scan_block. destruct (Z.leb_spec s (claimed_height b)) as [|Hlt]; [by apply keeps_ret|].
  do 5 (eapply keeps_bind; [solve [eauto with zallet]|intros ? _]).
  eapply keeps_bind; [by apply (keeps_lift _ _ (fun _ => True))|]. intros [[k hdr] vtx] _.
  eapply keeps_bind; [apply keeps_lift; intros sb Hsb; exact (proj1 (full_scan_block_spec _ _ _ _ _ _ _ _ Hsb))|].
  intros sb Hsb. cbn beta in Hsb. eapply keeps_bind; [apply keeps_put_blocks|by intros; apply keeps_ret].
  intros h. cbn. intros ->%list_elem_of_singleton. by rewrite Hsb.
Qed.

Lemma keeps_scan_blocks s v r : keeps (below s) (scan_blocks v r (Some s)) (fun _ => True).
Proof.
  unfold scan_blocks. pose proof (clamp_to_boundary_spec (range_start r, range_end r) s) as Hc.
  destruct (clamp_to_boundary _ _) as [e|c]; [by apply keeps_ret|]. cbn in Hc.
  set (r' := match c with Some end_ => Range (range_start r) end_ (priority r) | None => r end).
  assert (range_start r' < range_end r' <= s) as Hr'
    by (subst r'; destruct c; cbn in *; lia).
  clearbody r'. clear Hc.
  eapply keeps_bind; [by apply (keeps_chain _ _ (fun _ => True))|]. intros [st|] _; [|by keeps_tac].
  eapply keeps_bind; [apply (keeps_chain _ _ (fun bs => stream_blocks v (range_start r', range_end r') = Ret bs)); by intros|].
  intros bs Hbs. cbn beta in Hbs.
  eapply keeps_bind.
  { apply keeps_lift. intros batch Hb. exact (queue_blocks_heights _ _ Hb). }
  intros batch Hb. cbn beta in Hb.
  do 3 (eapply keeps_bind; [solve [eauto using keeps_stream_end with zallet]|intros ? _]).
  eapply keeps_bind.
  { apply keeps_lift. intros sbs Hsbs. exact (scan_batch_heights _ _ _ _ _ Hsbs). }
  intros sbs Hsbs. cbn beta in Hsbs. eapply keeps_bind; [apply keeps_put_blocks|by intros; apply keeps_ret].
  intros h. rewrite Hsbs, Hb. intros (b & -> & Hin)%list_elem_of_fmap.
  apply stream_blocks_spec in Hbs as [Hf Hlen]; [|cbn; lia]. cbn in Hf, Hlen.
  pose proof (follows_heights _ _ _ _ Hf Hin). lia.
Qed.

Lemma keeps_locate s v p : keeps (below s) (locate_fork_point v p) (fun _ => True).
Proof. unfold locate_fork_point. keeps_tac. Qed.

Lemma keeps_apply_blocks s v bs : keeps (below s) (apply_blocks v (Some s) bs) (fun _ => True).
Proof.
  induction bs as [|b bs IH]; cbn [apply_blocks]; [by apply keeps_ret|].
  eapply keeps_bind; [apply keeps_gets|intros p _].
  eapply keeps_bind; [by apply (keeps_lift _ _ (fun _ => True))|intros _ _].
  eapply keeps_bind; [apply keeps_scan_block|intros [c|[]] _; [by apply keeps_ret|]].
  eapply keeps_bind; [eauto with zallet|intros _ _].
  eapply keeps_bind; [by apply keeps_modify|by intros _ _].
Qed.

Lemma keeps_follow_tip s v t : keeps (below s) (follow_tip v t (Some s)) (fun _ => True).
Proof.
  unfold follow_tip.
  eapply keeps_bind; [by apply keeps_modify|intros _ _].
  eapply keeps_bind; [by apply keeps_modify|intros _ _].
  eapply keeps_bind; [apply keeps_gets|intros p _].
  eapply keeps_bind; [apply keeps_locate|intros f _].
  eapply keeps_bind; [by apply (keeps_lift _ _ (fun _ => True))|intros _ _].
  eapply keeps_bind; [apply keeps_chain_any|intros st _].
  eapply keeps_bind.
  { instantiate (1 := fun _ => True). case_bool_decide; [by apply keeps_ret|].
    eapply keeps_bind; [by apply (keeps_lift _ _ (fun _ => True))|intros _ _].
    eapply keeps_bind; [apply keeps_truncate|intros _ _]. by apply keeps_modify. }
  intros _ _. eapply keeps_bind; [apply keeps_apply_blocks|intros [c|[]] _; [by apply keeps_ret|]].
  eapply keeps_bind; [apply keeps_stream_end|by intros; apply keeps_ret].
Qed.

Lemma keeps_steady_state_iteration s :
  keeps (below s) (steady_state_iteration (Some s)) (fun _ => True).
Proof.
  unfold steady_state_iteration.
  eapply keeps_bind; [apply keeps_snapshot|intros v _].
  eapply keeps_bind; [by apply (keeps_chain _ _ (fun _ => True))|intros t _].
  eapply keeps_bind; [apply keeps_gets|intros p _].
  eapply keeps_bind.
  { instantiate (1 := fun _ => True). destruct (negb _); [apply keeps_follow_tip|by apply keeps_ret]. }
  intros [c|[]] _; [by apply keeps_ret|]. destruct (s <=? height t); [by apply keeps_ret|].
  unfold follow_mempool.
  eapply keeps_bind; [by apply (keeps_chain _ _ (fun _ => True))|intros m _].
  eapply keeps_bind; [|by intros; apply keeps_ret].
  apply keeps_for_each. eauto with zallet.
Qed.

Lemma keeps_steady_state_turn s : keeps (below s) (steady_state_turn (Some s)) (fun _ => True).
Proof.
  unfold steady_state_turn.
  eapply keeps_bind; [eapply keeps_attempt, keeps_steady_state_iteration|].
  intros [e|[|]] _; [|by apply keeps_ret..]. destruct (is_retryable e); [by apply keeps_ret|].
  destruct e as [| | | |[h|]|]; try apply keeps_throw.
  eapply keeps_bind; [apply keeps_read|intros o _].
  eapply keeps_bind; [by apply (keeps_lift _ _ (fun _ => True))|intros hs _].
  eapply keeps_bind; [apply keeps_snapshot|intros v _].
  eapply keeps_bind; [apply keeps_locate|intros f _].
  eapply keeps_bind; [apply keeps_truncate|intros _ _].
  eapply keeps_bind; [by apply keeps_modify|by intros; apply keeps_ret].
Qed.

Lemma keeps_initialize_turn s : keeps (below s) (initialize_turn (Some s)) (fun _ => True).
Proof.
  unfold initialize_turn.
  eapply keeps_bind; [apply keeps_snapshot|intros v _].
  eapply keeps_bind; [by apply (keeps_chain _ _ (fun _ => True))|intros t _].
  eapply keeps_bind; [eauto with zallet|intros _ _].
  eapply keeps_bind; [apply keeps_read|intros ranges _].
  destruct (head _) as [r|].
  - eapply keeps_bind; [eapply keeps_attempt, keeps_scan_blocks|].
    intros [e|[|]] _; [|by apply keeps_ret..].
    destruct (is_retryable e); [by apply keeps_ret|apply keeps_throw].
  - eapply keeps_bind.
    { instantiate (1 := fun _ => True). destruct (0 <? height t); [|by apply keeps_ret].
      eapply keeps_bind; [apply keeps_read|by intros; apply keeps_ret]. }
    intros [] _; (apply (keeps_bind _ _ _ (fun _ => True)); [|by intros; apply keeps_ret]);
      [|by apply keeps_ret].
    apply (keeps_bind _ _ _ (fun _ => True)); [|by intros; apply keeps_ret].
    apply (keeps_attempt _ _ (fun _ => True)).
    eapply keeps_bind; [by apply (keeps_chain _ _ (fun _ => True))|intros o _].
    eapply keeps_bind; [by apply (keeps_lift _ _ (fun _ => True))|intros b _].
    apply keeps_scan_block.
Qed.

Lemma keeps_recover_history_turn s n : keeps (below s) (recover_history_turn n (Some s)) (fun _ => True).
Proof.
  unfold recover_history_turn.
  eapply keeps_bind; [apply keeps_gets|intros u _].
  eapply keeps_bind; [apply keeps_read|intros ranges _].
  destruct (head _) as [r|]; [|by apply keeps_ret].
  induction (batches r n) as [|b bs IH]; cbn [recover_batches]; [by apply keeps_ret|].
  eapply keeps_bind; [apply keeps_snapshot|intros v _].
  eapply keeps_bind; [apply keeps_scan_blocks|intros [c|[]] _; [by apply keeps_ret|]].
  eapply keeps_bind; [apply keeps_read|intros [|l ls] _; [done|]].
  destruct (priority b <? priority l); [by apply keeps_ret|done].
Qed.

Lemma keeps_data_requests_turn s : keeps (below s) data_requests_turn (fun _ => True).
Proof.
  unfold data_requests_turn.
  eapply keeps_bind; [apply keeps_snapshot|intros v _].
  eapply keeps_bind; [apply keeps_read|intros [|r rs] _; [by apply keeps_ret|]].
  eapply keeps_bind; [by apply (keeps_chain _ _ (fun _ => True))|intros t _].
  apply keeps_for_each. intros [txid|txid|a st en]; cbn [handle_request].
  - destruct (txid_is_null txid); [by apply keeps_ret|].
    eapply keeps_bind; [by apply (keeps_chain _ _ (fun _ => True))|intros; eauto with zallet].
  - destruct (txid_is_null txid); [by apply keeps_ret|].
    eapply keeps_bind; [by apply (keeps_chain _ _ (fun _ => True))|intros [tx|] _; eauto with zallet].
  - apply (keeps_bind _ _ _ (fun _ => True)); [|by intros; apply keeps_ret].
    apply (keeps_attempt _ _ (fun _ => True)). unfold service_address_request. destruct (address_request_bounds _ _ _) as [range as_of].
    eapply keeps_bind; [by apply (keeps_chain _ _ (fun _ => True))|intros u _].
    eapply keeps_bind; [apply keeps_read|intros o _].
    apply (keeps_bind _ _ _ (fun _ => True)); [|intros _ _; eauto with zallet].
    destruct (existsb _ _); [|by apply keeps_ret].
    eapply keeps_bind; [by apply (keeps_chain _ _ (fun _ => True))|intros txids _].
    apply keeps_for_each. intros txid0.
    eapply keeps_bind; [by apply (keeps_chain _ _ (fun _ => True))|intros [tx|] _; eauto with zallet].
Qed.

Lemma keeps_subtree_roots s : keeps (below s) update_subtree_roots (fun _ => True).
Proof.
  unfold update_subtree_roots.
  eapply keeps_bind; [apply keeps_gets|intros src _].
  eapply keeps_bind; [by apply (keeps_chain _ _ (fun _ => True))|intros r _].
  eapply keeps_bind; [eauto with zallet|intros _ _].
  eapply keeps_bind; [by apply (keeps_chain _ _ (fun _ => True))|intros; eauto with zallet].
Qed.

Lemma engine_run_below batch_size s w w' :
  rtc (engine_step batch_size (Some s)) w w' -> below s w -> below s w'.
Proof.
  induction 1 as [|w w1 w' Hstep _ IH]; [done|]. intros Hw. apply IH. clear IH.
  destruct Hstep.
  - by apply keeps_subtree_roots.
  - by apply keeps_initialize_turn.
  - by apply keeps_steady_state_turn.
  - by apply keeps_recover_history_turn.
  - by apply keeps_data_requests_turn.
  - done.
Qed.
(** C6. The consensus-divergence height is never crossed: if all the blocks in
    the wallet are below [shutdown_height], they still are after any number of
    turns, in any order, of the tasks [initialize], [steady_state],
    [recover_history] and [data_requests], whatever the chain does meanwhile
    and whether the turns succeed, fail or panic. *)
Theorem shutdown_height_never_crossed batch_size s w w' :
  rtc (engine_step batch_size (Some s)) w w' -> below s w -> below s w'.
Proof. apply engine_run_below. Qed.
End boundary.
