(* ===== verification/SyncProps.v ===== *)
(** Properties of the pieces of the sync engine: the walk back to the best
    chain, the batches of [recover_history], and the bounds of address
    requests. *)

From S2P Require Import Prelude Rpc Chain Sync.

(** ** Walking back to the best chain *)

Section step_back.
Context `{ChainTypes} {V : Type} `{!ChainView V}.
Context (chain_view : V) (birthday : Z) (wallet_hash : Z -> outcome SyncError (option BlockHash)).

(** The heights probed: every tenth block down, then the birthday. *)
Definition probe (from : Z) (k : nat) : Z := Z.max (Z.max 0 (from - 10 * Z.of_nat k)) birthday.

(** The wallet's block at a height is on the best chain. *)
Definition matches (h : Z) (hs : BlockHash) : Prop :=
  wallet_hash h = Ret (Some hs) /\
  exists hd, get_block_header chain_view h = Ret (Some hd) /\ header_hash hd = hs.

Lemma rewind_step_probe from :
  rewind_step from birthday = (probe from 1, probe from 1 <=? birthday).
Proof. unfold rewind_step, saturating_sub, FORK_SEARCH_STEP, probe. do 2 f_equal; lia. Qed.

Lemma probe_probe from k : 0 <= birthday -> probe (probe from 1) k = probe from (S k) \/
  probe from 1 <= birthday.
Proof. unfold probe. lia. Qed.

Lemma step_back_loop_correct fuel from :
  0 <= birthday -> 0 <= from -> (Z.to_nat from < fuel)%nat ->
  (forall h, exists o, wallet_hash h = Ret o) ->
  (forall h, exists o, get_block_header chain_view h = Ret o) ->
  (exists b k, step_back_loop fuel chain_view from birthday wallet_hash = Some (Ret b) /\
     (1 <= k)%nat /\ height b = probe from k /\ matches (height b) (hash b) /\
     forall j hs, (1 <= j < k)%nat -> ~ matches (probe from j) hs) \/
  (step_back_loop fuel chain_view from birthday wallet_hash =
     Some (Err (WalletDivergedBelowBirthday birthday)) /\
   forall j hs, (1 <= j)%nat -> ~ matches (probe from j) hs).
Proof.
  intros Hb Hfrom Hfuel Hwh Hgh. revert from Hfrom Hfuel.
  induction fuel as [|fuel IH]; intros from Hfrom Hfuel; [lia|].
  cbn [step_back_loop]. rewrite rewind_step_probe. set (h := probe from 1) in *.
  destruct (Hwh h) as [o Ho]. destruct (Hgh h) as [hd Hhd]. rewrite Ho.
  assert (forall hs, o = Some hs -> hd <> None -> header_hash <$> hd = Some hs -> matches h hs) as Hm.
  { intros hs -> ? Heq. split; [done|]. destruct hd; [|done]. injection Heq. eauto. }
  assert ((exists hs, o = Some hs /\ header_hash <$> hd = Some hs /\ matches h hs) \/
    ((forall hs, ~ matches h hs) /\
     match o with
     | Some wh => best ← map_err ChainErr (get_block_header chain_view h);
         Ret (if bool_decide (header_hash <$> best = Some wh) then Some wh else None)
     | None => Ret (E:=SyncError) None
     end = Ret None)) as [(hs & -> & Heq & Hmatch)|[Hno ->]].
  { destruct o as [wh|].
    - rewrite Hhd. cbn. case_bool_decide as Heq.
      + left. exists wh. split_and!; [done..|]. apply Hm; [done| |done]. by destruct hd.
      + right. split; [|done]. intros hs (Hw & hd' & Hg & Hhs). rewrite Ho in Hw. rewrite Hhd in Hg.
        by simplify_eq.
    - right. split; [|done]. intros hs (Hw & _). congruence. }
  - left. rewrite Hhd. cbn. rewrite bool_decide_true by done.
    exists {| height := h; hash := hs |}, 1%nat. split_and!; [done|lia|done|done|lia].
  - destruct (Z.leb_spec h birthday) as [Hle|Hgt].
    + right. split; [done|]. intros j hs Hj.
      assert (probe from j = h) as -> by (subst h; unfold probe in *; lia). apply Hno.
    + assert (forall k, probe h k = probe from (S k)) as Hpp
        by (intros k; subst h; destruct (probe_probe from k Hb); [done|lia]).
      destruct (IH h) as [(b & k & Heq & Hk & Hhb & Hmb & Hall)|[Heq Hall]];
        [subst h; unfold probe in *; lia..| |].
      * left. exists b, (S k). rewrite <-Hpp. split_and!; [done|lia|done|done|].
        intros j hs Hj. destruct j as [|[|j]]; [lia|apply Hno|]. rewrite <-Hpp. apply Hall. lia.
      * right. split; [done|]. intros j hs Hj. destruct j as [|[|j]]; [lia|apply Hno|].
        rewrite <-Hpp. apply Hall. lia.
Qed.

(** When the fork lies below the reorg window, [step_back_to_best_chain]
    terminates and finds the resume point: the first of the heights it probes
    (each ten blocks below the last, the birthday at the end) at which the
    wallet's block is on the best chain; it reports that the wallet diverged
    below its birthday exactly when there is none. *)
Theorem step_back_to_best_chain_correct (prev : ChainBlock) :
  0 <= birthday -> 0 <= height prev ->
  (forall h, exists o, wallet_hash h = Ret o) ->
  (forall h, exists o, get_block_header chain_view h = Ret o) ->
  (exists b k, step_back_to_best_chain chain_view prev birthday wallet_hash = Ret b /\
     (1 <= k)%nat /\ height b = probe (height prev) k /\ matches (height b) (hash b) /\
     forall j hs, (1 <= j < k)%nat -> ~ matches (probe (height prev) j) hs) \/
  (step_back_to_best_chain chain_view prev birthday wallet_hash =
     Err (WalletDivergedBelowBirthday birthday) /\
   forall j hs, (1 <= j)%nat -> ~ matches (probe (height prev) j) hs).
Proof.
  intros Hb Hp Hwh Hgh. unfold step_back_to_best_chain.
  destruct (step_back_loop_correct (S (Z.to_nat (height prev))) (height prev))
    as [(b & k & -> & ?)|[-> ?]]; [done..|lia|done|done| |].
  - left. by exists b, k.
  - by right.
Qed.
End step_back.

(** ** Batches *)

(** Splitting a scan range, as [zcash_client_backend] documents it: at a height
    strictly inside it, into the parts before and from that height. *)
Class ScanRangeLaws `{SyncEnv} := {
  split_at_spec : forall r p,
    split_at r p =
      if (range_start r <? p) && (p <? range_end r) then
        Some (Range (range_start r) p (priority r), Range p (range_end r) (priority r))
      else None
}.

Section batches.
Context `{SyncEnv} `{!ScanRangeLaws} `{HeightOps} `{!HeightLaws}.

(** The ranges [l] cut [s..e) into consecutive pieces of 1 to [n] blocks. *)
Fixpoint cuts (n prio s e : Z) (l : list ScanRange) : Prop :=
  match l with
  | [] => s = e
  | r :: l =>
      range_start r = s /\ s < range_end r <= s + n /\ priority r = prio /\
      cuts n prio (range_end r) e l
  end.

(** [recover_history] scans a range in batches that, in order, cut the
    whole range into consecutive pieces of at most [batch_size] blocks. *)
Theorem batches_cut_range r batch_size :
  0 <= range_start r < range_end r -> 1 <= batch_size -> range_end r + batch_size <= u32_max ->
  cuts batch_size (priority r) (range_start r) (range_end r) (batches r batch_size).
Proof.
  intros Hr Hn Hmax. unfold batches.
  assert (forall fuel r, 0 <= range_start r < range_end r -> range_end r + batch_size <= u32_max ->
    range_end r - range_start r <= batch_size + Z.of_nat fuel ->
    cuts batch_size (priority r) (range_start r) (range_end r) (split_batches fuel r batch_size)) as Hg.
  { clear r Hr Hmax. induction fuel as [|fuel IH]; intros r Hr Hmax Hf; [cbn; lia|].
    cbn [split_batches]. rewrite split_at_spec, height_add_spec by lia.
    destruct (Z.ltb_spec (range_start r) (range_start r + batch_size)); [|lia].
    destruct (Z.ltb_spec (range_start r + batch_size) (range_end r)); cbn [andb]; [|cbn; lia].
    cbn [cuts range_start range_end priority]. split_and!; [done|lia|lia|done|].
    apply (IH (Range (range_start r + batch_size) (range_end r) (priority r)));
      cbn [range_start range_end]; lia. }
  apply Hg; [done..|lia].
Qed.
End batches.

(** ** Address requests *)

Section bounds.
Context `{HeightOps} `{!HeightLaws}.

(** [address_request_bounds]: the range queried holds exactly the requested
    blocks up to the view's tip, and when there are any, the height reported
    as checked is the last of them. When there are none it is the height before
    the requested start, which is above the view's tip if the start is. *)
Theorem address_request_bounds_correct start end_ view_tip :
  0 <= start -> 0 <= view_tip < u32_max ->
  let '(range, as_of) := address_request_bounds start end_ view_tip in
  (forall h, range.1 <= h < range.2 <->
     start <= h <= view_tip /\ (forall e, end_ = Some e -> h < e)) /\
  (range.1 < range.2 -> as_of = range.2 - 1 /\ as_of <= view_tip) /\
  (range.2 <= range.1 -> as_of = Z.max 0 (start - 1)) /\
  (view_tip < as_of <-> view_tip + 1 < start).
Proof.
  intros Hs Ht. unfold address_request_bounds, saturating_sub.
  rewrite height_add_spec by (unfold u32_max in *; lia). cbn [fst snd].
  destruct end_ as [e|]; split_and!; try lia.
  - intros h. split; [intros ?; split; [lia|intros ? [= <-]; lia]|]. intros [? He].
    specialize (He e eq_refl). lia.
  - intros h. split; [intros ?; split; [lia|done]|lia].
Qed.
End bounds.

(** ** [steady_state] *)

Section steady_state.
Context `{HE : SyncEnv} `{HL : !SyncLaws} `{HF : !ForkPointLaws View} `{HN : !SyncNoPanic}
  `{HH : HeightOps} `{HHL : !HeightLaws}.

(** Every block the wallet has is at the height its hash determines, and at the
    height of the block [steady_state] is at it has no other block. *)
Definition tracks (w : world) : Prop :=
  (forall h hs, knows (wallet w) h hs -> hash_height hs = h) /\
  0 <= height (prev_tip w) < height_limit /\
  (forall hs, knows (wallet w) (height (prev_tip w)) hs -> hs = hash (prev_tip w)).

(** The wallet has the block [steady_state] is at. *)
Definition holds (w : world) : Prop :=
  knows (wallet w) (height (prev_tip w)) (hash (prev_tip w)).

(** The wallet has a block at a height that the locator of [p] samples. *)
Definition anchored (x : Wallet) (p : ChainBlock) : Prop :=
  exists h hs, h ∈ locator_block_heights (height p) /\ knows x h hs.

Lemma holds_anchored w : 0 <= height (prev_tip w) -> holds w -> anchored (wallet w) (prev_tip w).
Proof.
  intros Hp Hk. exists (height (prev_tip w)), (hash (prev_tip w)). split; [|done].
  destruct (locator_heights_facts (height (prev_tip w)) Hp) as (_ & _ & _ & Hhead).
  apply head_Some in Hhead as [l' ->]. left.
Qed.

(** [w'] was reached from [w] with the wallet having the block [steady_state] is
    at, or by rewinding to that block when the wallet could only be rolled back
    to a lower height. *)
Definition settled (w w' : world) : Prop :=
  holds w' \/ exists r x, truncate_to_height (height (prev_tip w')) (wallet w) = (Ret r, x) /\ r < height (prev_tip w').

(** Above height [f], up to where [steady_state] is, the wallet's blocks are those
    of the chain [v]. *)
Definition agrees (v : View) (f : Z) (w : world) : Prop :=
  forall h, f < h <= height (prev_tip w) ->
    exists hs, at_height v h = Some hs /\ knows (wallet w) h hs.

Lemma knows_fun x h hs hs' : knows x h hs -> knows x h hs' -> hs = hs'.
Proof. unfold knows. congruence. Qed.

Lemma ChainBlock_ext (a b : ChainBlock) : height a = height b -> hash a = hash b -> a = b.
Proof. destruct a, b; cbn. congruence. Qed.

(** *** The fork point *)

Lemma step_back_safe fuel (v : View) from birthday wallet_hash :
  0 <= birthday -> 0 <= from <= height_limit -> (Z.to_nat from < fuel)%nat -> birthday <= from ->
  (forall h, wallet_hash h <> Panic) ->
  exists r, step_back_loop fuel v from birthday wallet_hash = Some r /\
    post r (fun b => 0 <= height b <= from /\ matches v wallet_hash (height b) (hash b)) (fun _ => True).
Proof.
  intros Hb Hfrom Hfuel Hbf Hwh. revert from Hfrom Hfuel Hbf.
  induction fuel as [|fuel IH]; intros from Hfrom Hfuel Hbf; [lia|].
  cbn [step_back_loop]. rewrite rewind_step_probe. set (h := probe birthday from 1) in *.
  assert (0 <= h <= from) as Hh by (subst h; unfold probe; lia).
  assert (birthday < h -> exists r, step_back_loop fuel v h birthday wallet_hash = Some r /\
    post r (fun b => 0 <= height b <= from /\ matches v wallet_hash (height b) (hash b)) (fun _ => True)) as Hrec.
  { intros Hlt. destruct (IH h) as (r & Hr & Hp); [lia|subst h; unfold probe in *; lia|lia|].
    exists r. split; [done|]. eapply post_mono; [exact Hp| |done]. cbn. intros b [? ?]. split; [lia|done]. }
  assert (exists r, (if h <=? birthday then Some (Err (WalletDivergedBelowBirthday birthday))
    else step_back_loop fuel v h birthday wallet_hash) = Some r /\
    post r (fun b => 0 <= height b <= from /\ matches v wallet_hash (height b) (hash b)) (fun _ => True)) as Hif.
  { destruct (Z.leb_spec h birthday); [|by apply Hrec]. by eexists. }
  specialize (Hwh h). destruct (wallet_hash h) as [[wh|]|e|] eqn:Ho; [|done|by eexists|done].
  assert (get_block_header v h <> Panic) by (apply get_block_header_total; lia). destruct (get_block_header v h) as [hd|e|] eqn:Hhd; [|by eexists|done].
  cbn. case_bool_decide as Heq; [|done]. eexists; split; [done|]. cbn. split; [lia|].
  destruct hd as [hd|]; [|done]. injection Heq as Heq. split; [done|]. eauto.
Qed.

(** *** Locating the fork point *)

Definition birthday_known_below (x : Wallet) (p : ChainBlock) : Prop :=
  forall b, get_wallet_birthday x = Ret (Some b) -> 0 <= b <= height p.

(** The fork point found: when the wallet has blocks the locator samples, a block
    that it and the view have; otherwise the block given, unverified. *)
Lemma locate_fork_point_spec v p w :
  tracks (World (wallet w) (source w) (boundary w) (notified w) p) ->
  (anchored (wallet w) p -> birthday_known_below (wallet w) p) ->
  (locate_fork_point v p w).2 = w /\
  post (locate_fork_point v p w).1 (fun f =>
    0 <= height f <= height p /\ (f = p \/ height f < height p) /\
    (anchored (wallet w) p -> knows (wallet w) (height f) (hash f) /\ at_height v (height f) = Some (hash f)) /\
    (f = p \/ anchored (wallet w) p)) (fun _ => True).
Proof.
  intros (Hh & Hp & Hk) Hb. cbn [wallet prev_tip] in *. unfold locate_fork_point.
  unfold mbind, M_bind, read. pose proof (birthday_total (wallet w)).
  destruct (get_wallet_birthday (wallet w)) as [o|e|] eqn:Ho; [|done|done]. cbn [map_err].
  destruct (build_block_locator_correct (get_block_hash (wallet w)) (height p))
    as (Hdec & Hrange & _ & Hhead & Hnp & Hloc); [lia|apply block_hash_total|].
  destruct (build_block_locator (get_block_hash (wallet w)) (height p)) as [l|e|] eqn:Hl; [|done|done].
  destruct (Hloc l eq_refl) as (blocks & -> & _ & Hblocks). cbn [map_err].
  assert (forall b, b ∈ blocks -> anchored (wallet w) p) as Hanch.
  { intros b Hbin. apply Hblocks in Hbin as [? ?]. by exists (height b), (hash b). }
  unfold chain, lift. pose proof (find_fork_point_total v (hash <$> blocks)).
  destruct (find_fork_point v (hash <$> blocks)) as [[f|]|e|] eqn:Hf; [| |done|done]; cbn [map_err].
  - split; [done|]. cbn. apply find_fork_point_Some in Hf as [Hin Hat].
    apply list_elem_of_fmap in Hin as (b & Hfb & Hbin). pose proof (Hanch b Hbin) as Ha.
    apply Hblocks in Hbin as [Hbh Hbk]. apply Hrange in Hbh.
    assert (height b = height f) as Heq.
    { rewrite <-(Hh _ _ Hbk), <-Hfb. by apply (at_height_hash v). }
    rewrite <-Heq. split_and!; [lia|lia| | |by right].
    + destruct (decide (height b = height p)) as [Hbp|]; [left|right; lia].
      rewrite Hbp in Hbk. apply Hk in Hbk. apply ChainBlock_ext; congruence.
    + intros _. split; [by rewrite Hfb|by rewrite Heq].
  - case_bool_decide as Hnil.
    { split; [done|]. cbn. split_and!; [lia|lia|by left| |by left].
      intros (h & hs & Hin & Hkn). exfalso.
      assert ({| height := h; hash := hs |} ∈ blocks) as Hb' by (by apply Hblocks).
      destruct blocks; [by apply not_elem_of_nil in Hb'|done]. }
    assert (exists b, b ∈ blocks) as [b0 Hb0] by (destruct blocks as [|b0 bs]; [done|exists b0; left]).
    pose proof (Hanch b0 Hb0) as Ha.
    assert (0 <= default 0 o <= height p) as Hd by (destruct o as [b|]; cbn; [by apply (Hb Ha)|lia]).
    unfold gets, lift. split; [done|]. cbn [fst].
    unfold step_back_to_best_chain.
    destruct (step_back_safe (S (Z.to_nat (height p))) v (height p) (default 0 o)
      (fun h => map_err Other (get_block_hash (wallet w) h))) as (r & -> & Hr); [lia..| |].
    { intros h. pose proof (block_hash_total (wallet w) h). by destruct (get_block_hash _ _). }
    eapply post_mono; [exact Hr| |done]. intros b (Hle & Hkb & hd & Hhd & Hhash).
    assert (knows (wallet w) (height b) (hash b)) as Hkb'.
    { unfold knows. by destruct (get_block_hash (wallet w) (height b)) as [| |]; cbn in Hkb; simplify_eq. }
    apply get_block_header_spec in Hhd. cbn in Hhd. rewrite Hhash in Hhd. symmetry in Hhd.
    assert (height b <> height p) as Hne.
    { intros Heq. assert (b ∈ blocks) as Hbin.
      { apply Hblocks. split; [|done]. rewrite Heq. apply head_Some in Hhead as [l' ->]. left. }
      by apply (find_fork_point_None _ _ b Hf (list_elem_of_fmap_2 _ _ _ Hbin)). }
    split_and!; [lia|lia|right; lia|done|by right].
Qed.

(** *** Applying blocks *)

(** [w'] is [w] with a wallet that has the same blocks. *)
Definition same_blocks (w w' : world) : Prop :=
  w' = set_wallet w (wallet w') /\ forall h hs, knows (wallet w') h hs <-> knows (wallet w) h hs.

Lemma same_blocks_refl w : same_blocks w w.
Proof. by destruct w. Qed.

Lemma index_total x : transparent_address_index x <> Panic.
Proof.
  apply bind_not_Panic; [apply accounts_total|]. intros l _.
  apply bind_not_Panic; [|done]. apply traverse_not_Panic. intros a.
  by apply bind_not_Panic; [apply receivers_total|].
Qed.

Lemma write_spec {A} (m : M Wallet SqliteClientError A) w :
  write m w = (map_err Other (m (wallet w)).1, set_wallet w (m (wallet w)).2).
Proof. unfold write. by destruct (m (wallet w)). Qed.

(** A write that does not touch blocks and does not panic. *)
Lemma write_same {A} (m : M Wallet SqliteClientError A) w :
  keeps_blocks m -> (m (wallet w)).1 <> Panic ->
  exists r, r <> Panic /\ same_blocks w (write m w).2 /\ write m w = (r, (write m w).2).
Proof.
  intros Hk Hp. rewrite write_spec. eexists. split; [|split; [|done]].
  - revert Hp. by destruct (m (wallet w)) as [[] x].
  - split; [done|]. cbn. intros h hs. apply Hk.
Qed.

Lemma scan_block_spec v b shutdown_height w :
  0 <= claimed_height b <= height_limit ->
  match scan_block v b shutdown_height w with
  | (Ret (Break _), w') => w' = w
  | (Ret (Continue _), w') =>
      w' = set_wallet w (wallet w') /\
      forall h hs, knows (wallet w') h hs <->
        (h = claimed_height b /\ hs = header_hash (block_header b)) \/
        (h <> claimed_height b /\ knows (wallet w) h hs)
  | (Err _, w') => same_blocks w w'
  | (Panic, _) => False
  end.
Proof.
  intros Hb. unfold scan_block. destruct (match shutdown_height with Some h => _ | None => _ end); [done|].
  pose proof (height_sub_range (claimed_height b) 1 ltac:(lia) ltac:(lia)).
  assert (tree_state_as_of v (height_sub (claimed_height b) 1) <> Panic) by (apply tree_state_total; lia).
  pose proof (nullifiers_total (wallet w)). pose proof (index_total (wallet w)).
  unfold mbind, M_bind, chain, lift, read.
  destruct (tree_state_as_of v _) as [[st|]|e|]; cbn [map_err ok_or]; [|apply same_blocks_refl..|done].
  destruct (queue_block b) as [q|] eqn:Hq; cbn [ok_or]; [|apply same_blocks_refl].
  destruct (nullifiers_unspent (wallet w)) as [n|e|]; cbn [map_err]; [|apply same_blocks_refl|done].
  destruct (transparent_address_index (wallet w)) as [a|e|]; cbn [map_err]; [|apply same_blocks_refl|done].
  destruct (await_result q) as [[[k hdr] vtx]|] eqn:Ha; cbn [ok_or]; [|apply same_blocks_refl].
  pose proof (full_scan_block_total (claimed_height b) hdr vtx k n (Some (state_metadata st)) a).
  destruct (full_scan_block _ hdr vtx k n _ a) as [sb|e|] eqn:Hs; [|apply same_blocks_refl|done].
  rewrite write_spec. pose proof (put_blocks_total st [sb] (wallet w)).
  pose proof (put_blocks_failed st [sb] (wallet w)) as Hfail.
  pose proof (put_blocks_ok st [sb] (wallet w)) as Hok.
  destruct (put_blocks st [sb] (wallet w)) as [[[]|e|] x]; cbn in *; [|by split; [|apply Hfail]|done].
  split; [done|]. intros h hs. rewrite (Hok x eq_refl).
  apply full_scan_block_spec in Hs as [Hsh Hsx]. apply queue_header with (1 := Hq) in Ha as ->.
  rewrite <-Hsh, <-Hsx. split.
  - intros [(sb' & ->%list_elem_of_singleton & <- & <-)|[Hn Hk]]; [by left|right].
    split; [|done]. intros ->. apply Hn. by left.
  - intros [[-> ->]|[Hn Hk]]; [left|right]; [exists sb; split; [by left|done]|].
    split; [|done]. by intros ->%list_elem_of_singleton.
Qed.

Lemma tracks_same w w' : same_blocks w w' -> tracks w -> tracks w'.
Proof.
  intros [Heq Hk] (Hh & Hp & Hx). rewrite Heq in *. cbn in *. unfold tracks. cbn.
  split_and!; [|lia|lia|intros hs ?%Hk; by apply Hx]. intros h hs ?%Hk. by apply Hh.
Qed.

Lemma holds_same w w' : same_blocks w w' -> holds w -> holds w'.
Proof. intros [Heq Hk] Hw. rewrite Heq in *. unfold holds in *. cbn in *. by apply Hk. Qed.

Lemma agrees_same v f w w' : same_blocks w w' -> agrees v f w -> agrees v f w'.
Proof.
  intros [Heq Hk] Ha h Hh. rewrite Heq in Hh. cbn in Hh.
  destruct (Ha h Hh) as (hs & ? & ?). exists hs. by rewrite Hk.
Qed.

(** What applying blocks keeps: everything but the wallet and [prev_tip]. *)
Definition frame (w w' : world) : Prop :=
  source w' = source w /\ boundary w' = boundary w /\ notified w' = notified w.

Lemma frame_same w w1 w2 : w1 = set_wallet w (wallet w1) -> same_blocks w1 w2 -> frame w w2.
Proof. intros Hw1 [Hw2 _]. unfold frame. rewrite Hw2, Hw1. done. Qed.

(** Whatever the outcome, the blocks up to where [steady_state] was are untouched,
    and if it moved, the wallet has the block it moved to. *)
Definition advanced (w w' : world) : Prop :=
  frame w w' /\ tracks w' /\ (prev_tip w' = prev_tip w \/ holds w') /\
  forall h hs, h <= height (prev_tip w) -> knows (wallet w') h hs <-> knows (wallet w) h hs.

Lemma advanced_same w w' : tracks w -> same_blocks w w' -> advanced w w'.
Proof.
  intros Htr Hs. pose proof (tracks_same w w' Hs Htr). destruct Hs as [Hw Hk].
  split_and!; [by rewrite Hw|done|left; by rewrite Hw|intros; apply Hk].
Qed.

Lemma advanced_holds w w' : advanced w w' -> holds w -> holds w'.
Proof.
  intros (_ & _ & [Hp|?] & Hk) Hw; [|done]. unfold holds in *. rewrite Hp. by apply Hk.
Qed.

Lemma apply_blocks_spec v t shutdown_height f bs w :
  tip v = Ret t -> tracks w -> agrees v f w ->
  follows (at_height v) (height (prev_tip w) + 1) bs ->
  match apply_blocks v shutdown_height bs w with
  | (Ret flow, w') =>
      advanced w w' /\
      (flow = Continue tt -> agrees v f w' /\
         height (prev_tip w') = height (prev_tip w) + Z.of_nat (length bs))
  | (Err _, w') => advanced w w'
  | (Panic, _) => False
  end.
Proof.
  intros Ht. pose proof limit_in_range as Hlim. pose proof (tip_below_limit v t Ht) as Htl.
  destruct (tip_spec v t Ht) as (Htb & _ & Htop).
  revert w. induction bs as [|b bs IH]; intros w Htr Hag Hf.
  { cbn. split; [apply advanced_same; [done|apply same_blocks_refl]|]. intros _. split; [done|lia]. }
  cbn [apply_blocks]. destruct Hf as (Hbh & Hbat & Hf). pose proof Htr as (Hh & Hp & Hk).
  assert (height (prev_tip w) + 1 <= height t).
  { destruct (Z.le_gt_cases (height (prev_tip w) + 1) (height t)); [done|].
    rewrite Htop in Hbat by lia. done. }
  unfold mbind at 1, M_bind at 1, gets. unfold mbind at 1, M_bind at 1, lift at 1.
  assert ((claimed_height b =? height_add (height (prev_tip w)) 1) = true) as ->
    by (rewrite height_add_spec, Hbh by lia; apply Z.eqb_refl).
  cbn [assert].
  unfold mbind at 1, M_bind at 1.
  pose proof (scan_block_spec v b shutdown_height w ltac:(rewrite Hbh; lia)) as Hs.
  destruct (scan_block v b shutdown_height w) as [[[z|u]|e|] w1]; [| | |done].
  - subst w1. split; [apply advanced_same; [done|apply same_blocks_refl]|done].
  - destruct Hs as [Hw1 Hk1]. unfold mbind at 1, M_bind at 1.
    destruct (write_same (update_chain_tip (claimed_height b)) w1) as (r & Hr & Hsame & Hwr);
      [apply update_chain_tip_blocks|apply update_chain_tip_total|].
    destruct (write (update_chain_tip (claimed_height b)) w1) as [r' w2]; cbn in Hwr, Hsame.
    injection Hwr as ->.
    assert (advanced w w1) as Had1.
    { rewrite Hw1 in *. split_and!; [done| |by left|].
      - unfold tracks; cbn in *. split_and!; [|lia|lia|].
        + intros h hs [[-> ->]|[_ Hk']]%Hk1; [|by apply Hh]. rewrite Hbh. by apply (at_height_hash v).
        + intros hs [[? _]|[_ Hk']]%Hk1; [lia|by apply Hk].
      - intros h hs Hle. cbn in *. rewrite Hk1. intuition lia. }
    pose proof (advanced_same w1 w2 (proj1 (proj2 Had1)) Hsame) as Had2.
    assert (advanced w w2) as Had.
    { destruct Had1 as ((? & ? & ?) & _ & _ & Hb1), Had2 as ((? & ? & ?) & Htr2 & _ & _), Hsame as [Hw2 Hs2].
      split_and!; [split_and!; congruence|done|left; by rewrite Hw2, Hw1|]. intros h hs Hle.
      by rewrite Hs2, Hb1. }
    destruct r as [u'|e|]; [|done|done].
    set (w3 := World (wallet w2) (source w2) (boundary w2) (notified w2)
      {| height := claimed_height b; hash := header_hash (block_header b) |}).
    assert (forall h hs, knows (wallet w3) h hs <->
        (h = claimed_height b /\ hs = header_hash (block_header b)) \/
        (h <> claimed_height b /\ knows (wallet w) h hs)) as Hk3
      by (intros h hs; subst w3; cbn; destruct Hsame as [_ ->]; apply Hk1).
    assert (holds w3) as Hho3 by (apply Hk3; by left).
    assert (tracks w3) as Htr3.
    { destruct Had as (_ & (Hh2 & _) & _). unfold tracks; subst w3; cbn in *. split_and!; [done|lia|lia|].
      intros hs [[_ ->]|[? _]]%Hk3; done. }
    specialize (IH w3 Htr3). unfold mbind, M_bind, set_prev_tip, modify. fold w3.
    assert (agrees v f w3) as Hag3.
    { intros h Hr3. subst w3; cbn in *. destruct (decide (h = claimed_height b)) as [->|Hne].
      - exists (header_hash (block_header b)). rewrite Hk3, Hbh. auto.
      - destruct (Hag h) as (hs & ? & ?); [lia|]. exists hs. rewrite Hk3. auto. }
    assert (follows (at_height v) (height (prev_tip w3) + 1) bs) as Hf3 by (subst w3; cbn; by rewrite Hbh).
    specialize (IH Hag3 Hf3).
    assert (forall w', advanced w3 w' -> advanced w w') as Hadv.
    { intros w' Hw'. pose proof (advanced_holds _ _ Hw' Hho3). destruct Hw' as ((? & ? & ?) & ? & _ & Hb3).
      destruct Had as ((? & ? & ?) & _). subst w3; cbn in *.
      split_and!; [split_and!; congruence|done|by right|]. intros h hs Hle. rewrite Hb3, Hk3 by lia. intuition lia. }
    destruct (apply_blocks v shutdown_height bs w3) as [r w4].
    destruct r as [flow|e|]; [|by apply Hadv|done].
    destruct IH as (? & Hc). split; [by apply Hadv|]. intros Hfl.
    destruct (Hc Hfl) as (? & ->). split; [done|subst w3; cbn; lia].
  - by apply advanced_same.
Qed.

(** *** The iteration *)

(** Rewinding the wallet to [f] brings it down to height [n]: [f]'s, or a lower one. *)
Definition rewound (w : world) (f : ChainBlock) (n : Z) : Prop :=
  n <= height f /\ (f = prev_tip w /\ n = height f \/ exists x, truncate_to_height (height f) (wallet w) = (Ret n, x)).

Lemma settled_advanced w w1 w' : settled w w1 -> advanced w1 w' -> settled w w'.
Proof.
  intros Hs Ha. destruct Hs as [Hho|Hlow]; [left; by eapply advanced_holds|].
  destruct Ha as (_ & _ & [Hp|?] & _); [right; by rewrite Hp|by left].
Qed.

(** Rewinding to the fork point: the blocks up to the height reached stay. *)
Lemma rewind_spec f w :
  tracks w -> 0 <= height f <= height (prev_tip w) -> f = prev_tip w \/ height f < height (prev_tip w) ->
  (f <> prev_tip w -> knows (wallet w) (height f) (hash f)) ->
  exists r w1, (if bool_decide (f = prev_tip w) then mret tt else
      _ ← lift (assert (height f <? height (prev_tip w)));
      _ ← write (truncate_to_height (height f)); set_prev_tip f) w = (r, w1) /\ r <> Panic /\ frame w w1 /\
    tracks w1 /\ (holds w -> settled w w1) /\ (r = Ret tt -> prev_tip w1 = f /\
      exists n, rewound w f n /\ forall h hs, h <= height f -> knows (wallet w1) h hs <-> h <= n /\ knows (wallet w) h hs).
Proof.
  intros Htr Hf Hcase Hkf. case_bool_decide as Heq.
  { exists (Ret tt), w. split_and!; [done..|by left|]. intros _. split; [done|].
    exists (height f). split; [split; [lia|by left]|]. intuition. }
  destruct Hcase as [|Hlt]; [done|]. rewrite (proj2 (Z.ltb_lt _ _) Hlt). specialize (Hkf Heq).
  unfold mbind, M_bind, lift. cbn [assert]. rewrite write_spec.
  pose proof (truncate_total (height f) (wallet w)) as Hnp.
  pose proof (truncate_ok (height f) (wallet w)) as Hok.
  pose proof (truncate_failed (height f) (wallet w)) as Hfail.
  destruct (truncate_to_height (height f) (wallet w)) as [[n|e|] x] eqn:Hx; cbn [fst snd map_err] in *; [| |done].
  - destruct (Hok n x eq_refl) as [Hn Hkx]. eexists _, _. split; [done|]. split_and!; [done..| | |].
    + destruct Htr as (Hh & Hp & _). unfold tracks; cbn. split_and!; [|lia|lia|].
      * intros h hs [_ Hk]%Hkx. by apply Hh.
      * intros hs [_ Hk]%Hkx. by eapply knows_fun.
    + intros _. destruct (Z.eq_dec n (height f)) as [->|Hne]; [left; apply Hkx; split; [cbn; lia|done]|].
      right. exists n, x. split; [done|cbn; lia].
    + intros _. split; [done|]. exists n. split; [split; [done|right; by exists x]|]. intros; apply Hkx.
  - assert (same_blocks w (set_wallet w x)) as Hs by (split; [done|by apply Hfail]).
    eexists _, _. split; [done|]. split_and!; [done..| | |done].
    + by eapply tracks_same.
    + intros Hho. left. by eapply holds_same.
Qed.

(** From [w], the wallet of [w'] has caught up with the chain view [v]:
    [steady_state] is at its tip; from some fork point up to there the wallet has
    the blocks of the view; of the blocks up to the fork point, which the wallet had
    and the view has, those that the rewinding kept are untouched and the others
    gone; the boundary with history recovery only moved up. *)
Definition caught_up (v : View) (w w' : world) : Prop :=
  tip v = Ret (prev_tip w') /\
  (exists f n, height f <= height (prev_tip w) /\ height f <= height (prev_tip w') /\ rewound w f n /\
     at_height v (height f) = Some (hash f) /\ (f = prev_tip w \/ knows (wallet w) (height f) (hash f)) /\
     agrees v (height f) w' /\
     forall h hs, h <= height f -> knows (wallet w') h hs <-> h <= n /\ knows (wallet w) h hs) /\
  boundary w' = (if bool_decide (prev_tip w' = prev_tip w) then boundary w
                 else update_boundary (boundary w) (height (prev_tip w'))).

Lemma caught_up_same v w w1 w2 : same_blocks w1 w2 -> caught_up v w w1 -> caught_up v w w2.
Proof.
  intros Hs (Ht & (f & n & ? & ? & ? & ? & ? & Hag & Hb) & Hbd). pose proof (agrees_same v (height f) w1 w2 Hs Hag).
  destruct Hs as [Hs Hk]. unfold caught_up. rewrite Hs. cbn. split_and!; [done| |done].
  exists f, n. rewrite Hs in *. split_and!; [done..|]. intros h hs Hh. cbn in *. by rewrite Hk, Hb.
Qed.

(** Panics only when the fork point is unverified: above the view's tip. *)
Lemma follow_tip_spec v t shutdown_height w :
  tip v = Ret t -> t <> prev_tip w -> tracks w ->
  (anchored (wallet w) (prev_tip w) -> birthday_known_below (wallet w) (prev_tip w)) ->
  match follow_tip v t shutdown_height w with
  | (Ret flow, w') =>
      tracks w' /\ (holds w -> settled w w') /\
      (flow = Continue tt -> anchored (wallet w) (prev_tip w) -> caught_up v w w')
  | (Err _, w') => tracks w' /\ (holds w -> settled w w')
  | (Panic, _) => ~ anchored (wallet w) (prev_tip w) /\ height t < height (prev_tip w)
  end.
Proof.
  intros Ht Hne Htr Hb. unfold follow_tip.
  set (w0 := World (wallet w) (source w) (update_boundary (boundary w) (height t)) (notified w + 1) (prev_tip w)).
  change (tracks w0) in Htr. change (anchored (wallet w0) (prev_tip w0) -> birthday_known_below (wallet w0) (prev_tip w0)) in Hb.
  destruct (locate_fork_point_spec v (prev_tip w0) w0 Htr Hb) as [Hw0 Hpost].
  unfold mbind at 1 2 3 4, M_bind at 1 2 3 4, modify, notify_one, gets. unfold modify. cbn [wallet source boundary notified prev_tip].
  fold w0. change (prev_tip w) with (prev_tip w0). change (wallet w) with (wallet w0).
  destruct (locate_fork_point v (prev_tip w0) w0) as [[f|e|] w0']; cbn [fst snd] in *; subst w0';
    [|by split; [|left]|done].
  destruct Hpost as (Hf & Hcase & Hanch & Hor).
  destruct (tip_spec v t Ht) as (Htb & Hatt & Htop).
  unfold mbind at 1, M_bind at 1, lift at 1. destruct (Z.leb_spec (height f) (height t)) as [Hft|Hft]; cbn [assert].
  2: { assert (~ anchored (wallet w0) (prev_tip w0)) as Hna.
       { intros [_ Hat]%Hanch. rewrite Htop in Hat by lia. done. }
       split; [done|]. destruct Hor as [->|]; [lia|done]. }
  rewrite height_add_spec by (pose proof limit_in_range; pose proof (tip_below_limit v t Ht); unfold u32_max in *; lia).
  unfold mbind at 1, M_bind at 1, chain at 1, lift at 1.
  assert (stream_blocks_to_tip v (height f + 1) <> Panic) as Hnp.
  { apply stream_to_tip_total. pose proof (tip_below_limit v t Ht). lia. }
  destruct (stream_blocks_to_tip v (height f + 1)) as [st|e|] eqn:Hstream; cbn [map_err]; [|by split; [|left]|done].
  unfold mbind at 1, M_bind at 1.
  destruct (rewind_spec f w0 Htr Hf Hcase) as (r & w1 & -> & Hr & Hfr & Htr1 & Hset & Hw1).
  { intros Hn. destruct Hor as [?|Ha]; [done|apply (Hanch Ha)]. }
  change (holds w0) with (holds w) in Hset. change (settled w0 w1) with (settled w w1) in Hset.
  destruct r as [[]|e|]; [|done|done].
  destruct (Hw1 eq_refl) as (Hp1 & n & Hn & Hk1). clear Hw1.
  unfold mbind at 1, M_bind at 1.
  pose proof (stream_to_tip_spec v _ _ Hstream) as Hfol. rewrite <-Hp1 in Hfol.
  assert (agrees v (height f) w1) as Hag1 by (intros h Hh; rewrite Hp1 in Hh; lia).
  pose proof (apply_blocks_spec v t shutdown_height (height f) _ w1 Ht Htr1 Hag1 Hfol) as Hap.
  destruct (apply_blocks _ _ _ w1) as [[flow|e|] w2]; [| |done].
  2: { split; [apply Hap|]. intros Hho. eapply settled_advanced; [by apply Hset|done]. }
  destruct Hap as (Hadv & Hc). pose proof (fun Hho => settled_advanced w w1 w2 (Hset Hho) Hadv) as Hset2.
  pose proof Hadv as ((_ & Hbd & _) & Htr2 & Hmove & Hbelow). rewrite Hp1 in Hmove, Hbelow, Hc.
  destruct flow as [z|[]]; [done|]. destruct (Hc eq_refl) as (Hag2 & Hlen). clear Hc.
  unfold mbind, M_bind, stream_end.
  pose proof (stream_to_tip_complete v (height f + 1) t st Ht ltac:(lia) Hstream) as Hcomp.
  destruct (failure st); cbn [throw lift]; [done|]. cbn. split_and!; [done..|]. intros _ Ha.
  rewrite Hcomp in Hlen by done. clear Hcomp.
  assert (height (prev_tip w2) = height t) as Hht by lia.
  assert (prev_tip w2 = t) as Hpt.
  { apply ChainBlock_ext; [done|]. destruct (Hanch Ha) as [_ Hatf]. destruct Htr2 as (_ & _ & Hk2).
    destruct (Z.eq_dec (height f) (height t)) as [Heq|].
    - destruct Hmove as [->|Hho]; [rewrite Heq in Hatf; congruence|].
      apply Hbelow in Hho; [|lia]. destruct Htr1 as (_ & _ & Hu). rewrite Hp1 in Hu.
      rewrite Hht, <- Heq in Hho. apply Hu in Hho. rewrite Heq in Hatf. congruence.
    - destruct (Hag2 (height (prev_tip w2))) as (hs & Hat & Hk); [lia|]. rewrite <- (Hk2 hs Hk).
      rewrite Hht in Hat. congruence. }
  split_and!; [by rewrite Hpt| |].
  - exists f, n. destruct (Hanch Ha) as [Hkf Hatf]. split_and!; [cbn in *; lia|lia|exact Hn|done|by right|done|].
    intros h hs Hle. rewrite Hbelow by lia. by apply Hk1.
  - rewrite Hpt, bool_decide_false by done. rewrite Hbd. apply Hfr.
Qed.

Lemma for_each_write_same {A} (f : A -> M Wallet SqliteClientError unit) l w :
  (forall a, keeps_blocks (f a)) -> (forall a x, (f a x).1 <> Panic) ->
  (for_each (fun a => write (f a)) l w).1 <> Panic /\
  same_blocks w (for_each (fun a => write (f a)) l w).2.
Proof.
  intros Hk Hp. revert w. induction l as [|a l IH]; intros w.
  { split; [done|apply same_blocks_refl]. }
  cbn [for_each]. unfold mbind, M_bind.
  destruct (write_same (f a) w) as (r & Hr & Hs & ->); [done..|].
  destruct r as [u|e|]; [|by split|done]. destruct (IH (write (f a) w).2) as [Hnp [Heq Hk']].
  split; [done|]. destruct Hs as [Hs1 Hs2]. split.
  - rewrite Heq at 1. by rewrite Hs1.
  - intros. by rewrite Hk', Hs2.
Qed.

Lemma follow_mempool_spec v w :
  match follow_mempool v w with
  | (Ret flow, w') => flow = Continue tt /\ same_blocks w w'
  | (Err _, w') => same_blocks w w'
  | (Panic, _) => False
  end.
Proof.
  unfold follow_mempool, mbind, M_bind, chain, lift. pose proof (mempool_total v).
  destruct (get_mempool_stream v) as [m|e|]; [|apply same_blocks_refl|done]. cbn [map_err].
  destruct (for_each_write_same (fun tx => decrypt_and_store_transaction tx None) (default [] m) w)
    as [Hnp Hsame]; [intros; apply store_transaction_blocks|intros; apply store_transaction_total|].
  by destruct (for_each _ _ w) as [[u|e|] w3].
Qed.

Lemma follow_if_changed v t shutdown_height w :
  tip v = Ret t -> tracks w -> (anchored (wallet w) (prev_tip w) -> birthday_known_below (wallet w) (prev_tip w)) ->
  match (if negb (bool_decide (t = prev_tip w)) then follow_tip v t shutdown_height
         else mret (Continue tt)) w with
  | (Ret flow, w') => tracks w' /\ (holds w -> settled w w') /\
      (flow = Continue tt -> anchored (wallet w) (prev_tip w) -> caught_up v w w')
  | (Err _, w') => tracks w' /\ (holds w -> settled w w')
  | (Panic, _) => ~ anchored (wallet w) (prev_tip w) /\ height t < height (prev_tip w)
  end.
Proof.
  intros Ht Htr Hb. case_bool_decide as Heq; cbn [negb]; [|by apply follow_tip_spec].
  split_and!; [done|by left|]. intros _ _. rewrite Heq in Ht. split_and!; [done| |by rewrite bool_decide_true].
  destruct (tip_spec v _ Ht) as (_ & ? & _).
  exists (prev_tip w), (height (prev_tip w)). split_and!; [done..|split; [lia|by left]|done|by left|intros h; lia|].
  intuition.
Qed.

(** The tip seen is below a block that the wallet has no block to verify against. *)
Definition stranded (w : world) : Prop :=
  ~ anchored (wallet w) (prev_tip w) /\
  exists v t, (snapshot (source w)).1 = Ret v /\ tip v = Ret t /\ height t < height (prev_tip w).

Lemma steady_state_iteration_spec shutdown_height w :
  tracks w -> (anchored (wallet w) (prev_tip w) -> birthday_known_below (wallet w) (prev_tip w)) ->
  let '(r, w') := steady_state_iteration shutdown_height w in
  (r = Panic -> stranded w) /\ (r <> Panic -> tracks w' /\ (holds w -> settled w w')) /\
  (r = Ret (Continue tt) -> anchored (wallet w) (prev_tip w) ->
     exists v, (snapshot (source w)).1 = Ret v /\ caught_up v w w').
Proof.
  intros Htr Hb. unfold steady_state_iteration. unfold mbind at 1, M_bind at 1, take_snapshot.
  unfold stranded. pose proof (snapshot_total (source w)). destruct (snapshot (source w)) as [rv src].
  set (w1 := World (wallet w) src (boundary w) (notified w) (prev_tip w)).
  destruct rv as [v|e|]; [|split_and!; [done| |done]; intros _; split; [done|by left]|done]. cbn [map_err].
  unfold mbind at 1, M_bind at 1, chain at 1, lift at 1. pose proof (tip_total v).
  destruct (tip v) as [t|e|] eqn:Ht; [|split_and!; [done| |done]; intros _; split; [done|by left]|done].
  cbn [map_err].
  unfold mbind at 1, M_bind at 1, gets at 1. unfold mbind at 1, M_bind at 1.
  pose proof (follow_if_changed v t shutdown_height w1 Ht Htr Hb) as Hflow.
  destruct ((if negb (bool_decide (t = prev_tip w1)) then follow_tip v t shutdown_height
             else mret (Continue tt)) w1) as [[flow|e|] w2]; [| |].
  2: { split_and!; [done|by intros _|done]. }
  2: { destruct Hflow as [? ?]. split_and!; [|done|done]. intros _. split; [done|]. by exists v, t. }
  destruct Hflow as (Htr2 & Hset & Hc). destruct flow as [z|[]]; [split_and!; [done|by intros _|done]|].
  specialize (Hc eq_refl). pose proof (follow_mempool_spec v w2) as Hm.
  assert (let '(r, w') := follow_mempool v w2 in r <> Panic /\ tracks w' /\ (holds w -> settled w w') /\
    (r = Ret (Continue tt) -> anchored (wallet w) (prev_tip w) ->
       exists v', Ret (E:=ChainError) v = Ret v' /\ caught_up v' w w')) as Hend.
  { assert (forall w3, same_blocks w2 w3 -> tracks w3 /\ (holds w -> settled w w3)) as Hsame.
    { intros w3 Hs. split; [by eapply tracks_same|]. intros Hho.
      eapply settled_advanced; [by apply Hset|]. by apply advanced_same. }
    destruct (follow_mempool v w2) as [[fl|e|] w3]; [|by split_and!; [|apply Hsame..|]|done].
    destruct Hm as [_ Hs]. split_and!; [done|by apply Hsame..|]. intros _ Ha. exists v.
    split; [done|]. eapply caught_up_same; [done|]. by apply Hc. }
  assert (forall r w3, follow_mempool v w2 = (r, w3) -> r <> Panic /\ tracks w3 /\ (holds w -> settled w w3) /\
    (r = Ret (Continue tt) -> anchored (wallet w) (prev_tip w) ->
       exists v', Ret (E:=ChainError) v = Ret v' /\ caught_up v' w w3)) as Hend' by (by intros r w3 Hr; rewrite Hr in Hend).
  destruct shutdown_height as [h|]; [destruct (h <=? height t); [by split_and!|]|];
    destruct (follow_mempool v w2) as [r w3]; destruct (Hend' r w3 eq_refl) as (? & ? & ? & ?); by split_and!.
Qed.

(** C2. Provided that the wallet has no block at the height steady_state is at
    other than that one, has some block at a height that the locator samples,
    and has its birthday, if known, no higher: one iteration of steady_state
    never panics (its assertions hold), and leaves it so that the wallet has
    no other block at the height it is at, and, if it had the block before,
    still has it, unless rewinding reached a lower height than the fork point.
    On success steady_state is at the view's tip, the wallet's blocks from
    some fork point up to there are those of the view, through any reorg, and
    of those below exactly the ones at or below the height that rewinding
    reached are left, untouched. *)
Theorem steady_state_iteration_correct shutdown_height w :
  tracks w -> anchored (wallet w) (prev_tip w) -> birthday_known_below (wallet w) (prev_tip w) ->
  let '(r, w') := steady_state_iteration shutdown_height w in
  r <> Panic /\ tracks w' /\ (holds w -> settled w w') /\
  (r = Ret (Continue tt) -> exists v, (snapshot (source w)).1 = Ret v /\ caught_up v w w').
Proof.
  intros Htr Ha Hb. pose proof (steady_state_iteration_spec shutdown_height w Htr (fun _ => Hb)) as Hs.
  destruct (steady_state_iteration shutdown_height w) as [r w']. destruct Hs as (Hp & Hk & Hc).
  assert (r <> Panic) as Hnp by (intros Hr; by destruct (Hp Hr)).
  destruct (Hk Hnp) as [? ?]. split_and!; [done..|]. intros Hr. by apply Hc.
Qed.

Lemma locator_of_empty x t : (forall h, get_block_hash x h = Ret None) ->
  build_block_locator (get_block_hash x) t = Ret [].
Proof.
  intros Hx. unfold build_block_locator.
  assert (locator_blocks (get_block_hash x) (locator_block_heights t) = Ret []) as ->; [|done].
  induction (locator_block_heights t) as [|h hs IH]; [done|]. cbn. by rewrite Hx, IH.
Qed.

(** The history the previous property asks for is needed: a wallet that has
    recorded no blocks syncs forward from [prev_tip] without asking whether the
    chain has it, so when the tip seen next is lower, the iteration panics. *)
Theorem steady_state_panics_without_history shutdown_height w v t o :
  (forall h, get_block_hash (wallet w) h = Ret None) ->
  get_wallet_birthday (wallet w) = Ret o ->
  (snapshot (source w)).1 = Ret v -> tip v = Ret t -> height t < height (prev_tip w) ->
  (steady_state_iteration shutdown_height w).1 = Panic <-> find_fork_point v [] = Ret None.
Proof.
  intros Hx Hb Hs Ht Hlt. unfold steady_state_iteration. unfold mbind at 1, M_bind at 1, take_snapshot.
  destruct (snapshot (source w)) as [rv src]; cbn in Hs; subst rv. cbn [map_err].
  unfold mbind at 1, M_bind at 1, chain at 1, lift at 1. rewrite Ht. cbn [map_err].
  unfold mbind at 1, M_bind at 1, gets at 1. unfold mbind at 1, M_bind at 1. cbn [prev_tip].
  rewrite bool_decide_false by (intros ->; lia). cbn [negb].
  unfold follow_tip. unfold mbind at 1 2 3 4, M_bind at 1 2 3 4, modify, notify_one, gets. unfold modify.
  unfold locate_fork_point. unfold mbind at 1 2 3, M_bind at 1 2 3, read, chain, lift. cbn [wallet source boundary notified prev_tip].
  rewrite Hb, locator_of_empty by done. cbn [map_err].
  pose proof (find_fork_point_total v []) as Hff.
  destruct (find_fork_point v []) as [[f|]|e|] eqn:Hf; cbn [map_err]; [| |done|done].
  - apply find_fork_point_Some in Hf as [Hin _]. by apply not_elem_of_nil in Hin.
  - cbn. unfold mbind, M_bind. rewrite (proj2 (Z.leb_gt _ _) Hlt). done.
Qed.
End steady_state.
