(* ===== verification/SyncLive.v ===== *)
(** The sync engine makes progress: when the chain view and the wallet answer and the
    reorganisation is within reach of the locator, one iteration of [steady_state]
    brings the wallet to the tip. *)

From S2P Require Import Prelude Rpc Chain Sync SyncProps.

Lemma locator_blocks_total `{ChainTypes} {E} (get : Z -> outcome E (option BlockHash)) hs :
  (forall h, exists o, get h = Ret o) -> exists bs, locator_blocks get hs = Ret bs.
Proof.
  intros Hg. induction hs as [|h hs [bs IH]]; [by exists []|]. cbn.
  destruct (Hg h) as [o ->]. rewrite IH. by eexists.
Qed.

Lemma build_block_locator_total `{ChainTypes} {E} (get : Z -> outcome E (option BlockHash)) tip :
  0 <= tip -> (forall h, exists o, get h = Ret o) -> exists l, build_block_locator get tip = Ret l.
Proof.
  intros Ht Hg.
  destruct (build_block_locator_correct get tip) as (_ & _ & _ & _ & Hnp & _); [done| |].
  { intros h. by destruct (Hg h) as [o ->]. }
  destruct (locator_blocks_total get (locator_block_heights tip) Hg) as [bs Hbs].
  unfold build_block_locator in *. rewrite Hbs in *. clear Hbs. unfold mbind, outcome_bind in *.
  destruct (from_blocks bs) as [l|[]|]; [by exists l|done].
Qed.

Section live.
Context `{HE : SyncEnv} `{HL : !SyncLaws} `{HF : !ForkPointLaws View} `{HN : !SyncNoPanic}
  `{HH : HeightOps} `{HHL : !HeightLaws}.

(** The wallet has no block above where [steady_state] is. *)
Definition topmost (w : world) : Prop :=
  forall h hs, knows (wallet w) h hs -> h <= height (prev_tip w).

(** Nothing fails: the view [v] with tip [t] answers, the wallet's reads and writes
    succeed, a block that does not conflict with one the wallet has is recorded, and
    the scanner accepts the blocks of the view's chain. *)
Class Succeeds (v : View) (t : ChainBlock) := {
  live_tip : tip v = Ret t;
  live_fork : forall l, exists o, find_fork_point v l = Ret o;
  live_tree : forall h, 0 <= h <= height t -> exists st, tree_state_as_of v h = Ret (Some st);
  live_stream : forall s, 0 <= s <= height t + 1 -> exists st, stream_blocks_to_tip v s = Ret st /\ failure st = None;
  live_mempool : exists o, get_mempool_stream v = Ret o;
  live_birthday : forall x, exists o, get_wallet_birthday x = Ret o;
  live_block_hash : forall x h, exists o, get_block_hash x h = Ret o;
  live_nullifiers : forall x, exists n, nullifiers_unspent x = Ret n;
  live_addresses : forall x, exists a, transparent_address_index x = Ret a;
  live_truncate : forall h x, exists n, (truncate_to_height h x).1 = Ret n;
  live_update_tip : forall h x, (update_chain_tip h x).1 = Ret tt;
  live_store : forall tx h x, (decrypt_and_store_transaction tx h x).1 = Ret tt;
  live_put : forall st sb x, at_height v (scanned_height sb) = Some (scanned_hash sb) ->
    (forall hs, knows x (scanned_height sb) hs -> hs = scanned_hash sb) -> (put_blocks st [sb] x).1 = Ret tt;
  live_queue : forall b, exists q k vtx, queue_block b = Some q /\ await_result q = Some (k, block_header b, vtx);
  live_scan : forall h hdr vtx k n st a, at_height v h = Some (header_hash hdr) ->
    tree_state_as_of v (h - 1) = Ret (Some st) ->
    exists sb, full_scan_block h hdr vtx k n (Some (state_metadata st)) a = Ret sb
}.

(** Some block the locator holds is on the view's chain. *)
Definition within_reach (v : View) (w : world) : Prop :=
  exists h hs, h ∈ locator_block_heights (height (prev_tip w)) /\ knows (wallet w) h hs /\ at_height v h = Some hs.

(** How scanning the block at a height ends. *)
Definition flow_at (shutdown_height : option Z) (h : Z) : ControlFlow Z unit :=
  if match shutdown_height with Some s => s <=? h | None => false end then Break h else Continue tt.

Context (v : View) (t : ChainBlock) `{!Succeeds v t}.

Lemma scan_block_live b shutdown_height w :
  1 <= claimed_height b <= height t -> at_height v (claimed_height b) = Some (header_hash (block_header b)) ->
  topmost w -> height (prev_tip w) < claimed_height b ->
  (scan_block v b shutdown_height w).1 = Ret (flow_at shutdown_height (claimed_height b)).
Proof.
  intros Hb Hat Htop Hp. unfold scan_block, flow_at.
  destruct (match shutdown_height with Some h => _ | None => _ end); [done|].
  destruct (live_tree (claimed_height b - 1)) as [st Hst]; [lia|].
  destruct (live_queue b) as (q & k & vtx & Hq & Ha). destruct (live_nullifiers (wallet w)) as [n Hn].
  destruct (live_addresses (wallet w)) as [a Hx].
  destruct (live_scan (claimed_height b) (block_header b) vtx k n st a Hat Hst) as [sb Hsb].
  unfold mbind, M_bind, chain, lift, read.
  rewrite height_sub_spec by lia. rewrite Hst, Hq. cbn [map_err ok_or]. rewrite Hn, Hx, Ha. cbn [map_err ok_or].
  rewrite Hsb, write_spec. apply full_scan_block_spec in Hsb as [Hsh Hsx]. rewrite live_put; [done|by rewrite Hsh, Hsx|].
  rewrite Hsh. intros hs Hk. apply Htop in Hk. lia.
Qed.

(** What an iteration ends with: [Break] at a height that must not be scanned, or
    [Continue]. *)
Definition stops (shutdown_height : option Z) (flow : ControlFlow Z unit) : Prop :=
  match flow with
  | Break b => exists s, shutdown_height = Some s /\ s <= b <= height t
  | Continue _ => True
  end.

Lemma apply_blocks_live f shutdown_height bs w :
  tracks w -> agrees v f w -> topmost w ->
  follows (at_height v) (height (prev_tip w) + 1) bs ->
  exists flow w', apply_blocks v shutdown_height bs w = (Ret flow, w') /\ stops shutdown_height flow /\ topmost w'.
Proof.
  intros Htr Hag. pose proof (live_tip (v := v)) as Ht. destruct (tip_spec v t Ht) as (Htb & _ & Habove).
  pose proof (tip_below_limit v t Ht) as Htl. pose proof limit_in_range as Hlim.
  revert w Htr Hag. induction bs as [|b bs IH]; intros w Htr Hag Htop Hf.
  { by exists (Continue tt), w. }
  destruct Hf as (Hbh & Hbat & Hf). pose proof Htr as (Hh & Hp & Hk).
  assert (claimed_height b <= height t) as Hbt.
  { destruct (Z.le_gt_cases (claimed_height b) (height t)); [done|]. rewrite Habove in Hbat by lia. done. }
  cbn [apply_blocks]. unfold mbind at 1, M_bind at 1, gets. unfold mbind at 1, M_bind at 1, lift at 1.
  assert ((claimed_height b =? height_add (height (prev_tip w)) 1) = true) as ->
    by (rewrite height_add_spec, Hbh by lia; apply Z.eqb_refl).
  cbn [assert]. unfold mbind at 1, M_bind at 1. rewrite <- Hbh in Hbat.
  pose proof (scan_block_live b shutdown_height w ltac:(lia) Hbat Htop ltac:(lia)) as Hs.
  assert (0 <= claimed_height b <= height_limit) as Hbl by lia.
  pose proof (scan_block_spec v b shutdown_height w Hbl) as Hspec.
  destruct (scan_block v b shutdown_height w) as [r w1]. cbn in Hs. subst r.
  unfold flow_at in *. destruct (match shutdown_height with Some h => _ | None => _ end) eqn:Hstop.
  - subst w1. eexists _, w. split; [done|]. split; [|done].
    destruct shutdown_height as [s|]; [|done]. apply Z.leb_le in Hstop. exists s. split; [done|lia].
  - destruct Hspec as [Hw1 Hk1].
    unfold mbind at 1, M_bind at 1. rewrite write_spec. pose proof (live_update_tip (v := v) (claimed_height b) (wallet w1)) as Hup.
    pose proof (update_chain_tip_blocks (claimed_height b) (wallet w1)) as Hsame.
    destruct (update_chain_tip _ _) as [r x]. cbn in Hup, Hsame. subst r. cbn [map_err fst snd].
    unfold mbind, M_bind, set_prev_tip, modify. cbn [set_wallet wallet source boundary notified].
    set (w2 := World x (source w1) (boundary w1) (notified w1)
      {| height := claimed_height b; hash := header_hash (block_header b) |}).
    assert (forall h hs, knows (wallet w2) h hs <->
        (h = claimed_height b /\ hs = header_hash (block_header b)) \/
        (h <> claimed_height b /\ knows (wallet w) h hs)) as Hk2 by (intros h hs; cbn; by rewrite Hsame).
    apply IH.
    + unfold tracks. cbn [prev_tip w2 height hash]. split_and!; [|lia|lia|by intros hs [[_ ->]|[? _]]%Hk2].
      intros h hs [[-> ->]|[_ Hkw]]%Hk2; [by apply (at_height_hash v)|by apply Hh].
    + intros h Hr. cbn in Hr. destruct (decide (h = claimed_height b)) as [->|Hne].
      * exists (header_hash (block_header b)). rewrite Hk2. auto.
      * destruct (Hag h) as (hs & ? & ?); [lia|]. exists hs. rewrite Hk2. auto.
    + intros h hs [[-> _]|[_ Hkw]]%Hk2; cbn; [lia|]. apply Htop in Hkw. lia.
    + cbn. by rewrite Hbh.
Qed.

Lemma within_reach_anchored w : within_reach v w -> anchored (wallet w) (prev_tip w).
Proof. intros (h & hs & ? & ? & _). by exists h, hs. Qed.

Lemma locate_fork_point_live w :
  tracks w -> birthday_known_below (wallet w) (prev_tip w) -> within_reach v w ->
  exists f, locate_fork_point v (prev_tip w) w = (Ret f, w) /\
    0 <= height f <= height (prev_tip w) /\ (f = prev_tip w \/ height f < height (prev_tip w)) /\
    knows (wallet w) (height f) (hash f) /\ at_height v (height f) = Some (hash f).
Proof.
  intros Htr Hb Hreach. pose proof (within_reach_anchored w Hreach) as Ha. destruct Hreach as (h & hs & Hin & Hkn & Hat).
  pose proof Htr as (_ & Hp & _).
  destruct (locate_fork_point_spec v (prev_tip w) w Htr (fun _ => Hb)) as [Hw Hpost].
  destruct (locate_fork_point v (prev_tip w) w) as [r w'] eqn:Hl. cbn in Hw, Hpost. subst w'.
  enough (exists f, r = Ret f) as [f ->].
  { exists f. destruct Hpost as (? & ? & Hf & _). by destruct (Hf Ha). }
  clear Hpost. unfold locate_fork_point, read, chain, lift in Hl. cbv [mbind M_bind] in Hl.
  destruct (live_birthday (v := v) (wallet w)) as [o Ho]. rewrite Ho in Hl. cbn [map_err] in Hl.
  destruct (build_block_locator_correct (get_block_hash (wallet w)) (height (prev_tip w)))
    as (_ & _ & _ & _ & _ & Hloc); [lia|apply block_hash_total|].
  destruct (build_block_locator_total (get_block_hash (wallet w)) (height (prev_tip w))) as [l Hbl];
    [lia|apply live_block_hash|].
  rewrite Hbl in Hl. cbn [map_err] in Hl. destruct (Hloc l Hbl) as (blocks & -> & _ & Hblocks).
  destruct (live_fork (v := v) (hash <$> blocks)) as [[f|] Hf]; rewrite Hf in Hl; cbn [map_err] in Hl.
  - exists f. by injection Hl.
  - exfalso. apply (find_fork_point_None _ _ {| height := h; hash := hs |} Hf); [|done].
    apply (list_elem_of_fmap_2 hash _ {| height := h; hash := hs |}). by apply Hblocks.
Qed.

(** Rewinding to the fork point succeeds, and leaves no block above it. *)
Lemma rewind_live f w : topmost w -> f = prev_tip w \/ height f < height (prev_tip w) ->
  exists w', (if bool_decide (f = prev_tip w) then mret tt else
      _ ← lift (assert (height f <? height (prev_tip w)));
      _ ← write (truncate_to_height (height f)); set_prev_tip f) w = (Ret tt, w') /\ topmost w'.
Proof.
  intros Htop Hcase. case_bool_decide as Heq; [by exists w|].
  destruct Hcase as [|Hlt]; [done|]. rewrite (proj2 (Z.ltb_lt _ _) Hlt).
  unfold mbind, M_bind, lift. cbn [assert]. rewrite write_spec.
  destruct (live_truncate (v := v) (height f) (wallet w)) as [n Hok].
  pose proof (truncate_ok (height f) (wallet w)) as Hk.
  destruct (truncate_to_height (height f) (wallet w)) as [r x]; cbn in Hok, Hk. subst r.
  destruct (Hk n x eq_refl) as [Hn Hkx]. eexists. split; [done|]. intros h hs [? _]%Hkx. cbn. lia.
Qed.

Lemma follow_tip_live shutdown_height w :
  tracks w -> birthday_known_below (wallet w) (prev_tip w) -> topmost w -> within_reach v w ->
  exists flow w', follow_tip v t shutdown_height w = (Ret flow, w') /\ stops shutdown_height flow /\ topmost w'.
Proof.
  intros Htr Hb Htop Hreach. pose proof (live_tip (v := v)) as Ht. unfold follow_tip.
  set (w0 := World (wallet w) (source w) (update_boundary (boundary w) (height t)) (notified w + 1) (prev_tip w)).
  change (tracks w0) in Htr. change (birthday_known_below (wallet w0) (prev_tip w0)) in Hb.
  change (topmost w0) in Htop. change (within_reach v w0) in Hreach.
  destruct (locate_fork_point_live w0 Htr Hb Hreach) as (f & Hl & Hf & Hcase & Hkf & Hatf).
  unfold mbind at 1 2 3 4, M_bind at 1 2 3 4, modify, notify_one, gets. unfold modify.
  cbn [wallet source boundary notified prev_tip]. fold w0. change (prev_tip w) with (prev_tip w0). rewrite Hl.
  destruct (tip_spec v t Ht) as (Htb & Hatt & Habove).
  assert (height f <= height t) as Hft.
  { destruct (Z.le_gt_cases (height f) (height t)); [done|]. rewrite Habove in Hatf by lia. done. }
  unfold mbind at 1, M_bind at 1, lift at 1. rewrite (proj2 (Z.leb_le _ _) Hft). cbn [assert].
  rewrite height_add_spec by (unfold u32_max in *; lia).
  destruct (live_stream (v := v) (height f + 1)) as (st & Hstream & Hfail); [lia|].
  unfold mbind at 1, M_bind at 1, chain at 1, lift at 1. rewrite Hstream. cbn [map_err].
  unfold mbind at 1, M_bind at 1.
  destruct (rewind_live f w0 Htop Hcase) as (w1 & Hw1 & Htop1).
  destruct (rewind_spec f w0 Htr Hf Hcase (fun _ => Hkf)) as (r & w1' & Hrw & _ & _ & Htr1 & _ & Hp1).
  rewrite Hw1 in Hrw. injection Hrw as <- <-. destruct (Hp1 eq_refl) as [Hp _]. rewrite Hw1.
  pose proof (stream_to_tip_spec v _ _ Hstream) as Hfol. rewrite <- Hp in Hfol.
  assert (agrees v (height f) w1) as Hag1 by (intros h Hh; rewrite Hp in Hh; lia).
  destruct (apply_blocks_live (height f) shutdown_height _ w1 Htr1 Hag1 Htop1 Hfol) as (flow & w2 & Hap & Hst & Htop2).
  unfold mbind at 1, M_bind at 1. rewrite Hap.
  destruct flow as [b|[]]; [by exists (Break b), w2|]. unfold stream_end. rewrite Hfail.
  by exists (Continue tt), w2.
Qed.

Lemma follow_mempool_live w : exists w', follow_mempool v w = (Ret (Continue tt), w').
Proof.
  unfold follow_mempool. cbv [mbind M_bind]. unfold chain, lift.
  destruct (live_mempool (v := v)) as [o ->]. cbn [map_err].
  enough (forall l w, (for_each (fun tx => write (decrypt_and_store_transaction tx None)) l w).1 = Ret tt) as Hl.
  { specialize (Hl (default [] o) w). destruct (for_each _ _ w) as [r w']. cbn in Hl. subst r. by exists w'. }
  intros l. induction l as [|tx l IH]; intros w0; [done|]. cbn [for_each]. cbv [mbind M_bind]. rewrite write_spec.
  rewrite live_store. cbn [map_err]. apply IH.
Qed.

(** C3. Progress: when the view answers, the wallet's reads and writes succeed
    (a write of a block that does not conflict with one the wallet has), the
    scanner accepts the blocks of the view's chain, the locator holds a block
    of that chain, the birthday is not above the block steady_state is at, and
    the wallet has no block above it and no other at its height, an iteration
    of steady_state brings the wallet to the view's tip, unless the tip is at
    or above the divergence height, and then exactly it stops, at a height
    between the two. Either way the wallet then has no block above where
    steady_state is and no other there, and if it had the block before, it has
    it, unless rewinding reached a lower height than the fork point. *)
Theorem steady_state_iteration_catches_up shutdown_height w :
  tracks w -> birthday_known_below (wallet w) (prev_tip w) -> topmost w ->
  (snapshot (source w)).1 = Ret v -> within_reach v w ->
  let '(r, w') := steady_state_iteration shutdown_height w in
  tracks w' /\ topmost w' /\ (holds w -> settled w w') /\
  if match shutdown_height with Some s => s <=? height t | None => false end
  then exists s b, shutdown_height = Some s /\ s <= b <= height t /\ r = Ret (Break b)
  else r = Ret (Continue tt) /\ caught_up v w w'.
Proof.
  intros Htr Hb Htop Hsnap Hreach. pose proof (live_tip (v := v)) as Ht.
  pose proof (steady_state_iteration_spec shutdown_height w Htr (fun _ => Hb)) as Hspec.
  pose proof (within_reach_anchored w Hreach) as Ha.
  enough (exists flow w', steady_state_iteration shutdown_height w = (Ret flow, w') /\ topmost w' /\
    if match shutdown_height with Some s => s <=? height t | None => false end
    then exists s b, shutdown_height = Some s /\ s <= b <= height t /\ flow = Break b else flow = Continue tt)
    as (flow & w' & He & Htop' & Hflow).
  { rewrite He in *. destruct Hspec as (_ & Hk & Hcaught). destruct Hk as [Htr' Hset]; [done|].
    split_and!; [done..|].
    destruct (match shutdown_height with Some s => _ | None => _ end).
    - destruct Hflow as (s & b & ? & ? & ->). by exists s, b.
    - subst flow. split; [done|]. destruct (Hcaught eq_refl Ha) as (v' & Hv' & ?).
      rewrite Hsnap in Hv'. by injection Hv' as <-. }
  clear Hspec Ha. unfold steady_state_iteration. unfold mbind at 1, M_bind at 1, take_snapshot.
  destruct (snapshot (source w)) as [rv src]. cbn in Hsnap. subst rv. cbn [map_err].
  set (w1 := World (wallet w) src (boundary w) (notified w) (prev_tip w)).
  change (tracks w1) in Htr. change (birthday_known_below (wallet w1) (prev_tip w1)) in Hb.
  change (topmost w1) in Htop. change (within_reach v w1) in Hreach.
  unfold mbind at 1, M_bind at 1, chain at 1, lift at 1. rewrite Ht. cbn [map_err].
  unfold mbind at 1, M_bind at 1, gets at 1. unfold mbind at 1, M_bind at 1.
  assert (exists flow w2, (if negb (bool_decide (t = prev_tip w1)) then follow_tip v t shutdown_height
      else mret (Continue tt)) w1 = (Ret flow, w2) /\ stops shutdown_height flow /\ topmost w2)
    as (flow & w2 & -> & Hst & Htop2).
  { case_bool_decide; [by exists (Continue tt), w1|]. by apply follow_tip_live. }
  destruct flow as [b|[]].
  - destruct Hst as (s & -> & Hs). eexists _, w2. split; [done|]. split; [done|].
    rewrite (proj2 (Z.leb_le s (height t))) by lia. by exists s, b.
  - destruct (follow_mempool_live w2) as [w3 Hm]. pose proof (follow_mempool_spec v w2) as Hs. rewrite Hm in Hs.
    destruct Hs as [_ [Hw3 Hk3]].
    assert (topmost w3) as Htop3 by (intros h hs Hk; rewrite Hw3; apply (Htop2 h hs), Hk3, Hk).
    destruct shutdown_height as [s|]; [|by eexists _, w3].
    destruct (Z.leb_spec s (height t)); [|by eexists _, w3].
    eexists _, w2. split; [done|]. split; [done|]. exists s, s. split_and!; [done|lia|lia|done].
Qed.
End live.
