(* ===== verification/SyncTurns.v ===== *)
(** The loop of [steady_state]: what one turn keeps, the recovery from a block
    conflict included, and so what any number of turns keep while the chain changes
    between them. *)

From S2P Require Import Prelude Rpc Chain Sync SyncProps.

(** What the wallet database keeps of its blocks: they have the heights of a chain, at
    or above the birthday. *)
Class WalletHeights `{SyncEnv} `{!SyncNoPanic} := {
  block_heights : forall x h hs, knows x h hs -> 0 <= h < height_limit;
  blocks_above_birthday : forall x h hs b, knows x h hs -> get_wallet_birthday x = Ret (Some b) -> 0 <= b <= h
}.

Section turns.
Context `{HE : SyncEnv} `{HL : !SyncLaws} `{HF : !ForkPointLaws View} `{HN : !SyncNoPanic} `{HW : !WalletHeights}
  `{HH : HeightOps} `{HHL : !HeightLaws}.










End turns.
