(* ===== verification/SyncExample.v ===== *)
(** A small wallet and chain that meet the promises the sync engine relies on,
    and runs of the engine on them.

    A block hash is a height and a branch; a chain view is a tip height and a
    branch, blocks below height 5 being common to all branches; a wallet is the
    map of its blocks. *)

From S2P Require Import Prelude Rpc Chain Sync SyncProps SyncLive SyncTurns.

Section example.

#[local] Instance sim_types : ChainTypes := {|
  BlockHash := Z * Z; BlockHeader := Z * Z; Block := Z * (Z * Z); Transaction := list Byte.byte; TxId := Z;
  ChainState := Z * (Z * Z) * (Z * Z); header_hash h := h; claimed_height := fst; block_header := snd |}.

#[local] Instance sim_heights : HeightOps :=
  {| height_add a b := Z.min u32_max (a + b); height_sub a b := Z.max 0 (a - b) |}.

#[local] Instance sim_heights_laws : HeightLaws.
Proof.
  split; unfold height_add, height_sub; cbn; intros; lia.
Qed.

(** The chain with tip height [v.1] on branch [v.2]. *)
Definition sim_at (v : Z * Z) (h : Z) : option (Z * Z) :=
  if (0 <=? h) && (h <=? v.1) then Some (h, if h <? 5 then 0 else v.2) else None.

Definition sim_block (v : Z * Z) (h : Z) : Z * (Z * Z) := (h, (h, if h <? 5 then 0 else v.2)).

Definition sim_fork (v : Z * Z) (l : list (Z * Z)) : option ChainBlock :=
  head (omap (fun hs : Z * Z =>
    if bool_decide (sim_at v hs.1 = Some hs) then Some {| height := hs.1; hash := hs |} else None) l).

Definition sim_stream (v : Z * Z) (s e : Z) : stream :=
  {| items := sim_block v <$> seqZ s (e - s); failure := None |}.

#[local] Instance sim_view : ChainView (Z * Z) := {|
  tip v := if (0 <=? v.1) && (v.1 <? 1000) then Ret {| height := v.1; hash := (sim_block v v.1).2 |}
           else Err (unavailable "no tip");
  find_fork_point v l := Ret (sim_fork v l);
  tree_state_as_of v h := Ret (Some (h, (sim_block v h).2, (0, 0)));
  get_block_header v h := Ret (sim_at v h);
  get_block v h := Ret ((fun hs => (h, hs)) <$> sim_at v h);
  stream_blocks_to_tip v s := if bool_decide (0 <= s) then Ret (sim_stream v s (v.1 + 1)) else Panic;
  stream_blocks v r :=
    if bool_decide (0 <= r.1) then Ret (sim_stream v r.1 (Z.min r.2 (v.1 + 1))) else Panic;
  get_mempool_stream v := Ret None;
  get_transaction v txid := Ret None;
  get_transaction_status v txid := Ret TxidNotRecognized |}.

Lemma sim_at_Some v h hs : sim_at v h = Some hs -> 0 <= h <= v.1 /\ hs = (sim_block v h).2.
Proof.
  unfold sim_at. destruct (Z.leb_spec 0 h), (Z.leb_spec h v.1); cbn [andb]; [|done..].
  by intros [= <-].
Qed.

Lemma sim_at_in v h : 0 <= h <= v.1 -> sim_at v h = Some (sim_block v h).2.
Proof. intros. unfold sim_at. destruct (Z.leb_spec 0 h), (Z.leb_spec h v.1); cbn [andb]; [done|lia..]. Qed.

Lemma sim_follows v s n : 0 <= s -> s + n <= v.1 + 1 -> follows (sim_at v) s (sim_block v <$> seqZ s n).
Proof.
  intros Hs Hn. destruct (Z.le_gt_cases n 0) as [|Hpos]; [by rewrite seqZ_nil|].
  revert s Hs Hn. assert (exists k, n = Z.of_nat k) as [k ->] by (exists (Z.to_nat n); lia). clear Hpos.
  induction k as [|k IH]; intros s Hs Hn; [done|].
  rewrite seqZ_cons by lia. cbn. rewrite sim_at_in by lia.
  split_and!; [done..|]. specialize (IH (Z.succ s)). rewrite Z.add_1_r.
  replace (Z.pred (Z.of_nat (S k))) with (Z.of_nat k) by lia. apply IH; lia.
Qed.

#[local] Instance sim_view_laws : ChainViewLaws (Z * Z).
Proof.
  refine {| at_height := sim_at |}; cbn.
  - intros v b. destruct (Z.leb_spec 0 v.1), (Z.ltb_spec v.1 1000); cbn [andb]; try done.
    intros [= <-]; cbn [height hash]. split_and!; [lia|unfold u32_max; lia|apply sim_at_in; lia|].
    intros h Hh. destruct (sim_at v h) eqn:He; [|done]. apply sim_at_Some in He. lia.
  - intros v h o [= <-]. by destruct (sim_at v h).
  - intros v h b [= Hb]. destruct (sim_at v h) eqn:He; [|done]. by injection Hb as <-.
  - intros v s st. case_bool_decide; [|done]. intros [= <-]. cbn.
    destruct (Z.le_gt_cases (v.1 + 1 - s) 0) as [|]; [by rewrite seqZ_nil|]. apply sim_follows; lia.
  - intros v s b st Ht Hs. rewrite bool_decide_true by done. intros [= <-] _. cbn. rewrite length_fmap, length_seqZ.
    destruct (_ && _); [|done]. injection Ht as <-. cbn. lia.
  - intros v r st Hr. case_bool_decide; [|done]. intros [= <-]. cbn. rewrite length_fmap, length_seqZ.
    split; [|lia]. destruct (Z.le_gt_cases (Z.min r.2 (v.1 + 1) - r.1) 0) as [|]; [by rewrite seqZ_nil|].
    apply sim_follows; lia.
Defined.

#[local] Instance sim_fork_laws : ForkPointLaws (Z * Z).
Proof.
  split; cbn.
  - intros v l b [= Hf]. unfold sim_fork in Hf. apply head_Some in Hf as [l' Hl'].
    assert (b ∈ omap (fun hs : Z * Z =>
      if bool_decide (sim_at v hs.1 = Some hs) then Some {| height := hs.1; hash := hs |} else None) l)
      as Hin by (rewrite Hl'; left).
    apply list_elem_of_omap in Hin as (hs & Hin & Heq). case_bool_decide; [|done]. by injection Heq as <-.
  - intros v l b [= Hf] Hin Hat. unfold sim_fork in Hf. apply head_None in Hf.
    assert ({| height := (hash b).1; hash := hash b |} ∈ omap (fun hs : Z * Z =>
      if bool_decide (sim_at v hs.1 = Some hs) then Some {| height := hs.1; hash := hs |} else None) l)
      as Hin'; [|rewrite Hf in Hin'; by apply not_elem_of_nil in Hin'].
    apply list_elem_of_omap. exists (hash b). split; [done|].
    assert ((hash b).1 = height b) as -> by (apply sim_at_Some in Hat as [_ ->]; done).
    by rewrite bool_decide_true.
Qed.

(** ** The wallet

    It can be rolled back to the multiples of 5 only. *)

Definition sim_wallet : Type := gmap Z (Z * Z).

Definition sim_reachable (h : Z) : Z := 5 * (h / 5).

Lemma sim_reachable_le h : sim_reachable h <= h.
Proof. unfold sim_reachable. pose proof (Z.mul_div_le h 5). lia. Qed.

(** The height of a block that conflicts with one the wallet has. *)
Definition sim_clash (sbs : list (Z * (Z * Z))) (x : sim_wallet) : option Z :=
  head (omap (fun sb : Z * (Z * Z) =>
    match x !! sb.1 with
    | Some hs => if bool_decide (hs = sb.2) then None else Some sb.1
    | None => None
    end) sbs).

Definition sim_put (st : Z * (Z * Z) * (Z * Z)) (sbs : list (Z * (Z * Z))) (x : sim_wallet) :
    outcome SqliteClientError unit * sim_wallet :=
  if bool_decide (NoDup sbs.*1 /\ Forall (fun h => 0 <= h < 1000) sbs.*1) then
    match sim_clash sbs x with
    | Some h => (Err (BlockConflict h), x)
    | None => (Ret tt, list_to_map sbs ∪ x)
    end
  else (Err (SqliteOther "malformed"), x).

#[local] Instance sim_env : SyncEnv := {|
  Wallet := sim_wallet; Source := Z * Z; View := Z * Z; Queued := Z * (Z * Z); Keys := unit; Vtx := unit;
  Nullifiers := unit; BlockMetadata := unit; ScannedBlock := Z * (Z * Z); Account := unit; Address := unit;
  KeyScope := unit; SubtreeRoots := unit;
  snapshot s := (Ret s, s);
  get_sapling_subtree_roots s := Ret tt;
  get_orchard_subtree_roots s := Ret tt;
  get_address_unspent_outpoints v a := Ret [];
  get_address_tx_ids v a r := Ret [];
  txid_is_null t := false;
  get_wallet_birthday x := Ret (Some 0);
  get_block_hash x h := Ret (if bool_decide (0 <= h < 1000) then x !! h else None);
  block_metadata x h := Ret None;
  suggest_scan_ranges x := Ret [Range 0 20 10];
  get_account_ids x := Ret [];
  get_transparent_receivers x a := Ret [];
  nullifiers_unspent x := Ret tt;
  transaction_data_requests x := Ret [];
  get_spendable_transparent_outputs x a h := Ret [];
  truncate_to_height h x := (Ret (sim_reachable h), filter (fun kv => kv.1 <= sim_reachable h) x);
  update_chain_tip h x := (Ret tt, x);
  put_sapling_subtree_roots r x := (Ret tt, x);
  put_orchard_subtree_roots r x := (Ret tt, x);
  put_blocks := sim_put;
  decrypt_and_store_transaction t h x := (Ret tt, x);
  set_transaction_status t st x := (Ret tt, x);
  notify_address_checked a h x := (Ret tt, x);
  queue_block b := Some b;
  await_result q := Some (tt, q.2, tt);
  state_metadata st := tt;
  full_scan_block h hdr vtx k n m a := Ret (h, hdr);
  update_with n sb := n;
  to_block_metadata sb := tt;
  scanned_height := fst;
  PRIORITY_HISTORIC := 10;
  PRIORITY_VERIFY := 40;
  truncate_start r h := if h <? range_end r then Some (Range (Z.max h (range_start r)) (range_end r) (priority r)) else None;
  truncate_end r h := if range_start r <? h then Some (Range (range_start r) (Z.min h (range_end r)) (priority r)) else None;
  split_at r p :=
    if (range_start r <? p) && (p <? range_end r) then
      Some (Range (range_start r) p (priority r), Range p (range_end r) (priority r))
    else None |}.

Lemma sim_knows (x : sim_wallet) h hs : knows x h hs <-> 0 <= h < 1000 /\ x !! h = Some hs.
Proof.
  unfold knows. cbn. case_bool_decide as Hh; [|split; [done|by intros [? _]]].
  split; [by intros [= ->]|by intros [_ ->]].
Qed.

Lemma sim_put_lookup (sbs : list (Z * (Z * Z))) (x : gmap Z (Z * Z)) h hs : NoDup sbs.*1 ->
  ((list_to_map sbs : gmap Z (Z * Z)) ∪ x) !! h = Some hs <->
  (exists sb, sb ∈ sbs /\ sb.1 = h /\ sb.2 = hs) \/ (h ∉ sbs.*1) /\ x !! h = Some hs.
Proof.
  intros Hnd. rewrite lookup_union_Some_raw. split.
  - intros [Hl|[Hl Hx]].
    + left. exists (h, hs). split_and!; [|done..]. by apply elem_of_list_to_map_2.
    + right. split; [|done]. by apply not_elem_of_list_to_map.
  - intros [([h' hs'] & Hin & <- & <-)|[Hn Hx]]; cbn.
    + left. by apply elem_of_list_to_map_1.
    + right. split; [|done]. by apply not_elem_of_list_to_map.
Qed.

#[local] Instance sim_laws : SyncLaws.
Proof.
  refine {| view_laws := sim_view_laws; hash_height := fst; scanned_hash := snd |}.
  - intros v h hs Hh. change (sim_at v h = Some hs) in Hh. by apply sim_at_Some in Hh as [_ ->].
  - cbn. by intros b q k hdr vtx [= <-] [= _ <- _].
  - cbn. by intros h hdr vtx k n m a sb [= <-].
  - cbn. unfold sim_put. intros st sbs x x'. case_bool_decide as Hnd; [|done]. destruct Hnd as [Hnd Hin].
    destruct (sim_clash sbs x); [done|]. intros [= <-] h hs.
    rewrite !sim_knows, sim_put_lookup by done. split; [naive_solver|].
    intros [(sb & Hsb & Hh & Hhs)|(Hn & Hh & Hx)]; [|naive_solver]. split; [|naive_solver].
    rewrite Forall_forall in Hin. rewrite <- Hh. apply Hin. by apply list_elem_of_fmap_2.
  - cbn. unfold sim_put. intros st sbs x. case_bool_decide; [|done]. by destruct (sim_clash sbs x).
  - cbn. intros t x n x' [= <- <-]. split; [apply sim_reachable_le|]. intros h hs. rewrite !sim_knows.
    pose proof (map_lookup_filter_Some (M:=gmap Z) (fun kv : Z * (Z * Z) => kv.1 <= sim_reachable t) x h hs) as Hf.
    cbn in Hf. split.
    + intros (? & [? ?]%Hf). done.
    + intros (? & ? & ?). split; [done|]. by apply Hf.
  - cbn. intros t x Hn. by destruct (Hn (sim_reachable t)).
  - by intros t x h hs.
  - by intros t x h hs.
  - by intros t x h hs.
  - by intros t h x h' hs.
  - by intros t h x h' hs.
  - by intros t h x h' hs.
Defined.

#[local] Instance sim_no_panic : SyncNoPanic.
Proof.
  refine {| height_limit := 1000 |}; try done; cbn.
  - intros v b. destruct (Z.leb_spec 0 v.1), (Z.ltb_spec v.1 1000); cbn [andb]; try done. by intros [= <-].
  - intros v. by destruct (_ && _).
  - intros v s Hs. by rewrite bool_decide_true by lia.
  - intros st sbs x. unfold sim_put. case_bool_decide; [|done]. by destruct (sim_clash sbs x).
Defined.

#[local] Instance sim_wallet_heights : WalletHeights.
Proof.
  split.
  - intros x h hs [Hh _]%sim_knows. cbn. lia.
  - intros x h hs b [Hh _]%sim_knows [= <-]. lia.
Qed.

#[local] Instance sim_ranges : ScanRangeLaws.
Proof. by split. Qed.

(** ** Runs *)

Definition sim_tip : @ChainBlock sim_types := {| height := 7; hash := (7, 1) |}.

(** A wallet at height 7 on branch 1, when the chain is at height 8 on
    branch 2. *)
Definition sim_world : world :=
  World (list_to_map (sim_block (7, 1) <$> seqZ 0 8)) (8, 2) 0 0 sim_tip.

Lemma sim_world_blocks h hs : knows (wallet sim_world) h hs -> hs.1 = h /\ 0 <= h < 8.
Proof.
  intros Hk. apply sim_knows in Hk as [_ Hk].
  change ((list_to_map (sim_block (7, 1) <$> seqZ 0 8) : gmap Z (Z * Z)) !! h = Some hs) in Hk.
  apply elem_of_list_to_map_2, list_elem_of_fmap in Hk as (k & [= -> ->] & Hk%elem_of_seqZ).
  split; [done|lia].
Qed.

Lemma shutdown_height_never_crossed_witness :
  below 8 sim_world /\ below 8 (steady_state_turn (Some 8) sim_world).2.
Proof.
  assert (below 8 sim_world) as Hb.
  { intros h hs Hk%sim_world_blocks. lia. }
  split; [done|].
  apply (shutdown_height_never_crossed 5 8 sim_world _); [|done].
  eapply rtc_l; [|apply rtc_refl]. apply step_steady_state.
Defined.

Lemma sim_tracks : tracks sim_world.
Proof.
  split_and!; [|vm_compute; done..|].
  - intros h hs Hk. cbn. by apply sim_world_blocks.
  - intros hs Hk. vm_compute in Hk. by injection Hk as <-.
Qed.

Lemma sim_birthday : birthday_known_below (wallet sim_world) (prev_tip sim_world).
Proof. intros b. cbn. intros [= <-]. lia. Qed.

Lemma sim_holds : holds sim_world.
Proof. vm_compute. reflexivity. Qed.

Lemma sim_anchored : anchored (wallet sim_world) (prev_tip sim_world).
Proof. apply holds_anchored; [cbn; lia|exact sim_holds]. Qed.

(** The wallet moves to branch 2. The fork point is at height 3, but the wallet can
    only be rolled back to 0: it has no block at height 3 afterwards. *)
Lemma steady_state_iteration_correct_witness :
  tracks sim_world /\
  prev_tip (steady_state_iteration None sim_world).2 = {| height := 8; hash := (8, 2) |} /\
  get_block_hash (wallet (steady_state_iteration None sim_world).2) 3 = Ret None /\
  tracks (steady_state_iteration None sim_world).2.
Proof.
  split; [exact sim_tracks|]. split; [by vm_compute|]. split; [by vm_compute|].
  pose proof (steady_state_iteration_correct None sim_world sim_tracks sim_anchored sim_birthday) as Hs.
  destruct (steady_state_iteration None sim_world) as [r w']. apply Hs.
Defined.

Lemma sim_no_clash h hs (x : sim_wallet) : (forall hs', x !! h = Some hs' -> hs' = hs) -> sim_clash [(h, hs)] x = None.
Proof.
  intros Hx. unfold sim_clash. cbn. destruct (x !! h) as [hs'|] eqn:He; [|done].
  by rewrite bool_decide_true by (by apply Hx).
Qed.

Lemma sim_succeeds : Succeeds (8, 2) {| height := 8; hash := (8, 2) |}.
Proof.
  split; try done; try (intros; by eexists).
  - intros s Hs. cbn. rewrite bool_decide_true by lia. by eexists.
  - intros st [h hs] x Hat Hk. change (sim_at (8, 2) h = Some hs) in Hat. apply sim_at_Some in Hat as [Hh _].
    cbn in Hh. change ((sim_put st [(h, hs)] x).1 = Ret tt). unfold sim_put.
    rewrite bool_decide_true by (split; [apply NoDup_singleton|repeat constructor; cbn; lia]).
    rewrite sim_no_clash; [done|]. intros hs' Hx. apply (Hk hs'). apply sim_knows. split; [cbn; lia|exact Hx].
  - intros b. by exists b, tt, tt.
Qed.

(** The wallet follows the chain from branch 1 to branch 2; with a divergence height
    of 8 it stops there. *)
Lemma steady_state_iteration_catches_up_witness :
  (steady_state_iteration (Some 9) sim_world).1 = Ret (Continue tt) /\
  (exists s b, Some 8 = Some s /\ s <= b <= 8 /\ (steady_state_iteration (Some 8) sim_world).1 = Ret (Break b)).
Proof.
  assert (topmost sim_world) as Htop by (intros h hs Hk%sim_world_blocks; cbn; lia).
  assert (within_reach (8, 2) sim_world) as Hreach.
  { exists 3, (3, 0). split; [by apply (bool_decide_unpack _); vm_compute|]. split; vm_compute; reflexivity. }
  pose proof (steady_state_iteration_catches_up (Succeeds0 := sim_succeeds) (8, 2) _ (Some 9) sim_world sim_tracks sim_birthday Htop
    eq_refl Hreach) as H9.
  pose proof (steady_state_iteration_catches_up (Succeeds0 := sim_succeeds) (8, 2) _ (Some 8) sim_world sim_tracks sim_birthday Htop
    eq_refl Hreach) as H8.
  split.
  - destruct (steady_state_iteration (Some 9) sim_world) as [r w']. apply H9.
  - destruct (steady_state_iteration (Some 8) sim_world) as [r w']. apply H8.
Defined.




Lemma step_back_to_best_chain_correct_witness :
  step_back_to_best_chain (8, 2) sim_tip 0
    (fun h => Ret (sim_at (7, 1) h)) = Ret {| height := 0; hash := (0, 0) |} /\
  exists b k, step_back_to_best_chain (8, 2) sim_tip 0
    (fun h => Ret (sim_at (7, 1) h)) = Ret b /\ height b = probe 0 7 k.
Proof.
  split; [by vm_compute|].
  destruct (@step_back_to_best_chain_correct sim_types (Z * Z) sim_view (8, 2) 0 (fun h => Ret (sim_at (7, 1) h))
    sim_tip) as [(b & k & Hb & _ & Hk & _)|[Hb _]]; [lia|cbn; lia|eauto..| |].
  - eauto.
  - by vm_compute in Hb.
Defined.

Lemma batches_cut_range_witness :
  batches (Range 3 20 10) 8 = [Range 3 11 10; Range 11 19 10; Range 19 20 10] /\
  cuts 8 10 3 20 (batches (Range 3 20 10) 8).
Proof.
  split; [by vm_compute|]. apply (batches_cut_range (Range 3 20 10) 8); cbn; unfold u32_max; lia.
Defined.

Lemma address_request_bounds_correct_witness :
  address_request_bounds 3 (Some 6) 10 = ((3, 6), 5) /\
  5 <= 10.
Proof.
  split; [by vm_compute|].
  destruct (address_request_bounds_correct 3 (Some 6) 10) as (_ & H & _); [lia|unfold u32_max; lia|].
  by apply H.
Defined.

(** A wallet without blocks, at height 7 when the chain's tip is at height 6. *)
Definition sim_empty_world : world := World ∅ (6, 2) 0 0 sim_tip.
Definition sim_lower_tip : @ChainBlock sim_types := {| height := 6; hash := (6, 2) |}.

Lemma steady_state_panics_without_history_witness :
  (steady_state_iteration None sim_empty_world).1 = Panic.
Proof.
  apply (@steady_state_panics_without_history sim_types sim_env sim_laws sim_fork_laws sim_no_panic sim_heights
    None sim_empty_world (6, 2) sim_lower_tip (Some 0)); try done.
  intros h. cbn. by case_bool_decide.
Defined.
End example.
