(* ===== verification/AsyncOp.v ===== *)
(** Asynchronous RPC operations
    (src/zallet/src/components/json_rpc/asyncop.rs, [start_async] in methods.rs,
    and the methods [z_getoperationstatus], [z_getoperationresult] and
    [z_listoperationids] in methods/get_operation.rs and
    methods/list_operation_ids.rs).

    An operation is an entry of the server's list and a task; they share the
    operation's data, a cell behind an [Arc<RwLock<_>>]. The methods take the
    cell's lock anew for every read, so tasks may run between two reads of one
    call: a call reads the cells of a history, [env k] at its [k]-th read. *)

From S2P Require Import Prelude Rpc.

(** [SystemTime], in nanoseconds since the Unix epoch. *)
Definition duration_since (later earlier : Z) : option Z :=
  if earlier <=? later then Some (later - earlier) else None.
Definition as_secs (d : Z) : Z := d / 1000000000.

Inductive OperationState := Ready | Executing | Cancelled | Failed | Success.

#[export] Instance OperationState_eq_dec : EqDecision OperationState.
Proof. solve_decision. Defined.

Definition parse (s : string) : option OperationState :=
  if String.eqb s "queued" then Some Ready
  else if String.eqb s "executing" then Some Executing
  else if String.eqb s "cancelled" then Some Cancelled
  else if String.eqb s "failed" then Some Failed
  else if String.eqb s "success" then Some Success
  else None.

Definition to_str (s : OperationState) : string :=
  match s with
  | Ready => "queued"
  | Executing => "executing"
  | Cancelled => "cancelled"
  | Failed => "failed"
  | Success => "success"
  end.

(** [TryFrom<String> for OperationId], with the [uuid] crate's parser. *)
Definition strip_prefix (p s : string) : option string :=
  if String.prefix p s then Some (String.substring (String.length p) (String.length s) s) else None.

Definition OperationId_try_from (uuid_try_parse : string -> bool) (value : string) : RpcResult string :=
  uuid ← ok_or (strip_prefix "opid-" value) (with_static InvalidParameter "Invalid operation ID");
  _ ← ensure (uuid_try_parse uuid) (with_static InvalidParameter "Invalid operation ID");
  Ret value.

Record OperationData := {
  state : OperationState;
  start_time : option Z;
  end_time : option Z;
  op_result : option (ErrorObject + JsonValue)
}.

(** [data] is the number of the shared cell. *)
Record AsyncOperation := {
  operation_id : string;
  context : option (string * JsonValue);
  creation_time : Z;
  data_cell : nat
}.

Record OperationError := {
  err_code : Z;
  err_message : message;
  err_data : option string
}.

Record OperationStatus := {
  status_id : string;
  method : option string;
  params : option JsonValue;
  status_state : OperationState;
  creation_secs : Z;
  error : option OperationError;
  status_result : option JsonValue;
  execution_secs : option Z
}.

(** ** The task of an operation *)

(** Where the task is; it is gone once it has recorded its result, or if the
    operation's future panicked. *)
Inductive phase := Spawned | Running | Ended.

Record cell := Cell { cell_data : OperationData; cell_phase : phase }.

Definition new_data : OperationData :=
  {| state := Ready; start_time := None; end_time := None; op_result := None |}.

(** The first critical section of the task. *)
Definition task_begin (now : Z) (d : OperationData) : cell :=
  match state d with
  | Cancelled => Cell d Ended
  | _ => Cell {| state := Executing; start_time := Some now; end_time := end_time d;
                 op_result := op_result d |} Running
  end.

(** The second one, with the result of the operation's future. *)
Definition task_record (end_ : Z) (res : ErrorObject + JsonValue) (d : OperationData) : cell :=
  Cell {| state := match res with inr _ => Success | inl _ => Failed end;
          start_time := start_time d; end_time := Some end_; op_result := Some res |} Ended.

Inductive task_step : list cell -> list cell -> Prop :=
  | step_begin cs i d now :
      cs !! i = Some (Cell d Spawned) -> task_step cs (<[i := task_begin now d]> cs)
  | step_record cs i d end_ res :
      cs !! i = Some (Cell d Running) -> task_step cs (<[i := task_record end_ res d]> cs)
  | step_panic cs i d :
      cs !! i = Some (Cell d Running) -> task_step cs (<[i := Cell d Ended]> cs).

(** ** The methods *)

Section methods.

(** [ErrorObject::code], and the cells at each read. *)
Context (error_code : ErrorCode -> Z) (env : nat -> list cell).

#[local] Abbreviation Reads := (M nat ErrorObject).

Definition read_data (op : AsyncOperation) : Reads OperationData := fun k =>
  (expect (cell_data <$> env k !! data_cell op), S k).

Definition state_of (op : AsyncOperation) : Reads OperationState :=
  d ← read_data op; mret (state d).

(** The part of [to_status] under the lock. *)
Definition status_of (op : AsyncOperation) (d : OperationData) : OperationStatus :=
  let creation := match duration_since (creation_time op) 0 with Some d => as_secs d | None => 0 end in
  let '(error, result, execution) :=
    match op_result d with
    | None => (None, None, None)
    | Some (inl e) =>
        (Some {| err_code := error_code (code e); err_message := msg e; err_data := data e |}, None, None)
    | Some (inr v) =>
        (None, Some v,
         match end_time d, start_time d with
         | Some end_, Some start =>
             Some (match duration_since end_ start with Some d => as_secs d | None => 0 end)
         | _, _ => None
         end)
    end in
  {| status_id := operation_id op;
     method := fst <$> context op;
     params := snd <$> context op;
     status_state := state d;
     creation_secs := creation;
     error := error;
     status_result := result;
     execution_secs := execution |}.

Definition to_status (op : AsyncOperation) : Reads OperationStatus :=
  d ← read_data op; mret (status_of op d).

Definition filtered (async_ops : list AsyncOperation) (filter : gset string) : list AsyncOperation :=
  base.filter (fun op => filter = ∅ \/ operation_id op ∈ filter) async_ops.

Definition get_operation_status (async_ops : list AsyncOperation) (operationid : list string) :
    Reads (list OperationStatus) :=
  mapM to_status (filtered async_ops (list_to_set operationid)).

Definition is_finished (s : OperationState) : bool :=
  match s with
  | Success | Failed | Cancelled => true
  | _ => false
  end.

(** The loop of [result]: the statuses returned and the operations to remove. *)
Fixpoint result_loop (l : list AsyncOperation) : Reads (list OperationStatus * gset string) :=
  match l with
  | [] => mret ([], ∅)
  | op :: l =>
      s ← state_of op;
      if is_finished s then
        st ← to_status op;
        '(ret, remove) ← result_loop l;
        mret (st :: ret, {[operation_id op]} ∪ remove)
      else result_loop l
  end.

Definition get_operation_result (async_ops : list AsyncOperation) (operationid : list string) :
    Reads (list AsyncOperation * list OperationStatus) :=
  '(ret, remove) ← result_loop (filtered async_ops (list_to_set operationid));
  mret (base.filter (fun op => operation_id op ∉ remove) async_ops, ret).

(** The body of the loop of [z_listoperationids]. *)
Definition list_one (state : option (option OperationState)) (op : AsyncOperation) : Reads (list string) :=
  match state with
  | None => mret [operation_id op]
  | Some f =>
      s ← state_of op;
      mret (if bool_decide (f = Some s) then [operation_id op] else [])
  end.

Definition list_operation_ids (async_ops : list AsyncOperation) (status : option string) :
    Reads (list string) :=
  ids ← mapM (list_one (parse <$> status)) async_ops;
  mret (concat ids).
End methods.

(** ** The server *)

(** [issued] are the IDs handed out so far, in order; [delivered] the statuses
    returned by [z_getoperationresult]. *)
Record server := Server {
  async_ops : list AsyncOperation;
  cells : list cell;
  issued : list string;
  delivered : list OperationStatus
}.

Definition initial : server := Server [] [] [] [].

(** [start_async]; the ID is a fresh UUID. *)
Definition start_async (ctx : option (string * JsonValue)) (id : string) (now : Z) (s : server) : server :=
  Server (async_ops s ++ [{| operation_id := id; context := ctx; creation_time := now;
                             data_cell := length (cells s) |}])
         (cells s ++ [Cell new_data Spawned]) (issued s ++ [id]) (delivered s).

(** A history of the cells: tasks may take steps between two reads. *)
Definition history (env : nat -> list cell) : Prop := forall k, rtc task_step (env k) (env (S k)).

(** [z_getoperationresult] holds the list's write lock throughout; the other
    methods change nothing. *)
Inductive server_step (error_code : ErrorCode -> Z) : server -> server -> Prop :=
  | step_start s ctx id now :
      id ∉ issued s -> server_step error_code s (start_async ctx id now s)
  | step_task s cs :
      task_step (cells s) cs ->
      server_step error_code s (Server (async_ops s) cs (issued s) (delivered s))
  | step_result s env n ids ops ret :
      env O = cells s -> history env ->
      get_operation_result error_code env (async_ops s) ids O = (Ret (ops, ret), n) ->
      server_step error_code s (Server ops (env n) (issued s) (delivered s ++ ret)).

(** ** Invariants *)

(** The states a cell goes through. *)
Definition cell_ok (c : cell) : Prop :=
  match cell_phase c with
  | Spawned => cell_data c = new_data
  | Running => exists t, cell_data c =
      {| state := Executing; start_time := Some t; end_time := None; op_result := None |}
  | Ended =>
      exists t, cell_data c =
        {| state := Executing; start_time := Some t; end_time := None; op_result := None |} \/
      exists e res, cell_data c =
        {| state := match res with inr _ => Success | inl _ => Failed end;
           start_time := Some t; end_time := Some e; op_result := Some res |}
  end.

(** What a status says: a result and an execution time if and only if the
    operation succeeded, an error if and only if it failed. *)
Definition status_complete (st : OperationStatus) : Prop :=
  (status_state st = Success /\ is_Some (status_result st) /\ is_Some (execution_secs st) /\ error st = None) \/
  (status_state st = Failed /\ is_Some (error st) /\ status_result st = None /\ execution_secs st = None).

(** A cell at the end of its life. *)
Definition final (c : cell) : Prop := is_finished (state (cell_data c)) = true.

Definition cells_ok (cs : list cell) : Prop := Forall cell_ok cs.

Lemma task_step_ok cs cs' : task_step cs cs' -> cells_ok cs -> cells_ok cs'.
Proof.
  unfold cells_ok. intros Hstep Hok.
  destruct Hstep as [cs i d now Hi|cs i d end_ res Hi|cs i d Hi];
    pose proof (Forall_lookup_1 _ _ _ _ Hok Hi) as Hc; cbn in Hc; (apply Forall_insert; [done|]).
  - subst d. cbn. by eexists.
  - destruct Hc as [t ->]. cbn. exists t. right. by eexists _, _.
  - destruct Hc as [t ->]. cbn. exists t. by left.
Qed.

Lemma task_step_length cs cs' : task_step cs cs' -> length cs' = length cs.
Proof. by destruct 1; rewrite length_insert. Qed.

(** Finished cells never change. *)
Lemma task_step_final cs cs' i c :
  task_step cs cs' -> cells_ok cs -> cs !! i = Some c -> final c -> cs' !! i = Some c.
Proof.
  intros Hstep Hok Hi Hf.
  assert (forall j d ph, cs !! j = Some (Cell d ph) -> ph <> Ended -> j <> i) as Hne.
  { intros j d ph Hj Hph ->. rewrite Hi in Hj. injection Hj as ->.
    pose proof (Forall_lookup_1 _ _ _ _ Hok Hi) as Hc. unfold final in Hf. cbn in *.
    destruct ph; cbn in Hc; [by subst d|by destruct Hc as [t ->]|done]. }
  destruct Hstep; rewrite list_lookup_insert_ne; by eauto.
Qed.

Lemma task_steps_facts cs cs' : rtc task_step cs cs' -> cells_ok cs ->
  cells_ok cs' /\ length cs' = length cs /\
  forall i c, cs !! i = Some c -> final c -> cs' !! i = Some c.
Proof.
  induction 1 as [cs|cs cs1 cs' Hstep _ IH]; intros Hok; [done|].
  destruct (IH (task_step_ok _ _ Hstep Hok)) as (? & Hlen & Hfin).
  split_and!; [done|by rewrite Hlen, (task_step_length _ _ Hstep)|].
  intros i c Hi Hf. apply Hfin; [|done]. by eapply task_step_final.
Qed.

Section reads.
Context (error_code : ErrorCode -> Z) (env : nat -> list cell).
Context (Hhist : history env) (Hok : cells_ok (env O)).

Lemma history_steps k n : (k <= n)%nat -> rtc task_step (env k) (env n).
Proof using Hhist.
  induction 1 as [|n _ IH]; [done|]. etransitivity; [exact IH|apply Hhist].
Qed.

Lemma history_facts k n : (k <= n)%nat ->
  cells_ok (env n) /\ length (env n) = length (env O) /\
  forall i c, env k !! i = Some c -> final c -> env n !! i = Some c.
Proof using Hhist Hok.
  intros Hkn. destruct (task_steps_facts _ _ (history_steps 0 k ltac:(lia)) Hok) as (Hk & Hlk & _).
  destruct (task_steps_facts _ _ (history_steps k n Hkn) Hk) as (Hn & Hln & Hfin).
  split_and!; [done|by rewrite Hln|done].
Qed.

(** The operation's cell exists. *)
Definition valid (op : AsyncOperation) : Prop := (data_cell op < length (env O))%nat.

Lemma read_data_valid op k : valid op -> exists c,
  env k !! data_cell op = Some c /\ read_data env op k = (Ret (cell_data c), S k).
Proof using Hhist Hok.
  intros Hv. unfold read_data. destruct (history_facts 0 k ltac:(lia)) as (_ & Hl & _).
  destruct (lookup_lt_is_Some_2 (env k) (data_cell op)) as [c Hc]; [by rewrite Hl|].
  exists c. by rewrite Hc.
Qed.

Lemma status_of_complete op c : cell_ok c -> final c ->
  status_complete (status_of error_code op (cell_data c)).
Proof.
  destruct c as [d ph]. intros Hc Hf. unfold final in Hf. cbn in *.
  destruct ph; cbn in Hc; [by subst d|by destruct Hc as [t ->]|].
  destruct Hc as (t & [-> |(e & [err|v] & ->)]); [done|right|left]; unfold status_of; cbn;
    split_and!; by eauto.
Qed.

(** What the loop of [z_getoperationresult] returns: it delivers the statuses of
    a sublist of the operations; these have all finished by its end, with the
    status delivered; and it misses none that had finished at its start. *)
Lemma result_loop_spec l k : Forall valid l ->
  exists n ret done, result_loop error_code env l k = (Ret (ret, list_to_set (operation_id <$> done)), n) /\
    (k <= n)%nat /\ sublist done l /\
    Forall2 (fun op st => exists c, env n !! data_cell op = Some c /\ final c /\
      st = status_of error_code op (cell_data c)) done ret /\
    (forall op c, op ∈ l -> env k !! data_cell op = Some c -> final c -> op ∈ done).
Proof using Hhist Hok.
  intros Hv. revert k. induction Hv as [|op l Hop Hv IH]; intros k.
  { exists k, [], []. split_and!; [done..|lia|done|constructor|set_solver]. }
  cbn [result_loop]. unfold state_of. rewrite !run_bind.
  destruct (read_data_valid op k Hop) as (c & Hc & ->). cbn.
  assert (forall op' c' m, (k <= m)%nat -> env k !! data_cell op' = Some c' -> final c' ->
    env m !! data_cell op' = Some c') as Hstable
    by (intros op' c' m Hkm ? ?; by apply (history_facts k m Hkm)).
  destruct (is_finished (state (cell_data c))) eqn:Hf.
  - unfold to_status. rewrite !run_bind.
    destruct (read_data_valid op (S k) Hop) as (c' & Hc' & ->).
    rewrite (Hstable op c (S k)) in Hc' by (done || lia). injection Hc' as <-. cbn.
    destruct (IH (S (S k))) as (n & ret & dn & Hl & Hkn & Hsub & Hall & Hmiss).
    rewrite run_bind, Hl. cbn.
    exists n, (status_of error_code op (cell_data c) :: ret), (op :: dn).
    split_and!; [done|lia|by constructor| |].
    + constructor; [|done]. exists c. split_and!; [|done..]. apply Hstable; [lia|done..].
    + intros op' c' [-> |Hin]%elem_of_cons Hc' Hf'; [left|right].
      eapply Hmiss; [done| |done]. by apply Hstable; [lia|..].
  - destruct (IH (S k)) as (n & ret & dn & Hl & Hkn & Hsub & Hall & Hmiss).
    exists n, ret, dn. split_and!; [done|lia|by constructor|done|].
    intros op' c' [-> |Hin]%elem_of_cons Hc' Hf'.
    + rewrite Hc in Hc'. injection Hc' as <-. unfold final in Hf'. congruence.
    + eapply Hmiss; [done| |done]. by apply Hstable; [lia|..].
Qed.
End reads.

Lemma filter_not_in_done ops (dn : list AsyncOperation) :
  NoDup (operation_id <$> ops) -> sublist dn ops ->
  filter (fun op => operation_id op ∉ (list_to_set (operation_id <$> dn) : gset string)) ops ++ dn ≡ₚ ops.
Proof.
  intros Hnd Hsub. revert dn Hsub. induction ops as [|op ops IH]; intros dn Hsub.
  { by inversion Hsub. }
  rewrite fmap_cons, NoDup_cons in Hnd. destruct Hnd as [Hnin Hnd].
  inversion Hsub as [|? dn' ? Hs|? ? ? Hs]; subst.
  - rewrite filter_cons_False by (cbn; set_solver).
    rewrite <-Permutation_middle. f_equiv. etransitivity; [|apply (IH Hnd dn' Hs)].
    apply Permutation_app_tail. eapply reflexive_eq, list_filter_ext.
    intros x Hx. cbn. rewrite not_elem_of_union, not_elem_of_singleton. split; [by intros [_ ?]|].
    intros ?. split; [|done]. intros Heq. apply Hnin. rewrite <-Heq. by apply list_elem_of_fmap_2.
  - rewrite filter_cons_True.
    + cbn. f_equiv. by apply IH.
    + intros Hin%elem_of_list_to_set. apply Hnin. apply list_elem_of_fmap in Hin as (x & -> & Hx).
      apply list_elem_of_fmap_2. by eapply elem_of_sublist.
Qed.

(** A [z_getoperationresult] call, whatever the tasks do meanwhile, returns
    (it does not panic), splits the server's operations into those it removes
    and those it keeps, and returns one status for each removed operation, in
    order. The removed ones were asked for and have finished: each status is the
    operation's final one, with a result and an execution time if it succeeded
    and an error if it failed. No operation asked for that had finished when the
    call started is missed. *)
Theorem get_operation_result_correct error_code env ops ids :
  history env -> cells_ok (env O) -> Forall (valid env) ops -> NoDup (operation_id <$> ops) ->
  exists n kept removed ret,
    get_operation_result error_code env ops ids O = (Ret (kept, ret), n) /\
    kept ++ removed ≡ₚ ops /\ sublist kept ops /\ sublist removed ops /\
    Forall2 (fun op st => (ids = [] \/ operation_id op ∈ ids) /\
      exists c, env n !! data_cell op = Some c /\ final c /\
        st = status_of error_code op (cell_data c) /\ status_complete st) removed ret /\
    (forall op c, op ∈ ops -> ids = [] \/ operation_id op ∈ ids ->
       env O !! data_cell op = Some c -> final c -> op ∈ removed).
Proof.
  intros Hh Hok Hv Hnd. unfold get_operation_result.
  set (fl := filtered ops (list_to_set ids)).
  assert (sublist fl ops) as Hsub by apply sublist_filter.
  assert (forall op, op ∈ fl <-> (ids = [] \/ operation_id op ∈ ids) /\ op ∈ ops) as Hfl.
  { intros op. unfold fl, filtered. rewrite list_elem_of_filter, elem_of_list_to_set.
    f_equiv. f_equiv. destruct ids; [done|]. set_solver. }
  destruct (result_loop_spec error_code env Hh Hok fl O) as (n & ret & dn & Hl & _ & Hdn & Hall & Hmiss).
  { rewrite Forall_forall in *. intros op [_ ?]%Hfl. by apply Hv. }
  rewrite run_bind, Hl. cbn.
  exists n, (filter (fun op => operation_id op ∉ (list_to_set (operation_id <$> dn) : gset string)) ops), dn, ret.
  split_and!; [done| |apply sublist_filter|by etransitivity| |].
  - apply filter_not_in_done; [done|by etransitivity].
  - assert (forall op, op ∈ dn -> op ∈ fl) as Hin by (intros; by eapply elem_of_sublist).
    clear Hl Hmiss Hdn. induction Hall as [|op st dn ret (c & Hc & Hf & ->) Hall IH]; constructor.
    + split; [apply Hfl, Hin; left|]. exists c. split_and!; [done..|].
      apply status_of_complete; [|done].
      destruct (history_facts env Hh Hok 0 n ltac:(lia)) as (Hn & _ & _).
      by eapply Forall_lookup_1.
    + apply IH. intros; apply Hin; by right.
  - intros op c Hop Hids Hc Hf. eapply Hmiss; [by apply Hfl|done|done].
Qed.

(** Every operation of the list has its own cell. *)
Definition server_ok (s : server) : Prop :=
  NoDup (issued s) /\ length (cells s) = length (issued s) /\ cells_ok (cells s) /\
  Forall (fun op => (data_cell op < length (cells s))%nat) (async_ops s) /\
  (operation_id <$> async_ops s) ++ (status_id <$> delivered s) ≡ₚ issued s /\
  Forall status_complete (delivered s).

Lemma server_step_ok error_code s s' : server_step error_code s s' -> server_ok s -> server_ok s'.
Proof.
  intros Hstep (Hnd & Hlen & Hok & Hv & Hperm & Hdel). destruct Hstep as [s ctx id now Hid|s cs Ht|s env n ids ops ret He Hh Hr].
  - unfold server_ok. cbn. rewrite !length_app, Hlen. cbn. split_and!; [|lia| | | |done].
    + apply NoDup_app. split_and!; [done|set_solver|apply NoDup_singleton].
    + apply Forall_app. split; [done|by repeat constructor].
    + apply Forall_app. split; [|repeat constructor; cbn; lia].
      eapply Forall_impl; [exact Hv|]. cbn. lia.
    + rewrite fmap_app. cbn. rewrite <-Hperm. rewrite <-!app_assoc. f_equiv.
      apply Permutation_app_comm.
  - unfold server_ok. cbn. rewrite (task_step_length _ _ Ht). split_and!; try done; by eapply task_step_ok.
  - rewrite <-He in *.
    assert (NoDup (operation_id <$> async_ops s)) as Hndo.
    { assert (NoDup ((operation_id <$> async_ops s) ++ (status_id <$> delivered s))) as Hnd'
        by (by rewrite Hperm). by apply NoDup_app in Hnd' as [? _]. }
    destruct (get_operation_result_correct error_code env (async_ops s) ids Hh Hok Hv Hndo)
      as (n' & kept & removed & ret' & Heq & Hsplit & Hkept & _ & Hall & _).
    rewrite Heq in Hr. injection Hr as <- <- <-.
    destruct (history_facts env Hh Hok 0 n' ltac:(lia)) as (Hn & Hln & _).
    unfold server_ok. cbn. rewrite Hln. split_and!; [done|done|done| | |].
    + rewrite Forall_forall in *. intros op Hop. apply Hv. by eapply elem_of_sublist.
    + assert (status_id <$> ret' = operation_id <$> removed) as Hids.
      { clear -Hall. induction Hall as [|op st ? ? (_ & c & _ & _ & -> & _) _ IH]; [done|].
        cbn. rewrite IH. f_equal. unfold status_of.
        by destruct (op_result _) as [[|]|]. }
      rewrite fmap_app, Hids, <-Hperm, <-Hsplit, fmap_app, <-!app_assoc. f_equiv.
      apply Permutation_app_comm.
    + apply Forall_app. split; [done|]. clear -Hall.
      induction Hall as [|op st ? ? (_ & c & _ & _ & _ & ?) _ IH]; by constructor.
Qed.

(** C26. Over any run of the server - operations started, tasks running and
    panicking, results collected concurrently - no operation is lost, duplicated
    or collected twice: the IDs handed out are exactly those of the operations
    still held and of the statuses delivered, each once. Every status delivered
    is complete, and no operation is ever in the state [Cancelled]. *)
Theorem operations_delivered_once error_code s :
  rtc (server_step error_code) initial s ->
  NoDup (issued s) /\
  (operation_id <$> async_ops s) ++ (status_id <$> delivered s) ≡ₚ issued s /\
  Forall status_complete (delivered s) /\
  Forall (fun c => state (cell_data c) <> Cancelled) (cells s).
Proof.
  intros Hrun. assert (server_ok s) as (Hnd & _ & Hok & _ & Hperm & Hdel).
  { assert (server_ok initial) as Hinit by (split_and!; constructor).
    revert Hinit. induction Hrun as [|s s1 s2 Hstep _ IH]; [done|]. intros Hinit.
    apply IH. by eapply server_step_ok. }
  split_and!; [done..|]. eapply Forall_impl; [exact Hok|]. intros [d ph] Hc. cbn in *.
  destruct ph; cbn in Hc; [by subst d|by destruct Hc as [t ->]|].
  by destruct Hc as (t & [-> |(e & [|] & ->)]).
Qed.

(** [z_listoperationids]: with no filter, the IDs of all operations; with a
    state, the IDs of the operations in that state, in order; with text that is
    no state, nothing. The states' names and their parser are inverse. *)
Theorem list_operation_ids_correct cs ops :
  Forall (valid (fun _ => cs)) ops ->
  (list_operation_ids (fun _ => cs) ops None O).1 = Ret (operation_id <$> ops) /\
  (forall st, (list_operation_ids (fun _ => cs) ops (Some (to_str st)) O).1 =
     Ret (operation_id <$> filter (fun op => (state ∘ cell_data) <$> cs !! data_cell op = Some st) ops)) /\
  (forall text, (forall st, text <> to_str st) ->
     (list_operation_ids (fun _ => cs) ops (Some text) O).1 = Ret []) /\
  (forall st, parse (to_str st) = Some st) /\
  (forall text st, parse text = Some st -> text = to_str st).
Proof.
  intros Hv.
  assert (forall text st, parse text = Some st -> text = to_str st) as Hparse.
  { intros text st. unfold parse.
    repeat match goal with |- context [String.eqb ?a ?b] => destruct (String.eqb_spec a b) end;
      intros [= <-]; done. }
  assert (forall f k, exists n, list_operation_ids (fun _ => cs) ops f k =
    (Ret (match parse <$> f with
          | None => operation_id <$> ops
          | Some st => operation_id <$> filter (fun op => (state ∘ cell_data) <$> cs !! data_cell op = st) ops
          end), n)) as Hlist.
  { intros f. unfold list_operation_ids. generalize (parse <$> f). intros st k. rewrite run_bind.
    assert (exists n ids, mapM (list_one (fun _ => cs) st) ops k = (Ret ids, n) /\ concat ids =
      match st with
      | None => operation_id <$> ops
      | Some st => operation_id <$> filter (fun op => (state ∘ cell_data) <$> cs !! data_cell op = st) ops
      end) as (n & ids & -> & <-); [|by exists n].
    revert k. induction Hv as [|op ops Hop Hv IH]; intros k.
    { exists k, []. by destruct st. }
    cbn [mapM]. rewrite run_bind. unfold list_one at 1. destruct st as [st|]; cbn.
    - rewrite run_bind. unfold state_of. rewrite run_bind. unfold read_data.
      destruct (lookup_lt_is_Some_2 cs (data_cell op)) as [c Hc]; [done|]. rewrite Hc. cbn.
      rewrite run_bind. destruct (IH (S k)) as (n & ids & -> & Hids). cbn. eexists _, _. split; [done|].
      cbn. rewrite Hids, ?Hc. cbn. case_bool_decide as Hst; case_decide as Hst'; congruence || done.
    - rewrite run_bind. destruct (IH k) as (n & ids & -> & Hids). cbn. eexists _, _. split; [done|].
      cbn. by rewrite Hids. }
  assert (forall st, st = None ->
    filter (fun op => (state ∘ cell_data) <$> cs !! data_cell op = st) ops = []) as Hnone.
  { clear -Hv. intros st ->. induction Hv as [|op ops Hop Hv IH]; [done|].
    destruct (lookup_lt_is_Some_2 cs (data_cell op)) as [c Hc]; [done|].
    rewrite filter_cons_False; [done|]. cbn. by rewrite Hc. }
  split_and!.
  - by destruct (Hlist None O) as [n ->].
  - intros st. destruct (Hlist (Some (to_str st)) O) as [n ->]. cbn. by destruct st.
  - intros text Hno. destruct (Hlist (Some text) O) as [n ->]. cbn [fst].
    change (parse <$> Some text) with (Some (parse text)).
    destruct (parse text) as [st|] eqn:Hp; [by destruct (Hno st (Hparse _ _ Hp))|].
    cbn beta iota. by rewrite (Hnone None eq_refl).
  - by intros [].
  - done.
Qed.

(** ** Concrete runs *)

(** Two operations, the first about to record its result when the call starts,
    the second finished; the first finishes between the first two reads. *)
Definition example_op (n : nat) : AsyncOperation :=
  {| operation_id := String.append "opid-" (if bool_decide (n = 0%nat) then "a" else "b");
     context := None; creation_time := 2000000000; data_cell := n |}.
Definition example_running : OperationData :=
  {| state := Executing; start_time := Some 0; end_time := None; op_result := None |}.
Definition example_done : cell := task_record 3000000000 (inr JNull) example_running.
Definition example_cells (k : nat) : list cell :=
  [if bool_decide (k = 0%nat) then Cell example_running Running else example_done; example_done].

Lemma example_history : history example_cells /\ cells_ok (example_cells 0).
Proof.
  split.
  - intros [|k]; cbn; [|done]. apply rtc_once.
    apply (step_record [Cell example_running Running; example_done] 0 example_running 3000000000 (inr JNull)). done.
  - constructor; [by exists 0|]. constructor; [|constructor].
    exists 0. right. by exists 3000000000, (inr JNull).
Qed.

Lemma get_operation_result_correct_witness :
  (get_operation_result (fun _ => 0) example_cells [example_op 0; example_op 1] [] O).1 =
    Ret ([example_op 0], [status_of (fun _ => 0) (example_op 1) (cell_data example_done)]) /\
  exists n kept removed ret,
    get_operation_result (fun _ => 0) example_cells [example_op 0; example_op 1] [] O = (Ret (kept, ret), n) /\
    kept ++ removed ≡ₚ [example_op 0; example_op 1].
Proof.
  split; [by vm_compute|].
  destruct (get_operation_result_correct (fun _ => 0) example_cells [example_op 0; example_op 1] [])
    as (n & kept & removed & ret & ? & ? & _).
  - apply example_history.
  - apply example_history.
  - repeat constructor; unfold valid; cbn; lia.
  - vm_compute. repeat constructor; set_solver.
  - by exists n, kept, removed, ret.
Defined.

(** Both are started, both begin, the second finishes, and the results are asked for
    while the first finishes: the second is delivered, the first still held. *)
Definition example_end : server :=
  Server [example_op 0] (example_cells 3) ["opid-a"; "opid-b"]
    [status_of (fun _ => 0) (example_op 1) (cell_data example_done)].

Lemma example_run : rtc (server_step (fun _ => 0)) initial example_end.
Proof.
  set (s2 := start_async None "opid-b" 2000000000 (start_async None "opid-a" 2000000000 initial)).
  apply (rtc_l _ _ (start_async None "opid-a" 2000000000 initial)); [apply step_start, not_elem_of_nil|].
  apply (rtc_l _ _ s2); [apply step_start; by apply (bool_decide_unpack _)|].
  apply (rtc_l _ _ (Server (async_ops s2) [task_begin 0 new_data; Cell new_data Spawned] (issued s2) []));
    [exact (step_task _ s2 _ (step_begin (cells s2) 0 new_data 0 eq_refl))|].
  apply (rtc_l _ _ (Server (async_ops s2) [task_begin 0 new_data; task_begin 0 new_data] (issued s2) []));
    [exact (step_task _ (Server _ [task_begin 0 new_data; Cell new_data Spawned] _ _) _
              (step_begin [task_begin 0 new_data; Cell new_data Spawned] 1 new_data 0 eq_refl))|].
  apply (rtc_l _ _ (Server (async_ops s2) (example_cells 0) (issued s2) []));
    [exact (step_task _ (Server _ [task_begin 0 new_data; task_begin 0 new_data] _ _) _
              (step_record [task_begin 0 new_data; task_begin 0 new_data] 1 example_running 3000000000 (inr JNull) eq_refl))|].
  apply rtc_once.
  exact (step_result _ (Server (async_ops s2) (example_cells 0) (issued s2) []) example_cells 3 [] _ _ eq_refl
    (proj1 example_history) eq_refl).
Qed.

Lemma operations_delivered_once_witness :
  NoDup (issued example_end) /\
  (operation_id <$> async_ops example_end) ++ (status_id <$> delivered example_end) ≡ₚ ["opid-a"; "opid-b"] /\
  Forall status_complete (delivered example_end).
Proof.
  destruct (operations_delivered_once (fun _ => 0) example_end example_run) as (Hnd & Hperm & Hd & _).
  split; [exact Hnd|]. split; [exact Hperm|exact Hd].
Defined.

Lemma list_operation_ids_correct_witness :
  (list_operation_ids (fun _ => example_cells 0) [example_op 0; example_op 1] (Some "success") O).1 =
    Ret ["opid-b"] /\
  (list_operation_ids (fun _ => example_cells 0) [example_op 0; example_op 1] None O).1 =
    Ret ["opid-a"; "opid-b"].
Proof.
  split; [by vm_compute|].
  apply (list_operation_ids_correct (example_cells 0) [example_op 0; example_op 1]).
  repeat constructor; unfold valid; cbn; lia.
Defined.
