(* ===== verification/Payments.v ===== *)
(** What the spending methods share
    (src/zallet/src/components/json_rpc/payments.rs, with the error type of
    src/zallet/src/error.rs): payment requests, memos, finding the account that
    owns an address, broadcasting, and how keystore errors reach the caller. *)

From S2P Require Import Prelude Rpc Amount.

(** ** The crate's error type *)

Inductive ErrorKind := Generic | Init | ChainKind | RpcCli | SyncKind.

#[export] Instance ErrorKind_eq_dec : EqDecision ErrorKind.
Proof. solve_decision. Defined.

(** [Error], a boxed [Context] of the [abscissa_core] crate: a kind and the text
    of its source. *)
Record Error := { kind : ErrorKind; source : string }.

Definition newline : string := String (Ascii.ascii_of_nat 10) EmptyString.

Section errors.
(** The localised text of a message without arguments, and the crate's
    [Display] of a [Context]. *)
Context (fl : string -> string) (context_to_string : Error -> string).

(** [Display for Error]. *)
Definition error_to_string (e : Error) : string :=
  (context_to_string e +:+ newline +:+ newline +:+
   "[ " +:+ fl "err-ux-A" +:+ " ]" +:+ newline +:+
   "[ " +:+ fl "err-ux-B" +:+ ": https://github.com/zcash/zallet/issues " +:+ fl "err-ux-C" +:+ " ]")%string.

(** The [map_err] on keystore calls in [z_sendmany], [z_shieldcoinbase] and
    [collect_standalone_transparent_keys]. *)
Definition map_keystore_error (e : Error) : ErrorObject :=
  if bool_decide (kind e = Generic) && String.eqb (error_to_string e) "Wallet is locked" then
    with_message WalletUnlockNeeded (Text (error_to_string e))
  else with_message Database (Text (error_to_string e)).
End errors.

(** ** Payment requests *)

Record AmountParameter := {
  address : string;
  amount : JsonValue;
  memo : option string
}.

Inductive PaymentError := TransparentMemo | ZeroValuedTransparentOutput.

(** The crates' addresses, memos, payments, ZIP 321 requests and amounts. *)
Class PaymentOps := {
  ZcashAddress : Type;
  MemoBytes : Type;
  Payment : Type;
  TransactionRequest : Type;
  #[global] ZcashAddress_eq_dec :: EqDecision ZcashAddress;
  #[global] zatoshis_ops :: ZatoshisOps;
  parse_address : string -> option ZcashAddress;
  hex_decode : string -> option (list Byte.byte);
  memo_from_bytes : list Byte.byte -> option MemoBytes;
  Payment_new : ZcashAddress -> Z -> option MemoBytes -> outcome PaymentError Payment;
  payment_amount : Payment -> option Z;
  payment_recipient : Payment -> ZcashAddress;
  TransactionRequest_new : list Payment -> outcome string TransactionRequest;
  payments : TransactionRequest -> list Payment;
  zat_add : Z -> Z -> option Z;
  zat_sub : Z -> Z -> option Z
}.

(** Their documentation: [payments] are those of the request in order, sums and
    differences of [Zatoshis] are [None] outside [0..=MAX_MONEY], constructors
    do not panic. *)
Class PaymentLaws `{PaymentOps} := {
  #[global] zatoshis_laws :: ZatoshisLaws;
  Payment_new_spec : forall a v m p, Payment_new a v m = Ret p ->
    payment_amount p = Some v /\ payment_recipient p = a;
  Payment_new_total : forall a v m, Payment_new a v m <> Panic;
  TransactionRequest_new_spec : forall ps r, TransactionRequest_new ps = Ret r -> payments r = ps;
  TransactionRequest_new_total : forall ps, TransactionRequest_new ps <> Panic;
  zat_add_spec : forall a b, 0 <= a <= MAX_MONEY -> 0 <= b <= MAX_MONEY ->
    zat_add a b = if a + b <=? MAX_MONEY then Some (a + b) else None;
  zat_sub_spec : forall a b, 0 <= a <= MAX_MONEY -> 0 <= b <= MAX_MONEY ->
    zat_sub a b = if b <=? a then Some (a - b) else None
}.

Section requests.
Context `{PaymentOps}.

Definition MAX_MEMO_BYTES : Z := 512.

Definition parse_memo (memo_hex : string) : RpcResult MemoBytes :=
  _ ← ensure (Z.of_nat (String.length memo_hex) <=? MAX_MEMO_BYTES * 2)
    (with_static InvalidParameter "Invalid parameter, memo is longer than the maximum allowed 512 bytes.");
  memo_bytes ← ok_or (hex_decode memo_hex)
    (with_static InvalidParameter "Invalid parameter, expected memo data in hexadecimal format.");
  ok_or (memo_from_bytes memo_bytes)
    (with_static InvalidParameter "Invalid parameter, memo is longer than the maximum allowed 512 bytes.").

(** [Option::map(f).transpose()?]. *)
Definition transpose {A B} (f : A -> RpcResult B) (o : option A) : RpcResult (option B) :=
  match o with
  | Some a => b ← f a; Ret (Some b)
  | None => Ret None
  end.

Definition payment_error (e : PaymentError) : ErrorObject :=
  with_static InvalidParameter
    match e with
    | TransparentMemo => "Cannot send memo to transparent recipient"
    | ZeroValuedTransparentOutput => "Cannot send zero-valued output to transparent recipient"
    end.

(** The variables of the loop of [build_request]; [recipient_addrs] is a set. *)
Record request_state := RequestState {
  recipient_addrs : list ZcashAddress;
  request_payments : list Payment;
  total_out : Z
}.

Definition build_request_step (s : request_state) (a : AmountParameter) : RpcResult request_state :=
  addr ← ok_or (parse_address (address a))
    (with_message InvalidParameter
      (Text ("Invalid parameter, unknown address format: " +:+ address a)%string));
  _ ← ensure (negb (bool_decide (addr ∈ recipient_addrs s)))
    (with_message InvalidParameter
      (Text ("Invalid parameter, duplicated recipient address: " +:+ address a)%string));
  memo ← transpose parse_memo (memo a);
  value ← zatoshis_from_value (amount a);
  payment ← map_err payment_error (Payment_new addr value memo);
  total ← ok_or (zat_add (total_out s) value) (with_static InvalidParameter "Value too large");
  Ret (RequestState (addr :: recipient_addrs s) (request_payments s ++ [payment]) total).

Definition build_request (amounts : list AmountParameter) : RpcResult TransactionRequest :=
  _ ← ensure (negb (bool_decide (amounts = [] :> list AmountParameter)))
    (with_static InvalidParameter "Invalid parameter, amounts array is empty.");
  s ← foldM build_request_step (RequestState [] [] 0) amounts;
  map_err (fun e => with_message InvalidParameter (Text ("Invalid payment request: " +:+ e)%string))
    (TransactionRequest_new (request_payments s)).
End requests.

Section request_proofs.
Context `{PaymentLaws}.

(** The length of the text of an amount is bounded (by 10^17). *)
Definition amount_text_bounded (a : AmountParameter) : Prop :=
  match amount a with
  | JString s | JNumber s => Z.of_nat (String.length s) <= max_len
  | _ => True
  end.

(** [p] is the payment that [a] asks for, alone. *)
Definition converts (a : AmountParameter) (p : Payment) : Prop :=
  exists addr v m, parse_address (address a) = Some addr /\ transpose parse_memo (memo a) = Ret m /\
    zatoshis_from_value (amount a) = Ret v /\ Payment_new addr v m = Ret p.

Definition amount_of (p : Payment) : Z := default 0 (payment_amount p).
#[local] Arguments amount_of : simpl never.
#[local] Arguments reverse : simpl never.
#[local] Arguments rev_append : simpl never.

Fixpoint total_amount (ps : list Payment) : Z :=
  match ps with
  | [] => 0
  | p :: ps => amount_of p + total_amount ps
  end.

Lemma zatoshis_from_value_range v z : zatoshis_from_value v = Ret z -> 0 <= z <= MAX_MONEY.
Proof.
  unfold zatoshis_from_value. intros (t & _ & (a & _ & Ha)%bind_Ret)%bind_Ret.
  rewrite from_nonnegative_i64_spec in Ha.
  destruct (Z.ltb_spec a 0); [done|]. destruct (Z.ltb_spec MAX_MONEY a); [done|].
  injection Ha as <-. lia.
Qed.

Lemma zatoshis_from_value_total a : amount_text_bounded a -> zatoshis_from_value (amount a) <> Panic.
Proof.
  unfold amount_text_bounded, zatoshis_from_value. intros Hlen.
  assert (forall t, Z.of_nat (String.length t) <= max_len ->
    (amount ← map_err (fun _ => with_static Type_ "Invalid amount") (parse_fixed_point t 8);
     map_err (fun e => match e with
       | Underflow => with_static InvalidParameter "Invalid parameter, amount must be positive"
       | Overflow => with_static Type_ "Amount out of range"
       end) (from_nonnegative_i64 amount)) <> Panic) as Ht.
  { intros t Hl. apply bind_not_Panic.
    - apply map_err_not_Panic. eapply post_not_Panic, (parse_fixed_point_post t 8 Hl). unfold max_len; lia.
    - intros z _. apply map_err_not_Panic. rewrite from_nonnegative_i64_spec.
      destruct (z <? 0); [done|]. by destruct (MAX_MONEY <? z). }
  destruct (amount a); try done; by apply Ht.
Qed.

Lemma parse_memo_total s : parse_memo s <> Panic.
Proof.
  unfold parse_memo. apply bind_not_Panic; [by destruct (_ <=? _)|]. intros _ _.
  apply bind_not_Panic; [by destruct (hex_decode s)|]. intros b _. by destruct (memo_from_bytes b).
Qed.

(** One turn of the loop, forwards. *)
Lemma build_request_step_spec s a s' :
  0 <= total_out s <= MAX_MONEY ->
  build_request_step s a = Ret s' <->
  exists p, converts a p /\ (payment_recipient p ∉ recipient_addrs s) /\
    total_out s + amount_of p <= MAX_MONEY /\
    s' = RequestState (payment_recipient p :: recipient_addrs s) (request_payments s ++ [p])
           (total_out s + amount_of p).
Proof.
  intros Ht. unfold build_request_step, converts. split.
  - intros (addr & Ha & (u & Hd & (m & Hm & (v & Hv & (p & Hp & (t & Hs & [= <-])%bind_Ret)%bind_Ret)%bind_Ret)%bind_Ret)%bind_Ret)%bind_Ret.
    apply ok_or_Ret in Ha. apply ensure_Ret, negb_true_iff, bool_decide_eq_false in Hd.
    assert (Payment_new addr v m = Ret p) as Hp' by (destruct (Payment_new addr v m); cbn in Hp; congruence).
    pose proof (zatoshis_from_value_range _ _ Hv) as Hr.
    apply ok_or_Ret in Hs. rewrite zat_add_spec in Hs by lia.
    destruct (Z.leb_spec (total_out s + v) MAX_MONEY); [injection Hs as <-|done].
    exists p. unfold amount_of. destruct (Payment_new_spec _ _ _ _ Hp') as [-> ->].
    split_and!; [by exists addr, v, m|done..].
  - intros (p & (addr & v & m & -> & -> & Hv & Hp) & Hnin & Hle & ->). cbn.
    unfold amount_of in *. destruct (Payment_new_spec _ _ _ _ Hp) as [Ham Hre]. rewrite Ham, Hre in *. cbn in *.
    rewrite bool_decide_false by done. cbn. rewrite Hv. cbn. rewrite Hp. cbn.
    pose proof (zatoshis_from_value_range _ _ Hv) as Hr. rewrite zat_add_spec by lia.
    by rewrite (proj2 (Z.leb_le _ _) Hle).
Qed.

Lemma converts_amount a p : converts a p -> 0 <= amount_of p <= MAX_MONEY.
Proof.
  intros (addr & v & m & _ & _ & Hv & Hp). unfold amount_of. destruct (Payment_new_spec _ _ _ _ Hp) as [-> _].
  by apply zatoshis_from_value_range in Hv.
Qed.

Lemma total_amount_nonneg l ps : Forall2 converts l ps -> 0 <= total_amount ps.
Proof. induction 1 as [|a p l ps Hc _ IH]; cbn; [lia|]. apply converts_amount in Hc. lia. Qed.

Lemma build_request_loop l s s' :
  0 <= total_out s <= MAX_MONEY ->
  foldM build_request_step s l = Ret s' <->
  exists ps, Forall2 converts l ps /\ NoDup (payment_recipient <$> ps) /\
    (forall p, p ∈ ps -> (payment_recipient p ∉ recipient_addrs s)) /\
    total_out s + total_amount ps <= MAX_MONEY /\
    s' = RequestState (reverse (payment_recipient <$> ps) ++ recipient_addrs s) (request_payments s ++ ps)
           (total_out s + total_amount ps).
Proof.
  revert s. induction l as [|a l IH]; intros s Ht.
  - cbn. split.
    + intros [= <-]. exists []. cbn. rewrite app_nil_r, Z.add_0_r. destruct s.
      split_and!; [constructor..|set_solver|cbn in *; lia|done].
    + intros (ps & Hps & _ & _ & _ & ->). apply Forall2_nil_inv_l in Hps as ->. cbn.
      rewrite app_nil_r, Z.add_0_r. by destruct s.
  - cbn [foldM]. rewrite bind_Ret. setoid_rewrite build_request_step_spec; [|done]. split.
    + intros (s1 & (p & Hc & Hnin & Hle & ->) & Hl). pose proof (converts_amount _ _ Hc).
      apply IH in Hl as (ps & Hall & Hnd & Hout & Hsum & ->); [|cbn; lia]. cbn in *.
      exists (p :: ps). rewrite !fmap_cons, reverse_cons, <-!app_assoc. cbn. split_and!; try done.
      * by constructor.
      * constructor; [|done]. intros (p' & Heq & Hin)%list_elem_of_fmap.
        apply (Hout p' Hin). rewrite <-Heq. left.
      * intros p' [-> |Hin]%elem_of_cons; [done|]. intros ?. apply (Hout p' Hin). by right.
      * lia.
      * f_equal. lia.
    + intros (ps & Hall & Hnd & Hout & Hsum & ->). apply Forall2_cons_inv_l in Hall as (p & ps' & Hc & Hall & ->).
      cbn in *. apply NoDup_cons in Hnd as [Hnin Hnd].
      pose proof (total_amount_nonneg _ _ Hall). pose proof (converts_amount _ _ Hc).
      eexists. split; [exists p; split_and!; [done| |lia|done]; apply Hout; left|].
      apply IH; [cbn; lia|]. exists ps'. rewrite ?fmap_cons, ?reverse_cons, <-?app_assoc. cbn. split_and!; try done.
      * intros p' Hin [Heq|?]%elem_of_cons; [|by apply (Hout p'); [right|]].
        apply Hnin. rewrite <-Heq. by apply list_elem_of_fmap_2.
      * lia.
      * rewrite <-app_assoc. cbn. f_equal. lia.
Qed.

Lemma build_request_step_total s a : amount_text_bounded a -> build_request_step s a <> Panic.
Proof.
  intros Ha. unfold build_request_step.
  apply bind_not_Panic; [by destruct (parse_address _)|]. intros addr _.
  apply bind_not_Panic; [by destruct (negb _)|]. intros _ _.
  apply bind_not_Panic.
  { destruct (memo a) as [m|]; [|done]. apply bind_not_Panic; [apply parse_memo_total|done]. }
  intros m _. apply bind_not_Panic; [by apply zatoshis_from_value_total|]. intros v _.
  apply bind_not_Panic; [apply map_err_not_Panic, Payment_new_total|]. intros p _.
  by destruct (zat_add _ _).
Qed.

Lemma build_request_spec amounts r :
  build_request amounts = Ret r <->
  amounts <> [] /\ exists ps, Forall2 converts amounts ps /\ NoDup (payment_recipient <$> ps) /\
    total_amount ps <= MAX_MONEY /\ TransactionRequest_new ps = Ret r.
Proof.
  unfold build_request. rewrite bind_Ret. setoid_rewrite ensure_Ret. setoid_rewrite negb_true_iff.
  setoid_rewrite bool_decide_eq_false. setoid_rewrite bind_Ret.
  setoid_rewrite (build_request_loop amounts (RequestState [] [] 0));
    [|unfold MAX_MONEY, COIN; cbn; lia]. cbn. split.
  - intros (_ & Hne & s & (ps & Hall & Hnd & _ & Hsum & ->) & Hr). split; [done|]. exists ps. cbn in Hr.
    split_and!; [done|done|lia|]. by destruct (TransactionRequest_new ps) as [| |]; cbn in Hr; simplify_eq.
  - intros (Hne & ps & Hall & Hnd & Hsum & Hr). exists tt. split; [done|]. eexists. split.
    + exists ps. split_and!; [done|done|set_solver|lia|done].
    + cbn. by rewrite Hr.
Qed.

(** A payment request is built exactly when the array is not empty, every
    entry converts (address, memo, amount, payment), no two entries have the
    same recipient, and the amounts sum to at most [MAX_MONEY]; it then holds
    the payments of the entries in order. Building it never panics. *)
Theorem build_request_correct amounts :
  (forall r, build_request amounts = Ret r <->
     amounts <> [] /\ exists ps, Forall2 converts amounts ps /\ NoDup (payment_recipient <$> ps) /\
       total_amount ps <= MAX_MONEY /\ TransactionRequest_new ps = Ret r) /\
  (forall r, build_request amounts = Ret r -> Forall2 converts amounts (payments r)) /\
  (Forall amount_text_bounded amounts -> build_request amounts <> Panic).
Proof.
  split_and!; [apply build_request_spec| |].
  - intros r (_ & ps & Hall & _ & _ & Hr)%build_request_spec.
    by rewrite (TransactionRequest_new_spec _ _ Hr).
  - intros Hb. unfold build_request. apply bind_not_Panic; [by destruct (negb _)|]. intros _ _.
    apply bind_not_Panic.
    + generalize (RequestState [] [] 0). induction Hb as [|a l Ha _ IH]; intros s; [done|].
      apply bind_not_Panic; [by apply build_request_step_total|done].
    + intros s _. apply map_err_not_Panic, TransactionRequest_new_total.
Qed.
End request_proofs.

(** ** Accounts and broadcasting *)

(** The wallet database and the node, as the spending methods see them; their
    errors are the errors' texts. Reads of the database are functions of it. *)
Class SpendOps := {
  DbWallet : Type;
  Node : Type;
  AccountId : Type;
  Account : Type;
  Address : Type;
  TxId : Type;
  Transaction : Type;
  #[global] Address_eq_dec :: EqDecision Address;
  txid_to_string : TxId -> string;
  get_account_ids : DbWallet -> outcome string (list AccountId);
  list_addresses : DbWallet -> AccountId -> outcome string (list Address);
  get_account : DbWallet -> AccountId -> outcome string (option Account);
  get_transaction : DbWallet -> TxId -> outcome string (option Transaction);
  broadcast_transaction : Transaction -> M Node string unit
}.

Section spending.
Context `{SpendOps}.

(** [map_err(|e| LegacyCode::Database.with_message(e.to_string()))]. *)
Definition db {A} (m : outcome string A) : RpcResult A :=
  map_err (fun e => with_message Database (Text e)) m.

Fixpoint find_account (wallet : DbWallet) (address : Address) (account_ids : list AccountId) :
    RpcResult Account :=
  match account_ids with
  | [] => Err (with_static InvalidAddressOrKey
            "Invalid from address, no payment source found for address.")
  | account_id :: account_ids =>
      addresses ← db (list_addresses wallet account_id);
      if existsb (fun a => bool_decide (a = address)) addresses then
        account ← db (get_account wallet account_id);
        expect account
      else find_account wallet address account_ids
  end.

Definition get_account_for_address (wallet : DbWallet) (address : Address) : RpcResult Account :=
  account_ids ← db (get_account_ids wallet);
  find_account wallet address account_ids.

Record SendResult := { txid : option string; txids : list string }.

Definition SendResult_new (ids : list TxId) : SendResult :=
  let ids := txid_to_string <$> ids in
  {| txid := match ids with [id] => Some id | _ => None end; txids := ids |}.

Definition broadcast_one (wallet : DbWallet) (txid : TxId) : M Node ErrorObject unit :=
  o ← lift (map_err (fun e => with_message Database (Text ("Failed to get transaction: " +:+ e)%string))
              (get_transaction wallet txid));
  tx ← lift (ok_or o (with_message Wallet
              (Text ("Wallet does not contain transaction " +:+ txid_to_string txid)%string)));
  with_err (fun e => with_message Wallet
    (Text ("SendTransaction: Transaction commit failed:: " +:+ e)%string)) (broadcast_transaction tx).

(** [broadcast] is the configuration [external.broadcast]. *)
Definition broadcast_transactions (broadcast : bool) (wallet : DbWallet) (ids : list TxId) :
    M Node ErrorObject SendResult :=
  _ ← (if broadcast then for_each (broadcast_one wallet) ids else mret tt);
  mret (SendResult_new ids).
End spending.

(** The node accepts a transaction or refuses it; [sent] are those accepted. *)
Class NodeLaws `{SpendOps} := {
  sent : Node -> list Transaction;
  broadcast_ok : forall tx n n', broadcast_transaction tx n = (Ret tt, n') -> sent n' = sent n ++ [tx];
  broadcast_err : forall tx n e n', broadcast_transaction tx n = (Err e, n') -> sent n' = sent n;
  broadcast_total : forall tx n, (broadcast_transaction tx n).1 <> Panic;
  get_transaction_total : forall w id, get_transaction w id <> Panic
}.

Section spending_proofs.
Context `{NodeLaws}.

(** [txs] are the wallet's transactions with the given IDs. *)
Definition transactions_of (w : DbWallet) (ids : list TxId) (txs : list Transaction) : Prop :=
  Forall2 (fun id tx => get_transaction w id = Ret (Some tx)) ids txs.

Lemma broadcast_one_spec w id n :
  match broadcast_one w id n with
  | (Ret _, n') => exists tx, get_transaction w id = Ret (Some tx) /\ sent n' = sent n ++ [tx]
  | (Err e, n') => sent n' = sent n /\ (code e = from_legacy Database \/ code e = from_legacy Wallet)
  | (Panic, _) => False
  end.
Proof.
  unfold broadcast_one. rewrite run_bind. unfold lift at 1. pose proof (get_transaction_total w id).
  destruct (get_transaction w id) as [[tx|]|e|]; cbn; rewrite ?run_bind; cbn; [|by auto..|done].
  unfold with_err. pose proof (broadcast_total tx n).
  destruct (broadcast_transaction tx n) as [[[]|e|] n'] eqn:Hb; cbn; [|by eauto using broadcast_err|done].
  exists tx. split; [done|]. by apply broadcast_ok.
Qed.

(** Broadcasting: nothing is sent when it is switched off. Otherwise the
    wallet's transactions are sent in order; if one is missing or refused, the
    ones before it have been sent, none after it, and the caller gets a wallet
    or database error. The result lists all the IDs, and the single ID exactly
    if there is one. It never panics. *)
Theorem broadcast_transactions_correct broadcast w ids n :
  let '(r, n') := broadcast_transactions broadcast w ids n in
  match r with
  | Ret res =>
      (if broadcast then exists txs, transactions_of w ids txs /\ sent n' = sent n ++ txs else n' = n) /\
      txids res = txid_to_string <$> ids /\
      (forall id, txid res = Some id <-> exists i, ids = [i] /\ id = txid_to_string i)
  | Err e =>
      broadcast = true /\ (code e = from_legacy Database \/ code e = from_legacy Wallet) /\
      exists before id after txs, ids = before ++ id :: after /\ transactions_of w before txs /\
        sent n' = sent n ++ txs
  | Panic => False
  end.
Proof.
  unfold broadcast_transactions. rewrite run_bind.
  assert (txids (SendResult_new ids) = txid_to_string <$> ids /\
    forall id, txid (SendResult_new ids) = Some id <-> exists i, ids = [i] /\ id = txid_to_string i) as Hres.
  { split; [done|]. intros id. destruct ids as [|i [|? ?]]; cbn; split; try done;
      try (by intros (? & ? & _)); [intros [= <-]; eauto|intros (? & [= ->] & ->); done]. }
  destruct broadcast; [|by cbn].
  assert (match for_each (broadcast_one w) ids n with
    | (Ret _, n') => exists txs, transactions_of w ids txs /\ sent n' = sent n ++ txs
    | (Err e, n') => (code e = from_legacy Database \/ code e = from_legacy Wallet) /\
        exists before id after txs, ids = before ++ id :: after /\ transactions_of w before txs /\
          sent n' = sent n ++ txs
    | (Panic, _) => False end) as Hloop.
  { clear Hres. revert n. induction ids as [|id ids IH]; intros n; cbn [for_each].
    { exists []. cbn. rewrite app_nil_r. split; [constructor|done]. }
    rewrite run_bind. pose proof (broadcast_one_spec w id n) as Hone.
    destruct (broadcast_one w id n) as [[u|e|] n1]; [| |done].
    - destruct Hone as (tx & Htx & Hs1). specialize (IH n1).
      destruct (for_each (broadcast_one w) ids n1) as [[u'|e|] n2]; [| |done].
      + destruct IH as (txs & Htxs & ->). exists (tx :: txs). rewrite Hs1, <-app_assoc. split; [by constructor|done].
      + destruct IH as (Hc & before & id' & after & txs & -> & Htxs & ->). split; [done|].
        exists (id :: before), id', after, (tx :: txs). rewrite Hs1, <-app_assoc. split_and!; [done|by constructor|done].
    - destruct Hone as [Hs Hc]. split; [done|]. exists [], id, ids, []. rewrite app_nil_r.
      split_and!; [done|constructor|done]. }
  by destruct (for_each (broadcast_one w) ids n) as [[u|e|] n'].
Qed.
End spending_proofs.

(** ** Keystore errors *)

Lemma has_newline_not_locked a b : (a +:+ newline +:+ b)%string <> "Wallet is locked".
Proof.
  intros Heq.
  assert (forall s t : string, (s +:+ newline +:+ t)%string = "Wallet is locked" -> False) as Hno; [|by eapply Hno].
  clear. intros s t. do 16 (destruct s as [|? s]; [discriminate|intros [= _ Heq]; revert Heq]).
  destruct s as [|? [|? ?]]; discriminate.
Qed.

(** The caller of a spending method is never told that the wallet is
    locked: the text of an [Error] always continues with the report footer after
    the message, so comparing it with "Wallet is locked" fails, and every
    keystore error, a locked wallet included, is reported with the [Database]
    code and not with [WalletUnlockNeeded]. *)
Theorem locked_wallet_reported_as_database fl context_to_string e :
  code (map_keystore_error fl context_to_string e) = from_legacy Database /\
  code (map_keystore_error fl context_to_string e) <> from_legacy WalletUnlockNeeded.
Proof.
  unfold map_keystore_error. destruct (String.eqb_spec (error_to_string fl context_to_string e) "Wallet is locked") as [Heq|].
  - by destruct (has_newline_not_locked _ _ Heq).
  - by rewrite andb_false_r.
Qed.

(** ** Concrete instances *)

(** Addresses are their text ("t.." being transparent); a memo is its bytes; a
    request is its payments. *)
Definition example_payments : PaymentOps := {|
  ZcashAddress := string; MemoBytes := list Byte.byte; Payment := string * Z;
  TransactionRequest := list (string * Z);
  zatoshis_ops := zatoshis_example;
  parse_address s := if String.eqb s "" then None else Some s;
  hex_decode s := Some (String.list_byte_of_string s);
  memo_from_bytes b := if (length b <=? 512)%nat then Some b else None;
  Payment_new a v m :=
    if String.prefix "t" a then
      match m with
      | Some _ => Err TransparentMemo
      | None => if v =? 0 then Err ZeroValuedTransparentOutput else Ret (a, v)
      end
    else Ret (a, v);
  payment_amount p := Some p.2;
  payment_recipient p := p.1;
  TransactionRequest_new ps := Ret ps;
  payments r := r;
  zat_add a b := if a + b <=? MAX_MONEY then Some (a + b) else None;
  zat_sub a b := if b <=? a then Some (a - b) else None
|}.

Lemma example_payments_laws : @PaymentLaws example_payments.
Proof.
  split; cbn; try done.
  - intros a v m p. destruct (String.prefix "t" a), m; try done; [destruct (v =? 0); [done|]|..];
      by intros [= <-].
  - intros a v m. destruct (String.prefix "t" a), m; try done. by destruct (v =? 0).
  - by intros ps r [= <-].
Defined.

Lemma build_request_correct_witness :
  @build_request example_payments
    [{| address := "t1"; amount := JNumber "1"; memo := None |};
     {| address := "z"; amount := JString "0.5"; memo := Some "aa" |}] =
    Ret [("t1", 100000000); ("z", 50000000)].
Proof.
  apply (@build_request_correct example_payments example_payments_laws).
  split; [done|]. exists [("t1", 100000000); ("z", 50000000)]. split_and!; [|..|done].
  - constructor; [|constructor; [|constructor]].
    + exists "t1", 100000000, None. by split_and!; vm_compute.
    + exists "z", 50000000, (Some (String.list_byte_of_string "aa")). by split_and!; vm_compute.
  - cbn. repeat constructor; set_solver.
  - cbn. unfold MAX_MONEY, COIN. lia.
Defined.

(** A node that refuses the transaction 13. *)
Definition example_node : SpendOps := {|
  DbWallet := list Z; Node := list Z; AccountId := Z; Account := Z; Address := Z; TxId := Z; Transaction := Z;
  txid_to_string id := Amount.show_u64 id;
  get_account_ids w := Ret w;
  list_addresses w id := Ret [id];
  get_account w id := Ret (Some id);
  get_transaction w id := Ret (if bool_decide (id ∈ w) then Some id else None);
  broadcast_transaction tx n := if tx =? 13 then (Err "refused"%string, n) else (Ret tt, n ++ [tx])
|}.

Lemma example_payment_node_laws : @NodeLaws example_node.
Proof.
  refine (@Build_NodeLaws example_node (fun n => n) _ _ _ _); cbn; try done.
  - intros tx n n'. destruct (tx =? 13); [done|]. by intros [= <-].
  - intros tx n e n'. destruct (tx =? 13); [|done]. by intros [= _ <-].
  - intros tx n. by destruct (tx =? 13).
Defined.

Lemma broadcast_transactions_correct_witness :
  (@broadcast_transactions example_node true [7; 13; 8] [7; 13; 8] []).2 = [7] /\
  exists txs, @transactions_of example_node [7; 8] [7; 8] txs /\
    (@broadcast_transactions example_node true [7; 8] [7; 8] []).2 = txs.
Proof.
  split; [by vm_compute|].
  pose proof (@broadcast_transactions_correct example_node example_payment_node_laws true [7; 8] [7; 8] []) as H.
  destruct (@broadcast_transactions example_node true [7; 8] [7; 8] []) as [r n'] eqn:E.
  vm_compute in E. injection E as <- <-. destruct H as ((txs & ? & ?) & _). exists txs. by split.
Defined.
