(* ===== verification/SendMany.v ===== *)
(** [z_sendmany]
    (src/zallet-core/src/components/json_rpc/methods/z_send_many.rs): the checks
    of recipients and policy, the proposal and the keys it hands to transaction
    construction; and the construction and broadcast, [run], that it and
    [z_shieldcoinbase] start as an asynchronous operation.

    Input selection and transaction construction are those of
    [zcash_client_backend]: [propose_transfer] and
    [create_proposed_transactions] are parameters. *)

From S2P Require Import Prelude Rpc Amount Privacy Payments.

(** The kinds of [zcash_keys::address::Address]. *)
Inductive Typecode := P2pkh | P2sh | TSapling | TOrchard | TUnknown (t : Z).

#[export] Instance Typecode_eq_dec : EqDecision Typecode.
Proof. solve_decision. Defined.

Inductive recipient := RTransparent | RTex | RSapling | RUnified (receiver_types : list Typecode).

Class SendOps `{PaymentOps, SpendOps} := {
  Proposal : Type;
  Step : Type;
  TransparentAddress : Type;
  SeedFingerprint : Type;
  Seed : Type;
  UnifiedSpendingKey : Type;
  SecretKey : Type;
  ConfirmationsPolicy : Type;
  #[global] TransparentAddress_eq_dec :: EqDecision TransparentAddress;
  #[global] step_view :: StepView Step TransparentAddress;
  steps : Proposal -> list Step;
  (** The address that the script of each transparent input pays, and its value. *)
  input_addresses : Step -> list (option TransparentAddress);
  input_values : Step -> list Z;
  decode_address : string -> option Address;
  recipient_of : ZcashAddress -> outcome string recipient;
  new_symmetrical : Z -> bool -> ConfirmationsPolicy;
  account_id : Account -> AccountId;
  key_derivation : Account -> option (SeedFingerprint * Z);
  usk_from_seed : Seed -> Z -> outcome string UnifiedSpendingKey;
  (** The transparent receivers of an account, [true] for those imported. *)
  transparent_receivers : DbWallet -> AccountId -> outcome string (list (TransparentAddress * bool));
  propose_transfer : AccountId -> TransactionRequest -> ConfirmationsPolicy -> M DbWallet string Proposal;
  create_proposed_transactions :
    UnifiedSpendingKey * list (TransparentAddress * list SecretKey) -> Proposal -> M DbWallet string (list TxId)
}.

Section sendmany.
Context `{SendOps}.

(** The node's configuration and the keystore, as the calls see them. *)
Record config := {
  default_confirmations : outcome unit ConfirmationsPolicy;
  orchard_action_limit : nat;
  broadcast : bool;
  decrypt_seed : SeedFingerprint -> outcome Error Seed;
  decrypt_standalone_transparent_key : TransparentAddress -> outcome Error SecretKey;
  map_error : Error -> ErrorObject;
  join_error : string
}.

(** ** Recipients *)

(** The loop over the payments; the state is the Sapling and Orchard funds
    assumed to be left. *)
Definition check_payment (privacy_policy : PrivacyPolicy) (s : Z * Z) (payment : Payment) :
    RpcResult (Z * Z) :=
  let '(max_sapling_available, max_orchard_available) := s in
  value ← expect (payment_amount payment);
  r ← map_err (fun e => with_message InvalidParameter (Text e)) (recipient_of (payment_recipient payment));
  match r with
  | RTransparent | RTex =>
      _ ← ensure (allow_revealed_recipients privacy_policy) (incompatible_error TransparentRecipient);
      Ret s
  | RSapling =>
      match allow_revealed_amounts privacy_policy, zat_sub max_sapling_available value with
      | false, None => Err (incompatible_error RevealingSaplingAmount)
      | false, Some rest => Ret (rest, max_orchard_available)
      | true, _ => Ret s
      end
  | RUnified receiver_types =>
      match allow_revealed_amounts privacy_policy,
            (bool_decide (TOrchard ∈ receiver_types), zat_sub max_orchard_available value),
            (bool_decide (TSapling ∈ receiver_types), zat_sub max_sapling_available value) with
      | true, (true, _), _ => Ret s
      | false, (true, Some rest), _ => Ret (max_sapling_available, rest)
      | true, _, (true, _) => Ret s
      | false, _, (true, Some rest) => Ret (rest, max_orchard_available)
      | _, _, _ =>
          if allow_revealed_recipients privacy_policy then Ret s
          else if allow_revealed_amounts privacy_policy then Err (incompatible_error TransparentReceiver)
          else Err (incompatible_error RevealingReceiverAmounts)
      end
  end.

Definition check_recipients (privacy_policy : PrivacyPolicy) (ps : list Payment) : RpcResult (Z * Z) :=
  foldM (check_payment privacy_policy) (MAX_MONEY, MAX_MONEY) ps.

(** ** The Orchard action limit *)

Definition orchard_spends (step : Step) : nat :=
  length (filter (fun note => note = ORCHARD) (concat (shielded_inputs step))).
Definition orchard_outputs (step : Step) : nat :=
  (length (filter (fun pool => pool = ORCHARD) (payment_pools step)) +
   length (filter (fun pool => pool = ORCHARD) (change step)))%nat.

Definition check_orchard_actions (limit : nat) (step : Step) : RpcResult unit :=
  let spends := orchard_spends step in
  let outputs := orchard_outputs step in
  let actions := Nat.max spends outputs in
  if (limit <? actions)%nat then
    let '(count, kind) :=
      if (outputs <=? limit)%nat then (spends, "inputs")
      else if (spends <=? limit)%nat then (outputs, "outputs")
      else (actions, "actions") in
    Err (with_message Misc (Fl "err-excess-orchard-actions"
      [("count", Text (show_u64 (Z.of_nat count))); ("kind", Text kind);
       ("limit", Text (show_u64 (Z.of_nat limit))); ("config", Text "-orchardactionlimit=N");
       ("bound", Text "N >= %u")]))
  else Ret tt.

(** ** Keys *)

(** [keys.entry(address).or_default().push(secret_key)]. *)
Fixpoint push_key (keys : list (TransparentAddress * list SecretKey)) (a : TransparentAddress) (k : SecretKey) :
    list (TransparentAddress * list SecretKey) :=
  match keys with
  | [] => [(a, [k])]
  | (a', ks) :: keys =>
      if bool_decide (a = a') then (a', ks ++ [k]) :: keys else (a', ks) :: push_key keys a k
  end.

Definition collect_standalone_transparent_keys (c : config) (wallet : DbWallet) (account : AccountId)
    (proposal : Proposal) : RpcResult (list (TransparentAddress * list SecretKey)) :=
  receivers ← db (transparent_receivers wallet account);
  let standalone_addrs := (filter (fun r => r.2 = true) receivers).*1 in
  foldM (fun keys o =>
    match o with
    | Some address =>
        if bool_decide (address ∈ standalone_addrs) then
          secret_key ← map_err (map_error c) (decrypt_standalone_transparent_key c address);
          Ret (push_key keys address secret_key)
        else Ret keys
    | None => Ret keys
    end) [] (concat (input_addresses <$> steps proposal)).

(** The spending key of an account, and its standalone keys for the proposal. *)
Definition spending_keys (c : config) (wallet : DbWallet) (id : AccountId)
    (derivation : option (SeedFingerprint * Z)) (no_source : ErrorObject) (proposal : Proposal) :
    RpcResult (UnifiedSpendingKey * list (TransparentAddress * list SecretKey)) :=
  '(seed_fp, account_index) ← ok_or derivation no_source;
  seed ← map_err (map_error c) (decrypt_seed c seed_fp);
  usk ← map_err (fun e => with_message InvalidAddressOrKey (Text e)) (usk_from_seed seed account_index);
  standalone_keys ← collect_standalone_transparent_keys c wallet id proposal;
  Ret (usk, standalone_keys).

(** ** [z_sendmany] *)

Definition source_account (wallet : DbWallet) (fromaddress : string) : RpcResult Account :=
  if String.eqb fromaddress "ANY_TADDR" then
    Err (with_static WalletAccountsUnsupported
      "The legacy account is currently unsupported for spending from")
  else
    address ← ok_or (decode_address fromaddress) (with_static InvalidAddressOrKey
      "Invalid from address: should be a taddr, zaddr, UA, or the string 'ANY_TADDR'.");
    get_account_for_address wallet address.

Definition confirmations_policy (c : config) (minconf : option Z) : RpcResult ConfirmationsPolicy :=
  match minconf with
  | Some minconf =>
      Ret (if 0 <? minconf then new_symmetrical minconf false else new_symmetrical 1 true)
  | None =>
      map_err (fun _ => with_message Wallet (Text
        "Configuration error: minimum confirmations for spending trusted TXOs cannot exceed that for untrusted TXOs."))
        (default_confirmations c)
  end.

#[local] Abbreviation Db := (M DbWallet ErrorObject).

Definition z_sendmany (c : config) (fromaddress : string) (amounts : list AmountParameter)
    (minconf : option Z) (fee : option JsonValue) (privacy_policy : option string) :
    Db (Proposal * (UnifiedSpendingKey * list (TransparentAddress * list SecretKey))) :=
  _ ← lift (ensure (match fee with Some _ => false | None => true end)
    (with_static InvalidParameter "Zallet always calculates fees internally; the fee field must be null."));
  request ← lift (build_request amounts);
  wallet ← get;
  account ← lift (source_account wallet fromaddress);
  privacy_policy ← lift (Privacy.parse_privacy_policy privacy_policy);
  confirmations_policy ← lift (confirmations_policy c minconf);
  _ ← lift (check_recipients privacy_policy (payments request));
  proposal ← with_err (fun e => with_message Wallet (Text ("Failed to propose transaction: " +:+ e)%string))
    (propose_transfer (account_id account) request confirmations_policy);
  _ ← lift (map_err incompatible_error (enforce_privacy_policy (steps proposal) privacy_policy));
  _ ← lift (foldM (fun _ => check_orchard_actions (orchard_action_limit c)) tt (steps proposal));
  wallet ← get;
  keys ← lift (spending_keys c wallet (account_id account) (key_derivation account)
    (with_static InvalidAddressOrKey "Invalid from address, no payment source found for address.") proposal);
  mret (proposal, keys).

(** The asynchronous part: construction, then broadcast. A panic of the
    construction is the blocking task's [JoinError]. *)
Definition run (c : config) (failed : string) (proposal : Proposal)
    (keys : UnifiedSpendingKey * list (TransparentAddress * list SecretKey)) :
    M (DbWallet * Node) ErrorObject SendResult := fun w =>
  match create_proposed_transactions keys proposal w.1 with
  | (Ret txids, wallet) =>
      let '(r, node) := broadcast_transactions (broadcast c) wallet txids w.2 in (r, (wallet, node))
  | (Err e, wallet) => (Err (with_message Wallet (Text (failed +:+ e)%string)), (wallet, w.2))
  | (Panic, wallet) => (Err (with_message Wallet (Text (failed +:+ join_error c)%string)), (wallet, w.2))
  end.
End sendmany.

(** ** Correctness *)

Section proofs.
Context `{HO : SendOps} `{HL : !PaymentLaws}.

(** Paying this recipient reveals it: it has no Orchard or Sapling receiver. *)
Definition revealing (r : recipient) : bool :=
  match r with
  | RTransparent | RTex => true
  | RSapling => false
  | RUnified ts => negb (bool_decide (TOrchard ∈ ts)) && negb (bool_decide (TSapling ∈ ts))
  end.

(** Every recipient is an address of the network, and transparent ones are
    allowed by the policy. *)
Definition recipients_allowed (policy : PrivacyPolicy) (ps : list Payment) : Prop :=
  forall p, p ∈ ps -> exists r, recipient_of (payment_recipient p) = Ret r /\
    (revealing r = true -> allow_revealed_recipients policy = true).

(** Payments with an amount, as [build_request] makes them. *)
Definition priced (p : Payment) : Prop := payment_amount p = Some (amount_of p) /\ 0 <= amount_of p.

Lemma check_payment_spec policy s p :
  priced p -> amount_of p <= s.1 <= MAX_MONEY -> amount_of p <= s.2 <= MAX_MONEY ->
  recipient_of (payment_recipient p) <> Panic ->
  match check_payment policy s p with
  | Ret s' => (exists r, recipient_of (payment_recipient p) = Ret r /\
        (revealing r = true -> allow_revealed_recipients policy = true)) /\
      s.1 - amount_of p <= s'.1 <= MAX_MONEY /\ s.2 - amount_of p <= s'.2 <= MAX_MONEY
  | Err e => code e = from_legacy InvalidParameter /\ e <> incompatible_error RevealingSaplingAmount /\
      ~ exists r, recipient_of (payment_recipient p) = Ret r /\
          (revealing r = true -> allow_revealed_recipients policy = true)
  | Panic => False
  end.
Proof.
  destruct s as [ms mo]; cbn [fst snd]. intros [Ham Hnn] Hs Ho Hnp. unfold check_payment. rewrite Ham. cbn.
  destruct (recipient_of (payment_recipient p)) as [r|e|]; cbn; [|split_and!; [done..|naive_solver]|done].
  rewrite !zat_sub_spec by lia.
  rewrite (proj2 (Z.leb_le (amount_of p) ms)), (proj2 (Z.leb_le (amount_of p) mo)) by lia.
  destruct r as [| | |ts]; cbn.
  1,2: destruct (allow_revealed_recipients policy) eqn:Hr; cbn; [split; [by eexists|lia]|
    split_and!; [done..|intros (r & [= <-] & Hx); by discriminate Hx]].
  - destruct (allow_revealed_amounts policy); cbn; (split; [by exists RSapling|lia]).
  - assert (revealing (RUnified ts) = negb (bool_decide (TOrchard ∈ ts)) && negb (bool_decide (TSapling ∈ ts))) as Hrev
      by done.
    destruct (bool_decide (TOrchard ∈ ts)), (bool_decide (TSapling ∈ ts)),
      (allow_revealed_amounts policy), (allow_revealed_recipients policy); cbn [negb andb] in Hrev; cbn -[revealing];
      try (split; [exists (RUnified ts); by rewrite Hrev|lia]);
      (split_and!; [done|intros Heq; vm_compute in Heq; discriminate Heq|];
       intros (r & [= <-] & Hx); by discriminate (Hx Hrev)).
Qed.

Lemma recipients_allowed_cons policy p ps :
  recipients_allowed policy (p :: ps) <->
  (exists r, recipient_of (payment_recipient p) = Ret r /\
     (revealing r = true -> allow_revealed_recipients policy = true)) /\ recipients_allowed policy ps.
Proof.
  unfold recipients_allowed. split.
  - intros Hall. split; [apply Hall; left|]. intros; apply Hall; by right.
  - intros [Hp Hall] q [-> |Hq]%elem_of_cons; [done|by apply Hall].
Qed.

Lemma total_amount_priced ps : Forall priced ps -> 0 <= total_amount ps.
Proof. induction 1 as [|p ps [_ ?] _ IH]; cbn; lia. Qed.

Lemma check_recipients_loop policy ps s :
  Forall priced ps -> (forall a, recipient_of a <> Panic) ->
  total_amount ps <= s.1 <= MAX_MONEY -> total_amount ps <= s.2 <= MAX_MONEY ->
  match foldM (check_payment policy) s ps with
  | Ret _ => recipients_allowed policy ps
  | Err e => code e = from_legacy InvalidParameter /\ e <> incompatible_error RevealingSaplingAmount /\
      ~ recipients_allowed policy ps
  | Panic => False
  end.
Proof.
  intros Hps Hr. revert s. induction Hps as [|p ps Hp Hps IH]; intros s Hs Ho; cbn in *.
  { intros p Hin. by apply not_elem_of_nil in Hin. }
  pose proof (total_amount_priced ps Hps). pose proof Hp as [_ Hnn].
  pose proof (check_payment_spec policy s p Hp ltac:(lia) ltac:(lia) (Hr _)) as Hc.
  destruct (check_payment policy s p) as [s'|e|]; cbn; [|rewrite recipients_allowed_cons; intuition|done].
  destruct Hc as (Hok & Hs1 & Ho1). specialize (IH s' ltac:(lia) ltac:(lia)).
  destruct (foldM _ s' ps); [by rewrite recipients_allowed_cons|rewrite recipients_allowed_cons; intuition|done].
Qed.

(** The check of the recipients before a proposal is made: for payments
    that sum to at most [MAX_MONEY], it succeeds exactly when each recipient is
    an address of the network and, where the recipient has no shielded receiver,
    the policy allows revealed recipients. In particular the amounts assumed
    available never run out, so no payment is refused for its amount. *)
Theorem check_recipients_correct policy ps :
  Forall priced ps -> total_amount ps <= MAX_MONEY -> (forall a, recipient_of a <> Panic) ->
  (is_ret (check_recipients policy ps) = true <-> recipients_allowed policy ps) /\
  (forall e, check_recipients policy ps = Err e ->
     code e = from_legacy InvalidParameter /\ e <> incompatible_error RevealingSaplingAmount) /\
  check_recipients policy ps <> Panic.
Proof.
  intros Hps Hsum Hr. unfold check_recipients.
  pose proof (check_recipients_loop policy ps (MAX_MONEY, MAX_MONEY) Hps Hr) as Hc. cbn in Hc.
  specialize (Hc ltac:(lia) ltac:(lia)).
  destruct (foldM _ _ ps); cbn; [by split_and!|split_and!; [by intuition| |done]|done].
  intros e' [= <-]. split; apply Hc.
Qed.

(** ** [z_sendmany] *)

Lemma Forall_converts_priced l ps : Forall2 converts l ps -> Forall priced ps.
Proof.
  induction 1 as [|a p l ps Hc _ IH]; constructor; [|done].
  pose proof (converts_amount _ _ Hc). destruct Hc as (addr & v & m & _ & _ & _ & Hp).
  destruct (Payment_new_spec _ _ _ _ Hp) as [Ha _]. split; [|lia]. unfold amount_of. by rewrite Ha.
Qed.

Lemma orchard_limit_spec limit (l : list Step) :
  foldM (fun _ => check_orchard_actions limit) tt l = Ret tt <->
  forall step, step ∈ l -> (Nat.max (orchard_spends step) (orchard_outputs step) <= limit)%nat.
Proof.
  assert (forall step, check_orchard_actions limit step = Ret tt <->
    (Nat.max (orchard_spends step) (orchard_outputs step) <= limit)%nat) as Hone.
  { intros step. unfold check_orchard_actions.
    destruct (Nat.ltb_spec limit (Nat.max (orchard_spends step) (orchard_outputs step))); [|done].
    split; [|lia]. repeat (destruct (_ <=? _)%nat); done. }
  induction l as [|s l IH]; cbn [foldM]; [split; [set_solver|done]|].
  rewrite bind_Ret. split.
  - intros ([] & Hs & Hl) step [-> |Hin]%elem_of_cons; [by apply Hone|]. by apply IH.
  - intros Hall. exists tt. split; [apply Hone, Hall; left|]. apply IH. intros; apply Hall; by right.
Qed.

Lemma check_recipients_Ret policy ps :
  Forall priced ps -> total_amount ps <= MAX_MONEY -> (forall a, recipient_of a <> Panic) ->
  (exists s, check_recipients policy ps = Ret s) <-> recipients_allowed policy ps.
Proof.
  intros Hps Hsum Hr. unfold check_recipients.
  pose proof (check_recipients_loop policy ps (MAX_MONEY, MAX_MONEY) Hps Hr) as Hc. cbn in Hc.
  specialize (Hc ltac:(lia) ltac:(lia)).
  destruct (foldM _ _ ps); [split; eauto|split; [by intros [? ?]|intuition]|done].
Qed.

(** C12. [z_sendmany] hands a proposal to construction exactly when: no fee is
    given, the payment request is valid, the source address belongs to an
    account, the privacy policy and confirmations are valid, the recipients are
    allowed by the policy, input selection proposes it for that account and
    request, no step reveals anything the policy does not allow, every step is
    within the Orchard action limit, and the account's keys can be decrypted. The
    wallet changes only by input selection. *)
Theorem z_sendmany_correct c fromaddress amounts minconf fee policy w w' proposal keys :
  (forall a, recipient_of a <> Panic) ->
  z_sendmany c fromaddress amounts minconf fee policy w = (Ret (proposal, keys), w') <->
  fee = None /\
  exists request account p conf,
    build_request amounts = Ret request /\ source_account w fromaddress = Ret account /\
    Privacy.parse_privacy_policy policy = Ret p /\ confirmations_policy c minconf = Ret conf /\
    recipients_allowed p (payments request) /\
    propose_transfer (account_id account) request conf w = (Ret proposal, w') /\
    (forall step l, step ∈ steps proposal -> reveals step l = true -> allows p l = true) /\
    (forall step, step ∈ steps proposal ->
       (Nat.max (orchard_spends step) (orchard_outputs step) <= orchard_action_limit c)%nat) /\
    spending_keys c w' (account_id account) (key_derivation account)
      (with_static InvalidAddressOrKey "Invalid from address, no payment source found for address.")
      proposal = Ret keys.
Proof.
  intros Hr. unfold z_sendmany.
  assert (forall request, build_request amounts = Ret request ->
    Forall priced (payments request) /\ total_amount (payments request) <= MAX_MONEY) as Hreq.
  { intros request (_ & ps & Hall & _ & Hsum & Hnew)%build_request_spec.
    rewrite (TransactionRequest_new_spec _ _ Hnew). split; [by eapply Forall_converts_priced|done]. }
  repeat setoid_rewrite run_bind_Ret. repeat setoid_rewrite run_lift_Ret.
  setoid_rewrite run_with_err_Ret. split.
  - intros ([] & ? & [Hfee ->] & request & ? & [Hb ->] & ? & ? & [[= <-] ->] & account & ? & [Ha ->] &
      p & ? & [Hp ->] & conf & ? & [Hconf ->] & s & ? & [Hrec ->] & prop & w1 & Hprop & [] & ? & [Hpriv ->] &
      [] & ? & [Horch ->] & ? & ? & [[= <-] ->] & ks & ? & [Hk ->] & [[= -> ->] ->]).
    destruct fee; [done|]. split; [done|]. exists request, account, p, conf.
    destruct (Hreq _ Hb) as [Hps Hsum]. split_and!; try done.
    + apply check_recipients_Ret; [done..|]. by eexists.
    + apply enforce_allows. by apply map_err_Ret in Hpriv.
    + by apply orchard_limit_spec.
  - intros (-> & request & account & p & conf & Hb & Ha & Hp & Hconf & Hrec & Hprop & Hpriv & Horch & Hk).
    destruct (Hreq _ Hb) as [Hps Hsum].
    apply check_recipients_Ret in Hrec as [s Hrec]; [|done..].
    exists tt, w. split; [done|]. exists request, w. split; [done|]. exists w, w. split; [done|].
    exists account, w. split; [done|]. exists p, w. split; [done|]. exists conf, w. split; [done|].
    exists s, w. split; [done|]. exists proposal, w'. split; [done|].
    exists tt, w'. split; [split; [|done]; by apply map_err_Ret, enforce_allows|].
    exists tt, w'. split; [split; [|done]; by apply orchard_limit_spec|].
    exists w', w'. split; [done|]. by exists keys, w'.
Qed.

(** ** Standalone keys *)

Lemma push_key_spec (keys : list (TransparentAddress * list SecretKey)) a k : NoDup keys.*1 ->
  NoDup (push_key keys a k).*1 /\
  (forall b, b ∈ (push_key keys a k).*1 <-> b = a \/ b ∈ keys.*1) /\
  forall b ks, (b, ks) ∈ push_key keys a k <->
    (b <> a /\ (b, ks) ∈ keys) \/
    (b = a /\ (((a ∉ keys.*1) /\ ks = [k]) \/ exists ks', (a, ks') ∈ keys /\ ks = ks' ++ [k])).
Proof.
  induction keys as [|[a' ks'] keys IH]; cbn.
  - intros _. split_and!; [apply NoDup_singleton|set_solver|]. intros b ks.
    rewrite list_elem_of_singleton. set_solver.
  - intros [Hnin Hnd]%NoDup_cons. destruct (IH Hnd) as (IH1 & IH2 & IH3).
    case_bool_decide as Heq; cbn.
    + subst a'. split_and!; [by constructor|set_solver|]. intros b ks. repeat setoid_rewrite elem_of_cons.
      assert (forall ks, (a, ks) ∈ keys -> False) as Hno.
      { intros ks0 Hin. apply Hnin. by apply (list_elem_of_fmap_2 fst _ (a, ks0)). }
      split.
      * intros [[= -> ->]|Hin]; [right; split; [done|]; right; exists ks'; split; [by left|done]|].
        left. split; [intros ->; by eapply Hno|by right].
      * intros [[Hne [[= -> ->]|Hin]]|[-> [[Hn _]|(ks0 & [[= ->]|Hin] & ->)]]]; [done|by right| |by left|].
        -- by destruct Hn; left.
        -- by destruct (Hno _ Hin).
    + split_and!.
      * constructor; [|done]. rewrite IH2. intros [->|?]; done.
      * intros b. rewrite !elem_of_cons, IH2. tauto.
      * intros b ks. repeat setoid_rewrite elem_of_cons. rewrite IH3. split.
        -- intros [[= -> ->]|[[? ?]|[-> [[? ->]|(ks0 & ? & ->)]]]].
           ++ left. split; [congruence|by left].
           ++ left. split; [done|by right].
           ++ right. split; [done|]. left. split; [|done]. by intros [->|?].
           ++ right. split; [done|]. right. exists ks0. split; [by right|done].
        -- intros [[Hne [[= -> ->]|?]]|[-> [[Hn ->]|(ks0 & [[= -> ->]|?] & ->)]]]; [by left| | |done|].
           ++ right. by left.
           ++ right. right. split; [done|]. left. split; [|done]. intros ?. apply Hn. by right.
           ++ right. right. split; [done|]. right. by exists ks0.
Qed.

(** The loop body of [collect_standalone_transparent_keys]. *)
Definition collect_step (c : config) (standalone_addrs : list TransparentAddress) keys o :
    RpcResult (list (TransparentAddress * list SecretKey)) :=
  match o with
  | Some address =>
      if bool_decide (address ∈ standalone_addrs) then
        secret_key ← map_err (map_error c) (decrypt_standalone_transparent_key c address);
        Ret (push_key keys address secret_key)
      else Ret keys
  | None => Ret keys
  end.

Definition occurrences (a : TransparentAddress) (l : list (option TransparentAddress)) : nat :=
  length (filter (fun o => o = Some a) l).

(** The keys after the inputs [l]. *)
Definition keys_for (c : config) (imported : list TransparentAddress)
    (l : list (option TransparentAddress)) (keys : list (TransparentAddress * list SecretKey)) : Prop :=
  NoDup keys.*1 /\
  forall a ks, (a, ks) ∈ keys <->
    a ∈ imported /\ Some a ∈ l /\ exists k, decrypt_standalone_transparent_key c a = Ret k /\
      ks = replicate (occurrences a l) k.

Lemma occurrences_zero a l : Some a ∉ l -> occurrences a l = 0%nat.
Proof.
  intros Hn. unfold occurrences. induction l as [|o l IH]; [done|].
  rewrite filter_cons_False by (intros ->; apply Hn; left). apply IH. intros ?. apply Hn. by right.
Qed.

Lemma collect_loop c imported l done_ keys keys' :
  keys_for c imported done_ keys -> foldM (collect_step c imported) keys l = Ret keys' ->
  keys_for c imported (done_ ++ l) keys'.
Proof.
  revert done_ keys. induction l as [|o l IH]; intros done_ keys Hk; cbn [foldM].
  { intros [= <-]. by rewrite app_nil_r. }
  intros (k1 & Hs & Hl)%bind_Ret. replace (done_ ++ o :: l) with ((done_ ++ [o]) ++ l) by by rewrite <-app_assoc.
  eapply IH; [|exact Hl]. clear IH Hl. destruct Hk as [Hnd Hk].
  assert (forall a, o <> Some a -> occurrences a (done_ ++ [o]) = occurrences a done_ /\
    (Some a ∈ done_ ++ [o] <-> Some a ∈ done_)) as Hother.
  { intros a Hne. split; [|set_solver]. unfold occurrences.
    by rewrite filter_app, (filter_cons_False _ o), filter_nil, app_nil_r. }
  assert (forall a, o = Some a -> a ∉ imported -> k1 = keys) as Hskip.
  { intros a -> Hn. cbn in Hs. rewrite bool_decide_false in Hs by done. by injection Hs. }
  destruct o as [a|]; cbn in Hs.
  2: { injection Hs as <-. split; [done|]. intros b ks. rewrite Hk.
       destruct (Hother b ltac:(done)) as [-> ->]. done. }
  case_bool_decide as Hin.
  - apply bind_Ret in Hs as (k & Hdec%map_err_Ret & [= <-]).
    destruct (push_key_spec keys a k Hnd) as (Hnd' & Hfst & Hpush). split; [done|].
    assert (occurrences a (done_ ++ [Some a]) = S (occurrences a done_)) as Hocc.
    { unfold occurrences. rewrite filter_app, filter_cons_True, length_app by done. cbn. lia. }
    intros b ks. rewrite Hpush. destruct (decide (b = a)) as [->|Hne].
    + rewrite Hocc. split.
      * intros [[? _]|[_ [[Hn ->]|(ks' & Hks' & ->)]]]; [done| |]; (split_and!; [done|set_solver|]);
          exists k; (split; [done|]).
        -- rewrite occurrences_zero; [done|]. intros Hsome. apply Hn.
           apply (list_elem_of_fmap_2 fst _ (a, replicate (occurrences a done_) k)). apply Hk. eauto.
        -- apply Hk in Hks' as (_ & _ & k' & Hdec' & ->). rewrite Hdec in Hdec'. injection Hdec' as <-.
           by rewrite <-replicate_cons_app.
      * intros (_ & _ & k' & Hdec' & ->). rewrite Hdec in Hdec'. injection Hdec' as <-.
        right. split; [done|]. destruct (decide (Some a ∈ done_)) as [Hd|Hd].
        -- right. exists (replicate (occurrences a done_) k). split; [apply Hk; eauto|].
           by rewrite <-replicate_cons_app.
        -- left. rewrite (occurrences_zero a done_ Hd). split; [|done].
           intros ([a' ks] & -> & Hks)%list_elem_of_fmap. by apply Hk in Hks as (_ & ? & _).
    + destruct (Hother b ltac:(congruence)) as [-> ->]. rewrite Hk. naive_solver.
  - injection Hs as <-. split; [done|]. intros b ks. rewrite Hk.
    destruct (decide (b = a)) as [->|Hne]; [naive_solver|].
    destruct (Hother b ltac:(congruence)) as [-> ->]. done.
Qed.

(** The standalone keys collected for a proposal are keys of the imported
    transparent addresses its inputs spend from, of all of them and of no other
    address: each is the decrypted key of its address, once for every input. *)
Theorem collect_standalone_keys_correct c w account proposal keys :
  collect_standalone_transparent_keys c w account proposal = Ret keys ->
  exists receivers, transparent_receivers w account = Ret receivers /\ NoDup keys.*1 /\
  forall a ks, (a, ks) ∈ keys <->
    (a, true) ∈ receivers /\ Some a ∈ concat (input_addresses <$> steps proposal) /\
    exists k, decrypt_standalone_transparent_key c a = Ret k /\
      ks = replicate (occurrences a (concat (input_addresses <$> steps proposal))) k.
Proof.
  unfold collect_standalone_transparent_keys. intros (receivers & Hrec%map_err_Ret & Hl)%bind_Ret.
  exists receivers. split; [done|].
  apply (collect_loop c _ _ []) in Hl as [Hnd Hk]; [|split; [constructor|]; intros a ks; split;
    [by intros ?%not_elem_of_nil|by intros (_ & ?%not_elem_of_nil & _)]].
  split; [done|]. intros a ks. rewrite Hk. cbn [app].
  assert (a ∈ (filter (fun r : TransparentAddress * bool => r.2 = true) receivers).*1 <-> (a, true) ∈ receivers) as ->; [|done].
  rewrite list_elem_of_fmap. setoid_rewrite list_elem_of_filter. split.
  - by intros ([a' []] & -> & [= ] & ?).
  - intros Hin. by exists (a, true).
Qed.
End proofs.

(** ** A concrete instance *)

(** Transparent inputs with their values, the pools of notes, payments and change. *)
Record example_step := ExampleStep {
  ex_inputs : list (Z * Z);
  ex_notes : list PoolType;
  ex_pools : list PoolType;
  ex_change : list PoolType
}.

(** One account, 7, with the imported transparent address 71; a proposal spends
    an Orchard note and an output of 71. *)
Definition example_send : @SendOps example_payments example_node.
Proof.
  refine (@Build_SendOps example_payments example_node
    (list example_step) example_step Z Z Z Z Z (Z * bool) _
    {| is_shielding := fun _ => false; transparent_inputs := fun s => (ex_inputs s).*1;
       shielded_inputs := fun s => [ex_notes s]; payment_pools := ex_pools; change := ex_change |}
    (fun p => p)
    (fun s => Some <$> (ex_inputs s).*1)
    (fun s => (ex_inputs s).*2)
    (fun s => if String.eqb s "a7" then Some 7 else None)
    (fun a => Ret (if String.prefix "t" a then RTransparent else RUnified [TOrchard]))
    (fun n b => (n, b))
    (fun a => a)
    (fun a => Some (a, 0))
    (fun s i => Ret (s + i))
    (fun w a => Ret [(71, true); (72, false)])
    (fun a r c w => (Ret [ExampleStep [(71, 5)] [ORCHARD] [ORCHARD] []], w))
    (fun k p w => (Ret [1], w))).
Defined.

Definition example_config : @config example_payments example_node example_send :=
  @Build_config example_payments example_node example_send
    (Ret (10, false)) 50%nat true (fun fp => Ret (fp * 100)) (fun a => Ret (a * 1000))
    (fun e => with_message Database (Text (source e))) ""%string.

Definition example_amounts : list AmountParameter :=
  [{| address := "z"; amount := JString "0.5"; memo := None |}].

Lemma check_recipients_correct_witness :
  is_ret (@check_recipients _ _ example_send FullPrivacy [("z", 50000000)]) = true /\
  @check_recipients _ _ example_send FullPrivacy [("t1", 50000000)] <> Panic.
Proof.
  split.
  - apply (@check_recipients_correct _ _ example_send example_payments_laws FullPrivacy [("z", 50000000)]).
    + repeat constructor; cbn; lia.
    + cbn. unfold MAX_MONEY, COIN. lia.
    + done.
    + intros p ->%list_elem_of_singleton. by exists (RUnified [TOrchard]).
  - apply (@check_recipients_correct _ _ example_send example_payments_laws FullPrivacy [("t1", 50000000)]).
    + repeat constructor; cbn; lia.
    + cbn. unfold MAX_MONEY, COIN. lia.
    + done.
Defined.

Lemma z_sendmany_correct_witness :
  (@z_sendmany _ _ example_send example_config "a7" example_amounts None None (Some "AllowRevealedSenders"%string) [7]).1 =
    Ret ([ExampleStep [(71, 5)] [ORCHARD] [ORCHARD] []], (700, [(71, [71000])])) /\
  allows AllowRevealedSenders Senders = true.
Proof.
  assert ((@z_sendmany _ _ example_send example_config "a7" example_amounts None None
    (Some "AllowRevealedSenders"%string) [7]) =
    (Ret ([ExampleStep [(71, 5)] [ORCHARD] [ORCHARD] []], (700, [(71, [71000])])), [7])) as Hrun
    by (vm_compute; reflexivity).
  split; [by rewrite Hrun|].
  apply (@z_sendmany_correct _ _ example_send example_payments_laws) in Hrun; [|done].
  destruct Hrun as (_ & request & account & p & conf & _ & _ & Hp & _ & _ & _ & Hrev & _).
  vm_compute in Hp. injection Hp as <-.
  apply (Hrev (ExampleStep [(71, 5)] [ORCHARD] [ORCHARD] [])); [left|by vm_compute].
Defined.

Lemma collect_standalone_keys_correct_witness :
  NoDup [71].
Proof.
  destruct (@collect_standalone_keys_correct _ _ example_send example_payments_laws example_config [7] 7
    [ExampleStep [(71, 5); (71, 6); (72, 1)] [] [] []] [(71, [71000; 71000])])
    as (receivers & _ & Hnd & _); [by vm_compute|done].
Defined.
