(* ===== verification/ShieldCoinbase.v ===== *)
(** [z_shieldcoinbase]
    (src/zallet/src/components/json_rpc/methods/z_shieldcoinbase.rs): the
    classification of its source, the proposal, and the accounting of what is
    shielded and what remains. Construction and broadcast are [SendMany.run]. *)

From S2P Require Import Prelude Rpc Amount Privacy Payments SendMany.

Class ShieldOps `{SendOps} := {
  Uuid : Type;
  uuid_parse : string -> option Uuid;
  account_of_uuid : Uuid -> AccountId;
  uuid_to_string : Uuid -> string;
  account_to_string : AccountId -> string;
  address_debug : TransparentAddress -> string;
  (** The address, if it is transparent. *)
  as_transparent : Address -> option TransparentAddress;
  find_account_for_address : DbWallet -> TransparentAddress -> outcome string (option AccountId);
  propose_shielding_coinbase : list TransparentAddress -> ZcashAddress -> option MemoBytes -> option Z ->
    M DbWallet string Proposal;
  min_target_height : Proposal -> Z;
  (** The values of the spendable coinbase outputs of an address. *)
  spendable_coinbase : DbWallet -> TransparentAddress -> Z -> outcome string (list Z)
}.

Section shield.
Context `{ShieldOps}.

Inductive FromAddressInput :=
  | AccountUuid (uuid : Uuid)
  | FromTransparent (addr : TransparentAddress).

Definition parse_fromaddress (fromaddress : string) : RpcResult FromAddressInput :=
  if String.eqb fromaddress "*" then
    Err (with_static InvalidParameter ("Invalid `fromaddress`: the `" +:+ dquote +:+ "*" +:+ dquote +:+
      "` wildcard (sweep all wallet t-addrs) is not supported by Zallet. Pass either a wallet-owned transparent address or an account UUID to scope the sweep.")%string)
  else
    match uuid_parse fromaddress with
    | Some uuid => Ret (AccountUuid uuid)
    | None =>
        match decode_address fromaddress with
        | Some address =>
            match as_transparent address with
            | Some addr => Ret (FromTransparent addr)
            | None => Err (with_message InvalidAddressOrKey (Text ("Invalid `fromaddress`: only transparent addresses are accepted (got a non-transparent Zcash address): " +:+ fromaddress)%string))
            end
        | None => Err (with_message InvalidParameter (Text ("Invalid `fromaddress`: expected a wallet-owned transparent address or an account UUID, got " +:+ fromaddress)%string))
        end
    end.

Definition resolve_fromaddress_input (wallet : DbWallet) (from_input : FromAddressInput) :
    RpcResult (AccountId * list TransparentAddress) :=
  match from_input with
  | AccountUuid uuid =>
      let account_id := account_of_uuid uuid in
      account ← db (get_account wallet account_id);
      _ ← ok_or account (with_message InvalidParameter
        (Text ("Unknown account UUID: " +:+ uuid_to_string uuid)%string));
      receivers ← db (transparent_receivers wallet account_id);
      Ret (account_id, receivers.*1)
  | FromTransparent addr =>
      o ← db (find_account_for_address wallet addr);
      owner ← ok_or o (with_message InvalidAddressOrKey
        (Text ("Transparent address is not owned by any account in this wallet: " +:+ address_debug addr)%string));
      Ret (owner, [addr])
  end.

Definition parse_privacy_policy (privacy_policy : option string) (from_input : FromAddressInput) :
    RpcResult PrivacyPolicy :=
  match privacy_policy with
  | None => Ret match from_input with
                | FromTransparent _ => AllowRevealedSenders
                | AccountUuid _ => AllowLinkingAccountAddresses
                end
  | Some s =>
      if String.eqb s "AllowRevealedSenders" then Ret AllowRevealedSenders
      else if String.eqb s "AllowLinkingAccountAddresses" then Ret AllowLinkingAccountAddresses
      else Err (with_message InvalidParameter (Text ("Invalid privacy_policy " +:+ s +:+
        " for z_shieldcoinbase: only AllowRevealedSenders and AllowLinkingAccountAddresses are accepted, because coinbase shielding always reveals the source transparent address(es).")%string))
  end.

(** A loop that sums values, with the error for an overflow. *)
Definition sum_values (e : ErrorObject) (sum : Z) (values : list Z) : RpcResult Z :=
  foldM (fun sum value => ok_or (zat_add sum value) e) sum values.

Definition sum_selected_inputs (proposal : Proposal) : RpcResult (Z * Z) :=
  let values := concat (input_values <$> steps proposal) in
  sum ← sum_values (with_static Wallet
    "Internal error: shielding value sum overflowed Zatoshis bounds.") 0 values;
  Ret (foldl (fun count _ => u64_saturating_add count 1) 0 values, sum).

Definition enumerate_address (wallet : DbWallet) (target_height : Z) (s : Z * Z) (addr : TransparentAddress) :
    RpcResult (Z * Z) :=
  let '(total_utxos, total_value) := s in
  utxos ← db (spendable_coinbase wallet addr target_height);
  total_value ← sum_values (with_static Wallet
    "Internal error: total transparent value overflowed Zatoshis bounds.") total_value utxos;
  Ret (u64_saturating_add total_utxos (Z.of_nat (length utxos)), total_value).

Definition enumerate_eligible (wallet : DbWallet) (from_addrs : list TransparentAddress)
    (target_height : Z) : RpcResult (Z * Z) :=
  foldM (enumerate_address wallet target_height) (0, 0) from_addrs.

Record Preflight := {
  remaining_utxos : Z;
  remaining_value : Z;
  shielding_utxos : Z;
  shielding_value : Z
}.

Definition preflight (wallet : DbWallet) (from_addrs : list TransparentAddress) (proposal : Proposal) :
    RpcResult Preflight :=
  '(shielding_utxos, shielding_value_zats) ← sum_selected_inputs proposal;
  '(total_utxos, total_value_zats) ← enumerate_eligible wallet from_addrs (min_target_height proposal);
  remaining_utxos ← ok_or (if shielding_utxos <=? total_utxos then Some (total_utxos - shielding_utxos) else None)
    (with_static Wallet "Internal accounting error: proposal selected more UTXOs than enumeration found (likely a chain race during shielding setup).");
  remaining_value_zats ← ok_or (zat_sub total_value_zats shielding_value_zats)
    (with_static Wallet "Internal accounting error: proposal value exceeds enumerated total (likely a chain race during shielding setup).");
  Ret {| remaining_utxos := remaining_utxos; remaining_value := remaining_value_zats;
         shielding_utxos := shielding_utxos; shielding_value := shielding_value_zats |}.

Definition fee_absent (fee : option JsonValue) : bool :=
  match fee with
  | None | Some JNull => true
  | _ => false
  end.

#[local] Abbreviation Db := (M DbWallet ErrorObject).

Definition z_shieldcoinbase (c : config) (fromaddress toaddress : string) (fee : option JsonValue)
    (limit : option Z) (memo privacy_policy : option string) :
    Db (Preflight * Proposal * (UnifiedSpendingKey * list (TransparentAddress * list SecretKey))) :=
  _ ← lift (ensure (fee_absent fee)
    (with_static InvalidParameter "Zallet always calculates fees internally; the fee field must be null."));
  to_zcash_address ← lift (ok_or (parse_address toaddress) (with_message InvalidParameter
    (Text ("Invalid parameter, unknown address format: " +:+ toaddress)%string)));
  memo ← lift (transpose parse_memo memo);
  from_input ← lift (parse_fromaddress fromaddress);
  privacy_policy ← lift (parse_privacy_policy privacy_policy from_input);
  wallet ← get;
  '(account_id, from_addrs) ← lift (resolve_fromaddress_input wallet from_input);
  _ ← lift (ensure (negb (bool_decide (from_addrs = [])))
    (with_static InvalidParameter "No source transparent addresses resolved from `fromaddress`."));
  account ← lift (o ← db (get_account wallet account_id);
    ok_or o (with_message Database (Text ("Account vanished mid-call: " +:+ account_to_string account_id)%string)));
  proposal ← with_err (fun e => with_message Wallet
      (Text ("Failed to propose shielding transaction: " +:+ e)%string))
    (propose_shielding_coinbase from_addrs to_zcash_address memo limit);
  _ ← lift (map_err incompatible_error (enforce_privacy_policy (steps proposal) privacy_policy));
  wallet ← get;
  numbers ← lift (preflight wallet from_addrs proposal);
  keys ← lift (spending_keys c wallet account_id (key_derivation account)
    (with_message InvalidAddressOrKey
      (Text ("No payment source found for account " +:+ account_to_string account_id +:+ ".")%string)) proposal);
  mret (numbers, proposal, keys).
End shield.

(** ** Correctness *)

Section proofs.
Context `{HO : ShieldOps} `{HL : !PaymentLaws}.

Definition amounts_ok (l : list Z) : Prop := Forall (fun v => 0 <= v <= MAX_MONEY) l.

Fixpoint total (l : list Z) : Z :=
  match l with
  | [] => 0
  | v :: l => v + total l
  end.

Lemma total_app l l' : total (l ++ l') = total l + total l'.
Proof. induction l as [|v l IH]; cbn; [done|rewrite IH; lia]. Qed.

Lemma sum_values_Ret e s l t : 0 <= s <= MAX_MONEY -> amounts_ok l ->
  sum_values e s l = Ret t -> t = s + total l /\ 0 <= t <= MAX_MONEY.
Proof.
  unfold sum_values. intros Hs Hl. revert s Hs. induction Hl as [|v l Hv _ IH]; intros s Hs; cbn.
  { intros [= <-]. lia. }
  intros (s' & Ha%ok_or_Ret & Hr)%bind_Ret. rewrite zat_add_spec in Ha by lia.
  destruct (Z.leb_spec (s + v) MAX_MONEY); [injection Ha as <-|done].
  apply IH in Hr; lia.
Qed.

Lemma count_saturates (l : list Z) n : 0 <= n <= u64_max ->
  foldl (fun count _ => u64_saturating_add count 1) n l = Z.min u64_max (n + Z.of_nat (length l)).
Proof.
  revert n. induction l as [|v l IH]; intros n Hn; cbn [foldl length]; [lia|].
  unfold u64_saturating_add at 2. rewrite IH by (unfold u64_max in *; lia). lia.
Qed.

(** The eligible outputs of the addresses, in order. *)
Definition eligible (w : DbWallet) (h : Z) (addrs : list TransparentAddress) (l : list Z) : Prop :=
  exists ls, Forall2 (fun a vs => spendable_coinbase w a h = Ret vs) addrs ls /\ l = concat ls.

Lemma enumerate_eligible_Ret w h addrs n s r : 0 <= n <= u64_max -> 0 <= s <= MAX_MONEY ->
  (forall a vs, spendable_coinbase w a h = Ret vs -> amounts_ok vs) ->
  foldM (enumerate_address w h) (n, s) addrs = Ret r ->
  exists l, eligible w h addrs l /\
    r = (Z.min u64_max (n + Z.of_nat (length l)), s + total l) /\ 0 <= r.2 <= MAX_MONEY.
Proof.
  intros Hn Hs Hok. revert n s Hn Hs. induction addrs as [|a addrs IH]; intros n s Hn Hs; cbn [foldM].
  { intros [= <-]. exists []. split_and!; [by exists []|cbn; f_equal; lia|cbn; lia..]. }
  intros ([n1 s1] & Ha & Hr)%bind_Ret. unfold enumerate_address in Ha.
  apply bind_Ret in Ha as (vs & Hvs%map_err_Ret & (s1' & Hsum & [= <- <-])%bind_Ret).
  destruct (sum_values_Ret _ _ _ _ Hs (Hok _ _ Hvs) Hsum) as [-> Hs1].
  assert (0 <= u64_saturating_add n (Z.of_nat (length vs)) <= u64_max) as Hn1
    by (unfold u64_saturating_add, u64_max in *; lia).
  destruct (IH _ _ Hn1 Hs1 Hr) as (l & (ls & Hls & ->) & -> & Hr').
  exists (vs ++ concat ls). split_and!; [|f_equal|by cbn in *; lia..].
  - exists (vs :: ls). split; [by constructor|done].
  - rewrite length_app. unfold u64_saturating_add. lia.
  - rewrite total_app. lia.
Qed.

(** The source that the text names: an account, by its UUID, with all its receivers, or a
    transparent address of an account. [by_account] tells which. *)
Definition source_of (w : DbWallet) (fromaddress : string) (by_account : bool) (id : AccountId)
    (addrs : list TransparentAddress) : Prop :=
  fromaddress <> "*"%string /\
  match uuid_parse fromaddress with
  | Some uuid => by_account = true /\ id = account_of_uuid uuid /\ (exists a, get_account w id = Ret (Some a)) /\
      exists receivers, transparent_receivers w id = Ret receivers /\ addrs = receivers.*1
  | None => by_account = false /\ exists a t, decode_address fromaddress = Some a /\ as_transparent a = Some t /\
      find_account_for_address w t = Ret (Some id) /\ addrs = [t]
  end.

(** What the policy allows, the default depending on the source. *)
Definition may_link (policy : option string) (by_account : bool) : Prop :=
  policy = None /\ by_account = true \/ policy = Some "AllowLinkingAccountAddresses"%string.

Definition accepted_policy (policy : option string) : Prop :=
  policy = None \/ policy = Some "AllowRevealedSenders"%string \/ policy = Some "AllowLinkingAccountAddresses"%string.

Lemma source_of_resolved w fromaddress from id addrs :
  parse_fromaddress fromaddress = Ret from -> resolve_fromaddress_input w from = Ret (id, addrs) ->
  source_of w fromaddress (match from with AccountUuid _ => true | FromTransparent _ => false end) id addrs.
Proof.
  unfold parse_fromaddress, source_of. destruct (String.eqb_spec fromaddress "*") as [|Hne]; [done|].
  intros Hp Hr. split; [done|]. destruct (uuid_parse fromaddress) as [uuid|].
  - injection Hp as <-. cbn in Hr. apply bind_Ret in Hr as (a & Ha%map_err_Ret & Hr).
    apply bind_Ret in Hr as (a' & ->%ok_or_Ret & Hr). apply bind_Ret in Hr as (rs & Hrs%map_err_Ret & [= <- <-]). eauto 7.
  - destruct (decode_address fromaddress) as [a|] eqn:Ha; [|done]. destruct (as_transparent a) as [t|] eqn:Ht; [|done].
    injection Hp as <-. cbn in Hr. apply bind_Ret in Hr as (o & Ho%map_err_Ret & (id' & ->%ok_or_Ret & [= -> <-])%bind_Ret).
    eauto 8.
Qed.

Lemma parse_privacy_policy_Ret policy from p :
  parse_privacy_policy policy from = Ret p ->
  accepted_policy policy /\ (p = AllowRevealedSenders \/ p = AllowLinkingAccountAddresses) /\
  (p = AllowLinkingAccountAddresses -> may_link policy (match from with AccountUuid _ => true | FromTransparent _ => false end)).
Proof.
  unfold parse_privacy_policy, accepted_policy, may_link. destruct policy as [s|].
  - destruct (String.eqb_spec s "AllowRevealedSenders") as [->|]; [intros [= <-]; naive_solver|].
    destruct (String.eqb_spec s "AllowLinkingAccountAddresses") as [->|]; [intros [= <-]; naive_solver|done].
  - destruct from; intros [= <-]; naive_solver.
Qed.

(** What the policy lets the steps of a proposal reveal. *)
Lemma shielding_reveals policy from p proposal :
  parse_privacy_policy policy from = Ret p -> enforce_privacy_policy (steps proposal) p = Ret tt ->
  forall step, step ∈ steps proposal ->
    reveals step Recipients = false /\
    (reveals step LinkedAddresses = true ->
     may_link policy (match from with AccountUuid _ => true | FromTransparent _ => false end)).
Proof.
  intros (_ & Hpp & Hlink)%parse_privacy_policy_Ret Hpriv step Hstep. rewrite enforce_allows in Hpriv. split.
  - destruct (reveals step Recipients) eqn:Hr; [|done]. apply Hpriv in Hr; [|done]. by destruct Hpp; subst.
  - intros Hr. apply Hpriv in Hr; [|done]. destruct Hpp; subst; [done|by apply Hlink].
Qed.

(** The numbers are those of the proposal's inputs, and what is left of the eligible
    outputs. *)
Lemma preflight_Ret w addrs proposal num :
  (forall a h vs, spendable_coinbase w a h = Ret vs -> amounts_ok vs) ->
  amounts_ok (concat (input_values <$> steps proposal)) ->
  preflight w addrs proposal = Ret num ->
  exists l, eligible w (min_target_height proposal) addrs l /\
    shielding_utxos num = Z.min u64_max (Z.of_nat (length (concat (input_values <$> steps proposal)))) /\
    shielding_value num = total (concat (input_values <$> steps proposal)) /\
    shielding_utxos num + remaining_utxos num = Z.min u64_max (Z.of_nat (length l)) /\
    shielding_value num + remaining_value num = total l /\
    0 <= remaining_utxos num /\ 0 <= remaining_value num.
Proof.
  intros Hel Hin Hnum. unfold preflight in Hnum. apply bind_Ret in Hnum as ([n s] & Hsel & Hnum).
  apply bind_Ret in Hsel as (s' & Hsum & [= <- <-]).
  assert (0 <= 0 <= MAX_MONEY) as Hzero by (unfold MAX_MONEY, COIN; lia).
  destruct (sum_values_Ret _ _ _ _ Hzero Hin Hsum) as [-> Hs].
  rewrite count_saturates in Hnum by (unfold u64_max; lia).
  apply bind_Ret in Hnum as ([tn tv] & Henum & Hnum).
  assert (0 <= 0 <= u64_max) as Hz by (unfold u64_max; lia).
  destruct (enumerate_eligible_Ret _ _ _ _ _ _ Hz Hzero (fun a vs => Hel a _ vs) Henum) as (l & Hl & [= -> ->] & Ht).
  cbn [fst snd] in Ht. apply bind_Ret in Hnum as (rn & Hrn%ok_or_Ret & (rv & Hrv%ok_or_Ret & [= <-])%bind_Ret).
  rewrite zat_sub_spec in Hrv by lia.
  destruct (Z.leb_spec (0 + total (concat (input_values <$> steps proposal))) (0 + total l)); [injection Hrv as <-|done].
  match type of Hrn with (if ?a <=? ?b then _ else _) = _ => destruct (Z.leb_spec a b); [injection Hrn as <-|done] end.
  exists l. cbn [shielding_utxos shielding_value remaining_utxos remaining_value]. split_and!; try done; lia.
Qed.

(** C36. On success (given that the outputs the wallet lists, and the inputs
    of the proposal, have values that are amounts) the policy is absent or one
    of the two accepted, the proposal was made for the addresses that
    fromaddress names (the receivers of the account with that UUID, or one
    transparent address of an account), to the given address with the given
    memo and limit; it pays no transparent recipient, and links addresses only
    if the policy is AllowLinkingAccountAddresses, or absent with an account
    as the source; the number and value shielded are those of its inputs; with
    what remains they are those of the eligible coinbase outputs of these
    addresses, without wrap-around; and the keys are those of that account. *)
Theorem z_shieldcoinbase_correct c fromaddress toaddress fee limit memo policy w w' numbers proposal keys :
  (forall a h vs w, spendable_coinbase w a h = Ret vs -> amounts_ok vs) ->
  amounts_ok (concat (input_values <$> steps proposal)) ->
  z_shieldcoinbase c fromaddress toaddress fee limit memo policy w = (Ret (numbers, proposal, keys), w') ->
  exists to m by_account id addrs l,
    fee_absent fee = true /\ accepted_policy policy /\ parse_address toaddress = Some to /\
    transpose parse_memo memo = Ret m /\ source_of w fromaddress by_account id addrs /\ addrs <> [] /\
    propose_shielding_coinbase addrs to m limit w = (Ret proposal, w') /\
    (forall step, step ∈ steps proposal ->
       reveals step Recipients = false /\ (reveals step LinkedAddresses = true -> may_link policy by_account)) /\
    eligible w' (min_target_height proposal) addrs l /\
    shielding_utxos numbers = Z.min u64_max (Z.of_nat (length (concat (input_values <$> steps proposal)))) /\
    shielding_value numbers = total (concat (input_values <$> steps proposal)) /\
    shielding_utxos numbers + remaining_utxos numbers = Z.min u64_max (Z.of_nat (length l)) /\
    shielding_value numbers + remaining_value numbers = total l /\
    0 <= remaining_utxos numbers /\ 0 <= remaining_value numbers /\
    exists account no_source, get_account w id = Ret (Some account) /\
      spending_keys c w' id (key_derivation account) no_source proposal = Ret keys.
Proof.
  intros Hel Hin. unfold z_shieldcoinbase.
  repeat setoid_rewrite run_bind_Ret. repeat setoid_rewrite run_lift_Ret.
  intros ([] & ? & [Hfee%ensure_Ret ->] & to & ? & [Hto%ok_or_Ret ->] & m & ? & [Hm ->] & from & ? & [Hfrom ->] &
    p & ? & [Hp ->] & ? & ? & [[= <-] ->] & [id addrs] & ? & [Hres ->] & Hrest).
  apply run_bind_Ret in Hrest as ([] & ? & [Hne%ensure_Ret ->]%run_lift_Ret & Hrest).
  apply run_bind_Ret in Hrest as (account & ? & [Hacc ->]%run_lift_Ret & Hrest).
  apply run_bind_Ret in Hrest as (prop & w1 & Hprop%run_with_err_Ret & Hrest).
  apply run_bind_Ret in Hrest as ([] & ? & [Hpriv%map_err_Ret ->]%run_lift_Ret & Hrest).
  apply run_bind_Ret in Hrest as (? & ? & [= <- <-] & Hrest).
  apply run_bind_Ret in Hrest as (num & ? & [Hnum ->]%run_lift_Ret & Hrest).
  apply run_bind_Ret in Hrest as (ks & ? & [Hks ->]%run_lift_Ret & [= <- <- <- <-]).
  apply negb_true_iff, bool_decide_eq_false in Hne.
  apply bind_Ret in Hacc as (o & Hacc%map_err_Ret & ->%ok_or_Ret).
  destruct (preflight_Ret _ _ _ _ (fun a h vs => Hel a h vs _) Hin Hnum) as (l & Hl & Hnumbers).
  eexists to, m, _, id, addrs, l.
  do 1 (split; [done|]). split; [by eapply parse_privacy_policy_Ret|]. do 2 (split; [done|]).
  split; [by eapply source_of_resolved|]. do 2 (split; [done|]).
  split; [by eapply shielding_reveals|]. split; [done|]. destruct Hnumbers as (? & ? & ? & ? & ? & ?).
  split_and!; try done. by eexists _, _.
Qed.
End proofs.

(** ** A concrete instance *)

Definition example_shield : @ShieldOps example_payments example_node example_send :=
  @Build_ShieldOps example_payments example_node example_send Z
    (fun s => if String.eqb s "u7" then Some 7 else None)
    (fun u => u) (fun u => "u"%string) (fun a => "u"%string) (fun a => "t"%string)
    (fun a => Some a) (fun w a => Ret (Some a))
    (fun addrs to m limit w => (Ret [ExampleStep [(71, 5); (72, 6)] [] [] []], w))
    (fun p => 100)
    (fun w a h => Ret (if bool_decide (a = 71) then [5; 3] else [6])).

Lemma z_shieldcoinbase_correct_witness :
  exists numbers proposal keys,
    (@z_shieldcoinbase _ _ example_send example_shield example_config "u7" "z" None None None None [7]).1 =
      Ret (numbers, proposal, keys) /\ remaining_value numbers = 3 /\
    shielding_value numbers + remaining_value numbers = 14.
Proof.
  destruct (@z_shieldcoinbase _ _ example_send example_shield example_config "u7" "z" None None None None [7])
    as [r w'] eqn:E.
  vm_compute in E. injection E as <- <-. eexists _, _, _. split; [reflexivity|]. split; [done|].
  destruct (@z_shieldcoinbase_correct _ _ example_send example_shield example_payments_laws example_config "u7" "z" None None None None [7] [7]
    {| remaining_utxos := 1; remaining_value := 3; shielding_utxos := 2; shielding_value := 11 |}
    [ExampleStep [(71, 5); (72, 6)] [] [] []] (700, [(71, [71000])]))
    as (to & m & b & id & addrs & l & _ & _ & _ & _ & _ & _ & _ & _ & (ls & Hls & ->) & _ & _ & _ & Hsum & _).
  - intros a h vs w. cbn. case_bool_decide; intros [= <-]; repeat constructor; unfold MAX_MONEY, COIN; lia.
  - repeat constructor; unfold MAX_MONEY, COIN; cbn; lia.
  - by vm_compute.
  - done.
Defined.
