(* ===== verification/ZebraView.v ===== *)
(** The zebra-state backend's pinned view of the chain
    (src/zallet/src/components/chain/zebra.rs, zebra/reader.rs, zebra/convert.rs).

    A view answers from a live node, whose best chain moves: below the finalized
    floor by height, above it by following parent hashes down from the captured
    tip, memoized in a cache that all clones of the view share. Here the node is
    a history, [env k] being its state at the [k]-th read; and between two reads
    other holders of the view may add to the cache ([interfere]).

    The theorems show that the view is what [ChainView] documents: whatever the
    node does, a read that answers at all answers from the chain of the captured
    tip. They also show the exception, [find_fork_point]. *)

From S2P Require Import Prelude Rpc Chain.

Definition MAX_REORG_DEPTH : Z := 1000.

Record HeaderInfo `{ChainTypes} := {
  info_height : Z;
  previous_block_hash : BlockHash
}.

Record MinedTxInfo := {
  mined_raw : list Byte.byte;
  tx_height : Z;
  tx_block_time : Z
}.

Record SideTxInfo `{ChainTypes} := {
  side_raw : list Byte.byte;
  side_block_hash : BlockHash
}.

(** The node at an instant, seen through [ChainReader] and the validator's RPC,
    and the crates' decoders. *)
Class NodeOps `{ChainTypes} := {
  NodeState : Type;
  TreeState : Type;
  node_tip : NodeState -> outcome ChainError (option ChainBlock);
  node_depth : NodeState -> BlockHash -> outcome ChainError (option Z);
  best_chain_block_hash : NodeState -> Z -> outcome ChainError (option BlockHash);
  raw_block_by_hash : NodeState -> BlockHash -> outcome ChainError (option (list Byte.byte));
  block_header_by_hash : NodeState -> BlockHash -> outcome ChainError (option HeaderInfo);
  sapling_tree_bytes : NodeState -> BlockHash -> outcome ChainError (option (list Byte.byte));
  orchard_tree_bytes : NodeState -> BlockHash -> outcome ChainError (option (list Byte.byte));
  node_transaction : NodeState -> TxId -> outcome ChainError (option MinedTxInfo);
  side_chain_transaction : NodeState -> TxId -> outcome ChainError (option SideTxInfo);
  get_raw_mempool : NodeState -> outcome string (list string);
  get_raw_transaction : NodeState -> string -> outcome string string;
  hex_decode : string -> outcome string (list Byte.byte);
  txid_to_string : TxId -> string;
  read_sapling_tree : list Byte.byte -> outcome string TreeState;
  read_orchard_tree : list Byte.byte -> outcome string TreeState;
  empty_tree : TreeState;
  chain_state : Z -> BlockHash -> TreeState -> TreeState -> ChainState;
  read_header : list Byte.byte -> outcome string BlockHeader;
  read_block : list Byte.byte -> outcome string Block;
  (** [convert::transaction] at a height. *)
  read_transaction : list Byte.byte -> Z -> outcome string Transaction
}.

Section view.
Context `{NodeOps} `{HeightOps}.
Context (env : nat -> NodeState) (interfere : nat -> gmap Z BlockHash -> gmap Z BlockHash).

Record ZebraChainView := { view_tip : ChainBlock; finalized_floor : Z }.

Record world := World { clock : nat; cache : gmap Z BlockHash }.

#[local] Abbreviation Reads := (M world ChainError).

(** A read of the node, an await point. *)
Definition rd {A} (f : NodeState -> outcome ChainError A) : Reads A := fun w =>
  (f (env (clock w)), World (S (clock w)) (interfere (clock w) (cache w))).

(** [cache.range(height..).next()]. *)
Definition ceiling (c : gmap Z BlockHash) (height : Z) : option (Z * BlockHash) :=
  foldr (fun e best =>
    if height <=? e.1 then
      match best with
      | Some b => if e.1 <? b.1 then Some e else best
      | None => Some e
      end
    else best) None (map_to_list c).

(** The loop that walks down from [cur_height], [n] blocks. *)
Fixpoint walk (n : nat) (cur_height : Z) (cur_hash : BlockHash) : Reads BlockHash :=
  match n with
  | O => mret cur_hash
  | S n =>
      o ← rd (fun s => block_header_by_hash s cur_hash);
      header ← lift (ok_or o (unavailable "pinned block reorged away during resolve"));
      let cur_hash := previous_block_hash header in
      let cur_height := cur_height - 1 in
      _ ← modify (fun w => World (clock w) (<[cur_height := cur_hash]> (cache w)));
      walk n cur_height cur_hash
  end.

Definition resolve (v : ZebraChainView) (height_ : Z) : Reads (option BlockHash) :=
  if height (view_tip v) <? height_ then mret None
  else if height_ <=? finalized_floor v then rd (fun s => best_chain_block_hash s height_)
  else
    c ← gets cache;
    match c !! height_ with
    | Some h => mret (Some h)
    | None =>
        '(cur_height, cur_hash) ← lift (expect (ceiling c height_));
        cur_hash ← walk (Z.to_nat (cur_height - height_)) cur_height cur_hash;
        mret (Some cur_hash)
    end.

(** [ZebraChain::snapshot]; the new view has its own cache. *)
Definition snapshot : Reads ZebraChainView :=
  o ← rd node_tip;
  tip ← lift (ok_or o (unavailable "the chain state has no tip yet"));
  _ ← modify (fun w => World (clock w) {[height tip := hash tip]});
  mret {| view_tip := tip; finalized_floor := saturating_sub (height tip) MAX_REORG_DEPTH |}.

(** ** The reads of [ChainView] *)

Definition tree_or (pinned_finalized : bool) (reorged : string)
    (read : list Byte.byte -> outcome string TreeState) (o : option (list Byte.byte)) :
    outcome ChainError TreeState :=
  match o with
  | Some bytes => map_err invalid_data (read bytes)
  | None => if pinned_finalized then Ret empty_tree else Err (unavailable reorged)
  end.

Definition tree_state_as_of (v : ZebraChainView) (height : Z) : Reads (option ChainState) :=
  o ← resolve v height;
  match o with
  | None => mret None
  | Some hash =>
      let pinned_finalized := height <=? finalized_floor v in
      s ← rd (fun n => sapling_tree_bytes n hash);
      sapling ← lift (tree_or pinned_finalized "pinned sapling treestate reorged away" read_sapling_tree s);
      o ← rd (fun n => orchard_tree_bytes n hash);
      orchard ← lift (tree_or pinned_finalized "pinned orchard treestate reorged away" read_orchard_tree o);
      mret (Some (chain_state height hash sapling orchard))
  end.

(** The raw block at a height. *)
Definition raw_block_at (v : ZebraChainView) (height : Z) : Reads (option (list Byte.byte)) :=
  o ← resolve v height;
  match o with
  | None => mret None
  | Some hash => rd (fun n => raw_block_by_hash n hash)
  end.

Definition get_block_header (v : ZebraChainView) (height : Z) : Reads (option BlockHeader) :=
  o ← raw_block_at v height;
  match o with
  | None => mret None
  | Some bytes => h ← lift (map_err invalid_data (read_header bytes)); mret (Some h)
  end.

Definition get_block (v : ZebraChainView) (height : Z) : Reads (option Block) :=
  o ← raw_block_at v height;
  match o with
  | None => mret None
  | Some bytes => b ← lift (map_err invalid_data (read_block bytes)); mret (Some b)
  end.

(** [stream_blocks_inner], run to its end: at most [n] blocks from [height]. *)
Fixpoint stream_blocks_inner (v : ZebraChainView) (n : nat) (height : Z) : Reads (list Block) :=
  match n with
  | O => mret []
  | S n =>
      o ← get_block v height;
      match o with
      | Some block => rest ← stream_blocks_inner v n (height_add height 1); mret (block :: rest)
      | None => mret []
      end
  end.

Definition stream_blocks_to_tip (v : ZebraChainView) (start : Z) : Reads (list Block) :=
  stream_blocks_inner v (Z.to_nat (height (view_tip v) + 1 - start)) start.

Definition stream_blocks (v : ZebraChainView) (range : Z * Z) : Reads (list Block) :=
  stream_blocks_inner v (Z.to_nat (height_sub range.2 1 + 1 - range.1)) range.1.

(** The loop of [ReadStateChainReader::find_fork_point]. *)
Fixpoint find_on_best_chain (tip_height : Z) (locator : BlockLocator) : Reads (option ChainBlock) :=
  match locator with
  | [] => mret None
  | hash :: locator =>
      o ← rd (fun n => node_depth n hash);
      match o with
      | Some depth => mret (Some {| height := saturating_sub tip_height depth; hash := hash |})
      | None => find_on_best_chain tip_height locator
      end
  end.

Definition find_fork_point (locator : BlockLocator) : Reads (option ChainBlock) :=
  o ← rd node_tip;
  match o with
  | None => mret None
  | Some tip => find_on_best_chain (height tip) locator
  end.

Definition in_mempool (txid : TxId) : Reads bool :=
  mempool ← rd (fun n => map_err backend (get_raw_mempool n));
  mret (existsb (fun t => String.eqb t (txid_to_string txid)) mempool).

Definition get_transaction (v : ZebraChainView) (txid : TxId) : Reads (option ChainTx) :=
  o ← rd (fun n => node_transaction n txid);
  match o with
  | Some mined =>
      inner ← lift (map_err invalid_data (read_transaction (mined_raw mined) (tx_height mined)));
      block_hash ← resolve v (tx_height mined);
      mret (Some {| inner := inner; raw := mined_raw mined; block_hash := block_hash;
                    mined_height := Some (tx_height mined); block_time := Some (tx_block_time mined) |})
  | None =>
      let mempool_height := height_add (height (view_tip v)) 1 in
      o ← rd (fun n => side_chain_transaction n txid);
      match o with
      | Some side =>
          inner ← lift (map_err invalid_data (read_transaction (side_raw side) mempool_height));
          mret (Some {| inner := inner; raw := side_raw side; block_hash := Some (side_block_hash side);
                        mined_height := None; block_time := None |})
      | None =>
          present ← in_mempool txid;
          if present : bool then
            raw_hex ← rd (fun n => map_err backend (get_raw_transaction n (txid_to_string txid)));
            raw ← lift (map_err invalid_data (hex_decode raw_hex));
            inner ← lift (map_err invalid_data (read_transaction raw mempool_height));
            mret (Some {| inner := inner; raw := raw; block_hash := None; mined_height := None; block_time := None |})
          else mret None
      end
  end.

Definition get_transaction_status (txid : TxId) : Reads TransactionStatus :=
  o ← rd (fun n => node_transaction n txid);
  match o with
  | Some mined => mret (Mined (tx_height mined))
  | None =>
      o ← rd (fun n => side_chain_transaction n txid);
      match o with
      | Some _ => mret NotInMainChain
      | None =>
          present ← in_mempool txid;
          mret (if present : bool then NotInMainChain else TxidNotRecognized)
      end
  end.
End view.

(** ** The pinned chain *)

Section pinned.
Context `{NodeOps} `{HeightLaws}.
Context (parent : BlockHash -> BlockHash) (height_of : BlockHash -> Z).
Context (env : nat -> NodeState) (interfere : nat -> gmap Z BlockHash -> gmap Z BlockHash).
Context (v : ZebraChainView) (k0 : nat).

(** The ancestor of the captured tip at a height. *)
Definition ancestor (h : Z) : BlockHash := Nat.iter (Z.to_nat (height (view_tip v) - h)) parent (hash (view_tip v)).

Definition pinned (h : Z) : option BlockHash :=
  if (0 <=? h) && (h <=? height (view_tip v)) then Some (ancestor h) else None.

(** What the node's readers promise: a header names its block's parent, a raw
    block is the block of its hash, the finalized blocks stay on the best chain. *)
Class NodeLaws := {
  tip_in_range : 0 <= height (view_tip v) < u32_max;
  floor_in_range : 0 <= finalized_floor v <= height (view_tip v);
  tip_height : height_of (hash (view_tip v)) = height (view_tip v);
  parent_height : forall x, height_of (parent x) = height_of x - 1;
  header_parent : forall k x i, block_header_by_hash (env k) x = Ret (Some i) -> previous_block_hash i = parent x;
  finalized_stable : forall k h o, (k0 <= k)%nat -> 0 <= h <= finalized_floor v ->
    best_chain_block_hash (env k) h = Ret o -> o = Some (ancestor h);
  raw_block_decodes : forall k x bytes b, raw_block_by_hash (env k) x = Ret (Some bytes) ->
    read_block bytes = Ret b -> header_hash (block_header b) = x /\ claimed_height b = height_of x;
  raw_header_decodes : forall k x bytes hd, raw_block_by_hash (env k) x = Ret (Some bytes) ->
    read_header bytes = Ret hd -> header_hash hd = x;
  node_never_panics : forall k, node_tip (env k) <> Panic /\
    (forall x, node_depth (env k) x <> Panic) /\ (forall h, best_chain_block_hash (env k) h <> Panic) /\
    (forall x, raw_block_by_hash (env k) x <> Panic) /\ (forall x, block_header_by_hash (env k) x <> Panic) /\
    (forall x, sapling_tree_bytes (env k) x <> Panic) /\ (forall x, orchard_tree_bytes (env k) x <> Panic);
  decoders_never_panic : forall bytes, read_block bytes <> Panic /\ read_header bytes <> Panic /\
    read_sapling_tree bytes <> Panic /\ read_orchard_tree bytes <> Panic
}.

(** The shared cache: the tip is in it, and every entry is the tip's ancestor. *)
Definition cache_ok (c : gmap Z BlockHash) : Prop :=
  c !! height (view_tip v) = Some (hash (view_tip v)) /\
  forall h x, c !! h = Some x -> h <= height (view_tip v) /\ x = ancestor h.

Definition view_ok (w : world) : Prop := (k0 <= clock w)%nat /\ cache_ok (cache w).

(** The other holders of the view keep the cache's invariant, as the reads do. *)
Context `{!NodeLaws} (Hothers : forall k c, cache_ok c -> cache_ok (interfere k c)).

(** Reads that answer [Q] or fail, without a panic, and keep the invariant. *)
Definition ok_reads {A} (m : M world ChainError A) (Q : A -> Prop) : Prop :=
  triple view_ok m (fun a w => Q a /\ view_ok w) (fun _ => view_ok).

Lemma ancestor_tip : ancestor (height (view_tip v)) = hash (view_tip v).
Proof. unfold ancestor. by rewrite Z.sub_diag. Qed.

Lemma ancestor_pred h : h <= height (view_tip v) -> ancestor (h - 1) = parent (ancestor h).
Proof.
  intros. unfold ancestor.
  by replace (Z.to_nat (height (view_tip v) - (h - 1))) with (S (Z.to_nat (height (view_tip v) - h))) by lia.
Qed.

Lemma ancestor_height h : h <= height (view_tip v) -> height_of (ancestor h) = h.
Proof.
  intros Hh. unfold ancestor.
  assert (forall n, height_of (Nat.iter n parent (hash (view_tip v))) = height (view_tip v) - Z.of_nat n) as Hn.
  { induction n as [|n IH]; [cbn; rewrite tip_height; lia|]. rewrite Nat.iter_succ, parent_height, IH. lia. }
  rewrite Hn. lia.
Qed.

Lemma ok_bind {A B} (m : M world ChainError A) (f : A -> M world ChainError B) Q Q' :
  ok_reads m Q' -> (forall a, Q' a -> ok_reads (f a) Q) -> ok_reads (m ≫= f) Q.
Proof.
  intros Hm Hf. eapply triple_bind; [exact Hm|]. intros a w [HQ Hw]. by apply (Hf a HQ w Hw).
Qed.

Lemma ok_ret {A} (a : A) (Q : A -> Prop) : Q a -> ok_reads (mret a) Q.
Proof. intros. by apply triple_ret. Qed.

Lemma ok_lift {A} (m : outcome ChainError A) (Q : A -> Prop) :
  m <> Panic -> (forall a, m = Ret a -> Q a) -> ok_reads (lift m) Q.
Proof. intros. apply triple_lift; auto. Qed.

Lemma ok_modify (f : world -> world) :
  (forall w, view_ok w -> view_ok (f w)) -> ok_reads (modify f) (fun _ => True).
Proof. intros Hf w Hw. split; [done|by apply Hf]. Qed.

Lemma ok_rd {A} (f : NodeState -> outcome ChainError A) (Q : A -> Prop) :
  (forall k, f (env k) <> Panic) -> (forall k a, (k0 <= k)%nat -> f (env k) = Ret a -> Q a) ->
  ok_reads (rd env interfere f) Q.
Proof.
  intros Hp HQ [k c] [Hk Hc]. cbn in *. specialize (HQ k). specialize (Hp k).
  assert (view_ok (World (S k) (interfere k c))) by (split; cbn; [lia|by apply Hothers]).
  destruct (f (env k)); [|done..]. by split; [apply HQ|].
Qed.

Lemma ceiling_spec (c : gmap Z BlockHash) h :
  match ceiling c h with
  | Some (h', x) => c !! h' = Some x /\ h <= h'
  | None => forall h' x, c !! h' = Some x -> h' < h
  end.
Proof.
  unfold ceiling.
  assert (forall l : list (Z * BlockHash), (forall e, e ∈ l -> c !! e.1 = Some e.2) ->
    match foldr (fun e best => if h <=? e.1 then
        match best with Some b => if e.1 <? b.1 then Some e else best | None => Some e end
      else best) None l with
    | Some (h', x) => c !! h' = Some x /\ h <= h'
    | None => forall e, e ∈ l -> e.1 < h
    end) as Hl.
  { induction l as [|[a x] l IH]; intros Hin; cbn; [by intros ? ?%not_elem_of_nil|].
    specialize (IH ltac:(intros; apply Hin; by right)).
    assert (c !! a = Some x) as Ha by (apply (Hin (a, x)); left).
    destruct (Z.leb_spec h a), (foldr _ None l) as [[b y]|]; cbn; try done.
    - by destruct (Z.ltb_spec a b).
    - intros e [-> |He]%elem_of_cons; [done|by apply IH]. }
  specialize (Hl (map_to_list c)). destruct (foldr _ None _) as [[? ?]|].
  - apply Hl. by intros [? ?] ?%elem_of_map_to_list.
  - intros h' x Hx. apply (Hl (fun e He => ltac:(destruct e; by apply elem_of_map_to_list in He)) (h', x)).
    by apply elem_of_map_to_list.
Qed.

Lemma walk_ok n h :
  h <= height (view_tip v) ->
  ok_reads (walk env interfere n h (ancestor h)) (fun x => x = ancestor (h - Z.of_nat n)).
Proof.
  revert h. induction n as [|n IH]; intros h Hh; cbn [walk].
  { apply ok_ret. by rewrite Z.sub_0_r. }
  eapply ok_bind; [apply (ok_rd _ (fun o => forall i, o = Some i -> previous_block_hash i = ancestor (h - 1)))|].
  - intros k. apply node_never_panics.
  - intros k o _ Ho i ->. rewrite ancestor_pred by done. by eapply header_parent.
  - intros o Ho. eapply ok_bind; [apply (ok_lift _ (fun i => previous_block_hash i = ancestor (h - 1)))|].
    + by destruct o.
    + intros i Hi%ok_or_Ret. by apply Ho.
    + intros i ->. eapply ok_bind; [apply ok_modify|].
      * intros [k c] [Hk [Ht Hc]]. split; [done|]. split; cbn in *.
        { rewrite lookup_insert_ne by lia. done. }
        intros h' x [[<- <-]|[Hne Hx]]%lookup_insert_Some; [split; [lia|done]|by apply Hc].
      * intros _ _. replace (h - Z.of_nat (S n)) with (h - 1 - Z.of_nat n) by lia. apply IH. lia.
Qed.

Lemma resolve_ok h : 0 <= h -> ok_reads (resolve env interfere v h) (fun o => o = pinned h).
Proof.
  intros Hh. unfold resolve, pinned.
  destruct (Z.ltb_spec (height (view_tip v)) h), (Z.leb_spec h (height (view_tip v))), (Z.leb_spec 0 h);
    try lia; cbn [andb]; [by apply ok_ret|].
  destruct (Z.leb_spec h (finalized_floor v)).
  { apply ok_rd; [intros; apply node_never_panics|]. intros k o Hk Ho. by eapply finalized_stable. }
  intros w Hw. unfold mbind at 1, M_bind at 1, gets. destruct Hw as [Hk [Ht Hc]].
  destruct (cache w !! h) as [x|] eqn:Hx.
  { cbn. apply Hc in Hx as [_ ->]. done. }
  pose proof (ceiling_spec (cache w) h) as Hceil. destruct (ceiling (cache w) h) as [[h' x]|].
  - destruct Hceil as [Hx' Hle]. apply Hc in Hx' as [Hle' ->]. cbn [expect].
    pose proof (walk_ok (Z.to_nat (h' - h)) h' Hle' w (conj Hk (conj Ht Hc))) as Hwalk.
    unfold mbind, M_bind, lift. destruct (walk _ _ _ _ _ w) as [[y|e|] w']; [|done|done].
    destruct Hwalk as [-> Hw']. cbn. split; [|done]. do 2 f_equal. lia.
  - apply Hceil in Ht. lia.
Qed.

Lemma snapshot_ok w w' : snapshot env interfere w = (Ret v, w') -> clock w' = k0 -> view_ok w'.
Proof.
  unfold snapshot. intros (o & w1 & Ho & Hr)%run_bind_Ret Hk.
  apply run_bind_Ret in Hr as (t & w2 & [Ht ->]%run_lift_Ret & Hr).
  apply run_bind_Ret in Hr as (? & w3 & Hm & [Hv ->]%run_ret_Ret). injection Hm as _ <-.
  assert (view_tip v = t) as Hvt by by rewrite Hv. rewrite <- Hvt in *.
  split; [cbn in *; lia|]. split; cbn [cache]; [by rewrite lookup_singleton_eq|].
  clear x; intros h x [<- <-]%lookup_singleton_Some. split; [done|]. by rewrite ancestor_tip.
Qed.

Lemma pinned_Some h x : pinned h = Some x <-> 0 <= h <= height (view_tip v) /\ x = ancestor h.
Proof.
  unfold pinned. destruct (Z.leb_spec 0 h), (Z.leb_spec h (height (view_tip v))); cbn [andb];
    (split; [try done|intros [? ->]; try lia]); [by intros [= <-]|done].
Qed.

(** The node no longer has the pinned block at a height, though it is below
    the captured tip. *)
Definition dropped (h : Z) : Prop :=
  exists k x, (k0 <= k)%nat /\ pinned h = Some x /\ raw_block_by_hash (env k) x = Ret None.

Lemma raw_block_at_ok h :
  0 <= h -> ok_reads (raw_block_at env interfere v h) (fun o =>
    match o with
    | Some bytes => exists k x, pinned h = Some x /\ raw_block_by_hash (env k) x = Ret (Some bytes)
    | None => pinned h = None \/ dropped h
    end).
Proof.
  intros Hh. unfold raw_block_at. eapply ok_bind; [by apply resolve_ok|].
  intros o ->. destruct (pinned h) as [x|] eqn:Hp; [|apply ok_ret; by left].
  apply ok_rd; [intros; apply node_never_panics|]. intros k [bytes|] Hk Hb; [eauto|].
  right. by exists k, x.
Qed.

Lemma get_block_ok h :
  0 <= h -> ok_reads (get_block env interfere v h) (fun o =>
    match o with
    | Some b => claimed_height b = h /\ pinned h = Some (header_hash (block_header b))
    | None => pinned h = None \/ dropped h
    end).
Proof.
  intros Hh. unfold get_block. eapply ok_bind; [by apply raw_block_at_ok|].
  intros [bytes|] Ho; [|by apply ok_ret]. destruct Ho as (k & x & Hp & Hb).
  eapply ok_bind; [apply (ok_lift _ (fun b => claimed_height b = h /\ pinned h = Some (header_hash (block_header b))))|].
  - apply map_err_not_Panic, decoders_never_panic.
  - intros b Hr%map_err_Ret. destruct (raw_block_decodes _ _ _ _ Hb Hr) as [-> ->].
    split; [|done]. apply pinned_Some in Hp as [? ->]. apply ancestor_height; lia.
  - intros b Hq. by apply ok_ret.
Qed.

Lemma stream_ok n h :
  0 <= h -> ok_reads (stream_blocks_inner env interfere v n h) (fun bs =>
    follows pinned h bs /\ (length bs <= n)%nat /\
    (length bs = n \/ pinned (h + Z.of_nat (length bs)) = None \/ dropped (h + Z.of_nat (length bs)))).
Proof.
  revert h. induction n as [|n IH]; intros h Hh; cbn [stream_blocks_inner].
  { apply ok_ret. cbn. auto. }
  eapply ok_bind; [by apply get_block_ok|]. intros [b|] Ho.
  - destruct Ho as [Hc Hp]. assert (height_add h 1 = h + 1) as ->.
    { apply pinned_Some in Hp as [? _]. pose proof tip_in_range. apply height_add_spec; lia. }
    eapply ok_bind; [apply IH; lia|]. intros bs (Hf & Hl & Hend). apply ok_ret. cbn [follows length].
    split_and!; [done..|lia|].
    replace (h + Z.of_nat (S (length bs))) with (h + 1 + Z.of_nat (length bs)) by lia.
    destruct Hend as [->|?]; auto.
  - apply ok_ret. cbn. rewrite Z.add_0_r. split_and!; [done|lia|auto].
Qed.

Lemma tree_or_not_Panic b s (read : list Byte.byte -> outcome string TreeState) o :
  (forall bytes, read bytes <> Panic) -> tree_or b s read o <> Panic.
Proof. intros. destruct o; cbn; [by apply map_err_not_Panic|by destruct b]. Qed.

(** C18. Every height a view resolves is resolved to the same chain, that of the
    captured tip: whatever the node's best chain became and whatever other
    holders cached, [resolve] does not panic, keeps the cache an image of the
    pinned chain, and when it answers, answers the captured tip's ancestor at
    the height (nothing above the tip). A fresh snapshot's cache is one. *)
Theorem resolve_pinned h :
  0 <= h ->
  ok_reads (resolve env interfere v h) (fun o => o = pinned h) /\
  forall w w', snapshot env interfere w = (Ret v, w') -> clock w' = k0 -> view_ok w'.
Proof. intros Hh. split; [by apply resolve_ok|by apply snapshot_ok]. Qed.

(** The blocks, headers and tree states a view reads at a height are those of
    the pinned chain. A read that answers with nothing is above the tip, or (for
    blocks and headers) the node dropped the pinned block after a reorg. *)
Theorem reads_pinned h :
  0 <= h ->
  ok_reads (get_block env interfere v h) (fun o =>
    match o with
    | Some b => claimed_height b = h /\ pinned h = Some (header_hash (block_header b))
    | None => pinned h = None \/ dropped h
    end) /\
  ok_reads (get_block_header env interfere v h) (fun o =>
    match o with
    | Some hd => pinned h = Some (header_hash hd)
    | None => pinned h = None \/ dropped h
    end) /\
  ok_reads (tree_state_as_of env interfere v h) (fun o =>
    match o with
    | Some cs => exists x sapling orchard, pinned h = Some x /\ cs = chain_state h x sapling orchard
    | None => pinned h = None
    end).
Proof.
  intros Hh. split_and!; [by apply get_block_ok|..].
  - unfold get_block_header. eapply ok_bind; [by apply raw_block_at_ok|].
    intros [bytes|] Ho; [|by apply ok_ret]. destruct Ho as (k & x & Hp & Hb).
    eapply ok_bind; [apply (ok_lift _ (fun hd => pinned h = Some (header_hash hd)))|].
    + apply map_err_not_Panic, decoders_never_panic.
    + intros hd Hr%map_err_Ret. by rewrite (raw_header_decodes _ _ _ _ Hb Hr).
    + intros hd Hq. by apply ok_ret.
  - unfold tree_state_as_of. eapply ok_bind; [by apply resolve_ok|].
    intros o ->. destruct (pinned h) as [x|]; [|by apply ok_ret].
    eapply ok_bind; [apply (ok_rd _ (fun _ => True)); [intros; apply node_never_panics|done]|]. intros s _.
    eapply ok_bind; [apply (ok_lift _ (fun _ => True)); [|done]|].
    { apply tree_or_not_Panic. intros. apply decoders_never_panic. }
    intros sapling _.
    eapply ok_bind; [apply (ok_rd _ (fun _ => True)); [intros; apply node_never_panics|done]|]. intros o _.
    eapply ok_bind; [apply (ok_lift _ (fun _ => True)); [|done]|].
    { apply tree_or_not_Panic. intros. apply decoders_never_panic. }
    intros orchard _. apply ok_ret. eauto.
Qed.

(** A stream of blocks yields consecutive blocks of the pinned chain from its
    start, at most up to the end of its range and the captured tip; run to its
    end without an error it yields them all, unless the node dropped the pinned
    block at which it stopped. *)
Theorem streams_pinned start end_ :
  0 <= start <= end_ -> 0 < end_ ->
  ok_reads (stream_blocks env interfere v (start, end_)) (fun bs =>
    follows pinned start bs /\ start + Z.of_nat (length bs) <= end_ /\
    (start + Z.of_nat (length bs) = end_ \/ height (view_tip v) < start + Z.of_nat (length bs) \/
     dropped (start + Z.of_nat (length bs)))) /\
  ok_reads (stream_blocks_to_tip env interfere v start) (fun bs =>
    follows pinned start bs /\
    (height (view_tip v) < start + Z.of_nat (length bs) \/ dropped (start + Z.of_nat (length bs)))).
Proof.
  intros Hs He.
  assert (forall z, 0 <= z -> pinned z = None -> height (view_tip v) < z) as Hnone.
  { intros z Hz. unfold pinned. destruct (Z.leb_spec 0 z), (Z.leb_spec z (height (view_tip v))); done || lia. }
  assert (forall n, ok_reads (stream_blocks_inner env interfere v n start) _) as Hok
    by (intros n; apply (stream_ok n start); lia).
  split.
  - unfold stream_blocks. cbn [fst snd]. rewrite height_sub_spec by lia.
    eapply triple_conseq; [apply Hok|done|cbn|done].
    intros bs w [(Hf & Hl & Hend) Hw]. split_and!; [done|lia| |done].
    destruct Hend as [->|[Hn|Hd]]; [left; lia|right; left; apply Hnone; [lia|done]|by right; right].
  - unfold stream_blocks_to_tip. eapply triple_conseq; [apply Hok|done|cbn|done].
    intros bs w [(Hf & Hl & Hend) Hw]. split_and!; [done| |done].
    destruct Hend as [->|[Hn|Hd]]; [left; lia|left; apply Hnone; [lia|done]|by right].
Qed.

Lemma rd_live {A} s (f : NodeState -> outcome ChainError A) w a w' :
  (forall k, (clock w <= k)%nat -> env k = s) ->
  rd env interfere f w = (Ret a, w') ->
  f s = Ret a /\ (forall k, (clock w' <= k)%nat -> env k = s) /\ (view_ok w -> view_ok w').
Proof.
  intros Hs. unfold rd. rewrite (Hs (clock w)) by lia. intros [= Ha <-]. split_and!; [done| |].
  - cbn. intros. apply Hs. lia.
  - intros [? ?]. split; cbn; [lia|by apply Hothers].
Qed.

(** On a node that does not move, [get_transaction] and
    [get_transaction_status] agree: a status is [Mined] at the height the
    transaction is returned with, [NotInMainChain] for one returned without a
    height (side chain, mempool), [TxidNotRecognized] when none is returned.
    The block hash of a mined transaction is that of the view's chain, the height
    that of the node's: none is reported above the captured tip. *)
Theorem transaction_reads_agree s txid w o w1 st w2 :
  (forall k, (clock w <= k)%nat -> env k = s) -> view_ok w ->
  (forall m, node_transaction s txid = Ret (Some m) -> 0 <= tx_height m) ->
  get_transaction env interfere v txid w = (Ret o, w1) ->
  get_transaction_status env interfere txid w = (Ret st, w2) ->
  st = match o with
       | Some tx => match mined_height tx with Some h => Mined h | None => NotInMainChain end
       | None => TxidNotRecognized
       end /\
  forall tx h, o = Some tx -> mined_height tx = Some h -> block_hash tx = pinned h.
Proof.
  intros Hs Hw Hm. unfold get_transaction, get_transaction_status.
  intros (m & x1 & Hx1 & Hr)%run_bind_Ret (m' & x1' & Hx1' & Hr')%run_bind_Ret.
  apply (rd_live s) in Hx1 as [Hx1 [Hs1 Hw1]], Hx1' as [Hx1' [Hs1' _]]; [|done..].
  assert (m' = m) as -> by congruence. destruct m as [m|].
  { apply run_bind_Ret in Hr as (i & x2 & [_ ->]%run_lift_Ret & Hr).
    apply run_bind_Ret in Hr as (b & x3 & Hb & [-> ->]%run_ret_Ret).
    apply run_ret_Ret in Hr' as [-> ->]. split; [done|]. intros tx h [= <-] [= <-]. cbn.
    pose proof (resolve_ok (tx_height m) (Hm m Hx1) x1 (Hw1 Hw)) as Hres. rewrite Hb in Hres. apply Hres. }
  apply run_bind_Ret in Hr as (d & x2 & [Hx2 [Hs2 _]]%(rd_live s) & Hr); [|done].
  apply run_bind_Ret in Hr' as (d' & x2' & [Hx2' [Hs2' _]]%(rd_live s) & Hr'); [|done].
  assert (d' = d) as -> by congruence. destruct d as [d|].
  { apply run_bind_Ret in Hr as (i & x3 & _ & [-> ->]%run_ret_Ret).
    apply run_ret_Ret in Hr' as [-> ->]. split; [done|]. by intros tx h [= <-]. }
  apply run_bind_Ret in Hr as (p & x3 & Hp & Hr). apply run_bind_Ret in Hr' as (p' & x3' & Hp' & Hr').
  unfold in_mempool in Hp, Hp'.
  apply run_bind_Ret in Hp as (l & ? & [Hl _]%(rd_live s) & [-> _]%run_ret_Ret); [|done].
  apply run_bind_Ret in Hp' as (l' & ? & [Hl' _]%(rd_live s) & [-> _]%run_ret_Ret); [|done].
  assert (l' = l) as -> by congruence. apply run_ret_Ret in Hr' as [-> _].
  destruct (existsb _ l).
  - apply run_bind_Ret in Hr as (? & ? & _ & Hr). apply run_bind_Ret in Hr as (? & ? & _ & Hr).
    apply run_bind_Ret in Hr as (? & ? & _ & [-> _]%run_ret_Ret). split; [done|]. by intros tx h [= <-].
  - by apply run_ret_Ret in Hr as [-> _].
Qed.
End pinned.

(** ** Reads of the live chain *)

Section live.
Context `{NodeOps} `{HeightOps}.
Context (env : nat -> NodeState) (interfere : nat -> gmap Z BlockHash -> gmap Z BlockHash).
Context (best : NodeState -> Z -> option BlockHash).

(** What zebra-state documents of the depth of a block: its distance from the
    tip of the best chain, for the blocks of that chain. *)
Class DepthLaws := {
  depth_Some : forall s x d, node_depth s x = Ret (Some d) ->
    exists t, node_tip s = Ret (Some t) /\ 0 <= d <= height t /\ best s (height t - d) = Some x;
  depth_None : forall s x h, node_depth s x = Ret None -> best s h <> Some x
}.

Context `{!DepthLaws}.

(** A block of the locator, the first one on the best chain of [s]. *)
Definition fork_point_of (s : NodeState) (locator : BlockLocator) (o : option ChainBlock) : Prop :=
  match o with
  | Some b => exists pre suf, locator = pre ++ hash b :: suf /\ best s (height b) = Some (hash b) /\
      forall x h, x ∈ pre -> best s h <> Some x
  | None => forall x h, x ∈ locator -> best s h <> Some x
  end.

Lemma find_on_best_chain_live s t locator w o w' :
  (forall k, (clock w <= k)%nat -> env k = s) -> node_tip s = Ret (Some t) ->
  find_on_best_chain env interfere (height t) locator w = (Ret o, w') -> fork_point_of s locator o.
Proof.
  intros Hs Ht. revert w Hs. induction locator as [|x l IH]; intros w Hs; cbn [find_on_best_chain].
  { intros [-> ->]%run_ret_Ret. by intros ? ? ?%not_elem_of_nil. }
  intros (d & w1 & Hd & Hr)%run_bind_Ret. unfold rd in Hd. rewrite (Hs (clock w)) in Hd by lia.
  injection Hd as Hd <-. destruct d as [d|].
  - apply run_ret_Ret in Hr as [-> ->]. apply depth_Some in Hd as (t' & Ht' & Hd & Hb).
    assert (t' = t) as -> by congruence.
    exists [], l. cbn. unfold saturating_sub. rewrite Z.max_r by lia. split_and!; [done..|].
    by intros ? ? ?%not_elem_of_nil.
  - apply IH in Hr; [|cbn; intros; apply Hs; lia]. destruct o as [b|].
    + destruct Hr as (pre & suf & -> & Hb & Hpre). exists (x :: pre), suf. split_and!; [done..|].
      intros y h [-> |Hy]%elem_of_cons; [by apply depth_None|by apply Hpre].
    + intros y h [-> |Hy]%elem_of_cons; [by apply depth_None|by apply Hr].
Qed.

(** On a node whose best chain does not move during the call, the fork point
    is the first block of the locator that is on the node's current best chain,
    with its height there, and there is none exactly when no block of the
    locator is on it. *)
Theorem find_fork_point_live s t locator w o w' :
  (forall k, (clock w <= k)%nat -> env k = s) -> node_tip s = Ret (Some t) ->
  find_fork_point env interfere locator w = (Ret o, w') -> fork_point_of s locator o.
Proof.
  intros Hs Ht. unfold find_fork_point. intros (o' & w1 & Ho & Hr)%run_bind_Ret.
  unfold rd in Ho. rewrite (Hs (clock w)), Ht in Ho by lia. injection Ho as <- <-.
  apply find_on_best_chain_live with (s := s) in Hr; [done|cbn; intros; apply Hs; lia|done].
Qed.

(** The fork point is the live node's, not the view's: when the locator's
    first block [x] is on the best chain as its depth is read (the tip then being
    [t']), the height reported for it is too low by exactly the number of blocks
    the tip gained since it was read as [t]. The captured tip plays no part. *)
Theorem find_fork_point_off_by_progress t t' x d locator w :
  node_tip (env (clock w)) = Ret (Some t) ->
  node_tip (env (S (clock w))) = Ret (Some t') ->
  node_depth (env (S (clock w))) x = Ret (Some d) -> d <= height t ->
  exists b w', find_fork_point env interfere (x :: locator) w = (Ret (Some b), w') /\ hash b = x /\
    best (env (S (clock w))) (height b + (height t' - height t)) = Some x.
Proof.
  intros Ht Ht' Hd Hle. unfold find_fork_point. rewrite run_bind. unfold rd at 1.
  rewrite Ht. cbn [find_on_best_chain]. rewrite run_bind. unfold rd. cbn [clock cache].
  rewrite Hd. destruct (depth_Some _ _ _ Hd) as (t'' & Ht'' & Hrange & Hb).
  assert (t'' = t') as -> by congruence.
  eexists _, _. split_and!; [done..|]. cbn [height]. unfold saturating_sub. rewrite Z.max_r by lia.
  by replace (height t - d + (height t' - height t)) with (height t' - d) by lia.
Qed.
End live.

(** ** A node *)

Section example.

#[local] Instance node_types : ChainTypes := {|
  BlockHash := Z * Z; BlockHeader := Z * Z; Block := Z * (Z * Z); Transaction := Z; TxId := Z;
  ChainState := Z * (Z * Z); header_hash h := h; claimed_height := fst; block_header := snd |}.

#[local] Instance node_heights : HeightOps :=
  {| height_add a b := Z.min u32_max (a + b); height_sub a b := Z.max 0 (a - b) |}.

#[local] Instance node_heights_laws : HeightLaws.
Proof. split; unfold height_add, height_sub; cbn; intros; lia. Qed.

(** A block of a branch; branches part at height 5. *)
Definition example_block (h b : Z) : Z * Z := (h, if h <? 5 then 0 else b).

Definition example_parent (x : Z * Z) : Z * Z := example_block (x.1 - 1) x.2.

Definition example_byte (z : Z) : Byte.byte :=
  match Byte.of_N (Z.to_N z) with Some b => b | None => Byte.x00 end.

Definition example_decode (bytes : list Byte.byte) : outcome string (Z * Z) :=
  match bytes with
  | [h; b] => Ret (Z.of_N (Byte.to_N h), Z.of_N (Byte.to_N b))
  | _ => Err "malformed"%string
  end.

(** Its state: the tip's height, the best chain's branch. A block that is not on
    the best chain has been dropped; its header has not. *)
#[local] Instance example_node : NodeOps := @Build_NodeOps node_types (Z * Z) unit
  (fun s => Ret (Some {| height := s.1; hash := example_block s.1 s.2 |}))
  (fun s x => Ret (if bool_decide (0 <= x.1 <= s.1 /\ x = example_block x.1 s.2) then Some (s.1 - x.1) else None))
  (fun s h => Ret (Some (example_block h s.2)))
  (fun s x => Ret (if bool_decide (x = example_block x.1 s.2 /\
      example_decode [example_byte x.1; example_byte x.2] = Ret x)
    then Some [example_byte x.1; example_byte x.2] else None))
  (fun s x => Ret (Some {| info_height := x.1; previous_block_hash := example_parent x |}))
  (fun s x => Ret (Some [])) (fun s x => Ret (Some []))
  (fun s txid => Ret (if txid =? 7 then Some {| mined_raw := []; tx_height := 6; tx_block_time := 0 |} else None))
  (fun s txid => Ret None)
  (fun s => Ret []) (fun s t => Ret ""%string) (fun t => Ret []) (fun t => ""%string)
  (fun _ => Ret tt) (fun _ => Ret tt) tt (fun h x _ _ => (h, x)) example_decode
  (fun bytes => (fun x => (x.1, x)) <$> example_decode bytes) (fun _ _ => Ret 7).

(** Captured at height 10 of branch 1, the node then reorganises to branch 2. *)
Definition example_env (k : nat) : Z * Z := if (k =? 0)%nat then (10, 1) else (12, 2).

Definition example_view : ZebraChainView :=
  {| view_tip := {| height := 10; hash := (10, 1) |}; finalized_floor := 0 |}.

(** Another holder of the view resolves height 7. *)
Definition example_interfere (k : nat) (c : gmap Z (Z * Z)) : gmap Z (Z * Z) := <[7 := (7, 1)]> c.

Definition example_world : world := World 1 {[10 := (10, 1)]}.

#[local] Instance example_node_laws : NodeLaws example_parent fst example_env example_view 1.
Proof.
  split; cbn.
  - by split.
  - by split.
  - done.
  - done.
  - by intros k x i [= <-].
  - intros k h o Hk Hh [= <-]. by replace h with 0 by lia.
  - intros k x bytes b [= Hb] Hr. case_bool_decide as Hd; [|done]. injection Hb as <-.
    destruct Hd as [_ Hd]. change (example_decode [example_byte x.1; example_byte x.2] = Ret x) in Hd.
    rewrite Hd in Hr. by injection Hr as <-.
  - intros k x bytes hd [= Hb] Hr. case_bool_decide as Hd; [|done]. injection Hb as <-.
    destruct Hd as [_ Hd]. change (example_decode [example_byte x.1; example_byte x.2] = Ret x) in Hd.
    rewrite Hd in Hr. by injection Hr as <-.
  - done.
  - intros bytes. unfold example_decode. split_and!; by destruct bytes as [|? [|? [|]]].
Qed.

Lemma example_others k c : cache_ok example_parent example_view c ->
  cache_ok example_parent example_view (example_interfere k c).
Proof.
  intros [Ht Hc]. unfold example_interfere. split; [by rewrite lookup_insert_ne|].
  intros h x [[<- <-]|[_ Hx]]%lookup_insert_Some; [done|by apply Hc].
Qed.

Lemma resolve_pinned_witness :
  resolve example_env example_interfere example_view 6 example_world =
    (Ret (Some (6, 1)), World 5 {[10 := (10, 1); 9 := (9, 1); 8 := (8, 1); 7 := (7, 1); 6 := (6, 1)]}) /\
  ok_reads example_parent example_view 1 (resolve example_env example_interfere example_view 6)
    (fun o => o = Some (6, 1)).
Proof.
  split; [vm_compute; reflexivity|].
  exact (proj1 (resolve_pinned example_parent fst example_env example_interfere example_view 1
    example_others 6 ltac:(lia))).
Defined.

Lemma reads_pinned_witness :
  (get_block example_env example_interfere example_view 4 example_world).1 = Ret (Some (4, (4, 0))) /\
  (get_block example_env example_interfere example_view 6 example_world).1 = Ret None /\
  ok_reads example_parent example_view 1 (get_block example_env example_interfere example_view 4) (fun o =>
    match o with
    | Some b => b.1 = 4 /\ pinned example_parent example_view 4 = Some b.2
    | None => pinned example_parent example_view 4 = None \/ dropped example_parent example_env example_view 1 4
    end).
Proof.
  split_and!; [vm_compute; reflexivity..|].
  exact (proj1 (reads_pinned example_parent fst example_env example_interfere example_view 1
    example_others 4 ltac:(lia))).
Defined.

Lemma streams_pinned_witness :
  (stream_blocks example_env example_interfere example_view (2, 9) example_world).1 =
    Ret [(2, (2, 0)); (3, (3, 0)); (4, (4, 0))] /\
  ok_reads example_parent example_view 1 (stream_blocks example_env example_interfere example_view (2, 9)) (fun bs =>
    follows (pinned example_parent example_view) 2 bs /\ 2 + Z.of_nat (length bs) <= 9 /\
    (2 + Z.of_nat (length bs) = 9 \/ 10 < 2 + Z.of_nat (length bs) \/
     dropped example_parent example_env example_view 1 (2 + Z.of_nat (length bs)))).
Proof.
  split; [vm_compute; reflexivity|].
  exact (proj1 (streams_pinned example_parent fst example_env example_interfere example_view 1
    example_others 2 9 ltac:(lia) ltac:(lia))).
Defined.

Definition example_best (s : Z * Z) (h : Z) : option (Z * Z) :=
  if bool_decide (0 <= h <= s.1) then Some (example_block h s.2) else None.

#[local] Instance example_depth_laws : DepthLaws example_best.
Proof.
  split; unfold node_depth, node_tip; cbn.
  - intros s x d [= Hd]. case_bool_decide as Hx; [|done]. injection Hd as <-. destruct Hx as [Hr Hx].
    eexists. split; [done|]. cbn. split; [lia|]. unfold example_best.
    replace (s.1 - (s.1 - x.1)) with x.1 by lia. rewrite bool_decide_true by lia. by rewrite <- Hx.
  - intros s x h [= Hd] Hb. case_bool_decide as Hx; [done|]. apply Hx. unfold example_best in Hb.
    case_bool_decide as Hh; [|done]. injection Hb as <-. by split.
Qed.

Definition example_tip (h b : Z) : ChainBlock := {| height := h; hash := example_block h b |}.

(** A node at rest after the reorganisation, a view's other holders at rest too. *)
Definition example_settled (k : nat) : Z * Z := (12, 2).

(** A node whose tip advances with every read. *)
Definition example_forward (k : nat) : Z * Z := (10 + Z.of_nat k, 1).

Lemma find_fork_point_live_witness :
  (find_fork_point example_settled example_interfere [(8, 1); (4, 0); (3, 0)] example_world).1 =
    Ret (Some (example_tip 4 0)) /\
  fork_point_of example_best (12, 2) [(8, 1); (4, 0); (3, 0)] (Some (example_tip 4 0)).
Proof.
  split; [vm_compute; reflexivity|].
  eapply (@find_fork_point_live node_types example_node example_settled example_interfere example_best _ (12, 2)
    (example_tip 12 2) [(8, 1); (4, 0); (3, 0)] example_world);
    [done|reflexivity|vm_compute; reflexivity].
Defined.

(** The block of height 10 is reported at height 9. *)
Lemma find_fork_point_off_by_progress_witness :
  (find_fork_point example_forward example_interfere [(10, 1)] (World 0 ∅)).1 =
    Ret (Some {| height := 9; hash := (10, 1) |}) /\
  exists b w', find_fork_point example_forward example_interfere [(10, 1)] (World 0 ∅) = (Ret (Some b), w') /\
    hash b = (10, 1) /\ example_best (11, 1) (height b + (11 - 10)) = Some (10, 1).
Proof.
  split; [vm_compute; reflexivity|].
  exact (@find_fork_point_off_by_progress node_types example_node example_forward example_interfere example_best _
    (example_tip 10 1) (example_tip 11 1) (10, 1) 1 [] (World 0 ∅)
    eq_refl eq_refl eq_refl ltac:(done)).
Defined.

Definition example_tx : ChainTx :=
  {| inner := 7; raw := []; block_hash := Some (6, 1); mined_height := Some 6; block_time := Some 0 |}.

(** A transaction of the new branch, at a height the pinned chain has too. *)
Lemma transaction_reads_agree_witness :
  (get_transaction example_env example_interfere example_view 7 example_world).1 =
    Ret (Some example_tx) /\
  (get_transaction_status example_env example_interfere 7 example_world).1 = Ret (Mined 6) /\
  Mined 6 = match mined_height example_tx with Some h => Mined h | None => NotInMainChain end /\
  block_hash example_tx = pinned example_parent example_view 6.
Proof.
  split; [vm_compute; reflexivity|]. split; [vm_compute; reflexivity|].
  enough (_ /\ forall tx h, Some example_tx = Some tx -> mined_height tx = Some h ->
    block_hash tx = pinned example_parent example_view h) as [Hst Hh] by (split; [exact Hst|by apply Hh]).
  eapply (transaction_reads_agree (H:=node_types) (H0:=example_node) example_parent fst example_env
    example_interfere example_view 1 example_others (12, 2) 7 example_world (Some example_tx) _ (Mined 6)).
  - intros [|k] Hk; [cbn in Hk; lia|done].
  - split; [done|]. split; [done|]. intros h x Hx. unfold example_world in Hx. cbn [cache] in Hx.
    apply (lookup_singleton_Some (M:=gmap Z)) in Hx as [<- <-]. done.
  - intros m. cbn. by intros [= <-].
  - vm_compute. reflexivity.
  - vm_compute. reflexivity.
Defined.
End example.
