(* ===== verification/Params.v ===== *)
(** Parameters common to many JSON-RPC methods
    (src/zallet/src/components/json_rpc/utils.rs, lines 117-316): accounts by
    UUID or by zcashd's account number, block heights, confirmations, seed
    fingerprints, transaction ids, and the birthday of a new account.

    The wallet's and keystore's tables are read through [ParamOps]. *)

From S2P Require Import Prelude Rpc Chain.

Definition ZCASH_LEGACY_ACCOUNT : Z := 0x7fffffff.

(** What the crates' parsers and the two databases answer. *)
Class ParamOps := {
  Wallet : Type;
  AccountUuid : Type;
  Account : Type;
  SeedFingerprint : Type;
  DiversifierIndex : Type;
  #[global] SeedFingerprint_eq_dec :: EqDecision SeedFingerprint;
  #[global] SeedFingerprint_countable :: Countable SeedFingerprint;
  (** [serde_json::Number::as_u64]. *)
  as_u64 : string -> option Z;
  uuid_parse : string -> option AccountUuid;
  fp_parse : string -> outcome string SeedFingerprint;
  fp_from_bytes : list Byte.byte -> SeedFingerprint;
  (** [hex::decode_to_slice] into 32 bytes. *)
  hex_decode32 : string -> option (list Byte.byte);
  reverse_hex_decode32 : string -> option (list Byte.byte);
  diversifier_index_of : Z -> option DiversifierIndex;
  show_account_number : Z -> string;
  (** [ErrorCode::message], the message of an error made from its code alone. *)
  code_message : ErrorCode -> string;
  list_legacy_seed_fingerprints : Wallet -> outcome string (list SeedFingerprint);
  get_account_ids : Wallet -> outcome string (list AccountUuid);
  get_account : Wallet -> AccountUuid -> outcome string (option Account);
  (** The seed fingerprint and ZIP 32 index the account's key derives from. *)
  key_derivation : Account -> option (SeedFingerprint * Z)
}.

Definition database_error (e : string) : ErrorObject := with_message Database (Text e).

Section params.
Context `{ParamOps}.

(** [RpcErrorCode::into]. *)
Definition of_code (c : ErrorCode) : ErrorObject := {| code := c; msg := Text (code_message c); data := None |}.

(** One candidate of the loop of [parse_account_parameter]. *)
Definition account_candidate (wallet : Wallet) (legacy_seeds : list SeedFingerprint) (zip32_account_index : Z)
    (s : gset SeedFingerprint * option AccountUuid) (candidate_account_id : AccountUuid) :
    RpcResult (gset SeedFingerprint * option AccountUuid) :=
  o ← map_err database_error (get_account wallet candidate_account_id);
  account ← ok_or o (of_code InternalError);
  match key_derivation account with
  | Some (seed_fp, account_index) =>
      if bool_decide (seed_fp ∈ legacy_seeds) then Ret s
      else Ret ({[seed_fp]} ∪ s.1,
                if account_index =? zip32_account_index then Some candidate_account_id else s.2)
  | None => Ret s
  end.

Definition account_by_index (wallet : Wallet) (zip32_account_index : Z) : RpcResult AccountUuid :=
  legacy_seeds ← map_err database_error (list_legacy_seed_fingerprints wallet);
  ids ← map_err database_error (get_account_ids wallet);
  '(distinct_seeds, account_id) ← foldM (account_candidate wallet legacy_seeds zip32_account_index) (∅, None) ids;
  if bool_decide (size distinct_seeds = 1%nat) then
    ok_or account_id (with_message Rpc.Wallet
      (Text ("Error: account " +:+ show_account_number zip32_account_index +:+
             " has not been generated by z_getnewaccount.")%string))
  else Err (with_static Rpc.Wallet "Account numbers are not supported in wallets with multiple seeds. Use the account UUID instead.").

Definition parse_account_parameter (wallet : Wallet) (account : JsonValue) : RpcResult AccountUuid :=
  match account with
  | JNumber n =>
      zip32_account_index ← ok_or
        (match as_u64 n with
         | Some n => if n <? ZCASH_LEGACY_ACCOUNT then Some n else None
         | None => None
         end)
        (with_static InvalidParameter "Invalid account number, must be 0 <= account <= (2^31)-2.");
      account_by_index wallet zip32_account_index
  | JString s => ok_or (uuid_parse s) (of_code InvalidParams)
  | _ => Err (of_code InvalidParams)
  end.

Definition parse_diversifier_index (diversifier_index : Z) : RpcResult DiversifierIndex :=
  ok_or (diversifier_index_of diversifier_index)
    (with_static InvalidParameter "diversifier index is too large.").

Definition parse_seedfp (seedfp : string) : outcome string SeedFingerprint :=
  match fp_parse seedfp with
  | Err e =>
      hash ← ok_or (hex_decode32 seedfp) e;
      Ret (fp_from_bytes (rev hash))
  | r => r
  end.

Definition parse_seedfp_parameter (seedfp : string) : RpcResult SeedFingerprint :=
  map_err (fun e => with_message InvalidParameter (Text ("Invalid seed fingerprint: " +:+ e)%string))
    (parse_seedfp seedfp).

Definition parse_txid (txid_str : string) : RpcResult (list Byte.byte) :=
  ok_or (reverse_hex_decode32 txid_str) (with_static InvalidParameter "invalid txid").

(** ** Accounts by number *)

(** The accounts [accs] of the identifiers [ids] that take part: those derived
    from a seed that is not a legacy one, with their derivations. *)
Definition eligible (legacy : list SeedFingerprint) (ids : list AccountUuid) (accs : list Account) :
    list (AccountUuid * (SeedFingerprint * Z)) :=
  omap (fun p : AccountUuid * Account =>
    match key_derivation p.2 with
    | Some d => if bool_decide (d.1 ∈ legacy) then None else Some (p.1, d)
    | None => None
    end) (zip ids accs).

(** Those with an account number. *)
Definition numbered (n : Z) (l : list (AccountUuid * (SeedFingerprint * Z))) : list AccountUuid :=
  omap (fun e => if e.2.2 =? n then Some e.1 else None) l.

Definition is_account (wallet : Wallet) (i : AccountUuid) (a : Account) : Prop :=
  get_account wallet i = Ret (Some a).

(** What the loop has after eligible accounts [l], from [s]. *)
Definition gathered (n : Z) (l : list (AccountUuid * (SeedFingerprint * Z)))
    (s : gset SeedFingerprint * option AccountUuid) : gset SeedFingerprint * option AccountUuid :=
  (list_to_set l.*2.*1 ∪ s.1, match last (numbered n l) with Some i => Some i | None => s.2 end).

Lemma gathered_nil n s : gathered n [] s = s.
Proof. unfold gathered. cbn. rewrite union_empty_l_L. by destruct s. Qed.

Lemma gathered_app n l l' s : gathered n (l ++ l') s = gathered n l' (gathered n l s).
Proof.
  unfold gathered, numbered. rewrite omap_app, !fmap_app, list_to_set_app_L. cbn [fst snd].
  f_equal; [set_solver|]. rewrite last_app. by destruct (last (omap _ l')).
Qed.

Lemma eligible_cons legacy i ids a accs :
  eligible legacy (i :: ids) (a :: accs) = eligible legacy [i] [a] ++ eligible legacy ids accs.
Proof. unfold eligible. cbn. by destruct (match key_derivation a with Some _ => _ | None => _ end). Qed.

Lemma account_candidate_spec w legacy n s i s' :
  account_candidate w legacy n s i = Ret s' <->
  exists a, is_account w i a /\ s' = gathered n (eligible legacy [i] [a]) s.
Proof.
  unfold account_candidate. rewrite bind_Ret. setoid_rewrite map_err_Ret.
  setoid_rewrite bind_Ret. setoid_rewrite ok_or_Ret.
  assert (forall a, match key_derivation a with
      | Some (fp, k) => if bool_decide (fp ∈ legacy) then Ret s
          else Ret ({[fp]} ∪ s.1, if k =? n then Some i else s.2)
      | None => Ret s
      end = Ret (E:=ErrorObject) (gathered n (eligible legacy [i] [a]) s)) as Ha.
  { intros a. unfold eligible. cbn.
    destruct (key_derivation a) as [[fp k]|]; cbn; [|by rewrite gathered_nil].
    case_bool_decide; cbn; [by rewrite gathered_nil|]. unfold gathered, numbered. cbn.
    rewrite union_empty_r_L. by destruct (k =? n). }
  split.
  - intros (o & Ho & a & -> & Hs). exists a. split; [done|]. rewrite Ha in Hs. by injection Hs.
  - intros (a & Hi & ->). exists (Some a). split; [done|]. exists a. split; [done|]. apply Ha.
Qed.

Lemma account_candidates_spec w legacy n s ids s' :
  foldM (account_candidate w legacy n) s ids = Ret s' <->
  exists accs, Forall2 (is_account w) ids accs /\ s' = gathered n (eligible legacy ids accs) s.
Proof.
  revert s. induction ids as [|i ids IH]; intros s; cbn [foldM].
  { split.
    - intros [= <-]. exists []. by rewrite gathered_nil.
    - intros (accs & ->%Forall2_nil_inv_l & ->). by rewrite gathered_nil. }
  rewrite bind_Ret. setoid_rewrite account_candidate_spec. setoid_rewrite IH. split.
  - intros (s1 & (a & Ha & ->) & (accs & Haccs & ->)). exists (a :: accs).
    rewrite (eligible_cons legacy i ids a accs), gathered_app. split; [by constructor|done].
  - intros (accs & HF & ->). inversion HF as [|? a ? accs' Ha HF']; subst.
    eexists. split; [by exists a|]. exists accs'. by rewrite (eligible_cons legacy i ids a accs'), gathered_app.
Qed.

Lemma size_seeds_1 (l : list SeedFingerprint) :
  size (list_to_set l :> gset SeedFingerprint) = 1%nat <-> l <> [] /\ exists fp, forall x, x ∈ l -> x = fp.
Proof.
  split.
  - intros (fp & Hfp)%size_1_elem_of. split; [|exists fp; set_solver].
    intros ->. set_solver.
  - intros (Hne & fp & Hfp). destruct l as [|x l]; [done|].
    assert (list_to_set (x :: l) =@{gset SeedFingerprint} {[fp]}) as ->; [|apply size_singleton].
    apply set_eq. intros y. rewrite elem_of_list_to_set, elem_of_singleton. split; [apply Hfp|].
    intros ->. rewrite <- (Hfp x) by left. left.
Qed.

Lemma foldM_candidates_not_Panic w legacy n s ids :
  (forall i, get_account w i <> Panic) -> foldM (account_candidate w legacy n) s ids <> Panic.
Proof.
  intros Hp. revert s. induction ids as [|i ids IH]; intros s; cbn [foldM]; [done|].
  apply bind_not_Panic; [|intros; apply IH]. unfold account_candidate.
  apply bind_not_Panic; [by apply map_err_not_Panic|]. intros o _.
  apply bind_not_Panic; [by destruct o|]. intros a _.
  destruct (key_derivation a) as [[]|]; [by case_bool_decide|done].
Qed.

(** An account parameter that is a number [n] selects an account exactly when
    [n] is below 2^31 - 1, the eligible accounts (those derived from a seed that
    is not a legacy one) are all derived from one seed, and some have the number
    [n]: the last of those. A string selects the account of its UUID, anything
    else fails; nothing panics. *)
Theorem parse_account_parameter_correct w v :
  list_legacy_seed_fingerprints w <> Panic -> get_account_ids w <> Panic ->
  (forall i, get_account w i <> Panic) ->
  parse_account_parameter w v <> Panic /\
  forall id, parse_account_parameter w v = Ret id <->
    match v with
    | JNumber t => exists n legacy ids accs fp,
        as_u64 t = Some n /\ n < 2 ^ 31 - 1 /\
        list_legacy_seed_fingerprints w = Ret legacy /\ get_account_ids w = Ret ids /\
        Forall2 (is_account w) ids accs /\
        (forall e, e ∈ eligible legacy ids accs -> e.2.1 = fp) /\
        last (numbered n (eligible legacy ids accs)) = Some id
    | JString s => uuid_parse s = Some id
    | _ => False
    end.
Proof.
  intros Hl Hids Hacc. split.
  { destruct v; try done; cbn [parse_account_parameter]; [|by destruct (uuid_parse s)].
    apply bind_not_Panic; [by destruct (match as_u64 text with Some _ => _ | None => _ end)|]. intros n _.
    unfold account_by_index. apply bind_not_Panic; [by apply map_err_not_Panic|]. intros legacy _.
    apply bind_not_Panic; [by apply map_err_not_Panic|]. intros ids _.
    apply bind_not_Panic; [by apply foldM_candidates_not_Panic|]. intros [seeds o] _.
    case_bool_decide; [by destruct o|done]. }
  intros id. destruct v; try done; cbn [parse_account_parameter]; [|apply ok_or_Ret].
  unfold account_by_index. repeat setoid_rewrite bind_Ret. setoid_rewrite ok_or_Ret. setoid_rewrite map_err_Ret.
  setoid_rewrite account_candidates_spec. split.
  - intros (n & Hn & legacy & Hlegacy & ids & Hi & so & (accs & Hf & ->) & Hr).
    unfold gathered in Hr. cbn [fst snd] in Hr. rewrite union_empty_r_L in Hr.
    case_bool_decide as Hsize; [|done]. apply size_seeds_1 in Hsize as (_ & fp & Hfp).
    exists n, legacy, ids, accs, fp. destruct (as_u64 text) as [m|]; [|done].
    destruct (Z.ltb_spec m ZCASH_LEGACY_ACCOUNT); [|done]. injection Hn as ->. split_and!; try done.
    + intros e He. apply Hfp, list_elem_of_fmap. exists e.2. split; [done|]. apply list_elem_of_fmap. by exists e.
    + destruct (last _) as [i|]; cbn in Hr; [by injection Hr as ->|done].
  - intros (n & legacy & ids & accs & fp & Hn & Hlt & Hlegacy & Hi & Hf & Hfp & Hlast).
    exists n. rewrite Hn. destruct (Z.ltb_spec n ZCASH_LEGACY_ACCOUNT); [|unfold ZCASH_LEGACY_ACCOUNT in *; lia].
    split; [done|]. exists legacy. split; [done|]. exists ids. split; [done|].
    eexists. split; [by exists accs|]. unfold gathered. cbn [fst snd]. rewrite union_empty_r_L, Hlast.
    rewrite bool_decide_true; [done|]. apply size_seeds_1. split.
    + intros Hnil. apply fmap_nil_inv, fmap_nil_inv in Hnil. by rewrite Hnil in Hlast.
    + exists fp. intros x (d & -> & (e & -> & He)%list_elem_of_fmap)%list_elem_of_fmap. by apply Hfp.
Qed.
End params.

Definition parse_as_of_height (as_of_height : option Z) : RpcResult (option Z) :=
  match as_of_height with
  | None => Ret None
  | Some h =>
      if h =? -1 then Ret None
      else if h <? 0 then
        Err (with_static InvalidParameter "Can not perform the query as of a negative block height")
      else if h =? 0 then
        Err (with_static InvalidParameter "Can not perform the query as of the genesis block")
      else if in_u32 h then Ret (Some h)
      else Err (with_static InvalidParameter "`as_of_height` parameter out of range")
  end.

Definition parse_minconf (minconf : option Z) (default : Z) (as_of_height : option Z) : RpcResult Z :=
  match minconf with
  | None => Ret default
  | Some d =>
      if (d =? 0) && bool_decide (is_Some as_of_height) then
        Err (with_static InvalidParameter "Require a minimum of 1 confirmation when `asOfHeight` is provided")
      else Ret d
  end.

(** ** The birthday of a new account *)

Section birthday.
Context `{ChainTypes} {View : Type} `{!ChainView View}.
Context (empty_state : Z -> BlockHash -> ChainState) (null_hash : BlockHash)
        (chain_error_to_string : ChainError -> string) (show_height : Z -> string).

(** [AccountBirthday::from_parts]. *)
Record AccountBirthday := { prior_chain_state : ChainState; recover_until : option Z }.

Definition internal (m : string) : ErrorObject := {| code := InternalError; msg := Text m; data := None |}.

Definition fetch_account_birthday (snapshot : outcome ChainError View) (height : Z) : RpcResult AccountBirthday :=
  if height =? 0 then Ret {| prior_chain_state := empty_state 0 null_hash; recover_until := None |}
  else
    let treestate_height := saturating_sub height 1 in
    chain_view ← map_err (fun e =>
      internal ("Failed to obtain a chain snapshot: " +:+ chain_error_to_string e)%string) snapshot;
    o ← map_err (fun e =>
      internal ("Failed to get treestate at height " +:+ show_height treestate_height +:+ ": "
                +:+ chain_error_to_string e)%string)
      (tree_state_as_of chain_view treestate_height);
    chain_state ← ok_or o
      (internal ("No treestate available at height " +:+ show_height treestate_height)%string);
    Ret {| prior_chain_state := chain_state; recover_until := None |}.
End birthday.

(** A wallet is its accounts and the legacy seeds: account 2 derives from the
    mnemonic with number 3, account 3 from a legacy seed, account 4 was imported. *)
Definition example_number (s : string) : option Z :=
  if bool_decide (s = "3"%string) then Some 3
  else if bool_decide (s = "2147483647"%string) then Some 2147483647 else None.

Definition example_params : ParamOps := @Build_ParamOps
  (list (Z * option (Z * Z)) * list Z) Z (option (Z * Z)) Z Z _ _
  example_number
  (fun s => if bool_decide (s = "one"%string) then Some 1 else None)
  (fun s => Err "malformed"%string) (fun b => Z.of_nat (length b)) (fun s => None) (fun s => None)
  (fun z => if z <? 2 ^ 88 then Some z else None) (fun n => "3"%string) (fun c => "error"%string)
  (fun w => Ret w.2) (fun w => Ret w.1.*1)
  (fun w i => Ret (snd <$> head (base.filter (fun a : Z * option (Z * Z) => a.1 = i) w.1)))
  (fun a => a).

Definition example_wallet : @Wallet example_params :=
  ([(1, Some (5, 0)); (2, Some (5, 3)); (3, Some (9, 3)); (4, None)], [9]).

Lemma parse_account_parameter_correct_witness :
  @parse_account_parameter example_params example_wallet (JNumber "3") = Ret 2 /\
  @parse_account_parameter example_params example_wallet (JNumber "2147483647") =
    Err (with_static InvalidParameter "Invalid account number, must be 0 <= account <= (2^31)-2.") /\
  @parse_account_parameter example_params example_wallet (JNumber "3") <> Panic.
Proof.
  split; [vm_compute; reflexivity|]. split; [vm_compute; reflexivity|].
  apply (@parse_account_parameter_correct example_params example_wallet (JNumber "3")).
  - discriminate.
  - discriminate.
  - intros i. discriminate.
Defined.
