(* ===== verification/ListUnspent.v ===== *)
(** [z_listunspent]
    (src/zallet/src/components/json_rpc/methods/list_unspent.rs): the outputs of
    each account, transparent, Sapling and Orchard, and which of them pass the
    confirmation and address filters.

    The wallet database and the address encodings are the class [UnspentOps]. *)

From S2P Require Import Prelude Rpc Chain Amount Params.

(** [zip32::Scope], [ShieldedProtocol], and the receivers told apart. *)
Inductive Scope := External | Internal.
Inductive ShieldedProtocol := Sapling | Orchard.
Inductive Receiver (A : Type) := OrchardReceiver (a : A) | OtherReceiver.
Arguments OrchardReceiver {A} a.
Arguments OtherReceiver {A}.

Record ReceivedNote (TxId Recipient : Type) := {
  txid : TxId;
  output_index : Z;
  recipient : Recipient;
  note_value : Z;
  spending_key_scope : Scope
}.
Arguments txid {TxId Recipient}.
Arguments output_index {TxId Recipient}.
Arguments recipient {TxId Recipient}.
Arguments note_value {TxId Recipient}.
Arguments spending_key_scope {TxId Recipient}.

Record Utxo (TxId TransparentAddress : Type) := {
  utxo_txid : TxId;
  utxo_index : Z;
  utxo_height : option Z;
  utxo_recipient : TransparentAddress;
  (** The address its script pays, if it has one. *)
  txout_recipient : option TransparentAddress;
  utxo_value : Z
}.
Arguments utxo_txid {TxId TransparentAddress}.
Arguments utxo_index {TxId TransparentAddress}.
Arguments utxo_height {TxId TransparentAddress}.
Arguments utxo_recipient {TxId TransparentAddress}.
Arguments txout_recipient {TxId TransparentAddress}.
Arguments utxo_value {TxId TransparentAddress}.

Class UnspentOps `{ParamOps} := {
  UTxId : Type;
  Address : Type;
  TransparentAddress : Type;
  SaplingAddress : Type;
  OrchardAddress : Type;
  UnifiedAddress : Type;
  Memo : Type;
  Policy : Type;
  #[global] decimal_ops :: DecimalOps;
  #[global] SaplingAddress_eq_dec :: EqDecision SaplingAddress;
  #[global] OrchardAddress_eq_dec :: EqDecision OrchardAddress;
  new_symmetrical : Z -> bool -> Policy;
  json_string : string -> string;
  decode_address : Wallet -> string -> option Address;
  to_sapling_address : Address -> option SaplingAddress;
  as_understood_unified_receivers : Address -> list (Receiver OrchardAddress);
  encode_transparent : Wallet -> TransparentAddress -> string;
  encode_sapling : Wallet -> SaplingAddress -> string;
  ua_from_orchard : OrchardAddress -> option UnifiedAddress;
  encode_ua : Wallet -> UnifiedAddress -> string;
  txid_to_string : UTxId -> string;
  uuid_to_string : AccountUuid -> string;
  memo_hex : Memo -> string;
  memo_text : Memo -> option string;
  (** The account's purpose is [Spending]. *)
  can_spend : Account -> bool;
  (** [TargetHeight - BlockHeight]. *)
  target_sub : Z -> Z -> Z;
  chain_height : Wallet -> outcome string (option Z);
  get_transparent_receivers : Wallet -> AccountUuid -> outcome string (list TransparentAddress);
  get_spendable_transparent_outputs :
    Wallet -> TransparentAddress -> Z -> Policy -> outcome string (list (Utxo UTxId TransparentAddress));
  (** The scope of an address's key, if the address has metadata, and if it is derived. *)
  get_transparent_address_scope :
    Wallet -> AccountUuid -> TransparentAddress -> outcome string (option (option Scope));
  select_unspent_notes : Wallet -> AccountUuid -> Z ->
    outcome string (list (ReceivedNote UTxId SaplingAddress) * list (ReceivedNote UTxId OrchardAddress));
  get_memo : Wallet -> UTxId -> ShieldedProtocol -> Z -> outcome string (option Memo);
  get_tx_height : Wallet -> UTxId -> outcome string (option Z)
}.

Section unspent.
Context `{UnspentOps} `{HeightOps}.

Record UnspentOutput := {
  out_txid : string;
  pool : string;
  outindex : Z;
  confirmations : Z;
  is_watch_only : bool;
  address : option string;
  account_uuid : string;
  wallet_internal : bool;
  value : JsonZec;
  value_zat : Z;
  memo : option string;
  memo_str : option string
}.

(** [RpcError::owned(code, message, Some(data))]. *)
Definition owned (c : LegacyCode) (m d : string) : ErrorObject :=
  {| code := from_legacy c; msg := Text m; data := Some (json_string d) |}.

(** ** Transparent outputs *)

Definition utxo_output (wallet : Wallet) (account_id : AccountUuid) (is_watch_only : bool) (target_height : Z)
    (utxo : Utxo UTxId TransparentAddress) : RpcResult UnspentOutput :=
  let confirmations := match utxo_height utxo with Some h => target_sub target_height h | None => 0 end in
  m ← map_err (owned Database "WalletDb::get_transparent_address_metadata failed")
        (get_transparent_address_scope wallet account_id (utxo_recipient utxo));
  let wallet_internal := match m with Some (Some Internal) => true | _ => false end in
  Ret {| out_txid := txid_to_string (utxo_txid utxo); pool := "transparent"; outindex := utxo_index utxo;
         confirmations := confirmations; is_watch_only := is_watch_only;
         account_uuid := uuid_to_string account_id;
         address := encode_transparent wallet <$> txout_recipient utxo;
         value := value_from_zatoshis (utxo_value utxo); value_zat := utxo_value utxo;
         memo := None; memo_str := None; wallet_internal := wallet_internal |}.

(** ** Shielded outputs *)

Definition get_memo_strings (wallet : Wallet) (txid : UTxId) (protocol : ShieldedProtocol) (output_index : Z) :
    RpcResult (string * option string) :=
  o ← map_err (owned Database "WalletDb::get_memo failed") (get_memo wallet txid protocol output_index);
  Ret (match o with
       | Some memo => (memo_hex memo, memo_text memo)
       | None => ("TODO: Always enhance every note"%string, None)
       end).

(** The notes skipped for having too few or too many confirmations. *)
Definition skipped (target_height minconf : Z) (maxconf tx_mined_height : option Z) (confirmations : Z) : bool :=
  match tx_mined_height with Some h => saturating_sub target_height minconf <? h | None => false end
  || match maxconf with Some c => c <? confirmations | None => false end.

(** The body of the two loops over notes; [encode] gives the address. *)
Definition note_output {R : Type} (protocol : ShieldedProtocol) (encode : R -> RpcResult string) (wallet : Wallet)
    (account_id : AccountUuid) (is_watch_only : bool) (target_height minconf : Z) (maxconf : option Z)
    (note : ReceivedNote UTxId R) : RpcResult (option UnspentOutput) :=
  tx_mined_height ← map_err (owned Database "WalletDb::get_tx_height failed") (get_tx_height wallet (txid note));
  let confirmations := match tx_mined_height with Some h => saturating_sub target_height h | None => 0 end in
  if skipped target_height minconf maxconf tx_mined_height confirmations then Ret None
  else
    let is_internal := match spending_key_scope note with Internal => true | External => false end in
    '(memo, memo_str) ← get_memo_strings wallet (txid note) protocol (output_index note);
    address ← (if is_internal then Ret None else a ← encode (recipient note); Ret (Some a));
    Ret (Some {|
      out_txid := txid_to_string (txid note);
      pool := match protocol with Sapling => "sapling" | Orchard => "orchard" end;
      outindex := output_index note; confirmations := confirmations; is_watch_only := is_watch_only;
      account_uuid := uuid_to_string account_id; address := address;
      value := value_from_zatoshis (note_value note); value_zat := note_value note;
      memo := Some memo; memo_str := memo_str; wallet_internal := is_internal |}).

Definition encode_orchard (wallet : Wallet) (a : OrchardAddress) : RpcResult string :=
  ua ← expect (ua_from_orchard a);
  Ret (encode_ua wallet ua).

(** The filters of the two loops. *)
Definition sapling_matches (addresses : list Address) (n : ReceivedNote UTxId SaplingAddress) : bool :=
  forallb (fun addr => bool_decide (to_sapling_address addr = Some (recipient n))) addresses.

Definition orchard_matches (addresses : list Address) (n : ReceivedNote UTxId OrchardAddress) : bool :=
  forallb (fun addr =>
    existsb (fun r => match r with
                      | OrchardReceiver address => bool_decide (address = recipient n)
                      | OtherReceiver => false
                      end) (as_understood_unified_receivers addr)) addresses.

(** ** The method *)

Definition account_outputs (wallet : Wallet) (addresses : list Address) (policy : Policy)
    (target_height minconf : Z) (maxconf : option Z) (account_id : AccountUuid) : RpcResult (list UnspentOutput) :=
  o ← map_err (owned Database "WalletDb::get_account failed") (get_account wallet account_id);
  account ← ok_or o (of_code InternalError);
  let is_watch_only := negb (can_spend account) in
  receivers ← map_err (owned Database "WalletDb::get_transparent_receivers failed")
    (get_transparent_receivers wallet account_id);
  utxos ← traverse (fun addr =>
    map_err (owned Database "WalletDb::get_spendable_transparent_outputs failed")
      (get_spendable_transparent_outputs wallet addr target_height policy)) receivers;
  transparent ← traverse (utxo_output wallet account_id is_watch_only target_height) (concat utxos);
  '(sapling_notes, orchard_notes) ← map_err (owned Database "WalletDb::select_unspent_notes failed")
    (select_unspent_notes wallet account_id target_height);
  sapling ← traverse (note_output Sapling (fun a => Ret (encode_sapling wallet a)) wallet account_id is_watch_only
    target_height minconf maxconf) (base.filter (fun n => sapling_matches addresses n) sapling_notes);
  orchard ← traverse (note_output Orchard (encode_orchard wallet) wallet account_id is_watch_only
    target_height minconf maxconf) (base.filter (fun n => orchard_matches addresses n) orchard_notes);
  Ret (transparent ++ omap (fun o => o) sapling ++ omap (fun o => o) orchard).

Definition z_listunspent (wallet : Wallet) (minconf maxconf : option Z) (addresses : option (list string))
    (as_of_height : option Z) : RpcResult (list UnspentOutput) :=
  as_of_height ← parse_as_of_height as_of_height;
  minconf ← parse_minconf minconf 1 as_of_height;
  let policy := if 0 <? minconf then new_symmetrical minconf false else new_symmetrical 1 true in
  addresses ← traverse (fun addr =>
    ok_or (decode_address wallet addr) (owned InvalidParameter "Not a valid Zcash address" addr))
    (match addresses with Some l => l | None => [] end);
  o ← match as_of_height with
      | Some h => Ret (Some h)
      | None => map_err (owned Database "WalletDb::chain_height failed") (chain_height wallet)
      end;
  match o with
  | None => Ret []
  | Some h =>
      let target_height := height_add h 1 in
      ids ← map_err (owned Database "WalletDb::get_account_ids failed") (get_account_ids wallet);
      outputs ← traverse (account_outputs wallet addresses policy target_height minconf maxconf) ids;
      Ret (concat outputs)
  end.

(** ** What is listed *)

(** A note of sufficient and not too many confirmations at the target height;
    one whose transaction is not mined has none, and is not subject to [minconf]. *)
Definition passes {R} (wallet : Wallet) (target_height minconf : Z) (maxconf : option Z)
    (n : ReceivedNote UTxId R) (conf : Z) : Prop :=
  exists o, get_tx_height wallet (txid n) = Ret o /\
    match o with
    | Some h => (h <= 0 \/ minconf <= target_height - h) /\ conf = Z.max 0 (target_height - h)
    | None => conf = 0
    end /\
    forall c, maxconf = Some c -> conf <= c.

(** The output listed for a note. *)
Definition describes {R} (protocol : ShieldedProtocol) (encode : R -> RpcResult string) (wallet : Wallet)
    (account_id : AccountUuid) (is_watch_only : bool) (n : ReceivedNote UTxId R) (conf : Z)
    (out : UnspentOutput) : Prop :=
  exists m s a, get_memo_strings wallet (txid n) protocol (output_index n) = Ret (m, s) /\
    match spending_key_scope n with Internal => a = None | External => Some <$> encode (recipient n) = Ret a end /\
    out = {| out_txid := txid_to_string (txid n);
             pool := match protocol with Sapling => "sapling" | Orchard => "orchard" end;
             outindex := output_index n; confirmations := conf; is_watch_only := is_watch_only;
             account_uuid := uuid_to_string account_id; address := a;
             value := value_from_zatoshis (note_value n); value_zat := note_value n;
             memo := Some m; memo_str := s;
             wallet_internal := match spending_key_scope n with Internal => true | External => false end |}.

(** The outputs of an account. The given addresses select notes, each of which
    must match all of them; they do not select among transparent outputs, nor do
    [minconf] and [maxconf] beyond the confirmations policy. *)
Definition account_lists (wallet : Wallet) (addresses : list Address) (policy : Policy)
    (target_height minconf : Z) (maxconf : option Z) (account_id : AccountUuid) (out : UnspentOutput) : Prop :=
  exists acc receivers sapling orchard,
    get_account wallet account_id = Ret (Some acc) /\
    get_transparent_receivers wallet account_id = Ret receivers /\
    select_unspent_notes wallet account_id target_height = Ret (sapling, orchard) /\
    let watch_only := negb (can_spend acc) in
    ((exists r us u, r ∈ receivers /\
        get_spendable_transparent_outputs wallet r target_height policy = Ret us /\ u ∈ us /\
        utxo_output wallet account_id watch_only target_height u = Ret out) \/
     (exists n conf, n ∈ sapling /\ (forall a, a ∈ addresses -> to_sapling_address a = Some (recipient n)) /\
        passes wallet target_height minconf maxconf n conf /\
        describes Sapling (fun a => Ret (encode_sapling wallet a)) wallet account_id watch_only n conf out) \/
     (exists n conf, n ∈ orchard /\
        (forall a, a ∈ addresses -> OrchardReceiver (recipient n) ∈ as_understood_unified_receivers a) /\
        passes wallet target_height minconf maxconf n conf /\
        describes Orchard (encode_orchard wallet) wallet account_id watch_only n conf out)).

Lemma note_output_Some {R} protocol (encode : R -> RpcResult string) w i b t mc maxc n out :
  note_output protocol encode w i b t mc maxc n = Ret (Some out) <->
  exists conf, passes w t mc maxc n conf /\ describes protocol encode w i b n conf out.
Proof.
  unfold note_output, passes, describes. rewrite bind_Ret. setoid_rewrite map_err_Ret. split.
  - intros (o & Ho & Hr). destruct (skipped _ _ _ _ _) eqn:Hs; [done|]. apply orb_false_iff in Hs as [Hs1 Hs2].
    apply bind_Ret in Hr as ([m s] & Hm & Hr). apply bind_Ret in Hr as (a & Ha & [= <-]).
    exists (match o with Some h => saturating_sub t h | None => 0 end). split.
    + exists o. split; [done|]. split.
      * destruct o as [h|]; [|done]. apply Z.ltb_ge in Hs1. unfold saturating_sub in *. split; [lia|done].
      * intros c ->. by apply Z.ltb_ge in Hs2.
    + exists m, s, a. split; [done|]. split; [|done].
      destruct (spending_key_scope n); [|by injection Ha]. apply bind_Ret in Ha as (x & -> & [= <-]). done.
  - intros (conf & (o & Ho & Hc & Hmax) & (m & s & a & Hm & Ha & ->)). exists o. split; [done|].
    assert (match o with Some h => saturating_sub t h | None => 0 end = conf) as ->.
    { destruct o as [h|]; [by destruct Hc as [_ ->]|done]. }
    assert (skipped t mc maxc o conf = false) as ->.
    { unfold skipped, saturating_sub. apply orb_false_iff. split.
      - destruct o as [h|]; [apply Z.ltb_ge; lia|done].
      - destruct maxc as [c|]; [apply Z.ltb_ge; by apply Hmax|done]. }
    rewrite Hm. cbn. destruct (spending_key_scope n); [|by subst].
    destruct (encode (recipient n)); cbn in *; congruence.
Qed.

Lemma traverse_elem_of {A B} (f : A -> RpcResult B) l ys y :
  traverse f l = Ret ys -> y ∈ ys <-> exists x, x ∈ l /\ f x = Ret y.
Proof.
  intros Hl%traverse_Ret. split.
  - intros [k Hk]%list_elem_of_lookup. destruct (Forall2_lookup_r _ _ _ _ _ Hl Hk) as (x & Hx & Hf).
    exists x. split; [by eapply list_elem_of_lookup_2|done].
  - intros (x & Hx & Hf). apply list_elem_of_lookup in Hx as [k Hk].
    destruct (Forall2_lookup_l _ _ _ _ _ Hl Hk) as (y' & Hy' & Hf'). assert (y' = y) as -> by congruence.
    by eapply list_elem_of_lookup_2.
Qed.

Lemma traverse_concat_elem_of {A B} (f : A -> RpcResult (list B)) l yss y :
  traverse f l = Ret yss -> y ∈ concat yss <-> exists x ys, x ∈ l /\ f x = Ret ys /\ y ∈ ys.
Proof.
  intros Hl. rewrite list_elem_of_In, List.in_concat. setoid_rewrite <- list_elem_of_In. split.
  - intros (ys & Hys & Hy). apply (traverse_elem_of f l yss ys Hl) in Hys as (x & Hx & Hf). eauto.
  - intros (x & ys & Hx & Hf & Hy). exists ys. split; [|done]. apply (traverse_elem_of f l yss ys Hl). eauto.
Qed.

Lemma traverse_notes_elem_of {A} (f : A -> RpcResult (option UnspentOutput)) l os out :
  traverse f l = Ret os -> out ∈ omap (fun o => o) os <-> exists x, x ∈ l /\ f x = Ret (Some out).
Proof.
  intros Hl. rewrite list_elem_of_omap. split.
  - intros (o & Ho & ->). by apply (traverse_elem_of f l os (Some out) Hl) in Ho.
  - intros Hx. exists (Some out). split; [|done]. by apply (traverse_elem_of f l os _ Hl).
Qed.

Lemma sapling_matches_spec addrs n :
  sapling_matches addrs n <-> forall a, a ∈ addrs -> to_sapling_address a = Some (recipient n).
Proof.
  unfold sapling_matches. rewrite forallb_True, Forall_forall. apply forall_proper. intros a.
  by rewrite bool_decide_spec.
Qed.

Lemma orchard_matches_spec addrs n :
  orchard_matches addrs n <-> forall a, a ∈ addrs -> OrchardReceiver (recipient n) ∈ as_understood_unified_receivers a.
Proof.
  unfold orchard_matches. rewrite forallb_True, Forall_forall. apply forall_proper. intros a.
  rewrite Is_true_true, List.existsb_exists. setoid_rewrite <- list_elem_of_In. split.
  - intros Hr Ha. destruct (Hr Ha) as (r & Hin & Hm). destruct r as [x|]; [|done].
    by apply bool_decide_eq_true in Hm as <-.
  - intros Hr Ha. eexists. split; [by apply Hr|]. by apply bool_decide_eq_true.
Qed.

Lemma account_outputs_elem_of w addrs policy t mc maxc i outs out :
  account_outputs w addrs policy t mc maxc i = Ret outs ->
  out ∈ outs <-> account_lists w addrs policy t mc maxc i out.
Proof.
  unfold account_outputs.
  intros (o & Ho%map_err_Ret & (acc & ->%ok_or_Ret & (rs & Hrs%map_err_Ret & (us & Hus & Hr)%bind_Ret)%bind_Ret)%bind_Ret)%bind_Ret.
  apply bind_Ret in Hr as (tr & Htr & ([ss os] & Hn%map_err_Ret & (sapling & Hs & (orchard & Ho' & [= <-])%bind_Ret)%bind_Ret)%bind_Ret).
  rewrite !elem_of_app, (traverse_elem_of _ _ _ _ Htr), (traverse_notes_elem_of _ _ _ _ Hs),
    (traverse_notes_elem_of _ _ _ _ Ho').
  setoid_rewrite list_elem_of_filter. setoid_rewrite sapling_matches_spec. setoid_rewrite orchard_matches_spec.
  setoid_rewrite note_output_Some. setoid_rewrite (fun u => traverse_concat_elem_of _ _ _ u Hus).
  setoid_rewrite map_err_Ret. unfold account_lists. split.
  - intros Hout. exists acc, rs, ss, os. do 3 (split; [done|]). cbn.
    destruct Hout as [(u & (r & ys & Hr & Hys & Hu) & Hout)|[(n & [Hm Hin] & conf & Hp & Hd)|(n & [Hm Hin] & conf & Hp & Hd)]].
    + left. by exists r, ys, u.
    + right; left. by exists n, conf.
    + right; right. by exists n, conf.
  - intros (acc' & rs' & ss' & os' & Hacc & Hrs' & Hn' & Hout).
    assert (acc' = acc) as -> by congruence. assert (rs' = rs) as -> by congruence.
    assert (ss' = ss /\ os' = os) as [-> ->] by (split; congruence).
    destruct Hout as [(r & ys & u & Hr & Hys & Hu & Hout)|[(n & conf & Hin & Hm & Hp & Hd)|(n & conf & Hin & Hm & Hp & Hd)]].
    + left. exists u. split; [by exists r, ys|done].
    + right; left. exists n. split; [done|by exists conf].
    + right; right. exists n. split; [done|by exists conf].
Qed.

(** On success [z_listunspent] lists exactly the unspent outputs of the
    wallet's accounts at the height asked for ([as_of_height], or the wallet's
    chain height) plus one: of the notes, those whose recipient matches all of
    the given addresses, with at least [minconf] (if mined) and at most [maxconf]
    confirmations; of the transparent outputs, those the confirmations policy
    makes spendable, whatever the addresses and [maxconf]. A query as of a height
    is as of a [u32] height from 1, with at least one confirmation. *)
Theorem z_listunspent_correct w minconf maxconf addresses as_of_height outs :
  (forall m, minconf = Some m -> 0 <= m) ->
  z_listunspent w minconf maxconf addresses as_of_height = Ret outs ->
  exists as_of mc addrs,
    parse_as_of_height as_of_height = Ret as_of /\ parse_minconf minconf 1 as_of = Ret mc /\
    Forall2 (fun s a => decode_address w s = Some a) (default [] addresses) addrs /\ 0 <= mc /\
    (forall h, as_of = Some h -> 1 <= h <= u32_max /\ 1 <= mc) /\
    exists o, match as_of with Some h => o = Some h | None => chain_height w = Ret o end /\
    match o with
    | None => outs = []
    | Some h => exists ids, get_account_ids w = Ret ids /\ forall out, out ∈ outs <->
        exists i, i ∈ ids /\
          account_lists w addrs (if 0 <? mc then new_symmetrical mc false else new_symmetrical 1 true)
            (height_add h 1) mc maxconf i out
    end.
Proof.
  intros Hmc. unfold z_listunspent. intros (as_of & Ha & (mc & Hm & (addrs & Hd & (o & Ho & Hr)%bind_Ret)%bind_Ret)%bind_Ret)%bind_Ret.
  exists as_of, mc, addrs. split_and!; [done..| | | |].
  - apply traverse_Ret in Hd. eapply Forall2_impl; [by destruct addresses|]. intros s a. cbn. by intros ?%ok_or_Ret.
  - unfold parse_minconf in Hm. destruct minconf as [m|]; [|injection Hm as <-; lia].
    destruct (_ && _); [done|]. injection Hm as <-. by apply Hmc.
  - intros h ->. split.
    + unfold parse_as_of_height in Ha. destruct as_of_height as [x|]; [|done].
      destruct (Z.eqb_spec x (-1)), (Z.ltb_spec x 0), (Z.eqb_spec x 0); try done.
      unfold in_u32 in Ha. case_bool_decide; [|done]. injection Ha as ->. lia.
    + unfold parse_minconf in Hm. destruct minconf as [m|]; [|injection Hm as <-; lia].
      rewrite bool_decide_true in Hm by done. destruct (Z.eqb_spec m 0); [done|]. injection Hm as <-.
      specialize (Hmc m eq_refl). lia.
  - exists o. split.
    + destruct as_of; [by injection Ho|by apply map_err_Ret in Ho].
    + destruct o as [h|]; [|by injection Hr]. apply bind_Ret in Hr as (ids & Hi%map_err_Ret & (l & Hl & [= <-])%bind_Ret).
      exists ids. split; [done|]. intros out. rewrite (traverse_concat_elem_of _ _ _ out Hl). split.
      * intros (i & ys & Hin & Hys & Hout). exists i. split; [done|]. by eapply account_outputs_elem_of.
      * intros (i & Hin & Hout). apply list_elem_of_lookup in Hin as [k Hk]. apply traverse_Ret in Hl.
        destruct (Forall2_lookup_l _ _ _ _ _ Hl Hk) as (ys & _ & Hys).
        exists i, ys. split; [by eapply list_elem_of_lookup_2|]. split; [done|]. by eapply account_outputs_elem_of.
Qed.
End unspent.

Definition zatoshi_decimals : DecimalOps := {|
  JsonZec := Z; decimal_of z := z; decimal_div := Z.div; trunc_with_scale z _ := z |}.

(** A wallet at height 100 whose account 2 holds a transparent output received
    on an internal address, a Sapling note mined at height 99 at address 1 and
    one that is not mined at address 2. *)
Definition example_unspent : @UnspentOps example_params := @Build_UnspentOps example_params
  Z Z Z Z Z Z string (Z * bool) zatoshi_decimals _ _ (fun n b => (n, b)) (fun s => s)
  (fun _ s => if bool_decide (s = "zs1"%string) then Some 1 else if bool_decide (s = "zs2"%string) then Some 2 else None)
  Some (fun a => []) (fun _ a => "t"%string)
  (fun _ a => if bool_decide (a = 1) then "zs1"%string else "zs2"%string)
  Some (fun _ _ => "u"%string) (fun _ => "txid"%string) (fun _ => "uuid"%string) (fun m => m) (fun _ => None)
  (fun _ => true) Z.sub (fun _ => Ret (Some 100)) (fun _ i => Ret (if i =? 2 then [7] else []))
  (fun _ _ _ _ => Ret [{| utxo_txid := 10; utxo_index := 0; utxo_height := Some 50; utxo_recipient := 7;
                           txout_recipient := Some 7; utxo_value := 300 |}])
  (fun _ _ _ => Ret (Some (Some Internal)))
  (fun _ i _ => Ret (if i =? 2 then
     ([{| txid := 11; output_index := 0; recipient := 1; note_value := 400; spending_key_scope := External |};
       {| txid := 12; output_index := 0; recipient := 2; note_value := 500; spending_key_scope := External |}], [])
     else ([], [])))
  (fun _ _ _ _ => Ret (Some "f6"%string)) (fun _ t => Ret (if t =? 11 then Some 99 else None)).

#[local] Existing Instances example_params example_unspent.

#[local] Instance example_unspent_heights : HeightOps :=
  {| height_add a b := Z.min u32_max (a + b); height_sub a b := Z.max 0 (a - b) |}.

Definition example_listing (minconf : option Z) (addresses : option (list string)) : RpcResult (list Z) :=
  map value_zat <$> z_listunspent example_wallet minconf None addresses None.

(** No output is at both of the addresses given; the transparent one is listed. *)
Lemma z_listunspent_correct_witness :
  example_listing (Some 2) None = Ret [300; 400; 500] /\
  example_listing (Some 3) None = Ret [300; 500] /\
  example_listing None (Some ["zs1"%string]) = Ret [300; 400] /\
  example_listing None (Some ["zs1"%string; "zs2"%string]) = Ret [300] /\
  exists as_of mc, parse_as_of_height None = Ret as_of /\ parse_minconf (Some 2) 1 as_of = Ret mc.
Proof.
  do 4 (split; [vm_compute; reflexivity|]).
  destruct (z_listunspent example_wallet (Some 2) None None None) as [outs| |] eqn:Hr; [|discriminate Hr..].
  destruct (z_listunspent_correct example_wallet (Some 2) None None None outs ltac:(by intros m [= <-]) Hr)
    as (as_of & mc & _ & Ha & Hm & _).
  by exists as_of, mc.
Defined.
