(* ===== verification/Text.v ===== *)
(** Strings and integers as Rust's standard library reads and prints them:
    [str::split_once], [str::starts_with], [str::trim_end], the unsigned
    [from_str_radix] and [{:08x}].

    A [str] is its UTF-8 bytes. *)

From S2P Require Import Prelude Amount.

(** [str::split_once] of a one-byte character: at its first occurrence. *)
Fixpoint split_once (c : Ascii.ascii) (s : string) : option (string * string) :=
  match s with
  | EmptyString => None
  | String x s =>
      if Ascii.eqb x c then Some (EmptyString, s)
      else match split_once c s with
           | Some (a, b) => Some (String x a, b)
           | None => None
           end
  end.

Definition starts_with (p s : string) : bool := String.prefix p s.

(** ** [str::trim_end] *)

(** The encodings of the characters with the property [White_Space], written
    back to front: the ASCII ones, U+0085, U+00A0, U+1680, U+2000 to U+200A,
    U+2028, U+2029, U+202F, U+205F, U+3000. *)
Definition white_space_rev : list (list nat) :=
  [[9]; [10]; [11]; [12]; [13]; [32]; [133; 194]; [160; 194]; [128; 154; 225];
   [128; 128; 226]; [129; 128; 226]; [130; 128; 226]; [131; 128; 226]; [132; 128; 226]; [133; 128; 226];
   [134; 128; 226]; [135; 128; 226]; [136; 128; 226]; [137; 128; 226]; [138; 128; 226];
   [168; 128; 226]; [169; 128; 226]; [175; 128; 226]; [159; 129; 226]; [128; 128; 227]]%nat.

Fixpoint strip_codes (p : list nat) (s : list Ascii.ascii) : option (list Ascii.ascii) :=
  match p, s with
  | [], _ => Some s
  | n :: p, c :: s => if bool_decide (Ascii.nat_of_ascii c = n) then strip_codes p s else None
  | _ :: _, [] => None
  end.

Definition strip_space (s : list Ascii.ascii) : option (list Ascii.ascii) :=
  head (omap (fun p => strip_codes p s) white_space_rev).

Fixpoint trim_start_rev (fuel : nat) (s : list Ascii.ascii) : list Ascii.ascii :=
  match fuel with
  | O => s
  | S fuel => match strip_space s with Some s' => trim_start_rev fuel s' | None => s end
  end.

(** Each round takes at least one byte: the length is fuel enough. *)
Definition trim_end (s : string) : string :=
  String.string_of_list_ascii
    (rev (trim_start_rev (String.length s) (rev (String.list_ascii_of_string s)))).

(** [str::trim]. *)
Definition strip_space_start (s : list Ascii.ascii) : option (list Ascii.ascii) :=
  head (omap (fun p => strip_codes (rev p) s) white_space_rev).

Fixpoint trim_start_list (fuel : nat) (s : list Ascii.ascii) : list Ascii.ascii :=
  match fuel with
  | O => s
  | S fuel => match strip_space_start s with Some s' => trim_start_list fuel s' | None => s end
  end.

Definition trim (s : string) : string :=
  trim_end (String.string_of_list_ascii (trim_start_list (String.length s) (String.list_ascii_of_string s))).

(** ** [String::from_utf8] *)

(** The ranges in which the bytes still expected must be, after a leading byte. *)
Definition utf8_lead (n : Z) : option (list (Z * Z)) :=
  if n <? 128 then Some []
  else if n <? 194 then None
  else if n <? 224 then Some [(128, 191)]
  else if n =? 224 then Some [(160, 191); (128, 191)]
  else if n =? 237 then Some [(128, 159); (128, 191)]
  else if n <? 240 then Some [(128, 191); (128, 191)]
  else if n =? 240 then Some [(144, 191); (128, 191); (128, 191)]
  else if n <? 244 then Some [(128, 191); (128, 191); (128, 191)]
  else if n =? 244 then Some [(128, 143); (128, 191); (128, 191)]
  else None.

Fixpoint utf8_run (expected : list (Z * Z)) (s : string) : option (list (Z * Z)) :=
  match s with
  | EmptyString => Some expected
  | String c s =>
      let n := Z.of_nat (Ascii.nat_of_ascii c) in
      match expected with
      | (lo, hi) :: expected => if (lo <=? n) && (n <=? hi) then utf8_run expected s else None
      | [] => match utf8_lead n with Some expected => utf8_run expected s | None => None end
      end
  end.

Definition valid_utf8 (s : string) : bool := bool_decide (utf8_run [] s = Some []).

(** [str::to_ascii_lowercase]. *)
Fixpoint to_ascii_lowercase (s : string) : string :=
  match s with
  | EmptyString => EmptyString
  | String c s =>
      let n := Ascii.nat_of_ascii c in
      String (if (65 <=? n)%nat && (n <=? 90)%nat then Ascii.ascii_of_nat (n + 32) else c)
        (to_ascii_lowercase s)
  end.

(** ** Unsigned integers *)

(** [char::to_digit]. *)
Definition to_digit (radix : Z) (c : Ascii.ascii) : option Z :=
  let n := Z.of_nat (Ascii.nat_of_ascii c) in
  let d := if (48 <=? n) && (n <=? 57) then n - 48
           else if (97 <=? n) && (n <=? 122) then n - 87
           else if (65 <=? n) && (n <=? 90) then n - 55
           else radix in
  if d <? radix then Some d else None.

Fixpoint parse_digits (radix max acc : Z) (s : string) : option Z :=
  match s with
  | EmptyString => Some acc
  | String c s =>
      match to_digit radix c with
      | Some d => if acc * radix + d <=? max then parse_digits radix max (acc * radix + d) s else None
      | None => None
      end
  end.

(** [from_str_radix] and [parse] for an unsigned type of greatest value [max]. *)
Definition from_str_radix (radix max : Z) (s : string) : option Z :=
  match s with
  | EmptyString => None
  | String c s' =>
      if Ascii.eqb c "+" then
        match s' with
        | EmptyString => None
        | _ => parse_digits radix max 0 s'
        end
      else parse_digits radix max 0 s
  end.

Definition u16_max : Z := 65535.

(** A digit of [{:x}]. *)
Definition hex_digit (d : Z) : Ascii.ascii :=
  Ascii.ascii_of_nat (Z.to_nat (if d <? 10 then d + 48 else d + 87)).

(** [{:08x}] of a [u32], for [k = 8]. *)
Fixpoint hex_fixed (k : nat) (n : Z) : string :=
  match k with
  | O => EmptyString
  | S k => (hex_fixed k (n / 16) +:+ String (hex_digit (n mod 16)) EmptyString)%string
  end.

(** ** Paths, on a Unix system: [Path::is_relative], [Path::join] *)

Definition is_absolute (p : string) : bool := String.prefix "/" p.
Definition is_relative (p : string) : bool := negb (is_absolute p).

Fixpoint ends_with_slash (p : string) : bool :=
  match p with
  | EmptyString => false
  | String c EmptyString => Ascii.eqb c "/"
  | String _ p => ends_with_slash p
  end.

(** An absolute path replaces the base. *)
Definition path_join (base p : string) : string :=
  if is_absolute p then p
  else if String.eqb base "" || ends_with_slash base then base +:+ p
  else base +:+ "/" +:+ p.

(** ** Lemmas *)

Lemma append_cons c a b : (String c a +:+ b = String c (a +:+ b))%string.
Proof. done. Qed.

Lemma append_nil_r s : (s +:+ "")%string = s.
Proof. induction s as [|c s IH]; [done|]. by rewrite append_cons, IH. Qed.

Lemma append_assoc_text a b c : ((a +:+ b) +:+ c = a +:+ (b +:+ c))%string.
Proof. induction a as [|x a IH]; [done|]. by rewrite !append_cons, IH. Qed.

Lemma split_once_Some c s a b :
  split_once c s = Some (a, b) <-> s = (a +:+ String c b)%string /\ split_once c a = None.
Proof.
  revert a. induction s as [|x s IH]; intros a; cbn [split_once].
  { split; [done|]. intros [Hs _]. by destruct a. }
  destruct (Ascii.eqb_spec x c) as [->|Hne].
  - split; [by intros [= <- <-]|]. intros [Hs Ha]. destruct a as [|y a]; cbn in *; [by injection Hs as ->|].
    injection Hs as <- _. by rewrite Ascii.eqb_refl in Ha.
  - split.
    + destruct (split_once c s) as [[a' b']|]; [|done]. intros [= <- <-].
      destruct (proj1 (IH a') eq_refl) as [-> Ha]. cbn. rewrite (proj2 (Ascii.eqb_neq _ _) Hne), Ha. done.
    + intros [Hs Ha]. destruct a as [|y a]; cbn in *; [by injection Hs as -> _|]. injection Hs as <- Hs.
      rewrite (proj2 (Ascii.eqb_neq _ _) Hne) in Ha.
      destruct (split_once c a) as [[]|] eqn:Hca; [done|]. by rewrite (proj2 (IH a) (conj Hs Hca)).
Qed.

Lemma split_once_app c a b : split_once c a = None -> split_once c (a +:+ String c b)%string = Some (a, b).
Proof. intros. by apply split_once_Some. Qed.

Lemma split_once_append_None c a b :
  split_once c a = None -> split_once c b = None -> split_once c (a +:+ b)%string = None.
Proof.
  intros Ha Hb. induction a as [|x a IH]; [done|]. change (String x a +:+ b)%string with (String x (a +:+ b))%string.
  cbn [split_once] in *. destruct (Ascii.eqb x c); [done|].
  destruct (split_once c a) as [[]|]; [done|]. by rewrite IH.
Qed.

Lemma utf8_run_app e a b :
  utf8_run e (a +:+ b)%string = match utf8_run e a with Some e' => utf8_run e' b | None => None end.
Proof.
  revert e. induction a as [|c a IH]; intros e; [done|].
  change (String c a +:+ b)%string with (String c (a +:+ b))%string. cbn [utf8_run].
  destruct e as [|[lo hi] e].
  - destruct (utf8_lead _); [apply IH|done].
  - destruct (_ && _); [apply IH|done].
Qed.

Lemma valid_utf8_app a b : valid_utf8 a = true -> valid_utf8 b = true -> valid_utf8 (a +:+ b)%string = true.
Proof.
  unfold valid_utf8. rewrite !bool_decide_eq_true. intros Ha Hb. by rewrite utf8_run_app, Ha.
Qed.

(** Printable ASCII characters other than the space. *)
Definition plain (c : Ascii.ascii) : bool :=
  let n := Z.of_nat (Ascii.nat_of_ascii c) in (33 <=? n) && (n <? 127).

Fixpoint all_plain (s : string) : bool :=
  match s with EmptyString => true | String c s => plain c && all_plain s end.

Lemma all_plain_app a b : all_plain (a +:+ b)%string = all_plain a && all_plain b.
Proof.
  induction a as [|c a IH]; [done|]. change (String c a +:+ b)%string with (String c (a +:+ b))%string.
  cbn [all_plain]. by rewrite IH, andb_assoc.
Qed.

Lemma plain_valid_utf8 s : all_plain s = true -> valid_utf8 s = true.
Proof.
  intros Hs. apply bool_decide_eq_true. induction s as [|c s IH]; [done|].
  cbn [all_plain] in Hs. apply andb_true_iff in Hs as [Hc Hs]. cbn [utf8_run].
  unfold plain in Hc. apply andb_true_iff in Hc as [_ Hc%Z.ltb_lt]. unfold utf8_lead.
  rewrite (proj2 (Z.ltb_lt _ 128)) by lia. by apply IH.
Qed.

(** White space starts and ends with no such character. *)
Definition not_plain (p : list nat) : bool :=
  match p with n :: _ => (Z.of_nat n <? 33) || (127 <=? Z.of_nat n) | [] => false end.

Lemma strip_codes_plain c s p : plain c = true -> not_plain p = true -> strip_codes p (c :: s) = None.
Proof.
  unfold plain. intros Hc Hp. destruct p as [|n p]; [done|]. cbn [strip_codes not_plain] in *.
  rewrite bool_decide_false; [done|]. intros <-.
  apply andb_true_iff in Hc as [H1%Z.leb_le H2%Z.ltb_lt].
  apply orb_true_iff in Hp as [Hp%Z.ltb_lt|Hp%Z.leb_le]; lia.
Qed.

Lemma omap_strip_plain c s ps :
  plain c = true -> forallb not_plain ps = true -> omap (fun p => strip_codes p (c :: s)) ps = [].
Proof.
  intros Hc. induction ps as [|p ps IH]; [done|]. cbn [forallb]. intros [Hp Hps]%andb_true_iff.
  cbn [omap list_omap]. rewrite strip_codes_plain by done. by apply IH.
Qed.

Lemma strip_space_plain c s : plain c = true -> strip_space (c :: s) = None.
Proof. intros Hc. unfold strip_space. rewrite omap_strip_plain; [done|done|by vm_compute]. Qed.

Lemma strip_space_start_plain c s : plain c = true -> strip_space_start (c :: s) = None.
Proof.
  intros Hc. unfold strip_space_start.
  assert (omap (fun p => strip_codes (rev p) (c :: s)) white_space_rev
          = omap (fun p => strip_codes p (c :: s)) (map (@rev nat) white_space_rev)) as ->
    by (induction white_space_rev as [|p ps IH]; [done|]; cbn; by rewrite IH).
  rewrite omap_strip_plain; [done|done|by vm_compute].
Qed.

Lemma all_plain_list s : all_plain s = true -> Forall (fun c => plain c = true) (String.list_ascii_of_string s).
Proof. induction s as [|c s IH]; cbn; [constructor|]. intros [? ?]%andb_true_iff. constructor; auto. Qed.

Lemma trim_plain s : all_plain s = true -> trim s = s.
Proof.
  intros Hs%all_plain_list. unfold trim, trim_end.
  assert (trim_start_list (String.length s) (String.list_ascii_of_string s) = String.list_ascii_of_string s) as ->.
  { destruct s as [|c s]; [done|]. cbn in *. inversion Hs as [|? ? Hc _]; subst.
    by rewrite strip_space_start_plain. }
  rewrite String.string_of_list_ascii_of_string.
  assert (forall n l, Forall (fun c => plain c = true) l -> trim_start_rev n l = l) as Ht.
  { intros [|n] l Hl; [done|]. cbn [trim_start_rev]. destruct l as [|c l]; [done|].
    inversion Hl; subst. by rewrite strip_space_plain. }
  rewrite Ht; [by rewrite rev_involutive, String.string_of_list_ascii_of_string|].
  by apply Forall_rev.
Qed.

Lemma to_digit_bounds radix c d : to_digit radix c = Some d -> 0 <= d < radix.
Proof.
  unfold to_digit. set (n := Z.of_nat (Ascii.nat_of_ascii c)). cbv zeta.
  destruct (Z.leb_spec 48 n), (Z.leb_spec n 57), (Z.leb_spec 97 n), (Z.leb_spec n 122), (Z.leb_spec 65 n),
    (Z.leb_spec n 90); cbn [andb]; try lia;
    (match goal with |- context [?d <? radix] => destruct (Z.ltb_spec d radix) end); intros [= <-]; lia.
Qed.

(** The value read is the number the digits write, in range. *)
Lemma parse_digits_bounds radix max acc s n :
  0 <= acc <= max -> 0 <= radix -> parse_digits radix max acc s = Some n -> 0 <= n <= max.
Proof.
  intros Hacc Hr. revert acc Hacc. induction s as [|c s IH]; intros acc Hacc; cbn; [by intros [= <-]|].
  destruct (to_digit radix c) as [d|] eqn:Hd; [|done]. apply to_digit_bounds in Hd.
  destruct (Z.leb_spec (acc * radix + d) max); [|done]. apply IH. nia.
Qed.

Lemma from_str_radix_bounds radix max s n :
  0 <= radix -> 0 <= max -> from_str_radix radix max s = Some n -> 0 <= n <= max.
Proof.
  intros Hr Hm. unfold from_str_radix. destruct s as [|c s]; [done|].
  destruct (Ascii.eqb c "+"); [destruct s; [done|]|]; apply parse_digits_bounds; lia.
Qed.

Lemma parse_digits_app radix max acc a b :
  parse_digits radix max acc (a +:+ b)%string =
  match parse_digits radix max acc a with Some n => parse_digits radix max n b | None => None end.
Proof.
  revert acc. induction a as [|c a IH]; intros acc; [done|].
  change (String c a +:+ b)%string with (String c (a +:+ b))%string. cbn [parse_digits].
  destruct (to_digit radix c) as [d|]; [|done]. destruct (acc * radix + d <=? max); [apply IH|done].
Qed.

Lemma to_digit_hex d : 0 <= d < 16 -> to_digit 16 (hex_digit d) = Some d.
Proof.
  intros Hd. assert (exists k, (k < 16)%nat /\ d = Z.of_nat k) as (k & Hk & ->) by (exists (Z.to_nat d); lia).
  do 16 (destruct k as [|k]; [reflexivity|]). lia.
Qed.

Lemma parse_hex_fixed k n max :
  0 <= n < 16 ^ Z.of_nat k -> n <= max -> parse_digits 16 max 0 (hex_fixed k n) = Some n.
Proof.
  revert n. induction k as [|k IH]; intros n Hn Hmax; cbn [hex_fixed].
  - cbn in Hn. cbn. f_equal. lia.
  - rewrite Nat2Z.inj_succ, Z.pow_succ_r in Hn by lia.
    pose proof (Z.mod_pos_bound n 16 ltac:(lia)). pose proof (Z.div_mod n 16 ltac:(lia)).
    rewrite parse_digits_app, IH; [|split; [apply Z.div_pos; lia|apply Z.div_lt_upper_bound; lia]|].
    + cbn. rewrite to_digit_hex by done. replace (n / 16 * 16 + n mod 16) with n by lia.
      destruct (Z.leb_spec n max); [done|lia].
    + assert (n / 16 <= n) by (apply Z.div_le_upper_bound; lia). lia.
Qed.

Lemma to_digit_decimal c : is_ascii_digit c = true -> to_digit 10 c = Some (digit_val c).
Proof.
  unfold is_ascii_digit, to_digit, digit_val. intros [H1 H2]%andb_true_iff.
  apply Nat.leb_le in H1, H2. set (n := Z.of_nat (Ascii.nat_of_ascii c)).
  destruct (Z.leb_spec 48 n), (Z.leb_spec n 57); try lia. cbn [andb].
  destruct (Z.ltb_spec (n - 48) 10); [done|lia].
Qed.

Lemma parse_decimal max acc s :
  0 <= acc -> all_digits s = true -> num_from acc s <= max ->
  parse_digits 10 max acc s = Some (num_from acc s).
Proof.
  revert acc. induction s as [|c s IH]; intros acc Hacc; [done|]. cbn.
  intros [Hc Hs]%andb_true_iff Hm. pose proof (digit_val_range c Hc).
  rewrite to_digit_decimal by done.
  assert (acc * 10 + digit_val c <= num_from (acc * 10 + digit_val c) s) as Hle.
  { rewrite num_from_linear. pose proof (num_from_bounds s Hs).
    assert (0 < 10 ^ Z.of_nat (String.length s)) by (apply pow10_pos; lia). nia. }
  destruct (Z.leb_spec (acc * 10 + digit_val c) max); [apply IH; [lia|done..]|lia].
Qed.

(** Printing and parsing back. *)
Lemma from_str_radix_show_u64 n max :
  0 <= n <= u64_max -> n <= max -> from_str_radix 10 max (show_u64 n) = Some n.
Proof.
  intros Hn Hmax. destruct (wf_show_u64 n Hn) as (Hwf & Hnum & _).
  destruct (wf_int_digits _ Hwf) as [Hd Hne].
  unfold from_str_radix. destruct (show_u64 n) as [|c s] eqn:Hs; [done|].
  destruct (Ascii.eqb_spec c "+") as [->|].
  - cbn in Hd. discriminate Hd.
  - rewrite parse_decimal, Hnum; [done|lia|done|lia].
Qed.

Lemma hex_fixed_no_sign k n c s : 0 <= n -> hex_fixed k n = String c s -> to_digit 16 c <> None.
Proof.
  revert n c s. induction k as [|k IH]; intros n c s Hn; cbn; [done|].
  pose proof (Z.mod_pos_bound n 16 ltac:(lia)).
  destruct (hex_fixed k (n / 16)) as [|c' s'] eqn:Hk; cbn; intros [= <- _].
  - by rewrite to_digit_hex.
  - by apply (IH (n / 16) c' s'); [apply Z.div_pos; lia|].
Qed.

Lemma hex_fixed_no_colon k n : 0 <= n -> split_once ":" (hex_fixed k n) = None.
Proof.
  revert n. induction k as [|k IH]; intros n Hn; cbn [hex_fixed]; [done|].
  pose proof (Z.mod_pos_bound n 16 ltac:(lia)). apply split_once_append_None; [apply IH, Z.div_pos; lia|].
  cbn. destruct (Ascii.eqb_spec (hex_digit (n mod 16)) ":") as [He|]; [|done].
  assert (to_digit 16 (hex_digit (n mod 16)) = None) as Hd by (rewrite He; done).
  by rewrite to_digit_hex in Hd.
Qed.

Lemma length_hex_fixed k n : String.length (hex_fixed k n) = k.
Proof.
  revert n. induction k as [|k IH]; intros n; [done|]. cbn [hex_fixed]. rewrite length_append, IH. cbn. lia.
Qed.

Lemma from_str_radix_hex n :
  0 <= n <= u32_max -> from_str_radix 16 u32_max (hex_fixed 8 n) = Some n.
Proof.
  intros Hn. unfold from_str_radix.
  assert (parse_digits 16 u32_max 0 (hex_fixed 8 n) = Some n) as Hp
    by (apply parse_hex_fixed; unfold u32_max in *; lia).
  destruct (hex_fixed 8 n) as [|c s] eqn:Hs.
  - apply (f_equal String.length) in Hs. by rewrite length_hex_fixed in Hs.
  - destruct (Ascii.eqb_spec c "+") as [->|]; [|done].
    by destruct (hex_fixed_no_sign 8 n _ _ (proj1 Hn) Hs).
Qed.
