(* ===== verification/Network.v ===== *)
(** Networks (src/zallet/src/network.rs): the parameters of a regtest network
    given as upgrade heights, their text form, and the names of networks in the
    configuration and the database. *)

From stdpp Require Import fin finite vector.
From S2P Require Import Prelude Amount Text.

(** [consensus::NetworkType], [consensus::Network] of the [zcash_protocol] crate. *)
Inductive NetworkType := Main | Test | Regtest.
Inductive ConsensusNetwork := MainNetwork | TestNetwork.

#[export] Instance NetworkType_eq_dec : EqDecision NetworkType.
Proof. solve_decision. Defined.

(** [consensus::BranchId] and its conversions from and to [u32]. *)
Class BranchOps := {
  BranchId : Type;
  #[global] BranchId_eq_dec :: EqDecision BranchId;
  branch_id_try_from : Z -> option BranchId;
  u32_from_branch : BranchId -> Z;
  Overwinter : BranchId;
  Sapling : BranchId;
  Blossom : BranchId;
  Heartwood : BranchId;
  Canopy : BranchId;
  Nu5 : BranchId;
  Nu6 : BranchId;
  Nu6_1 : BranchId;
  Nu6_2 : BranchId;
  Nu6_3 : BranchId
}.

(** A branch identifier is a [u32], read back as it is written. *)
Class BranchLaws `{BranchOps} := {
  u32_from_branch_range : forall b, 0 <= u32_from_branch b <= u32_max;
  branch_id_round_trip : forall b, branch_id_try_from (u32_from_branch b) = Some b
}.

Section network.
Context `{BranchOps}.

Record RegTestNuParam := {
  consensus_branch_id : BranchId;
  activation_height : Z
}.

(** [local_consensus::LocalNetwork]. *)
Record LocalNetwork := {
  overwinter : option Z;
  sapling : option Z;
  blossom : option Z;
  heartwood : option Z;
  canopy : option Z;
  nu5 : option Z;
  nu6 : option Z;
  nu6_1 : option Z;
  nu6_2 : option Z;
  nu6_3 : option Z
}.

Inductive Network :=
  | Consensus (n : ConsensusNetwork)
  | RegTest (n : LocalNetwork).

(** [Option::or]. *)
Definition or_ {A} (a b : option A) : option A := match a with Some _ => a | None => b end.

Definition find_nu (nuparams : list RegTestNuParam) (nu : BranchId) : option Z :=
  activation_height <$> head (base.filter (fun p => consensus_branch_id p = nu) nuparams).

Definition from_type (network_type : NetworkType) (nuparams : list RegTestNuParam) : Network :=
  match network_type with
  | Main => Consensus MainNetwork
  | Test => Consensus TestNetwork
  | Regtest =>
      let nu6_3 := find_nu nuparams Nu6_3 in
      let nu6_2 := or_ (find_nu nuparams Nu6_2) nu6_3 in
      let nu6_1 := or_ (find_nu nuparams Nu6_1) nu6_2 in
      let nu6 := or_ (find_nu nuparams Nu6) nu6_1 in
      let nu5 := or_ (find_nu nuparams Nu5) nu6 in
      let canopy := or_ (find_nu nuparams Canopy) nu5 in
      let heartwood := or_ (find_nu nuparams Heartwood) canopy in
      let blossom := or_ (find_nu nuparams Blossom) heartwood in
      let sapling := or_ (find_nu nuparams Sapling) blossom in
      let overwinter := or_ (find_nu nuparams Overwinter) sapling in
      RegTest {| overwinter := overwinter; sapling := sapling; blossom := blossom; heartwood := heartwood;
                 canopy := canopy; nu5 := nu5; nu6 := nu6; nu6_1 := nu6_1; nu6_2 := nu6_2; nu6_3 := nu6_3 |}
  end.

(** [TryFrom<String>] and [Into<String>] of [RegTestNuParam]. *)
Definition nuparam_try_from (value : string) : outcome string RegTestNuParam :=
  let invalid := "Invalid `regtest_nuparam`"%string in
  '(branch_id, height) ← ok_or (split_once ":" value) invalid;
  consensus_branch_id ← ok_or
    (match from_str_radix 16 u32_max branch_id with
     | Some branch_id => branch_id_try_from branch_id
     | None => None
     end) invalid;
  activation_height ← ok_or (from_str_radix 10 u32_max height) invalid;
  Ret {| consensus_branch_id := consensus_branch_id; activation_height := activation_height |}.

Definition nuparam_to_string (p : RegTestNuParam) : string :=
  (hex_fixed 8 (u32_from_branch (consensus_branch_id p)) +:+ ":" +:+ show_u64 (activation_height p))%string.

(** [network::kind]. *)
Definition str_to_type (s : string) : option NetworkType :=
  if bool_decide (s = "main"%string) then Some Main
  else if bool_decide (s = "test"%string) then Some Test
  else if bool_decide (s = "regtest"%string) then Some Regtest
  else None.

Definition type_to_str (network_type : NetworkType) : string :=
  match network_type with Main => "main" | Test => "test" | Regtest => "regtest" end.

(** ** Properties *)

Lemma network_type_round_trip s t : str_to_type s = Some t <-> s = type_to_str t.
Proof.
  unfold str_to_type. split.
  - repeat case_bool_decide; by intros [= <-].
  - intros ->. by destruct t.
Qed.

Lemma nuparam_round_trip `{!BranchLaws} p :
  0 <= activation_height p <= u32_max -> nuparam_try_from (nuparam_to_string p) = Ret p.
Proof.
  intros Hh. unfold nuparam_try_from, nuparam_to_string.
  pose proof (u32_from_branch_range (consensus_branch_id p)) as Hb.
  change (":" +:+ show_u64 (activation_height p))%string with (String ":" (show_u64 (activation_height p))).
  rewrite split_once_app by (apply hex_fixed_no_colon; lia). cbn [ok_or mbind outcome_bind].
  rewrite from_str_radix_hex, branch_id_round_trip by done. cbn [ok_or mbind outcome_bind].
  rewrite from_str_radix_show_u64 by (unfold u32_max, u64_max in *; lia). by destruct p.
Qed.

(** The upgrades in the order in which they activate, and a network's heights. *)
Definition upgrades : list BranchId :=
  [Overwinter; Sapling; Blossom; Heartwood; Canopy; Nu5; Nu6; Nu6_1; Nu6_2; Nu6_3].

Definition activations (n : LocalNetwork) : list (option Z) :=
  [overwinter n; sapling n; blossom n; heartwood n; canopy n; nu5 n; nu6 n; nu6_1 n; nu6_2 n; nu6_3 n].

Fixpoint cascade (f : BranchId -> option Z) (l : list BranchId) : list (option Z) :=
  match l with
  | [] => []
  | b :: l => head (omap f (b :: l)) :: cascade f l
  end.

Lemma or_head {A B} (f : A -> option B) x l : or_ (f x) (head (omap f l)) = head (omap f (x :: l)).
Proof. cbn. by destruct (f x). Qed.

Lemma from_type_regtest nuparams :
  exists n, from_type Regtest nuparams = RegTest n /\ activations n = cascade (find_nu nuparams) upgrades.
Proof.
  eexists. split; [reflexivity|]. unfold activations, upgrades. cbn [cascade overwinter sapling blossom heartwood
    canopy nu5 nu6 nu6_1 nu6_2 nu6_3].
  rewrite <- !or_head. cbn [omap list_omap head].
  by destruct (find_nu nuparams Nu6_3).
Qed.

Lemma cascade_lookup f l i : cascade f l !! i = (fun l => head (omap f l)) <$> (if decide (i < length l)%nat then Some (drop i l) else None).
Proof.
  revert i. induction l as [|b l IH]; intros i; [by destruct i|].
  destruct i as [|i]; [done|]. cbn [cascade]. rewrite lookup_cons_ne_0 by done. cbn [pred]. rewrite IH.
  cbn [length drop]. destruct (decide (i < length l)%nat), (decide (S i < S (length l))%nat); done || lia.
Qed.

(** Regtest networks are configured faithfully: parameters written as text
    are read back, and in the network made of them each upgrade activates at the
    height given for it, or else at that of the next upgrade that has one; it
    never activates when neither it nor a later one is given. *)
Theorem regtest_network_correct `{!BranchLaws} nuparams :
  Forall (fun p => 0 <= activation_height p <= u32_max) nuparams ->
  traverse nuparam_try_from (nuparam_to_string <$> nuparams) = Ret nuparams /\
  exists n, from_type Regtest nuparams = RegTest n /\
    forall i b, upgrades !! i = Some b ->
      exists h, activations n !! i = Some h /\
        match find_nu nuparams b with
        | Some a => h = Some a
        | None => h = default None (activations n !! S i)
        end.
Proof.
  intros Hr. split.
  { apply traverse_Ret. induction Hr; cbn; constructor; [by apply nuparam_round_trip|done]. }
  destruct (from_type_regtest nuparams) as (n & Hn & Ha). exists n. split; [done|].
  intros i b Hb. rewrite Ha, !cascade_lookup. pose proof (lookup_lt_Some _ _ _ Hb).
  rewrite decide_True by done. eexists. split; [done|].
  rewrite (drop_S _ _ _ Hb). cbn [omap list_omap]. destruct (find_nu nuparams b); [done|].
  destruct (decide (S i < length upgrades)%nat); [done|]. by rewrite drop_ge by lia.
Qed.
End network.

(** ** An instance *)

Definition example_codes : list Z :=
  [0x5ba81b19; 0x76b809bb; 0x2bb40e60; 0xf5b9230b; 0xe9ff75a6; 0xc2d6d0b4; 0xc8e71055; 0x4dec4df0;
   0x5437f330; 0x37a5165b].

(** A branch is its position in the list of upgrades. *)
#[local] Instance example_branches : BranchOps := {|
  BranchId := fin 10;
  branch_id_try_from n := head (base.filter (fun i : fin 10 => example_codes !! fin_to_nat i = Some n) (enum (fin 10)));
  u32_from_branch i := default 0 (example_codes !! fin_to_nat i);
  Overwinter := 0%fin; Sapling := 1%fin; Blossom := 2%fin; Heartwood := 3%fin; Canopy := 4%fin;
  Nu5 := 5%fin; Nu6 := 6%fin; Nu6_1 := 7%fin; Nu6_2 := 8%fin; Nu6_3 := 9%fin |}.

#[local] Instance example_branch_laws : BranchLaws.
Proof.
  split; intros b; unfold BranchId in b; cbn in b;
    repeat (inv_fin b; [by vm_compute|intros b]); by inv_fin b.
Qed.

Definition example_nuparams : list RegTestNuParam :=
  [{| consensus_branch_id := Nu5; activation_height := 7 |}; {| consensus_branch_id := Sapling; activation_height := 1 |}].

Lemma regtest_network_correct_witness :
  nuparam_to_string <$> example_nuparams = ["c2d6d0b4:7"%string; "76b809bb:1"%string] /\
  traverse nuparam_try_from ["c2d6d0b4:7"%string; "76b809bb:1"%string] = Ret example_nuparams /\
  from_type Regtest example_nuparams = RegTest
    {| overwinter := Some 1; sapling := Some 1; blossom := Some 7; heartwood := Some 7; canopy := Some 7;
       nu5 := Some 7; nu6 := None; nu6_1 := None; nu6_2 := None; nu6_3 := None |}.
Proof.
  split; [vm_compute; reflexivity|].
  split; [|vm_compute; reflexivity].
  apply (regtest_network_correct example_nuparams). by repeat constructor.
Defined.
