(* ===== verification/Auth.v ===== *)
(** Who may call the JSON-RPC server
    (src/zallet/src/components/json_rpc/server/authorization.rs,
    server/cookie.rs, the set-up in server.rs and json_rpc.rs, [RpcAuthSection]
    of config.rs, and the clients commands/rpc_cli.rs and
    commands/add_rpc_user.rs): salted password hashes, HTTP basic
    authentication, the cookie file, and the credentials that the command-line
    client finds. *)

From stdpp Require Import strings gmap.
From S2P Require Import Prelude Text.

(** HMAC-SHA256 (hmac, sha2), base64ct, hex, and the conversions of hyper's
    [HeaderValue]. A [str] or a byte string is a [string]. *)
Class AuthOps := {
  hmac_sha256 : string -> string -> string;
  hex_encode : string -> string;
  hex_decode : string -> option string;
  base64_encode : string -> string;
  base64_decode : string -> option string;
  HeaderValue : Type;
  header_from_str : string -> option HeaderValue;
  header_to_str : HeaderValue -> option string
}.

(** [Hmac::<Sha256>::output_size()]. *)
Definition output_size : nat := 32.

Class AuthLaws `{AuthOps} := {
  length_hmac : forall k m, String.length (hmac_sha256 k m) = output_size;
  hex_round_trip : forall b, hex_decode (hex_encode b) = Some b;
  hex_no_dollar : forall b, split_once "$" (hex_encode b) = None;
  base64_round_trip : forall b, base64_decode (base64_encode b) = Some b;
  base64_plain : forall b, all_plain (base64_encode b) = true;
  (** A header value made of printable ASCII characters and spaces reads back. *)
  header_round_trip : forall s, all_plain s = true -> exists h,
    header_from_str ("Basic " +:+ s)%string = Some h /\ header_to_str h = Some ("Basic " +:+ s)%string
}.

(** [RpcAuthSection]. *)
Record RpcAuthSection := {
  user : string;
  password : option string;
  pwhash : option string
}.

Section Auth.
Context `{AuthOps}.

(** ** Password hashes *)

Record PasswordHash := {
  salt : string;
  hash : string
}.

#[export] Instance PasswordHash_eq_dec : EqDecision PasswordHash.
Proof. solve_decision. Defined.

Definition hash_password (password salt : string) : string := hmac_sha256 salt password.

(** [PasswordHash::from_str]. *)
Definition from_str (s : string) : outcome unit PasswordHash :=
  '(salt, hash) ← ok_or (split_once "$" s) tt;
  hash ← ok_or (hex_decode hash) tt;
  if bool_decide (String.length hash = output_size) then Ret {| salt := salt; hash := hash |} else Err tt.

(** [Display]. *)
Definition to_string (h : PasswordHash) : string :=
  (salt h +:+ String "$" (hex_encode (hash h)))%string.

(** [PasswordHash::from_bare]; [random] is what the generator yields. *)
Definition from_bare (random : string) (password : string) : PasswordHash :=
  let salt := hex_encode random in
  {| salt := salt; hash := hash_password password salt |}.

Definition check (h : PasswordHash) (password : string) : bool :=
  bool_decide (hash_password password (salt h) = hash h).

(** The line that [add_rpc_user] prints for the configuration file. *)
Definition add_rpc_user (random username password : string) : RpcAuthSection := {|
  user := username; Auth.password := None; pwhash := Some (to_string (from_bare random password)) |}.

(** ** The server's side *)

(** [str::strip_prefix]. *)
Fixpoint strip_prefix (p s : string) : option string :=
  match p, s with
  | EmptyString, _ => Some s
  | String a p, String b s => if Ascii.eqb a b then strip_prefix p s else None
  | String _ _, EmptyString => None
  end.

(** [String::from_utf8]. *)
Definition from_utf8 (b : string) : option string := if valid_utf8 b then Some b else None.

(** The users of an [Authorization]. *)
Abbreviation Users := (gmap string PasswordHash).

(** The [encoded_user_pass] of [is_authorized]. *)
Definition encoded_user_pass (auth_header : HeaderValue) : option string :=
  s ← header_to_str auth_header;
  s ← strip_prefix "Basic " s;
  b ← base64_decode s;
  from_utf8 b.

Definition is_authorized (users : Users) (auth_header : HeaderValue) : bool :=
  match encoded_user_pass auth_header with
  | None => false
  | Some user_pass =>
      match split_once ":" user_pass with
      | None => false
      | Some (user, pass) =>
          match users !! user with
          | None => false
          | Some password => check password pass
          end
      end
  end.

(** One entry of [auth] in [AuthorizationLayer::new]; [random] is drawn for a
    bare password. *)
Definition auth_entry (random : string) (a : RpcAuthSection) : outcome unit (string * PasswordHash) :=
  match password a, pwhash a with
  | Some password, None => Ret (user a, from_bare random password)
  | None, Some pwhash => h ← from_str pwhash; Ret (user a, h)
  | _, _ => Err tt
  end.

(** The [collect] into a [HashMap]: a later entry replaces an earlier one. The
    [k]-th entry draws [random k]. *)
Fixpoint collect_users (random : nat -> string) (k : nat) (auth : list RpcAuthSection) (users : Users) :
    outcome unit Users :=
  match auth with
  | [] => Ret users
  | a :: auth =>
      '(u, h) ← auth_entry (random k) a;
      collect_users random (S k) auth (<[u := h]> users)
  end.

(** [AuthorizationLayer::new]. *)
Definition authorization_layer (random : nat -> string) (auth : list RpcAuthSection)
    (cookie : option (string * PasswordHash)) : outcome unit Users :=
  users ← collect_users random 0 auth ∅;
  Ret match cookie with
      | Some (cookie_user, cookie_hash) => <[cookie_user := cookie_hash]> users
      | None => users
      end.

(** What [call] answers: a 401 after a delay in milliseconds, or the answer of
    the inner service. *)
Inductive Reply (Resp : Type) :=
  | Unauthorized (delay : Z)
  | Answer (r : Resp).
#[global] Arguments Unauthorized {Resp} _.
#[global] Arguments Answer {Resp} _.

Definition call {Req Resp} (users : Users) (auth_header : Req -> option HeaderValue) (service : Req -> Resp)
    (request : Req) : Reply Resp :=
  match auth_header request with
  | None => Unauthorized 0
  | Some h => if is_authorized users h then Answer (service request) else Unauthorized 250
  end.

(** ** The cookie file *)

Definition COOKIE_USER : string := "__cookie__".
Definition COOKIE_FILENAME : string := ".cookie".
Definition TMP_FILENAME : string := ".cookie.tmp".

(** The data directory: names to contents and permission bits. *)
Record File := { contents : string; mode : Z }.
Abbreviation Dir := (gmap string File).

(** Which file operations the system fails, beyond what the directory's state
    makes them fail; a failed [write_all] leaves some part of its text. *)
Record Faults := {
  remove_tmp_fails : bool;
  open_fails : bool;
  write_fails : option string;
  rename_fails : bool;
  cleanup_fails : bool;
  read_fails : bool;
  drop_fails : bool
}.

(** [ErrorKind::Init] with its context: the name of a failed file operation,
    or a message. *)
Inductive InitError :=
  | Io (operation : string)
  | Context (text : string).

#[export] Instance InitError_eq_dec : EqDecision InitError.
Proof. solve_decision. Defined.

(** [fs::remove_file]. *)
Definition remove_file (fails : bool) (name : string) : M Dir unit unit := fun d =>
  if fails then (Err tt, d)
  else match d !! name with
       | Some _ => (Ret tt, delete name d)
       | None => (Err tt, d)
       end.

(** [let _ = fs::remove_file(..)]. *)
Definition try_remove (fails : bool) (name : string) : M Dir InitError unit :=
  _ ← attempt (remove_file fails name); mret tt.

(** [OpenOptions::new().write(true).create_new(true).mode(0o600).open(..)]. *)
Definition create_new (fails : bool) (name : string) : M Dir InitError unit := fun d =>
  match fails, d !! name with
  | false, None => (Ret tt, <[name := {| contents := ""; mode := 0x180 |}]> d)
  | _, _ => (Err (Io "open"), d)
  end.

(** [write_all] on the file just created. *)
Definition write_all (fails : option string) (name text : string) : M Dir unit unit := fun d =>
  match fails with
  | Some part => (Err tt, <[name := {| contents := part; mode := 0x180 |}]> d)
  | None => (Ret tt, <[name := {| contents := text; mode := 0x180 |}]> d)
  end.

(** [fs::rename]. *)
Definition rename (fails : bool) (from to : string) : M Dir unit unit := fun d =>
  match fails, d !! from with
  | false, Some f => (Ret tt, <[to := f]> (delete from d))
  | _, _ => (Err tt, d)
  end.

(** [generate_cookie], on Unix; [password] is the 32 random bytes and [random]
    the salt. The guard is the name of the file it deletes. *)
Definition generate_cookie (io : Faults) (password random : string) :
    M Dir InitError (string * PasswordHash * string) :=
  let password := base64_encode password in
  let cookie := (COOKIE_USER +:+ ":" +:+ password)%string in
  _ ← try_remove (remove_tmp_fails io) TMP_FILENAME;
  _ ← create_new (open_fails io) TMP_FILENAME;
  w ← attempt (write_all (write_fails io) TMP_FILENAME cookie);
  _ ← match w with
      | inl _ => _ ← try_remove (cleanup_fails io) TMP_FILENAME; throw (Io "write")
      | inr _ => mret tt
      end;
  r ← attempt (rename (rename_fails io) TMP_FILENAME COOKIE_FILENAME);
  _ ← match r with
      | inl _ => _ ← try_remove (cleanup_fails io) TMP_FILENAME; throw (Io "rename")
      | inr _ => mret tt
      end;
  mret (COOKIE_USER, from_bare random password, COOKIE_FILENAME).

(** [Drop for CookieGuard]. *)
Definition drop_guard (io : Faults) (guard : option string) (d : Dir) : Dir :=
  match guard with
  | Some name => (remove_file (drop_fails io) name d).2
  | None => d
  end.

(** [read_cookie]. *)
Definition read_cookie (io : Faults) (d : Dir) : outcome InitError string :=
  contents ← (if read_fails io then Err (Io "read")
              else match d !! COOKIE_FILENAME with
                   | Some f => if valid_utf8 (contents f) then Ret (contents f) else Err (Io "read")
                   | None => Err (Io "read")
                   end);
  let cookie := trim contents in
  if starts_with (COOKIE_USER +:+ ":") cookie then Ret cookie
  else Err (Context "Invalid cookie file format").

(** ** Starting the server *)

(** [RpcSection]. *)
Record RpcSection := {
  bind : list string;
  timeout : option Z;
  auth : list RpcAuthSection
}.

(** [RpcSection::timeout], in seconds. *)
Definition rpc_timeout (c : RpcSection) : Z := default 30 (timeout c).

(** What the random generator yields during start-up. *)
Record Randomness := {
  cookie_password : string;
  cookie_salt : string;
  salts : nat -> string
}.

(** A running server: who may call it, the timeout of its requests, and the
    guard that its task holds. *)
Record Server := {
  users : Users;
  listen_addr : string;
  request_timeout : Z;
  cookie_guard : option string
}.

(** The second half of [server::spawn]: [build listen_addr] tells whether the
    listener can be opened. An early return drops the guard. *)
Definition open_server (io : Faults) (rng : Randomness) (build : string -> bool) (config : RpcSection)
    (listen_addr : string) (cookie : option (string * PasswordHash)) (guard : option string) :
    M Dir InitError Server :=
  match authorization_layer (salts rng) (auth config) cookie with
  | Ret us =>
      if build listen_addr then
        mret {| users := us; listen_addr := listen_addr; request_timeout := rpc_timeout config;
                cookie_guard := guard |}
      else _ ← modify (drop_guard io guard); throw (Io "bind")
  | Err _ => _ ← modify (drop_guard io guard); throw (Context "err-init-rpc-auth-invalid")
  | Panic => lift Panic
  end.

(** [server::spawn]. *)
Definition has_cookie_user (config : RpcSection) : bool :=
  existsb (fun a => String.eqb (user a) COOKIE_USER) (auth config).

Definition spawn_server (io : Faults) (rng : Randomness) (build : string -> bool) (config : RpcSection) :
    M Dir InitError Server :=
  _ ← lift (assert (bool_decide (length (bind config) = 1%nat)));
  listen_addr ← lift (expect (bind config !! 0%nat));
  '(cookie, guard) ←
    (if has_cookie_user config then mret (None, None)
     else '(u, h, guard) ← generate_cookie io (cookie_password rng) (cookie_salt rng);
          mret (Some (u, h), Some guard));
  open_server io rng build config listen_addr cookie guard.

(** [JsonRpc::spawn]; [None] is the task that waits forever. *)
Definition json_rpc_spawn (io : Faults) (rng : Randomness) (build : string -> bool) (rpc : RpcSection) :
    M Dir InitError (option Server) :=
  match bind rpc with
  | [] => mret None
  | _ =>
      if bool_decide (1 < length (bind rpc))%nat then
        throw (Context "Only one RPC bind address is supported (for now)")
      else s ← spawn_server io rng build rpc; mret (Some s)
  end.

(** The server's task ends, or is cancelled. *)
Definition server_stops (io : Faults) (s : Server) (d : Dir) : Dir := drop_guard io (cookie_guard s) d.

(** ** The client's side: [RpcCliCmd::run] *)

Definition credentials (io : Faults) (config : RpcSection) (d : Dir) : option string :=
  match head (omap (fun a => pw ← password a; Some (user a +:+ ":" +:+ pw)%string) (auth config)) with
  | Some creds => Some creds
  | None => ok (read_cookie io d)
  end.

Inductive RpcCliError :=
  | FailedToConnect
  | WalletHasNoRpcServer.

(** The authorization header, if there are credentials. *)
Definition client_header (creds : option string) : outcome RpcCliError (option HeaderValue) :=
  match creds with
  | Some creds =>
      value ← ok_or (header_from_str ("Basic " +:+ base64_encode creds)%string) FailedToConnect;
      Ret (Some value)
  | None => Ret None
  end.

(** [self.timeout], in seconds. *)
Definition DEFAULT_HTTP_CLIENT_TIMEOUT : Z := 900.
Definition client_timeout (timeout : option Z) : Z :=
  match timeout with
  | Some t => if t =? 0 then u64_max else t
  | None => DEFAULT_HTTP_CLIENT_TIMEOUT
  end.

(** The address the client connects to: [client_builds a] tells whether a client for [a]
    can be built. *)
Definition connect (client_builds : string -> bool) (addrs : list string) : outcome RpcCliError string :=
  match addrs with
  | [] => Err WalletHasNoRpcServer
  | [a] => if client_builds a then Ret a else Err FailedToConnect
  | _ => ok_or (List.find client_builds addrs) FailedToConnect
  end.

(** ** Lemmas *)

Lemma strip_prefix_Some p s r : strip_prefix p s = Some r <-> s = (p +:+ r)%string.
Proof.
  revert s. induction p as [|a p IH]; intros s; cbn [strip_prefix].
  - split; [by intros [= ->]|]. by intros ->.
  - change (String a p +:+ r)%string with (String a (p +:+ r))%string. destruct s as [|b s]; [done|].
    destruct (Ascii.eqb_spec a b) as [->|Hne]; [rewrite IH; split; [by intros ->|by intros [= ->]]|].
    split; [done|]. by intros [= <- _].
Qed.

Lemma starts_with_app p s : starts_with p (p +:+ s)%string = true.
Proof.
  unfold starts_with. induction p as [|c p IH]; [by destruct s|].
  change (String c p +:+ s)%string with (String c (p +:+ s))%string. cbn [String.prefix].
  by destruct (Ascii.ascii_dec c c).
Qed.

#[local] Arguments strip_prefix : simpl never.
#[local] Arguments String.append : simpl never.

Lemma encoded_user_pass_Some h b :
  encoded_user_pass h = Some b <->
  exists e, header_to_str h = Some ("Basic " +:+ e)%string /\ base64_decode e = Some b /\ valid_utf8 b = true.
Proof.
  unfold encoded_user_pass, from_utf8. destruct (header_to_str h) as [s|]; cbn; [|by split; [|intros (? & ? & _)]].
  split.
  - destruct (strip_prefix "Basic " s) as [e|] eqn:He; cbn; [|done]. apply strip_prefix_Some in He as ->.
    destruct (base64_decode e) as [b'|] eqn:Hb; cbn; [|done]. destruct (valid_utf8 b') eqn:Hv; [|done].
    intros [= <-]. by exists e.
  - intros (e & [= ->] & He & Hv). rewrite (proj2 (strip_prefix_Some "Basic " _ e) eq_refl). cbn.
    rewrite He. cbn. by rewrite Hv.
Qed.

(** C23. A request passes exactly when its header is Basic with the base64 of
    user:password, valid UTF-8, the user being without colon and known, and
    the password hashing to the stored value. *)
Theorem is_authorized_correct us h :
  is_authorized us h = true <->
  exists e u p ph,
    header_to_str h = Some ("Basic " +:+ e)%string /\
    base64_decode e = Some (u +:+ String ":" p)%string /\
    valid_utf8 (u +:+ String ":" p)%string = true /\
    split_once ":" u = None /\
    us !! u = Some ph /\ hash_password p (salt ph) = hash ph.
Proof.
  unfold is_authorized, check. split.
  - destruct (encoded_user_pass h) as [b|] eqn:Hb; [|done].
    destruct (split_once ":" b) as [[u p]|] eqn:Hs; [|done].
    destruct (us !! u) as [ph|] eqn:Hu; [|done]. intros Hc%bool_decide_eq_true.
    apply encoded_user_pass_Some in Hb as (e & ? & ? & ?). apply split_once_Some in Hs as [-> Hn].
    by exists e, u, p, ph.
  - intros (e & u & p & ph & Hh & He & Hv & Hn & Hu & Hc).
    rewrite (proj2 (encoded_user_pass_Some h (u +:+ String ":" p)%string)) by eauto.
    rewrite split_once_app, Hu by done. by apply bool_decide_eq_true.
Qed.

(** The hash that an entry of the configuration stands for. *)
Definition entry_hash (random : string) (a : RpcAuthSection) : option PasswordHash :=
  match password a, pwhash a with
  | Some password, None => Some (from_bare random password)
  | None, Some pwhash => ok (from_str pwhash)
  | _, _ => None
  end.

Lemma from_str_not_Panic s : from_str s <> Panic.
Proof.
  unfold from_str. destruct (split_once _ _) as [[]|]; cbn; [|done].
  destruct (hex_decode _); cbn; [|done]. by case_bool_decide.
Qed.

Lemma auth_entry_spec random a :
  match entry_hash random a with
  | Some h => auth_entry random a = Ret (user a, h)
  | None => auth_entry random a = Err tt
  end.
Proof.
  unfold entry_hash, auth_entry. destruct (password a) as [pw|], (pwhash a) as [ph|]; try done.
  pose proof (from_str_not_Panic ph). by destruct (from_str ph) as [|[]|].
Qed.

(** The last entry for a user, each entry with the salt drawn for it. *)
Definition last_entry (random : nat -> string) (k : nat) (auth : list RpcAuthSection) (u : string) :
    option PasswordHash :=
  last (omap (fun '(i, a) => if bool_decide (user a = u) then entry_hash (random i) a else None)
          (imap (fun i a => ((k + i)%nat, a)) auth)).

Lemma last_entry_cons random k a auth u :
  last_entry random k (a :: auth) u =
  match last_entry random (S k) auth u with
  | Some h => Some h
  | None => if bool_decide (user a = u) then entry_hash (random k) a else None
  end.
Proof.
  unfold last_entry. rewrite imap_cons, Nat.add_0_r. cbn [omap list_omap].
  assert (imap ((fun i a => ((k + i)%nat, a)) ∘ S) auth = imap (fun i a => ((S k + i)%nat, a)) auth) as ->
    by (apply imap_ext; intros; cbn; by rewrite Nat.add_succ_r).
  destruct (if bool_decide (user a = u) then entry_hash (random k) a else None) as [h|].
  - rewrite last_cons. by destruct (last _).
  - by destruct (last _).
Qed.

Lemma collect_users_spec random k auth us :
  match collect_users random k auth us with
  | Ret us' =>
      (forall i a, auth !! i = Some a -> is_Some (entry_hash (random (k + i)%nat) a)) /\
      forall u, us' !! u = match last_entry random k auth u with Some h => Some h | None => us !! u end
  | Err _ => exists i a, auth !! i = Some a /\ entry_hash (random (k + i)%nat) a = None
  | Panic => False
  end.
Proof.
  revert k us. induction auth as [|a auth IH]; intros k us; [done|]. cbn [collect_users].
  pose proof (auth_entry_spec (random k) a) as Ha.
  destruct (entry_hash (random k) a) as [h|] eqn:Hh; rewrite Ha; cbn [mbind outcome_bind].
  2: { exists 0%nat, a. by rewrite Nat.add_0_r. }
  specialize (IH (S k) (<[user a := h]> us)). destruct (collect_users _ _ _ _) as [us'|e|]; [| |done].
  - destruct IH as [IHv IH]. split.
    + intros [|i] b; cbn; [intros [= <-]; rewrite Nat.add_0_r; by eexists|].
      rewrite Nat.add_succ_r. apply (IHv i).
    + intros u. rewrite IH, last_entry_cons. destruct (last_entry _ _ _ _); [done|].
      case_bool_decide as Hu; [subst; by rewrite Hh, lookup_insert_eq|by rewrite lookup_insert_ne].
  - destruct IH as (i & b & Hi & Hb). exists (S i), b. by rewrite Nat.add_succ_r.
Qed.

(** The user table of a layer, and the failure of an entry that is neither a
    bare password nor a readable hash. *)
Definition layer_lookup (random : nat -> string) (auth : list RpcAuthSection)
    (cookie : option (string * PasswordHash)) (u : string) : option PasswordHash :=
  match cookie with
  | Some (cu, h) => if bool_decide (u = cu) then Some h else last_entry random 0 auth u
  | None => last_entry random 0 auth u
  end.

Lemma authorization_layer_spec random auth cookie :
  post (authorization_layer random auth cookie)
    (fun us => (forall i a, auth !! i = Some a -> is_Some (entry_hash (random i) a)) /\
               forall u, us !! u = layer_lookup random auth cookie u)
    (fun _ => exists i a, auth !! i = Some a /\ entry_hash (random i) a = None).
Proof.
  unfold authorization_layer. pose proof (collect_users_spec random 0 auth ∅) as Hc.
  destruct (collect_users _ _ _ _) as [us|e|]; cbn [mbind outcome_bind]; [|exact Hc|done].
  destruct Hc as [Hv Hc]. split; [exact Hv|]. intros u. unfold layer_lookup.
  assert (us !! u = last_entry random 0 auth u) as Hu by (rewrite Hc; by destruct (last_entry _ _ _ _)).
  destruct cookie as [[cu h]|]; [|done].
  case_bool_decide; [subst; by rewrite lookup_insert_eq|by rewrite lookup_insert_ne].
Qed.

(** The layer is built exactly when every entry has a bare password or a
    readable hash but not both; the last entry of a user counts, and the
    cookie replaces it. *)
Theorem authorization_layer_correct random auth cookie :
  match authorization_layer random auth cookie with
  | Ret us =>
      (forall i a, auth !! i = Some a -> is_Some (entry_hash (random i) a)) /\
      forall u h, us !! u = Some h <->
        match cookie with
        | Some (cu, ch) => if bool_decide (u = cu) then h = ch else last_entry random 0 auth u = Some h
        | None => last_entry random 0 auth u = Some h
        end
  | Err _ => exists i a, auth !! i = Some a /\ entry_hash (random i) a = None
  | Panic => False
  end.
Proof.
  pose proof (authorization_layer_spec random auth cookie) as Hl.
  destruct (authorization_layer _ _ _) as [us|e|]; [|exact Hl|done].
  destruct Hl as [Hv Hl]. split; [exact Hv|]. intros u h. rewrite Hl. unfold layer_lookup.
  destruct cookie as [[cu ch]|]; [|done]. case_bool_decide; [|done]. naive_solver.
Qed.

(** ** The life of the cookie file *)

(** The cookie that [generate_cookie] writes. *)
Definition cookie_text (password : string) : string := (COOKIE_USER +:+ ":" +:+ base64_encode password)%string.
Definition cookie_file (password : string) : File := {| contents := cookie_text password; mode := 0x180 |}.

Lemma remove_file_snd fails name d :
  (remove_file fails name d).2 = if fails then d else delete name d.
Proof.
  unfold remove_file. destruct fails; [done|]. destruct (d !! name) eqn:Hd; cbn; [done|].
  by rewrite delete_id.
Qed.

Lemma try_remove_spec fails name d :
  try_remove fails name d = (Ret tt, if fails then d else delete name d).
Proof.
  rewrite <- remove_file_snd. unfold try_remove, mbind, M_bind, attempt, remove_file.
  destruct fails; [done|]. by destruct (d !! name).
Qed.

(** What happens once the temporary file is out of the way. *)
Definition write_cookie (io : Faults) (d : Dir) (cookie : string) : (InitError + unit) * Dir :=
  match open_fails io, write_fails io, rename_fails io with
  | true, _, _ => (inl (Io "open"), d)
  | false, Some part, _ =>
      (inl (Io "write"), if cleanup_fails io then <[TMP_FILENAME := {| contents := part; mode := 0x180 |}]> d else d)
  | false, None, true =>
      (inl (Io "rename"), if cleanup_fails io then <[TMP_FILENAME := {| contents := cookie; mode := 0x180 |}]> d else d)
  | false, None, false => (inr tt, <[COOKIE_FILENAME := {| contents := cookie; mode := 0x180 |}]> d)
  end.

Lemma generate_cookie_eq io pw r d :
  generate_cookie io pw r d =
  let d1 := if remove_tmp_fails io then d else delete TMP_FILENAME d in
  match d1 !! TMP_FILENAME with
  | Some _ => (Err (Io "open"), d1)
  | None =>
      match write_cookie io d1 (cookie_text pw) with
      | (inl e, d2) => (Err e, d2)
      | (inr _, d2) => (Ret (COOKIE_USER, from_bare r (base64_encode pw), COOKIE_FILENAME), d2)
      end
  end.
Proof.
  unfold generate_cookie, mbind, M_bind. rewrite try_remove_spec. cbv beta iota.
  set (d1 := if remove_tmp_fails io then d else delete TMP_FILENAME d). cbv zeta.
  unfold create_new, write_cookie. destruct (open_fails io); [by destruct (d1 !! TMP_FILENAME)|].
  destruct (d1 !! TMP_FILENAME) as [f|] eqn:Hd1; [done|]. unfold write_all, attempt.
  destruct (write_fails io) as [part|].
  - rewrite try_remove_spec. cbn. unfold throw, lift.
    destruct (cleanup_fails io); rewrite ?insert_insert_eq; [done|]. by rewrite delete_insert_eq, delete_id.
  - unfold rename. cbn. destruct (rename_fails io); cbn.
    + rewrite try_remove_spec. cbn. unfold throw, lift.
      destruct (cleanup_fails io); rewrite ?insert_insert_eq; [done|]. by rewrite delete_insert_eq, delete_id.
    + rewrite !insert_insert_eq, lookup_insert_eq. cbn. by rewrite delete_insert_eq, delete_id.
Qed.

Lemma generate_cookie_spec io pw r d :
  match generate_cookie io pw r d with
  | (Ret x, d') =>
      x = (COOKIE_USER, from_bare r (base64_encode pw), COOKIE_FILENAME) /\
      d' = <[COOKIE_FILENAME := cookie_file pw]> (delete TMP_FILENAME d)
  | (Err _, d') =>
      delete TMP_FILENAME d' = delete TMP_FILENAME d /\
      (remove_tmp_fails io = false -> cleanup_fails io = false -> d' !! TMP_FILENAME = None)
  | (Panic, _) => False
  end.
Proof.
  rewrite generate_cookie_eq. cbv zeta.
  set (d1 := if remove_tmp_fails io then d else delete TMP_FILENAME d).
  assert (delete TMP_FILENAME d1 = delete TMP_FILENAME d) as Hd1
    by (unfold d1; destruct (remove_tmp_fails io); [done|apply delete_delete_eq]).
  assert (remove_tmp_fails io = false -> d1 !! TMP_FILENAME = None) as Hf
    by (unfold d1; intros ->; apply lookup_delete_eq).
  destruct (d1 !! TMP_FILENAME) as [f|] eqn:Hl; [split; [done|]; intros Hr; by specialize (Hf Hr)|].
  rewrite delete_id in Hd1 by done. rewrite <- Hd1. unfold write_cookie.
  destruct (open_fails io); [split; [by apply delete_id|done]|].
  destruct (write_fails io), (rename_fails io); try (by split);
    (split; [destruct (cleanup_fails io); rewrite ?delete_insert_eq; by apply delete_id|by intros _ ->]).
Qed.

(** ** From start-up to a client's call *)

Lemma last_entry_None random k auth u : u ∉ map user auth -> last_entry random k auth u = None.
Proof.
  revert k. induction auth as [|a auth IH]; intros k Hu; [done|]. rewrite last_entry_cons.
  cbn in Hu. apply not_elem_of_cons in Hu as [Hne Hu]. rewrite IH by done. by rewrite bool_decide_false.
Qed.

Lemma last_entry_NoDup random k auth i a :
  NoDup (map user auth) -> auth !! i = Some a ->
  last_entry random k auth (user a) = entry_hash (random (k + i)%nat) a.
Proof.
  revert k i. induction auth as [|b auth IH]; intros k i Hnd Hi; [done|].
  cbn in Hnd. apply NoDup_cons in Hnd as [Hb Hnd]. rewrite last_entry_cons. destruct i as [|i]; cbn in Hi.
  - injection Hi as ->. rewrite last_entry_None, bool_decide_true, Nat.add_0_r by done. done.
  - rewrite (IH (S k) i Hnd Hi), Nat.add_succ_r. destruct (entry_hash _ a) as [h|]; [done|].
    rewrite bool_decide_false; [done|]. intros Heq. apply Hb. rewrite Heq.
    apply list_elem_of_In, in_map, list_elem_of_In. by eapply list_elem_of_lookup_2.
Qed.

(** The cookie given to the layer, when one is generated. *)
Definition server_cookie (rng : Randomness) (config : RpcSection) : option (string * PasswordHash) :=
  if has_cookie_user config then None
  else Some (COOKIE_USER, from_bare (cookie_salt rng) (base64_encode (cookie_password rng))).

Definition server_dir (rng : Randomness) (config : RpcSection) (d : Dir) : Dir :=
  if has_cookie_user config then d
  else <[COOKIE_FILENAME := cookie_file (cookie_password rng)]> (delete TMP_FILENAME d).

Definition server_guard (config : RpcSection) : option string :=
  if has_cookie_user config then None else Some COOKIE_FILENAME.

Lemma open_server_spec io rng build config addr cookie guard d :
  match open_server io rng build config addr cookie guard d with
  | (Ret s, d') =>
      authorization_layer (salts rng) (auth config) cookie = Ret (users s) /\
      d' = d /\ cookie_guard s = guard /\ listen_addr s = addr /\ build addr = true
  | (Err _, d') => d' = drop_guard io guard d
  | (Panic, _) => False
  end.
Proof.
  unfold open_server, mbind, M_bind, modify, throw, lift, mret, M_ret.
  pose proof (authorization_layer_spec (salts rng) (auth config) cookie) as Hp.
  destruct (authorization_layer _ _ _); [|done|done]. by destruct (build addr).
Qed.

Lemma spawn_server_spec io rng build config d :
  match spawn_server io rng build config d with
  | (Ret s, d') =>
      authorization_layer (salts rng) (auth config) (server_cookie rng config) = Ret (users s) /\
      d' = server_dir rng config d /\ cookie_guard s = server_guard config /\
      bind config = [listen_addr s] /\ build (listen_addr s) = true
  | (Err _, d') =>
      (has_cookie_user config = false /\ delete TMP_FILENAME d' = delete TMP_FILENAME d) \/
      d' = drop_guard io (server_guard config) (server_dir rng config d)
  | (Panic, d') => length (bind config) <> 1%nat /\ d' = d
  end.
Proof.
  unfold spawn_server, mbind, M_bind, lift, assert.
  destruct (decide (length (bind config) = 1%nat)) as [Hl|Hl];
    [rewrite bool_decide_true by done|by rewrite bool_decide_false].
  destruct (bind config) as [|addr [|]] eqn:Hb; try done. cbn [lookup list_lookup expect].
  unfold server_cookie, server_guard, server_dir. destruct (has_cookie_user config).
  - pose proof (open_server_spec io rng build config addr None None d) as Ho. cbn [mret M_ret].
    destruct (open_server _ _ _ _ _ _ _ _) as [[s| |] d']; [|by right|done].
    destruct Ho as (? & ? & ? & <- & ?). by split_and!.
  - pose proof (generate_cookie_spec io (cookie_password rng) (cookie_salt rng) d) as Hg.
    destruct (generate_cookie _ _ _ _) as [[x| |] d1]; [|by left; destruct Hg|done].
    destruct Hg as [-> ->]. cbn [mret M_ret].
    match goal with |- context [open_server _ _ _ _ _ ?c ?g ?d] =>
      pose proof (open_server_spec io rng build config addr c g d) as Ho end.
    destruct (open_server _ _ _ _ _ _ _ _) as [[s| |] d']; [|by right|done].
    destruct Ho as (? & ? & ? & <- & ?). by split_and!.
Qed.

(** Files other than the cookie and its temporary file are left alone. *)
Definition others_kept (d d' : Dir) : Prop :=
  forall n, n <> COOKIE_FILENAME -> n <> TMP_FILENAME -> d' !! n = d !! n.

Lemma others_kept_delete d d' : delete TMP_FILENAME d' = delete TMP_FILENAME d -> others_kept d d'.
Proof.
  intros Hd n _ Hn. rewrite <- (lookup_delete_ne d TMP_FILENAME), <- Hd by done. by rewrite lookup_delete_ne.
Qed.

Lemma others_kept_server io rng config d :
  others_kept d (server_dir rng config d) /\
  others_kept d (drop_guard io (server_guard config) (server_dir rng config d)).
Proof.
  unfold server_dir, server_guard, drop_guard. destruct (has_cookie_user config); [done|].
  rewrite remove_file_snd. split; intros n Hc Ht; [|destruct (drop_fails io)];
    rewrite ?lookup_delete_ne, ?lookup_insert_ne, ?lookup_delete_ne by congruence; done.
Qed.

(** C25. Starting the server writes the cookie (owner-only, no temporary file
    left) or leaves it alone when the user name is configured; stopping
    removes it; a failed start leaves no new cookie unless its removal fails;
    no other file changes. *)
Theorem cookie_lifetime_correct io rng build config d :
  match json_rpc_spawn io rng build config d with
  | (Ret None, d') => bind config = [] /\ d' = d
  | (Ret (Some s), d') =>
      others_kept d d' /\ bind config = [listen_addr s] /\
      (if has_cookie_user config then d' = d /\ server_stops io s d' = d
       else d' !! COOKIE_FILENAME = Some (cookie_file (cookie_password rng)) /\ d' !! TMP_FILENAME = None /\
            server_stops io s d' !! COOKIE_FILENAME
              = if drop_fails io then d' !! COOKIE_FILENAME else None)
  | (Err e, d') =>
      others_kept d d' /\
      (d' !! COOKIE_FILENAME = d !! COOKIE_FILENAME \/
       d' !! COOKIE_FILENAME = if drop_fails io then Some (cookie_file (cookie_password rng)) else None)
  | (Panic, _) => False
  end.
Proof.
  unfold json_rpc_spawn. destruct (bind config) as [|a l] eqn:Hb; [done|].
  case_bool_decide as Hl.
  { unfold throw, lift. split; [by intros ?|by left]. }
  pose proof (spawn_server_spec io rng build config d) as Hs. unfold mbind, M_bind.
  pose proof (others_kept_server io rng config d) as [Ho1 Ho2].
  destruct (spawn_server _ _ _ _ _) as [[s|e|] d'].
  - destruct Hs as (_ & -> & Hg & Haddr & _). cbn [mret M_ret].
    split; [done|]. split; [congruence|]. unfold server_stops, drop_guard. rewrite Hg.
    unfold server_dir, server_guard. destruct (has_cookie_user config); [done|].
    rewrite remove_file_snd. split; [by rewrite lookup_insert_eq|]. split.
    + by rewrite lookup_insert_ne, lookup_delete_eq.
    + destruct (drop_fails io); [done|]. by rewrite lookup_delete_eq.
  - destruct Hs as [[_ Hd]| ->].
    + split; [by apply others_kept_delete|]. left.
      rewrite <- (lookup_delete_ne d TMP_FILENAME), <- Hd by done. by rewrite lookup_delete_ne.
    + split; [done|]. unfold drop_guard, server_guard, server_dir.
      destruct (has_cookie_user config); [by left|right]. rewrite remove_file_snd.
      destruct (drop_fails io); [by rewrite lookup_insert_eq|by rewrite lookup_delete_eq].
  - destruct Hs as [Hs _]. rewrite Hb in Hs. cbn in Hs, Hl. lia.
Qed.

(** ** Clients *)
Context `{!AuthLaws}.

Lemma from_str_to_string random p : from_str (to_string (from_bare random p)) = Ret (from_bare random p).
Proof.
  unfold from_str, to_string, from_bare. cbn [salt hash].
  rewrite split_once_app by apply hex_no_dollar. cbn [ok_or mbind outcome_bind].
  rewrite hex_round_trip. cbn [ok_or mbind outcome_bind].
  by rewrite bool_decide_true by apply length_hmac.
Qed.

(** The hash that add_rpc_user prints is read back by the server as the
    hash of the same password, and checks exactly the passwords of equal HMAC.
    *)
Theorem add_rpc_user_correct random random' name p :
  auth_entry random' (add_rpc_user random name p) = Ret (name, from_bare random p) /\
  forall q, check (from_bare random p) q = true <->
            hmac_sha256 (hex_encode random) q = hmac_sha256 (hex_encode random) p.
Proof.
  split; [|intros q; apply bool_decide_eq_true].
  unfold auth_entry, add_rpc_user. cbn [password pwhash user]. by rewrite from_str_to_string.
Qed.

Lemma cookie_text_plain pw : all_plain (cookie_text pw) = true.
Proof. unfold cookie_text. by rewrite !all_plain_app, base64_plain. Qed.

Lemma read_cookie_text io d pw :
  read_fails io = false -> d !! COOKIE_FILENAME = Some (cookie_file pw) ->
  read_cookie io d = Ret (cookie_text pw).
Proof.
  intros Hr Hd. unfold read_cookie. rewrite Hr, Hd. cbn [contents cookie_file].
  rewrite plain_valid_utf8 by apply cookie_text_plain. cbn [mbind outcome_bind].
  rewrite trim_plain by apply cookie_text_plain.
  change (cookie_text pw) with ((COOKIE_USER +:+ ":") +:+ base64_encode pw)%string at 1.
  by rewrite starts_with_app.
Qed.

(** The header for [u:p] passes exactly when the table holds a hash of [p] for [u]. *)
Lemma client_header_authorized us u p ph :
  split_once ":" u = None -> valid_utf8 (u +:+ String ":" p)%string = true ->
  us !! u = Some ph -> hash_password p (salt ph) = hash ph ->
  exists h, client_header (Some (u +:+ String ":" p)%string) = Ret (Some h) /\ is_authorized us h = true.
Proof.
  intros Hu Hv Hl Hh.
  destruct (header_round_trip _ (base64_plain (u +:+ String ":" p)%string)) as (h & Hf & Ht).
  exists h. unfold client_header. rewrite Hf. split; [done|].
  unfold is_authorized, check. rewrite (proj2 (encoded_user_pass_Some h (u +:+ String ":" p)%string)).
  - rewrite split_once_app, Hl by done. by apply bool_decide_eq_true.
  - eexists. by rewrite Ht, base64_round_trip.
Qed.

(** The first entry with a bare password. *)
Lemma head_omap_lookup {A B} (f : A -> option B) l b :
  head (omap f l) = Some b -> exists i a, l !! i = Some a /\ f a = Some b.
Proof.
  induction l as [|a l IH]; [done|]. cbn [omap list_omap]. destruct (f a) eqn:Hf.
  - intros [= <-]. by exists 0%nat, a.
  - intros (i & a' & ? & ?)%IH. by exists (S i), a'.
Qed.

Lemma has_cookie_user_false config i a :
  has_cookie_user config = false -> auth config !! i = Some a -> user a <> COOKIE_USER.
Proof.
  unfold has_cookie_user. intros Hc Hi Heq.
  apply not_true_iff_false in Hc. apply Hc, existsb_exists. exists a.
  split; [by eapply list_elem_of_In, list_elem_of_lookup_2|by apply String.eqb_eq].
Qed.

(** C10. Once the server has started, with a configuration whose users are
    distinct, without a colon and valid UTF-8, as are the bare passwords, and
    with the data directory readable: the credentials that the command-line
    client finds with the same configuration and data directory (the first
    bare password, else the cookie, for which no configured user may have the
    cookie user's name) are accepted. *)
Theorem configured_client_authorized io rng build config d s d' :
  json_rpc_spawn io rng build config d = (Ret (Some s), d') ->
  NoDup (map user (auth config)) ->
  (forall a, a ∈ auth config -> split_once ":" (user a) = None /\ valid_utf8 (user a) = true /\
             forall p, password a = Some p -> valid_utf8 p = true) ->
  read_fails io = false ->
  (exists a p, a ∈ auth config /\ password a = Some p) \/ has_cookie_user config = false ->
  exists h, client_header (credentials io config d') = Ret (Some h) /\ is_authorized (users s) h = true.
Proof.
  intros Hs Hnd Hwf Hr Hcred. unfold json_rpc_spawn in Hs.
  destruct (bind config) as [|addr l]; [done|]. destruct (bool_decide _) in Hs; [done|].
  unfold mbind, M_bind in Hs. pose proof (spawn_server_spec io rng build config d) as Hsp.
  destruct (spawn_server _ _ _ _ _) as [[s'|e|] d'']; try done.
  cbn in Hs. injection Hs as -> ->. destruct Hsp as (Hlayer & -> & _).
  pose proof (authorization_layer_spec (salts rng) (auth config) (server_cookie rng config)) as Hl.
  rewrite Hlayer in Hl. destruct Hl as [Hvalid Hl]. unfold credentials.
  destruct (head (omap _ (auth config))) as [creds|] eqn:Hh.
  - apply head_omap_lookup in Hh as (i & a & Hi & Ha).
    destruct (password a) as [p|] eqn:Hp; [|done]. cbn in Ha. injection Ha as <-.
    destruct (Hwf a (list_elem_of_lookup_2 _ _ _ Hi)) as (Hu & Hvu & Hvp).
    destruct (Hvalid i a Hi) as [h Hh]. unfold entry_hash in Hh. rewrite Hp in Hh.
    destruct (pwhash a) eqn:Hpw; [done|].
    apply (client_header_authorized _ (user a) p (from_bare (salts rng i) p)); [done| | |done].
    + apply valid_utf8_app; [done|]. change (String ":" p) with (":" +:+ p)%string.
      apply valid_utf8_app; [done|by apply Hvp].
    + rewrite Hl. unfold layer_lookup, server_cookie. destruct (has_cookie_user config) eqn:Hc;
        [|rewrite bool_decide_false by by eapply has_cookie_user_false];
        rewrite (last_entry_NoDup _ 0 _ i a Hnd Hi); unfold entry_hash; by rewrite Hp, Hpw.
  - destruct Hcred as [(a & p & Ha & Hp)|Hc].
    { exfalso. apply list_elem_of_lookup_1 in Ha as [i Hi]. clear -Hh Hi Hp.
      revert i Hi. induction (auth config) as [|b l IH]; intros i Hi; [done|].
      cbn [omap list_omap] in Hh. destruct i; cbn in Hi.
      - injection Hi as ->. by rewrite Hp in Hh.
      - destruct (password b); [done|]. by apply (IH Hh i). }
    unfold server_dir. rewrite Hc.
    rewrite (read_cookie_text io _ (cookie_password rng)) by (done || apply lookup_insert_eq). cbn [ok].
    apply (client_header_authorized _ COOKIE_USER (base64_encode (cookie_password rng))
             (from_bare (cookie_salt rng) (base64_encode (cookie_password rng)))); [done| | |done].
    + apply plain_valid_utf8. apply (cookie_text_plain (cookie_password rng)).
    + rewrite Hl. unfold layer_lookup, server_cookie. by rewrite Hc, bool_decide_true.
Qed.
End Auth.

(** ** An instance *)

(** The first [n] characters of a text, or the text padded with zeros. *)
Fixpoint pad (n : nat) (s : string) : string :=
  match n, s with
  | O, _ => EmptyString
  | S n, String c s => String c (pad n s)
  | S n, EmptyString => String "0" (pad n EmptyString)
  end.

Definition bit (b : bool) : Ascii.ascii := if b then "1"%char else "0"%char.

(** Every byte as its eight binary digits. *)
Fixpoint binary (s : string) : string :=
  match s with
  | EmptyString => EmptyString
  | String (Ascii.Ascii a b c d e f g h) s =>
      String (bit a) (String (bit b) (String (bit c) (String (bit d)
        (String (bit e) (String (bit f) (String (bit g) (String (bit h) (binary s))))))))
  end.

Definition unbit (c : Ascii.ascii) : bool := Ascii.eqb c "1".

Fixpoint unbinary (s : string) : string :=
  match s with
  | String a (String b (String c (String d (String e (String f (String g (String h s))))))) =>
      String (Ascii.Ascii (unbit a) (unbit b) (unbit c) (unbit d) (unbit e) (unbit f) (unbit g) (unbit h))
        (unbinary s)
  | _ => EmptyString
  end.

Lemma unbinary_binary s : unbinary (binary s) = s.
Proof.
  assert (forall b, unbit (bit b) = b) as Hb by by intros [].
  induction s as [|[a b c d e f g h] s IH]; [done|]. cbn [binary unbinary]. by rewrite !Hb, IH.
Qed.

Lemma binary_plain s : all_plain (binary s) = true.
Proof.
  assert (forall x, plain (bit x) = true) as Hb by by intros [].
  induction s as [|[a b c d e f g h] s IH]; [done|]. cbn [binary all_plain]. by rewrite !Hb, IH.
Qed.

Lemma binary_no_dollar s : split_once "$" (binary s) = None.
Proof.
  assert (forall x, Ascii.eqb (bit x) "$" = false) as Hb by by intros [].
  induction s as [|[a b c d e f g h] s IH]; [done|]. cbn [binary split_once]. by rewrite !Hb, IH.
Qed.

Lemma length_pad n s : String.length (pad n s) = n.
Proof. revert s. induction n as [|n IH]; intros [|c s]; cbn; by rewrite ?IH. Qed.

Definition toy : AuthOps := {|
  hmac_sha256 k m := pad 32 (m +:+ k); hex_encode := binary; hex_decode s := Some (unbinary s);
  base64_encode := binary; base64_decode s := Some (unbinary s); HeaderValue := string;
  header_from_str s := Some s; header_to_str s := Some s |}.

Lemma toy_auth_laws : @AuthLaws toy.
Proof.
  constructor.
  - intros k m. apply (length_pad 32).
  - intros b. apply (f_equal Some (unbinary_binary b)).
  - apply binary_no_dollar.
  - intros b. apply (f_equal Some (unbinary_binary b)).
  - apply binary_plain.
  - intros s _. by exists ("Basic " +:+ s)%string.
Qed.

Lemma add_rpc_user_correct_witness :
  @check toy (@from_bare toy "salt" "hunter2") "hunter2" = true.
Proof. by apply (@add_rpc_user_correct toy toy_auth_laws "salt" "x" "alice" "hunter2"). Defined.

Definition no_faults : Faults := {|
  remove_tmp_fails := false; open_fails := false; write_fails := None; rename_fails := false;
  cleanup_fails := false; read_fails := false; drop_fails := false |}.

Definition toy_random : Randomness := {|
  cookie_password := "secret"; cookie_salt := "s"; salts := fun _ => "t"%string |}.

Definition toy_config : RpcSection := {|
  bind := ["127.0.0.1:28232"%string]; timeout := None;
  auth := [@add_rpc_user toy "salt" "alice" "hunter2"] |}.

Lemma configured_client_authorized_witness :
  exists s d' h,
    @json_rpc_spawn toy no_faults toy_random (fun _ => true) toy_config ∅ = (Ret (Some s), d') /\
    @client_header toy (@credentials no_faults toy_config d') = Ret (Some h) /\
    @is_authorized toy (users s) h = true.
Proof.
  destruct (@json_rpc_spawn toy no_faults toy_random (fun _ => true) toy_config ∅) as [r d'] eqn:Hs.
  assert (match (@json_rpc_spawn toy no_faults toy_random (fun _ => true) toy_config ∅).1 with
          | Ret (Some _) => true
          | _ => false
          end = true) as Hr by (vm_compute; reflexivity).
  rewrite Hs in Hr. destruct r as [[s|]|e|]; try discriminate Hr.
  exists s, d'.
  destruct (@configured_client_authorized toy toy_auth_laws no_faults toy_random (fun _ => true) toy_config ∅ s d')
    as (h & Hh & Ha).
  - exact Hs.
  - repeat constructor. apply not_elem_of_nil.
  - intros a Ha. apply list_elem_of_singleton in Ha as ->.
    split; [reflexivity|]. split; [reflexivity|]. intros p Hp. discriminate Hp.
  - reflexivity.
  - right. reflexivity.
  - exists h. by split.
Defined.
