(* ===== verification/MigrateConf.v ===== *)
(** The command [migrate-zcash-conf]
    (src/zallet/src/commands/migrate_zcash_conf.rs): a zcashd configuration file
    is read line by line, each option mapped, ignored or warned about by a table
    of actions.

    The table is the source's, entry by entry. The result is specified without
    it going line by line: [config_of] says what each field of the new
    configuration is in terms of the options that the file sets. *)

From S2P Require Import Prelude Rpc Text Network Auth.

Record lens (S T : Type) := Lens { view : S -> T; set : T -> S -> S }.
Arguments view {S T}.
Arguments set {S T}.

Class MigrateOps := {
  #[global] branch_ops :: BranchOps;
  SocketAddr : Type;
  (** [str::parse::<SocketAddr>]. *)
  parse_socket_addr : string -> option SocketAddr
}.

(** A line feed. *)
Definition nl : string := String (Ascii.ascii_of_nat 10) EmptyString.

Section migrate.
Context `{MigrateOps}.

(** The fields of [ZalletConfig] that the table sets. *)
Record ZalletConfig := {
  orchard_actions : option Z;
  spend_zeroconf_change : option bool;
  tx_expiry_delta : option Z;
  broadcast : option bool;
  notify : option string;
  require_backup : option bool;
  export_dir : option string;
  regtest_nuparams : list RegTestNuParam;
  network : NetworkType;
  auth : list RpcAuthSection;
  bind : list SocketAddr;
  timeout : option Z
}.

Definition default_config : ZalletConfig := {|
  orchard_actions := None; spend_zeroconf_change := None; tx_expiry_delta := None; broadcast := None;
  notify := None; require_backup := None; export_dir := None; regtest_nuparams := []; network := Main;
  auth := []; bind := []; timeout := None |}.

Definition orchard_actions_lens : lens ZalletConfig (option Z) := {| view := orchard_actions; set x c := {|
    orchard_actions := x; spend_zeroconf_change := spend_zeroconf_change c;
    tx_expiry_delta := tx_expiry_delta c; broadcast := broadcast c; notify := notify c;
    require_backup := require_backup c; export_dir := export_dir c;
    regtest_nuparams := regtest_nuparams c; network := network c; auth := auth c; bind := bind c;
    timeout := timeout c |} |}.

Definition spend_zeroconf_change_lens : lens ZalletConfig (option bool) := {| view := spend_zeroconf_change; set x c := {|
    orchard_actions := orchard_actions c; spend_zeroconf_change := x;
    tx_expiry_delta := tx_expiry_delta c; broadcast := broadcast c; notify := notify c;
    require_backup := require_backup c; export_dir := export_dir c;
    regtest_nuparams := regtest_nuparams c; network := network c; auth := auth c; bind := bind c;
    timeout := timeout c |} |}.

Definition tx_expiry_delta_lens : lens ZalletConfig (option Z) := {| view := tx_expiry_delta; set x c := {|
    orchard_actions := orchard_actions c; spend_zeroconf_change := spend_zeroconf_change c;
    tx_expiry_delta := x; broadcast := broadcast c; notify := notify c;
    require_backup := require_backup c; export_dir := export_dir c;
    regtest_nuparams := regtest_nuparams c; network := network c; auth := auth c; bind := bind c;
    timeout := timeout c |} |}.

Definition broadcast_lens : lens ZalletConfig (option bool) := {| view := broadcast; set x c := {|
    orchard_actions := orchard_actions c; spend_zeroconf_change := spend_zeroconf_change c;
    tx_expiry_delta := tx_expiry_delta c; broadcast := x; notify := notify c;
    require_backup := require_backup c; export_dir := export_dir c;
    regtest_nuparams := regtest_nuparams c; network := network c; auth := auth c; bind := bind c;
    timeout := timeout c |} |}.

Definition notify_lens : lens ZalletConfig (option string) := {| view := notify; set x c := {|
    orchard_actions := orchard_actions c; spend_zeroconf_change := spend_zeroconf_change c;
    tx_expiry_delta := tx_expiry_delta c; broadcast := broadcast c; notify := x;
    require_backup := require_backup c; export_dir := export_dir c;
    regtest_nuparams := regtest_nuparams c; network := network c; auth := auth c; bind := bind c;
    timeout := timeout c |} |}.

Definition require_backup_lens : lens ZalletConfig (option bool) := {| view := require_backup; set x c := {|
    orchard_actions := orchard_actions c; spend_zeroconf_change := spend_zeroconf_change c;
    tx_expiry_delta := tx_expiry_delta c; broadcast := broadcast c; notify := notify c;
    require_backup := x; export_dir := export_dir c; regtest_nuparams := regtest_nuparams c;
    network := network c; auth := auth c; bind := bind c; timeout := timeout c |} |}.

Definition export_dir_lens : lens ZalletConfig (option string) := {| view := export_dir; set x c := {|
    orchard_actions := orchard_actions c; spend_zeroconf_change := spend_zeroconf_change c;
    tx_expiry_delta := tx_expiry_delta c; broadcast := broadcast c; notify := notify c;
    require_backup := require_backup c; export_dir := x; regtest_nuparams := regtest_nuparams c;
    network := network c; auth := auth c; bind := bind c; timeout := timeout c |} |}.

Definition regtest_nuparams_lens : lens ZalletConfig (list RegTestNuParam) := {| view := regtest_nuparams; set x c := {|
    orchard_actions := orchard_actions c; spend_zeroconf_change := spend_zeroconf_change c;
    tx_expiry_delta := tx_expiry_delta c; broadcast := broadcast c; notify := notify c;
    require_backup := require_backup c; export_dir := export_dir c; regtest_nuparams := x;
    network := network c; auth := auth c; bind := bind c; timeout := timeout c |} |}.

Definition network_lens : lens ZalletConfig (NetworkType) := {| view := network; set x c := {|
    orchard_actions := orchard_actions c; spend_zeroconf_change := spend_zeroconf_change c;
    tx_expiry_delta := tx_expiry_delta c; broadcast := broadcast c; notify := notify c;
    require_backup := require_backup c; export_dir := export_dir c;
    regtest_nuparams := regtest_nuparams c; network := x; auth := auth c; bind := bind c;
    timeout := timeout c |} |}.

Definition auth_lens : lens ZalletConfig (list RpcAuthSection) := {| view := auth; set x c := {|
    orchard_actions := orchard_actions c; spend_zeroconf_change := spend_zeroconf_change c;
    tx_expiry_delta := tx_expiry_delta c; broadcast := broadcast c; notify := notify c;
    require_backup := require_backup c; export_dir := export_dir c;
    regtest_nuparams := regtest_nuparams c; network := network c; auth := x; bind := bind c;
    timeout := timeout c |} |}.

Definition bind_lens : lens ZalletConfig (list SocketAddr) := {| view := bind; set x c := {|
    orchard_actions := orchard_actions c; spend_zeroconf_change := spend_zeroconf_change c;
    tx_expiry_delta := tx_expiry_delta c; broadcast := broadcast c; notify := notify c;
    require_backup := require_backup c; export_dir := export_dir c;
    regtest_nuparams := regtest_nuparams c; network := network c; auth := auth c; bind := x;
    timeout := timeout c |} |}.

Definition timeout_lens : lens ZalletConfig (option Z) := {| view := timeout; set x c := {|
    orchard_actions := orchard_actions c; spend_zeroconf_change := spend_zeroconf_change c;
    tx_expiry_delta := tx_expiry_delta c; broadcast := broadcast c; notify := notify c;
    require_backup := require_backup c; export_dir := export_dir c;
    regtest_nuparams := regtest_nuparams c; network := network c; auth := auth c; bind := bind c;
    timeout := x |} |}.

(** ** Actions *)

Definition MapAction : Type := ZalletConfig -> string -> outcome message ZalletConfig.

Inductive Action :=
  | MapTo (f : MapAction) (target : option string)
  | MapMulti (f : MapAction)
  | Ignore
  | Warn (f : string -> option message).

Definition invalid_option_value (option value : string) : message :=
  Fl "err-migrate-invalid-zcashd-option" [("option"%string, Text option); ("value"%string, Text value)].

(** [Action::map], [map_bool], [map_related], [map_multi], [ignore]. *)
Definition map_ {T} (option : string) (f : lens ZalletConfig (Datatypes.option T)) (v : string -> Datatypes.option T) :
    string * Action :=
  (option, MapTo (fun config value =>
     value ← ok_or (v value) (invalid_option_value option value);
     Ret (set f (Some value) config)) None).

Definition parse_bool (value : string) : option bool :=
  if bool_decide (value = "0"%string) then Some false
  else if bool_decide (value = "1"%string) then Some true
  else None.

Definition map_bool (option : string) (f : lens ZalletConfig (Datatypes.option bool)) : string * Action :=
  map_ option f parse_bool.

Definition map_related {T} (option target : string) (f : lens ZalletConfig T)
    (v : string -> Datatypes.option (Datatypes.option T)) : string * Action :=
  (option, MapTo (fun config value =>
     o ← ok_or (v value) (invalid_option_value option value);
     Ret (match o with Some value => set f value config | None => config end)) (Some target)).

Definition map_multi {T} (option : string) (f : lens ZalletConfig (list T)) (v : string -> Datatypes.option T) :
    string * Action :=
  (option, MapMulti (fun config value =>
     value ← ok_or (v value) (invalid_option_value option value);
     Ret (set f (view f config ++ [value]) config))).

Definition ignore (option : string) : string * Action := (option, Ignore).

Definition warn (option : string) (f : string -> Datatypes.option message) : string * Action := (option, Warn f).

(** ** The table *)

Definition opt_arg (option : string) : string * message := ("option"%string, Text option).

Definition warn_cli_only (option flag : string) : string * Action :=
  warn option (fun _ => Some (Fl "migrate-warn-cli-only" [opt_arg option; ("flag"%string, Text flag)])).

Definition warn_unsupported (option value : string) : message :=
  Fl "migrate-warn-unsupported" [opt_arg option; ("value"%string, Text value)].

Definition warn_sprout_migration (option : string) : string * Action :=
  warn option (fun _ => Some (Fl "migrate-warn-sprout-migration" [opt_arg option])).

(** [value.then(..)] of a condition. *)
Definition then_some {A} (b : bool) (a : A) : option A := if b then Some a else None.

(** Minimum is [TX_EXPIRING_SOON_THRESHOLD + 1]. *)
Definition parse_txexpirydelta (value : string) : option Z :=
  match from_str_radix 10 u16_max value with
  | Some n => if n <=? 3 then None else Some n
  | None => None
  end.

Definition parse_rpcauth (value : string) : option RpcAuthSection :=
  match split_once ":" value with
  | Some (username, pwhash) => Some {| user := username; password := None; pwhash := Some pwhash |}
  | None => None
  end.

Definition parse_rpcbind (value : string) : option SocketAddr :=
  parse_socket_addr (value +:+ ":8234")%string.

Definition network_flag (t : NetworkType) (value : string) : option (option NetworkType) :=
  Some (then_some (bool_decide (value = "1"%string)) t).

Definition documented_wallet_options : list (string * Action) :=
  [warn "disablewallet" (fun value => then_some (negb (bool_decide (value = "0"%string)))
     (Fl "migrate-warn-disablewallet" [opt_arg "disablewallet"]));
   ignore "keypool";
   warn_sprout_migration "migration";
   warn_sprout_migration "migrationdestaddress";
   map_ "orchardactionlimit" orchard_actions_lens (from_str_radix 10 u16_max);
   warn "paytxfee" (fun _ => Some (Fl "migrate-warn-paytxfee" [opt_arg "paytxfee"]));
   warn_cli_only "rescan" "--rescan";
   warn_cli_only "salvagewallet" "--salvage-wallet";
   map_bool "spendzeroconfchange" spend_zeroconf_change_lens;
   map_ "txexpirydelta" tx_expiry_delta_lens parse_txexpirydelta;
   ignore "upgradewallet";
   ignore "wallet";
   map_bool "walletbroadcast" broadcast_lens;
   map_ "walletnotify" notify_lens Some;
   map_bool "walletrequirebackup" require_backup_lens;
   warn_cli_only "zapwallettxes" "--zap-txes=MODE"].

Definition documented_wallet_debug_options : list (string * Action) :=
  [ignore "dblogsize";
   warn "flushwallet" (fun value => then_some (negb (bool_decide (value = "1"%string)))
     (warn_unsupported "flushwallet" value));
   ignore "privdb"].

Definition undocumented_wallet_options : list (string * Action) :=
  [ignore "anchorconfirmations"; ignore "mintxfee"; ignore "regtestwalletsetbestchaineveryblock";
   ignore "sendfreetransactions"; ignore "txconfirmtarget"].

Definition node_options_direct_wallet : list (string * Action) :=
  [ignore "developerencryptwallet"; ignore "genproclimit"; ignore "maxtxfee"; ignore "mineraddress";
   ignore "paymentdisclosure";
   warn "preferredtxversion" (fun value => Some (warn_unsupported "preferredtxversion" value))].

Definition node_options_indirect_wallet : list (string * Action) :=
  [ignore "conf";
   warn "daemon" (fun value => then_some (negb (bool_decide (value = "0"%string)))
     (Fl "migrate-warn-daemon" [opt_arg "daemon"]));
   ignore "datadir";
   ignore "debug";
   ignore "experimentalfeatures";
   map_ "exportdir" export_dir_lens Some;
   map_multi "nuparams" regtest_nuparams_lens (fun value => ok (nuparam_try_from value));
   map_related "regtest" "network" network_lens (network_flag Regtest);
   ignore "rpcallowip";
   ignore "rpcasyncthreads";
   map_multi "rpcauth" auth_lens parse_rpcauth;
   map_multi "rpcbind" bind_lens parse_rpcbind;
   ignore "rpccookiefile";
   warn "rpcport" (fun _ => Some (Fl "migrate-warn-rpcport"
     [opt_arg "rpcport"; ("port"%string, Text "bind"); ("rpc"%string, Text "[rpc]")]));
   map_ "rpcservertimeout" timeout_lens (from_str_radix 10 u64_max);
   ignore "rpcssl";
   ignore "rpcthreads";
   ignore "rpcworkqueue";
   map_related "testnet" "network" network_lens (network_flag Test)].

Definition node_options_unused_wallet : list string :=
  ["addnode"; "alertnotify"; "alerts"; "allowdeprecated"; "banscore"; "bantime"; "benchmark"; "bind";
   "blockmaxsize"; "blockminsize"; "blocknotify"; "blockprioritysize"; "blocksonly";
   "blockunpaidactionlimit"; "blockversion"; "checkblockindex"; "checkblocks"; "checklevel";
   "checkmempool"; "checkpoints"; "clockoffset"; "connect"; "create"; "datacarrier"; "datacarriersize";
   "dbcache"; "debuglogfile"; "debugmetrics"; "debugnet"; "developersetpoolsizezero"; "disablesafemode";
   "discover"; "dns"; "dnsseed"; "dropmessagestest"; "enforcenodebloom"; "equihashsolver"; "externalip";
   "forcednsseed"; "fundingstream"; "fuzzmessagestest"; "gen"; "help"; "help-debug";
   "i-am-aware-zcashd-will-be-replaced-by-zebrad-and-zallet-in-2025"; "ibdskiptxverification";
   "insightexplorer"; "json"; "lightwalletd"; "limitancestorcount"; "limitancestorsize";
   "limitdescendantcount"; "limitdescendantsize"; "listen"; "listenonion"; "loadblock"; "logips";
   "logtimestamps"; "maxconnections"; "maxorphantx"; "maxreceivebuffer"; "maxsendbuffer";
   "maxsigcachesize"; "maxtipage"; "maxuploadtarget"; "mempoolevictionmemoryminutes"; "mempooltxcostlimit";
   "metricsallowip"; "metricsbind"; "metricsrefreshtime"; "metricsui"; "minetolocalwallet";
   "minrelaytxfee"; "mocktime"; "nodebug"; "nurejectoldversions"; "onion"; "onlynet";
   "optimize-getheaders"; "par"; "paramsdir"; "peerbloomfilters"; "permitbaremultisig"; "pid"; "port";
   "printalert"; "printpriority"; "printtoconsole"; "prometheusport"; "proxy"; "proxyrandomize"; "prune";
   "regtestshieldcoinbase"; "reindex"; "reindex-chainstate"; "rest"; "rpcclienttimeout"; "rpcconnect";
   "rpcpassword"; "rpcuser"; "rpcwait"; "seednode"; "sendalert"; "server"; "showmetrics";
   "shrinkdebugfile"; "socks"; "stdin"; "stopafterblockimport"; "sysperms"; "testsafemode"; "timeout";
   "tor"; "torcontrol"; "torpassword"; "txexpirynotify"; "txindex"; "txunpaidactionlimit"; "uacomment";
   "version"; "whitebind"; "whitelist"; "whitelistforcerelay"; "whitelistrelay"]%string.

Definition action_list : list (string * Action) :=
  documented_wallet_options ++ documented_wallet_debug_options ++ undocumented_wallet_options ++
  node_options_direct_wallet ++ node_options_indirect_wallet ++ (ignore <$> node_options_unused_wallet).

(** [collect] into a [HashMap]: a later entry replaces an earlier one. *)
Definition build_actions : gmap string Action :=
  foldl (fun m e => <[e.1 := e.2]> m) ∅ action_list.

(** ** The command *)

Record MigrateState := {
  config : ZalletConfig;
  observed : gset string;
  related : gmap string string;
  warnings : list message
}.

Definition initial_state : MigrateState :=
  {| config := default_config; observed := ∅; related := ∅; warnings := [] |}.

(** The value of an option: up to a comment, without trailing white space. *)
Definition option_value (rest : string) : string :=
  match split_once "#" rest with
  | Some (value, _) => trim_end value
  | None => trim_end rest
  end.

Definition skipped (line : string) : bool := bool_decide (line = ""%string) || starts_with "#" line.

Definition conf_arg (conf : string) : string * message := ("conf"%string, Text conf).

(** The [match] on the option's action. *)
Definition apply_option (conf option value : string) (s : MigrateState) : outcome message MigrateState :=
  match build_actions !! option with
  | Some (MapTo f target) =>
      match target ≫= (fun t => related s !! t) with
      | Some prev => Err (Fl "err-migrate-multiple-related-zcashd-options"
                            [opt_arg option; ("prev"%string, Text prev); conf_arg conf])
      | None =>
          if bool_decide (option ∈ observed s) then
            Err (Fl "err-migrate-duplicate-zcashd-option" [opt_arg option; conf_arg conf])
          else
            config ← f (config s) value;
            Ret {| config := config; observed := {[option]} ∪ observed s;
                   related := match target with Some t => <[t := option]> (related s) | None => related s end;
                   warnings := warnings s |}
      end
  | Some (MapMulti f) =>
      config ← f (config s) value;
      Ret {| config := config; observed := observed s; related := related s; warnings := warnings s |}
  | Some Ignore => Ret s
  | Some (Warn f) =>
      Ret {| config := config s; observed := observed s; related := related s;
             warnings := match f value with Some w => warnings s ++ [w] | None => warnings s end |}
  | None => Err (Fl "err-migrate-unknown-zcashd-option" [opt_arg option])
  end.

Definition process_line (conf : string) (s : MigrateState) (line : string) : outcome message MigrateState :=
  if skipped line then Ret s
  else
    '(option, rest) ← ok_or (split_once "=" line)
      (Fl "err-migrate-invalid-line" [("line"%string, Text line); conf_arg conf]);
    apply_option conf option (option_value rest) s.

(** The loop; reading a line may fail. *)
Definition process_lines (conf : string) (lines : list (outcome string string)) : outcome message MigrateState :=
  foldM (fun s next => line ← map_err Text next; process_line conf s line) initial_state lines.

(** What a run prints and writes, in order: texts of the program, lines left
    empty, the configuration on standard output, or a file created (only if it
    does not exist, with [create_new]) and written. *)
Inductive Output :=
  | Say (text : message)
  | Blank
  | Stdout (output : string)
  | CreateFile (path : string) (create_new : bool)
  | WriteAll (path output : string).

#[local] Abbreviation Run := (M (list Output) message).

Definition println (o : Output) : Run unit := modify (fun outs => outs ++ [o]).

(** A call on a file: the error it fails with, or what it does. *)
Definition file_call (fault : option string) (o : Output) : Run unit :=
  match fault with Some e => throw (Text e) | None => println o end.

Definition say_warning (w : message) : Run unit := _ ← println (Say w); println Blank.

(** The warnings, which the user must allow. *)
Definition inform (allow_warnings : bool) (ws : list message) : Run unit :=
  match ws with
  | [] => mret tt
  | ws =>
      _ ← println (Say (Fl "migrate-warnings" []));
      _ ← println Blank;
      _ ← for_each say_warning ws;
      lift (ensure allow_warnings (Fl "err-migrate-allow-warnings" []))
  end.

(** The output: [create_io] and [write_io] are the errors with which the file
    cannot be created or written, if any. *)
Definition write_output (create_io : string -> bool -> option string) (write_io : string -> option string)
    (force : bool) (output : option string) (text : string) : Run unit :=
  match output with
  | None => lift Panic
  | Some path =>
      if bool_decide (path = "-"%string) then println (Stdout text)
      else
        _ ← file_call (create_io path (negb force)) (CreateFile path (negb force));
        _ ← file_call (write_io path) (WriteAll path text);
        println (Say (Fl "migrate-config-written" [("conf"%string, Text path)]))
  end.

Definition header (conf : string) : string :=
  ("# Zallet configuration file" +:+ nl +:+ "# Migrated from " +:+ conf +:+ nl +:+ nl)%string.

(** The whole command; [to_toml] serializes the configuration. *)
Definition run (to_toml : ZalletConfig -> outcome string string)
    (create_io : string -> bool -> option string) (write_io : string -> option string) (conf : string)
    (allow_warnings force alpha_flag : bool) (output : option string)
    (lines : list (outcome string string)) : Run unit :=
  s ← lift (process_lines conf lines);
  _ ← inform allow_warnings (warnings s);
  _ ← lift (ensure alpha_flag (Fl "migrate-alpha-code" []));
  toml ← lift (map_err Text (to_toml (config s)));
  write_output create_io write_io force output (header conf +:+ toml)%string.

(** ** Specification *)

(** The options a file sets, in order. *)
#[local] Abbreviation options := (list (string * string)).

Definition values (option : string) (opts : options) : list string :=
  (base.filter (fun o : string * string => o.1 = option) opts).*2.

(** The last value of an option, as [parse] reads it. *)
Definition setting {T} (parse : string -> Datatypes.option T) (option : string) (opts : options) :
    Datatypes.option T := last (values option opts) ≫= parse.

Definition settings {T} (parse : string -> Datatypes.option T) (option : string) (opts : options) : list T :=
  omap parse (values option opts).

(** The networks asked for, by [regtest=1] and [testnet=1]. *)
Definition network_of (o : string * string) : option NetworkType :=
  if bool_decide (o = ("regtest", "1")%string) then Some Regtest
  else if bool_decide (o = ("testnet", "1")%string) then Some Test
  else None.

(** What the configuration must be. *)
Definition config_of (opts : options) : ZalletConfig := {|
  orchard_actions := setting (from_str_radix 10 u16_max) "orchardactionlimit" opts;
  spend_zeroconf_change := setting parse_bool "spendzeroconfchange" opts;
  tx_expiry_delta := setting parse_txexpirydelta "txexpirydelta" opts;
  broadcast := setting parse_bool "walletbroadcast" opts;
  notify := setting Some "walletnotify" opts;
  require_backup := setting parse_bool "walletrequirebackup" opts;
  export_dir := setting Some "exportdir" opts;
  regtest_nuparams := settings (fun v => ok (nuparam_try_from v)) "nuparams" opts;
  network := default Main (last (omap network_of opts));
  auth := settings parse_rpcauth "rpcauth" opts;
  bind := settings parse_rpcbind "rpcbind" opts;
  timeout := setting (from_str_radix 10 u64_max) "rpcservertimeout" opts |}.

(** The line sets an option, or nothing. *)
Definition sets (line : string) (o : option (string * string)) : Prop :=
  match o with
  | None => skipped line = true
  | Some (option, value) => skipped line = false /\
      exists rest, split_once "=" line = Some (option, rest) /\ value = option_value rest
  end.

(** The options of which a file may have only one, and the groups of related
    options of which it may have only one. *)
Definition single (o : string * string) : option string :=
  match build_actions !! o.1 with Some (MapTo _ _) => Some o.1 | _ => None end.

Definition group (o : string * string) : option string :=
  match build_actions !! o.1 with Some (MapTo _ t) => t | _ => None end.

(** An option that is known, with a value it may have. *)
Definition acceptable (o : string * string) : bool :=
  match build_actions !! o.1 with
  | Some (MapTo f _) | Some (MapMulti f) => is_ret (f default_config o.2)
  | Some _ => true
  | None => false
  end.

Definition warning_of (o : string * string) : option message :=
  match build_actions !! o.1 with Some (Warn f) => f o.2 | _ => None end.

(** ** The table implements it *)

Lemma setting_snoc {T} (parse : string -> Datatypes.option T) n opts o v :
  setting parse n (opts ++ [(o, v)]) = if bool_decide (o = n) then parse v else setting parse n opts.
Proof.
  unfold setting, values. rewrite filter_app, fmap_app, filter_cons. cbn [fst].
  case_bool_decide; [rewrite decide_True by done|rewrite decide_False by done]; cbn.
  - by rewrite last_snoc.
  - by rewrite app_nil_r.
Qed.

Lemma settings_snoc {T} (parse : string -> Datatypes.option T) n opts o v :
  settings parse n (opts ++ [(o, v)]) =
  settings parse n opts ++ (if bool_decide (o = n) then match parse v with Some x => [x] | None => [] end else []).
Proof.
  unfold settings, values. rewrite filter_app, fmap_app, omap_app, filter_cons. cbn [fst].
  case_bool_decide; [rewrite decide_True by done|rewrite decide_False by done]; cbn; [by destruct (parse v)|done].
Qed.

Lemma network_snoc opts o v :
  default Main (last (omap network_of (opts ++ [(o, v)]))) =
  match network_of (o, v) with Some t => t | None => default Main (last (omap network_of opts)) end.
Proof.
  rewrite omap_app. cbn [omap list_omap]. destruct (network_of (o, v)); [by rewrite last_snoc|by rewrite app_nil_r].
Qed.

Lemma config_of_snoc opts o v : config_of (opts ++ [(o, v)]) = {|
  orchard_actions := if bool_decide (o = "orchardactionlimit"%string) then from_str_radix 10 u16_max v
    else orchard_actions (config_of opts);
  spend_zeroconf_change := if bool_decide (o = "spendzeroconfchange"%string) then parse_bool v
    else spend_zeroconf_change (config_of opts);
  tx_expiry_delta := if bool_decide (o = "txexpirydelta"%string) then parse_txexpirydelta v
    else tx_expiry_delta (config_of opts);
  broadcast := if bool_decide (o = "walletbroadcast"%string) then parse_bool v else broadcast (config_of opts);
  notify := if bool_decide (o = "walletnotify"%string) then Some v else notify (config_of opts);
  require_backup := if bool_decide (o = "walletrequirebackup"%string) then parse_bool v
    else require_backup (config_of opts);
  export_dir := if bool_decide (o = "exportdir"%string) then Some v else export_dir (config_of opts);
  regtest_nuparams := regtest_nuparams (config_of opts) ++
    (if bool_decide (o = "nuparams"%string) then match ok (nuparam_try_from v) with Some x => [x] | None => [] end else []);
  network := match network_of (o, v) with Some t => t | None => network (config_of opts) end;
  auth := auth (config_of opts) ++
    (if bool_decide (o = "rpcauth"%string) then match parse_rpcauth v with Some x => [x] | None => [] end else []);
  bind := bind (config_of opts) ++
    (if bool_decide (o = "rpcbind"%string) then match parse_rpcbind v with Some x => [x] | None => [] end else []);
  timeout := if bool_decide (o = "rpcservertimeout"%string) then from_str_radix 10 u64_max v
    else timeout (config_of opts) |}.
Proof. unfold config_of at 1. by rewrite !setting_snoc, !settings_snoc, network_snoc. Qed.

(** An action does to a configuration what its option means. *)
Definition action_ok (e : string * Action) : Prop :=
  match e.2 with
  | MapTo f _ | MapMulti f => forall v,
      (forall c, f c v <> Panic) /\ (forall c c', is_ret (f c v) = is_ret (f c' v)) /\
      forall opts c, f (config_of opts) v = Ret c -> c = config_of (opts ++ [(e.1, v)])
  | Ignore | Warn _ => forall opts v, config_of (opts ++ [(e.1, v)]) = config_of opts
  end.

Lemma map_ok {T} o (f : lens ZalletConfig (Datatypes.option T)) v :
  (forall opts x y, v x = Some y -> set f (Some y) (config_of opts) = config_of (opts ++ [(o, x)])) ->
  action_ok (map_ o f v).
Proof.
  intros Hf x. cbn. split_and!.
  - intros c. by destruct (v x).
  - intros c c'. by destruct (v x).
  - intros opts c. destruct (v x) eqn:Hv; [|done]. cbn. intros [= <-]. by apply Hf.
Qed.

Lemma map_related_ok {T} o t (f : lens ZalletConfig T) v :
  (forall opts x y, v x = Some y ->
    match y with Some y => set f y (config_of opts) | None => config_of opts end = config_of (opts ++ [(o, x)])) ->
  action_ok (map_related o t f v).
Proof.
  intros Hf x. cbn. split_and!.
  - intros c. by destruct (v x).
  - intros c c'. by destruct (v x).
  - intros opts c. destruct (v x) eqn:Hv; [|done]. cbn. intros [= <-]. by apply Hf.
Qed.

Lemma map_multi_ok {T} o (f : lens ZalletConfig (list T)) v :
  (forall opts x y, v x = Some y ->
    set f (view f (config_of opts) ++ [y]) (config_of opts) = config_of (opts ++ [(o, x)])) ->
  action_ok (map_multi o f v).
Proof.
  intros Hf x. cbn. split_and!.
  - intros c. by destruct (v x).
  - intros c c'. by destruct (v x).
  - intros opts c. destruct (v x) eqn:Hv; [|done]. cbn. intros [= <-]. by apply Hf.
Qed.

Lemma other_ok o :
  forallb (fun n => negb (String.eqb o n))
    ["orchardactionlimit"; "spendzeroconfchange"; "txexpirydelta"; "walletbroadcast"; "walletnotify";
     "walletrequirebackup"; "exportdir"; "nuparams"; "regtest"; "testnet"; "rpcauth"; "rpcbind";
     "rpcservertimeout"]%string = true ->
  forall opts v, config_of (opts ++ [(o, v)]) = config_of opts.
Proof.
  intros Ho opts v. cbn [forallb] in Ho. rewrite !andb_true_iff, !negb_true_iff, !String.eqb_neq in Ho.
  destruct_and? Ho. rewrite config_of_snoc. unfold network_of.
  repeat (rewrite bool_decide_false by first [done|by intros [= ? ?]]).
  rewrite !app_nil_r. by destruct (config_of opts).
Qed.

(** The two goals that an option which sets a field leaves: its value, and the
    fields it does not set. *)
Ltac sets_field :=
  intros opts x y Hy; rewrite config_of_snoc; cbn; unfold network_of, setting, settings in *; cbn in *;
  rewrite ?Hy, ?app_nil_r; reflexivity.

Lemma flag_ok o t opts x y :
  network_of (o, x) = then_some (bool_decide (x = "1"%string)) t ->
  forallb (fun n => negb (String.eqb o n))
    ["orchardactionlimit"; "spendzeroconfchange"; "txexpirydelta"; "walletbroadcast"; "walletnotify";
     "walletrequirebackup"; "exportdir"; "nuparams"; "rpcauth"; "rpcbind"; "rpcservertimeout"]%string = true ->
  network_flag t x = Some y ->
  match y with Some y => set network_lens y (config_of opts) | None => config_of opts end = config_of (opts ++ [(o, x)]).
Proof.
  intros Ht Ho [= <-]. cbn [forallb] in Ho. rewrite !andb_true_iff, !negb_true_iff, !String.eqb_neq in Ho.
  destruct_and? Ho. rewrite config_of_snoc, Ht.
  repeat (rewrite (bool_decide_false (o = _)) by done). rewrite !app_nil_r.
  by destruct (bool_decide (x = "1"%string)), (config_of opts).
Qed.

Lemma network_of_regtest x : network_of ("regtest"%string, x) = then_some (bool_decide (x = "1"%string)) Regtest.
Proof. unfold network_of. repeat case_bool_decide; naive_solver. Qed.

Lemma network_of_testnet x : network_of ("testnet"%string, x) = then_some (bool_decide (x = "1"%string)) Test.
Proof. unfold network_of. repeat case_bool_decide; naive_solver. Qed.

Ltac action_tac :=
  first [ apply map_ok; sets_field | apply map_multi_ok; sets_field
        | apply map_related_ok; intros; eapply flag_ok;
          [first [apply network_of_regtest | apply network_of_testnet] | reflexivity | eassumption]
        | intros opts v; apply other_ok; reflexivity ].

Lemma actions_ok : Forall action_ok action_list.
Proof.
  unfold action_list. repeat apply Forall_app_2.
  - repeat (constructor; [action_tac|]). constructor.
  - repeat (constructor; [action_tac|]). constructor.
  - repeat (constructor; [action_tac|]). constructor.
  - repeat (constructor; [action_tac|]). constructor.
  - repeat (constructor; [action_tac|]). constructor.
  - apply Forall_fmap, Forall_forall. intros o Ho opts v. apply (other_ok o).
    assert (forallb (fun o => forallb (fun n => negb (String.eqb o n))
      ["orchardactionlimit"; "spendzeroconfchange"; "txexpirydelta"; "walletbroadcast"; "walletnotify";
       "walletrequirebackup"; "exportdir"; "nuparams"; "regtest"; "testnet"; "rpcauth"; "rpcbind";
       "rpcservertimeout"]%string) node_options_unused_wallet = true) as Hall by (vm_compute; reflexivity).
    rewrite forallb_forall in Hall. apply Hall. by apply list_elem_of_In.
Qed.

(** No option is listed twice: the table has an entry for each. *)
Lemma action_names_NoDup : NoDup action_list.*1.
Proof. apply (bool_decide_unpack _). vm_compute. exact I. Qed.

Lemma collect_lookup {A} (l : list (string * A)) (m : gmap string A) n a :
  foldl (fun m e => <[e.1 := e.2]> m) m l !! n = Some a -> (n, a) ∈ l \/ m !! n = Some a.
Proof.
  revert m. induction l as [|[n' a'] l IH]; intros m; [by right|]. cbn.
  intros [Hl|[[<- <-]|[_ Hm]]%lookup_insert_Some]%IH; [left; by right|left; left|by right].
Qed.

Lemma build_actions_ok n a : build_actions !! n = Some a -> action_ok (n, a).
Proof.
  intros [Hin|Hm]%collect_lookup; [|by rewrite lookup_empty in Hm].
  pose proof actions_ok as Hok. rewrite Forall_forall in Hok. by apply (Hok (n, a)).
Qed.

#[local] Opaque build_actions.

(** ** The loop implements it *)

(** The state after options [opts]. *)
Definition state_of (opts : options) : MigrateState := {|
  config := config_of opts;
  observed := list_to_set (omap single opts);
  related := foldl (fun m o => match group o with Some t => <[t := o.1]> m | None => m end) ∅ opts;
  warnings := omap warning_of opts |}.

(** The options a file may set: known, with acceptable values, none of the
    single ones twice and no two of a group. *)
Definition valid (opts : options) : Prop :=
  Forall (fun o => acceptable o = true) opts /\ NoDup (omap single opts) /\ NoDup (omap group opts).

Lemma related_lookup opts t :
  is_Some (related (state_of opts) !! t) <-> t ∈ omap group opts.
Proof.
  unfold state_of. cbn [related]. induction opts as [|o opts IH] using rev_ind; cbn.
  - rewrite lookup_empty. split; [by intros []|by intros ?%not_elem_of_nil].
  - rewrite foldl_app, omap_app, elem_of_app. cbn. destruct (group o) as [g|].
    + rewrite list_elem_of_singleton. destruct (decide (g = t)) as [->|Hne].
      * rewrite lookup_insert_eq. split; [by right|by eexists].
      * rewrite lookup_insert_ne by done. rewrite IH. naive_solver.
    + rewrite IH. set_solver.
Qed.

Lemma valid_snoc opts o :
  valid (opts ++ [o]) <-> valid opts /\ acceptable o = true /\
    (forall n, single o = Some n -> n ∉ omap single opts) /\
    (forall t, group o = Some t -> t ∉ omap group opts).
Proof.
  assert (forall f : string * string -> option string, NoDup (omap f (opts ++ [o])) <->
    NoDup (omap f opts) /\ forall n, f o = Some n -> n ∉ omap f opts) as Hnd.
  { intros f. rewrite omap_app. cbn. destruct (f o) as [n|].
    - rewrite NoDup_app. split.
      + intros (? & Hd & _). split; [done|]. intros ? [= <-] Hin. apply (Hd n Hin). by left.
      + intros (? & Hd). split_and!; [done| |apply NoDup_singleton].
        intros x Hx ->%list_elem_of_singleton. by apply (Hd n).
    - rewrite app_nil_r. naive_solver. }
  unfold valid. rewrite !Hnd, Forall_app, Forall_singleton. tauto.
Qed.

Lemma acceptable_apply f o v opts t :
  build_actions !! o = Some (MapTo f t) \/ build_actions !! o = Some (MapMulti f) ->
  (is_ret (f default_config v) = true -> f (config_of opts) v = Ret (config_of (opts ++ [(o, v)]))) /\
  (is_ret (f default_config v) = false -> exists e, f (config_of opts) v = Err e).
Proof.
  intros Hf. assert ((forall c, f c v <> Panic) /\ (forall c c', is_ret (f c v) = is_ret (f c' v)) /\
      forall opts c, f (config_of opts) v = Ret c -> c = config_of (opts ++ [(o, v)])) as (Hp & Hi & Hc).
  { by destruct Hf as [Hf|Hf]; apply build_actions_ok in Hf; apply (Hf v). }
  rewrite (Hi default_config (config_of opts)). specialize (Hp (config_of opts)). specialize (Hc opts).
  destruct (f (config_of opts) v) as [c|e|]; [|split; [done|eauto]|done]. split; [|done]. by rewrite (Hc c).
Qed.

Lemma observed_spec opts n : n ∈ observed (state_of opts) <-> n ∈ omap single opts.
Proof. cbn. apply elem_of_list_to_set. Qed.

Lemma omap_snoc {A B} (f : A -> option B) l x :
  omap f (l ++ [x]) = omap f l ++ match f x with Some y => [y] | None => [] end.
Proof. rewrite omap_app. cbn. by destruct (f x). Qed.

Lemma state_of_snoc opts o : state_of (opts ++ [o]) = {|
  config := config_of (opts ++ [o]);
  observed := match single o with Some n => {[n]} ∪ observed (state_of opts) | None => observed (state_of opts) end;
  related := match group o with Some t => <[t := o.1]> (related (state_of opts)) | None => related (state_of opts) end;
  warnings := match warning_of o with Some w => warnings (state_of opts) ++ [w] | None => warnings (state_of opts) end |}.
Proof.
  unfold state_of. cbn [observed related warnings]. rewrite !omap_snoc, foldl_app, list_to_set_app_L. f_equal.
  - destruct (single o); cbn; [by rewrite union_empty_r_L, (union_comm_L _ {[_]})|by rewrite union_empty_r_L].
  - destruct (warning_of o); [done|by rewrite app_nil_r].
Qed.

(** The cases of [apply_option]: what an action of each kind does. *)
Lemma apply_map_to conf o v opts f t :
  build_actions !! o = Some (MapTo f t) ->
  (valid (opts ++ [(o, v)]) -> apply_option conf o v (state_of opts) = Ret (state_of (opts ++ [(o, v)]))) /\
  (valid opts -> ~ valid (opts ++ [(o, v)]) -> exists e, apply_option conf o v (state_of opts) = Err e).
Proof.
  intros Ha. rewrite valid_snoc, state_of_snoc. unfold apply_option, acceptable.
  assert (single (o, v) = Some o) as -> by (unfold single; cbn; by rewrite Ha).
  assert (group (o, v) = t) as -> by (unfold group; cbn; by rewrite Ha).
  assert (warning_of (o, v) = None) as -> by (unfold warning_of; cbn; by rewrite Ha).
  cbn [fst snd]. rewrite Ha. destruct (acceptable_apply f o v opts t (or_introl Ha)) as [Hok Herr]. clear Ha.
  destruct (t ≫= _) as [prev|] eqn:Hr.
  { split; [|eauto]. intros (_ & _ & _ & Hg). destruct t as [g|]; [|done].
    destruct (Hg g eq_refl). apply related_lookup. by exists prev. }
  assert (forall g, t = Some g -> g ∉ omap group opts) as Hg.
  { intros g -> Hin. apply related_lookup in Hin as [x Hx].
    change (related (state_of opts) !! g = None) in Hr. congruence. }
  case_bool_decide as Ho; rewrite observed_spec in Ho.
  { split; [|eauto]. intros (_ & _ & Hs & _). by destruct (Hs o eq_refl). }
  destruct (is_ret (f default_config v)).
  - change (config (state_of opts)) with (config_of opts). rewrite Hok by done. split; [done|].
    intros Hv Hn. destruct Hn. split_and!; try done. by intros ? [= <-].
  - destruct (Herr eq_refl) as [e He]. change (config (state_of opts)) with (config_of opts).
    rewrite He. split; [by intros (_ & ? & _)|eauto].
Qed.

Lemma apply_other conf o v opts a :
  build_actions !! o = a -> match a with Some (MapTo _ _) => False | _ => True end ->
  (valid (opts ++ [(o, v)]) -> apply_option conf o v (state_of opts) = Ret (state_of (opts ++ [(o, v)]))) /\
  (valid opts -> ~ valid (opts ++ [(o, v)]) -> exists e, apply_option conf o v (state_of opts) = Err e).
Proof.
  intros Ha Hk. rewrite valid_snoc, state_of_snoc. unfold apply_option, acceptable.
  assert (single (o, v) = None) as -> by (unfold single; cbn [fst]; rewrite Ha; clear Ha; by destruct a as [[]|]).
  assert (group (o, v) = None) as -> by (unfold group; cbn [fst]; rewrite Ha; clear Ha; by destruct a as [[]|]).
  assert (warning_of (o, v) = match a with Some (Warn f) => f v | _ => None end) as ->
    by (unfold warning_of; cbn [fst snd]; by rewrite Ha).
  cbn [fst snd]. rewrite Ha. destruct a as [[f t|f| |f]|]; [destruct Hk|..].
  - destruct (acceptable_apply f o v opts None (or_intror Ha)) as [Hok Herr].
    clear Ha. change (config (state_of opts)) with (config_of opts). destruct (is_ret (f default_config v)).
    + rewrite Hok by reflexivity. split; [reflexivity|]. intros Hv Hn. by destruct Hn.
    + destruct (Herr eq_refl) as [e ->]. split; [by intros (_ & ? & _)|intros; by exists e].
  - pose proof (build_actions_ok o Ignore Ha opts v) as Hc. cbn [fst] in Hc. clear Ha. rewrite Hc.
    split; [done|]. intros Hv Hn. by destruct Hn.
  - pose proof (build_actions_ok o (Warn f) Ha opts v) as Hc. cbn [fst] in Hc. clear Ha. rewrite Hc.
    split; [done|]. intros Hv Hn. by destruct Hn.
  - split; [by intros (_ & ? & _)|intros; eexists; reflexivity].
Qed.

(** The next option: [apply_option] goes from the state of the options so far to
    the state with it, exactly when it may follow them. *)
Lemma apply_option_spec conf o v opts :
  (valid (opts ++ [(o, v)]) -> apply_option conf o v (state_of opts) = Ret (state_of (opts ++ [(o, v)]))) /\
  (valid opts -> ~ valid (opts ++ [(o, v)]) -> exists e, apply_option conf o v (state_of opts) = Err e).
Proof.
  destruct (build_actions !! o) as [[f t|f| |f]|] eqn:Ha; [by eapply apply_map_to|by eapply apply_other..].
Qed.

(** The options that a file of these lines sets. *)
Definition file_sets (nexts : list (outcome string string)) (opts : options) : Prop :=
  exists lines os, nexts = Ret <$> lines /\ Forall2 sets lines os /\ opts = omap (fun o => o) os.

Lemma foldM_snoc {E A S} (f : S -> A -> outcome E S) s l x :
  foldM f s (l ++ [x]) = foldM f s l ≫= (fun s' => f s' x).
Proof.
  revert s. induction l as [|y l IH]; intros s; cbn.
  - by destruct (f s x).
  - destruct (f s y); cbn; [apply IH|done..].
Qed.

Lemma sets_det line o o' : sets line o -> sets line o' -> o = o'.
Proof.
  destruct o as [[n v]|], o' as [[n' v']|]; cbn; [|by intros [-> _]|by intros -> []|done].
  intros (_ & r & Hr & ->) (_ & r' & Hr' & ->). congruence.
Qed.

Lemma valid_prefix opts o : valid (opts ++ [o]) -> valid opts.
Proof. by intros [? _]%valid_snoc. Qed.

#[local] Instance valid_dec opts : Decision (valid opts).
Proof. unfold valid. apply _. Defined.

(** One more line. *)
Lemma process_line_spec conf opts line :
  valid opts ->
  process_line conf (state_of opts) line <> Panic /\
  forall s, process_line conf (state_of opts) line = Ret s <->
    exists o, sets line o /\ valid (opts ++ option_list o) /\ s = state_of (opts ++ option_list o).
Proof.
  intros Hv. unfold process_line. destruct (skipped line) eqn:Hskip.
  { split; [done|]. intros s. split.
    - intros [= <-]. exists None. cbn. by rewrite app_nil_r.
    - intros (o & Ho & _ & ->). destruct o as [[n v]|]; [destruct Ho as [Ho _]; congruence|]. cbn. by rewrite app_nil_r. }
  destruct (split_once "=" line) as [[n rest]|] eqn:Hline; cbn [ok_or mbind outcome_bind].
  2: { split; [done|]. intros s. split; [done|]. intros (o & Ho & _). destruct o as [[n v]|]; cbn in Ho.
       - destruct Ho as (_ & r & Hr & _). congruence.
       - congruence. }
  assert (sets line (Some (n, option_value rest))) as Hsets by (split; [done|by exists rest]).
  destruct (apply_option_spec conf n (option_value rest) opts) as [Hok Herr].
  destruct (decide (valid (opts ++ [(n, option_value rest)]))) as [Hvo|Hvo].
  - rewrite Hok by done. split; [done|]. intros s. split.
    + intros [= <-]. exists (Some (n, option_value rest)). split; [exact Hsets|]. split; [exact Hvo|reflexivity].
    + intros (o & Ho & _ & ->). by rewrite (sets_det _ _ _ Ho Hsets).
  - destruct (Herr Hv Hvo) as [e He]. rewrite He. split; [done|]. intros s. split; [done|].
    intros (o & Ho & Hvo' & _). rewrite (sets_det _ _ _ Ho Hsets) in Hvo'. by destruct (Hvo Hvo').
Qed.

Lemma file_sets_snoc nexts x opts :
  file_sets (nexts ++ [x]) opts <->
  exists opts0 line o, file_sets nexts opts0 /\ x = Ret line /\ sets line o /\ opts = opts0 ++ option_list o.
Proof.
  unfold file_sets. split.
  - intros (lines & os & Hn & Hs & ->). symmetry in Hn.
    apply fmap_app_inv in Hn as (l1 & l2 & Hl1 & Hl2 & ->).
    destruct l2 as [|line [|]]; try done. injection Hl2 as Hx.
    apply Forall2_app_inv_l in Hs as (os1 & os2 & Hs1 & Hs2 & ->).
    inversion Hs2 as [|? o ? os3 Ho Hs3]; subst. inversion Hs3; subst.
    exists (omap (fun o => o) os1), line, o. split_and!; [by exists l1, os1|done|done|].
    rewrite omap_app. cbn. by destruct o.
  - intros (opts0 & line & o & (lines & os & -> & Hs & ->) & -> & Ho & ->).
    exists (lines ++ [line]), (os ++ [o]). rewrite fmap_app. split_and!; [done|by apply Forall2_app; [|constructor]|].
    rewrite omap_app. cbn. by destruct o.
Qed.

Lemma process_lines_spec conf nexts :
  Forall (fun n => n <> Panic) nexts ->
  process_lines conf nexts <> Panic /\
  forall s, process_lines conf nexts = Ret s <->
    exists opts, file_sets nexts opts /\ valid opts /\ s = state_of opts.
Proof.
  unfold process_lines. induction nexts as [|x nexts IH] using rev_ind; intros Hp.
  { split; [done|]. intros s. split.
    - intros [= <-]. exists []. split; [by exists [], []|]. split; [by split_and!; constructor|done].
    - intros (opts & (lines & os & Hn & Hs & ->) & _ & ->). destruct lines; [|done]. by inversion Hs. }
  apply Forall_app in Hp as [Hp Hx]. rewrite Forall_singleton in Hx. destruct (IH Hp) as [Hnp Hs]. clear IH.
  rewrite foldM_snoc. split.
  - apply bind_not_Panic; [done|]. intros s1 (opts & _ & Hv & ->)%Hs.
    apply bind_not_Panic; [apply map_err_not_Panic; exact Hx|]. intros line _. by apply process_line_spec.
  - intros s. rewrite bind_Ret. setoid_rewrite Hs. setoid_rewrite bind_Ret. setoid_rewrite map_err_Ret. split.
    + intros (? & (opts & Hf & Hv & ->) & line & -> & Hl). apply process_line_spec in Hl as (o & Ho & Hvo & ->); [|done].
      eexists. split; [|done]. apply file_sets_snoc. eauto 10.
    + intros (? & (opts & line & o & Hf & -> & Ho & ->)%file_sets_snoc & Hvo & ->).
      assert (valid opts) as Hv by (destruct o as [o|]; [by apply valid_prefix in Hvo|by rewrite app_nil_r in Hvo]).
      exists (state_of opts). split; [by exists opts|]. exists line. split; [done|].
      apply process_line_spec; [done|]. by exists o.
Qed.

(** What is printed for the warnings of a file. *)
Definition notice (ws : list message) : list Output :=
  match ws with
  | [] => []
  | _ => [Say (Fl "migrate-warnings" []); Blank] ++ (ws ≫= (fun w => [Say w; Blank]))
  end.

(** What is printed and written for the output named [path]. *)
Definition written (path text : string) (create_new : bool) : list Output :=
  if bool_decide (path = "-"%string) then [Stdout text]
  else [CreateFile path create_new; WriteAll path text; Say (Fl "migrate-config-written" [("conf"%string, Text path)])].

Lemma inform_spec allow_warnings ws outs :
  inform allow_warnings ws outs =
  (ensure (match ws with [] => true | _ => false end || allow_warnings) (Fl "err-migrate-allow-warnings" []),
   outs ++ notice ws).
Proof.
  assert (forall ws outs, for_each say_warning ws outs = (Ret tt, outs ++ (ws ≫= (fun w => [Say w; Blank])))) as Hw.
  { clear. intros ws. induction ws as [|w ws IH]; intros outs; [by rewrite app_nil_r|].
    transitivity (for_each say_warning ws ((outs ++ [Say w]) ++ [Blank])); [reflexivity|].
    by rewrite IH, <- !app_assoc. }
  destruct ws as [|w ws]; [by rewrite app_nil_r|]. unfold inform, notice. remember (w :: ws) as l.
  rewrite run_bind. cbn [println modify]. rewrite run_bind. cbn [println modify]. rewrite run_bind, Hw. subst l.
  by rewrite <- !app_assoc.
Qed.

(** The command fails, with nothing printed or written, when the file does not set
    valid options; and otherwise goes on with the warnings printed. *)
Lemma run_spec to_toml create_io write_io conf allow_warnings force alpha_flag output nexts :
  Forall (fun n => n <> Panic) nexts ->
  let r := run to_toml create_io write_io conf allow_warnings force alpha_flag output nexts [] in
  ((exists e, r = (Err e, [])) /\ ~ exists opts, file_sets nexts opts /\ valid opts) \/
  exists opts, file_sets nexts opts /\ valid opts /\
    r = (_ ← lift (ensure (match omap warning_of opts with [] => true | _ => false end || allow_warnings)
                     (Fl "err-migrate-allow-warnings" []));
         _ ← lift (ensure alpha_flag (Fl "migrate-alpha-code" []));
         toml ← lift (map_err Text (to_toml (config_of opts)));
         write_output create_io write_io force output (header conf +:+ toml)%string) (notice (omap warning_of opts)).
Proof.
  intros Hn. destruct (process_lines_spec conf nexts Hn) as [Hnp Hs]. unfold run. rewrite run_bind. unfold lift at 1.
  destruct (process_lines conf nexts) as [s|e|] eqn:Hp; [right|left|done].
  - destruct (proj1 (Hs s) eq_refl) as (opts & Hf & Hv & ->). exists opts. split_and!; [done..|].
    cbv zeta. rewrite run_bind. unfold lift at 1. rewrite run_bind, inform_spec. reflexivity.
  - split; [by eexists|]. intros (opts & Hf & Hv). assert (Err e = Ret (state_of opts)) as [=]. apply Hs. by exists opts.
Qed.

(** The output, when nothing fails. *)
Lemma write_output_Ret create_io write_io force output text outs u outs' :
  write_output create_io write_io force output text outs = (Ret u, outs') <->
  exists path, output = Some path /\ outs' = outs ++ written path text (negb force) /\
    (path <> "-"%string -> create_io path (negb force) = None /\ write_io path = None).
Proof.
  unfold write_output, written. destruct output as [path|]; [|by split; [|intros (? & [=] & _)]].
  destruct u. case_bool_decide as Hp.
  - split; [intros [= <-]; exists path; split_and!; [done|by rewrite bool_decide_true|done]|].
    intros (? & [= <-] & -> & _). by rewrite bool_decide_true.
  - rewrite run_bind. destruct (create_io path (negb force)) as [e|] eqn:Hc; cbn.
    { split; [done|]. intros (? & [= <-] & _ & Hio). destruct (Hio Hp). congruence. }
    rewrite run_bind. destruct (write_io path) as [e|] eqn:Hw; cbn.
    { split; [done|]. intros (? & [= <-] & _ & Hio). destruct (Hio Hp). congruence. }
    rewrite <- !app_assoc. split.
    + intros [= <-]. exists path. split_and!; [done|by rewrite bool_decide_false, <- app_assoc|done].
    + intros (? & [= <-] & -> & _). rewrite bool_decide_false by done. unfold println, modify. by rewrite <- !app_assoc.
Qed.

Lemma write_output_Panic create_io write_io force output text outs :
  (write_output create_io write_io force output text outs).1 = Panic <-> output = None.
Proof.
  unfold write_output, file_call. destruct output as [path|]; [|done].
  case_bool_decide; [done|]. destruct (create_io path (negb force)); [done|]. rewrite run_bind. cbn.
  by destruct (write_io path).
Qed.

Lemma write_output_Err create_io write_io force output text outs e outs' :
  write_output create_io write_io force output text outs = (Err e, outs') ->
  exists path err, output = Some path /\ e = Text err /\
    (outs' = outs /\ create_io path (negb force) = Some err \/
     outs' = outs ++ [CreateFile path (negb force)] /\ write_io path = Some err).
Proof.
  unfold write_output, file_call. destruct output as [path|]; [|done].
  case_bool_decide; [done|]. destruct (create_io path (negb force)) as [err|] eqn:Hc.
  { intros [= <- <-]. exists path, err. auto. }
  rewrite run_bind. cbn. destruct (write_io path) as [err|] eqn:Hw; [|done].
  intros [= <- <-]. exists path, err. auto.
Qed.

Section command.
Context (to_toml : ZalletConfig -> outcome string string) (create_io : string -> bool -> option string)
  (write_io : string -> option string) (conf : string) (allow_warnings force alpha_flag : bool)
  (output : option string) (nexts : list (outcome string string)).

(** The file sets valid options. *)
Definition sets_valid (opts : options) : Prop := file_sets nexts opts /\ valid opts.

(** The options are valid and the checks pass, with [text] to be written. *)
Definition ready (opts : options) (text : string) : Prop :=
  sets_valid opts /\ (omap warning_of opts = [] \/ allow_warnings = true) /\ alpha_flag = true /\
  exists toml, to_toml (config_of opts) = Ret toml /\ text = (header conf +:+ toml)%string.

(** Why the command refuses, before it writes anything, with what it has printed. *)
Definition refused (e : message) (outs : list Output) : Prop :=
  outs = [] /\ ~ (exists opts, sets_valid opts) \/
  exists opts, sets_valid opts /\ outs = notice (omap warning_of opts) /\
    (e = Fl "err-migrate-allow-warnings" [] /\ omap warning_of opts <> [] /\ allow_warnings = false \/
     e = Fl "migrate-alpha-code" [] /\ alpha_flag = false \/
     exists err, to_toml (config_of opts) = Err err /\ e = Text err).

(** Why the file could not be made, with what has been done until then. *)
Definition output_failed (e : message) (outs : list Output) : Prop :=
  exists opts text path err, ready opts text /\ output = Some path /\ e = Text err /\
    (outs = notice (omap warning_of opts) /\ create_io path (negb force) = Some err \/
     outs = notice (omap warning_of opts) ++ [CreateFile path (negb force)] /\ write_io path = Some err).

Hypothesis Hn : Forall (fun n => n <> Panic) nexts.
Hypothesis Ht : forall c, to_toml c <> Panic.

#[local] Abbreviation go := (run to_toml create_io write_io conf allow_warnings force alpha_flag output nexts []).

Lemma sets_valid_det opts opts' :
  sets_valid opts -> sets_valid opts' -> omap warning_of opts = omap warning_of opts' /\ config_of opts = config_of opts'.
Proof.
  intros Hv Hv'. destruct (process_lines_spec conf nexts Hn) as [_ Hs].
  assert (process_lines conf nexts = Ret (state_of opts)) as Hp by (apply Hs; exists opts; split_and!; by destruct Hv).
  assert (process_lines conf nexts = Ret (state_of opts')) as Hp' by (apply Hs; exists opts'; split_and!; by destruct Hv').
  assert (state_of opts = state_of opts') as Hst by congruence.
  split; [exact (f_equal warnings Hst)|exact (f_equal config Hst)].
Qed.

Lemma ready_det opts text opts' text' :
  ready opts text -> ready opts' text' -> omap warning_of opts = omap warning_of opts' /\ text = text'.
Proof.
  intros (Hv & _ & _ & toml & Htoml & ->) (Hv' & _ & _ & toml' & Htoml' & ->).
  destruct (sets_valid_det _ _ Hv Hv') as [Hw Hc]. rewrite Hc, Htoml' in Htoml. by injection Htoml as <-.
Qed.

(** The command refuses, or comes to its output with the warnings printed. *)
Lemma run_cases :
  ((forall opts text, ~ ready opts text) /\ exists e outs, go = (Err e, outs) /\ refused e outs) \/
  exists opts text, ready opts text /\
    go = write_output create_io write_io force output text (notice (omap warning_of opts)).
Proof.
  destruct (run_spec to_toml create_io write_io conf allow_warnings force alpha_flag output nexts Hn)
    as [[[e Hr] Hno]|(opts & Hf & Hv & Hr)]; rewrite Hr; clear Hr.
  { left. split; [intros opts text [? _]; destruct Hno; by exists opts|]. exists e, []. split; [done|by left]. }
  assert (sets_valid opts) as Hsv by done. rewrite !run_bind. unfold lift at 1.
  destruct (match omap warning_of opts with [] => true | _ => false end || allow_warnings) eqn:Hw; cbn [ensure].
  2: { apply orb_false_iff in Hw as [Hw Ha]. left. split.
       - intros opts' text (Hv' & [Hw'|Ha'] & _); [|congruence].
         destruct (sets_valid_det _ _ Hsv Hv') as [Hx _]. by rewrite Hx, Hw' in Hw.
       - eexists _, _. split; [done|]. right. exists opts. split_and!; [done..|]. left. split_and!; [done| |done].
         intros Hx. by rewrite Hx in Hw. }
  rewrite run_bind. unfold lift at 1. destruct alpha_flag eqn:Ha; cbn [ensure].
  2: { left. split; [intros opts' text (_ & _ & ? & _); congruence|].
       eexists _, _. split; [reflexivity|]. right. exists opts. by eauto 7. }
  rewrite run_bind. unfold lift at 1. specialize (Ht (config_of opts)).
  destruct (to_toml (config_of opts)) as [toml|e|] eqn:Htoml; cbn [map_err]; [right|left|done].
  - exists opts, (header conf +:+ toml)%string. split; [|done]. split_and!; [done| |done|by exists toml].
    destruct (omap warning_of opts); [by left|by right].
  - split.
    + intros opts' text (Hv' & _ & _ & toml & Htoml' & _). destruct (sets_valid_det _ _ Hsv Hv') as [_ Hx]. congruence.
    + eexists _, _. split; [done|]. right. exists opts. by eauto 8.
Qed.

(** C8. Provided that reading a line and serialising the configuration do not
    panic: the migration succeeds exactly when every line can be read and is
    empty, a comment or a known option with an acceptable value, no single
    option is repeated and no two related options are given, warnings are
    allowed if there are any, the alpha flag is given, an output is named and
    it can be created and written; what it then prints and writes is exactly
    the warnings of the options in order, once each, and the configuration
    that config_of describes from the options set, in a new file unless
    forced. It panics exactly when all of that holds and no output is named.
    Each error has its cause, and on each one what was printed before is
    exactly nothing, for a file that does not set valid options, and otherwise
    the warnings. *)
Theorem migrate_zcash_conf_correct :
  (forall outs, go = (Ret tt, outs) <-> exists opts text path, ready opts text /\ output = Some path /\
     outs = notice (omap warning_of opts) ++ written path text (negb force) /\
     (path <> "-"%string -> create_io path (negb force) = None /\ write_io path = None)) /\
  (go.1 = Panic <-> output = None /\ exists opts text, ready opts text) /\
  (forall e outs, go = (Err e, outs) -> refused e outs \/ output_failed e outs).
Proof.
  destruct run_cases as [[Hno (e & outs & Hr & Href)]|(opts & text & Hrdy & Hr)]; rewrite Hr.
  { split_and!; [|naive_solver|intros ? ? [= <- <-]; by left]. naive_solver. }
  split_and!.
  - intros outs. rewrite write_output_Ret. split.
    + intros (path & Ho & -> & Hio). by exists opts, text, path.
    + intros (opts' & text' & path & Hrdy' & Ho & -> & Hio). exists path.
      by destruct (ready_det _ _ _ _ Hrdy Hrdy') as [-> ->].
  - rewrite write_output_Panic. split; [eauto|by intros [? _]].
  - intros e outs Hout. right. apply write_output_Err in Hout as (path & err & Ho & -> & Hout).
    by exists opts, text, path, err.
Qed.
End command.
End migrate.

(** ** A file *)

#[local] Instance example_branches : BranchOps := {|
  BranchId := unit; branch_id_try_from n := Some tt; u32_from_branch _ := 0; Overwinter := tt; Sapling := tt;
  Blossom := tt; Heartwood := tt; Canopy := tt; Nu5 := tt; Nu6 := tt; Nu6_1 := tt; Nu6_2 := tt; Nu6_3 := tt |}.

#[local] Instance example_migrate : MigrateOps := {| SocketAddr := string; parse_socket_addr := Some |}.

Definition example_lines : list string :=
  ["# zcashd"; ""; "txexpirydelta=40 # blocks"; "rpcauth=alice:salt$hash"; "testnet=1"; "keypool=7"]%string.

Definition example_opts : list (string * string) :=
  [("txexpirydelta", "40"); ("rpcauth", "alice:salt$hash"); ("testnet", "1"); ("keypool", "7")]%string.

(** A summary of the configuration for its text. *)
Definition example_toml (c : ZalletConfig) : outcome string string :=
  Ret (match network c, tx_expiry_delta c with Test, Some 40 => "ok" | _, _ => "no" end)%string.

Lemma example_sets : file_sets (Ret <$> example_lines) example_opts.
Proof.
  exists example_lines, [None; None; Some ("txexpirydelta", "40"); Some ("rpcauth", "alice:salt$hash");
    Some ("testnet", "1"); Some ("keypool", "7")]%string.
  split; [done|]. split; [|done].
  repeat (constructor; [first [reflexivity|split; [reflexivity|eexists; split; reflexivity]]|]). constructor.
Qed.


(** A file whose warning is printed before it is written, or before the command
    refuses. *)
Definition warned_opts : list (string * string) := [("testnet", "1"); ("txexpirydelta", "40"); ("paytxfee", "1")]%string.

Lemma warned_sets : file_sets (Ret <$> ["testnet=1"; "txexpirydelta=40"; "paytxfee=1"]%string) warned_opts.
Proof.
  exists ["testnet=1"; "txexpirydelta=40"; "paytxfee=1"]%string, (Some <$> warned_opts). split; [done|]. split; [|done].
  repeat (constructor; [split; [reflexivity|eexists; split; reflexivity]|]). constructor.
Qed.

Lemma migrate_zcash_conf_correct_witness :
  (exists text, run example_toml (fun _ _ => None) (fun _ => None) "zcash.conf" true false true (Some "zallet.toml"%string)
      (Ret <$> ["testnet=1"; "txexpirydelta=40"; "paytxfee=1"]%string) [] =
    (Ret tt, [Say (Fl "migrate-warnings" []); Blank; Say (Fl "migrate-warn-paytxfee" [opt_arg "paytxfee"]); Blank;
              CreateFile "zallet.toml" true; WriteAll "zallet.toml" text;
              Say (Fl "migrate-config-written" [("conf", Text "zallet.toml")])]%string)) /\
  run example_toml (fun _ _ => None) (fun _ => None) "zcash.conf" false false true (Some "zallet.toml"%string)
      (Ret <$> ["testnet=1"; "txexpirydelta=40"; "paytxfee=1"]%string) [] =
    (Err (Fl "err-migrate-allow-warnings" []),
     [Say (Fl "migrate-warnings" []); Blank; Say (Fl "migrate-warn-paytxfee" [opt_arg "paytxfee"]); Blank]) /\
  (run example_toml (fun _ _ => None) (fun _ => None) "zcash.conf" false false true None (Ret <$> example_lines) []).1 = Panic /\
  run example_toml (fun _ _ => None) (fun _ => None) "zcash.conf" false false true (Some "-"%string)
      [Ret "txexpirydelta = 40"%string] [] =
    (Err (Fl "err-migrate-unknown-zcashd-option" [opt_arg "txexpirydelta "]), []).
Proof.
  split_and!; [|vm_compute; reflexivity| |vm_compute; reflexivity].
  - eexists. apply (migrate_zcash_conf_correct example_toml (fun _ _ => None) (fun _ => None) "zcash.conf" true false true
      (Some "zallet.toml"%string) (Ret <$> ["testnet=1"; "txexpirydelta=40"; "paytxfee=1"]%string)).
    + by repeat constructor.
    + discriminate.
    + exists warned_opts, (header "zcash.conf" +:+ "ok")%string, "zallet.toml"%string.
      split; [|split; [reflexivity|split; [vm_compute; reflexivity|done]]].
      split; [split; [exact warned_sets|apply (bool_decide_unpack _); vm_compute; exact I]|].
      split; [by right|]. split; [reflexivity|]. exists "ok"%string. by split; [vm_compute; reflexivity|].
  - apply (migrate_zcash_conf_correct example_toml (fun _ _ => None) (fun _ => None) "zcash.conf" false false true None
      (Ret <$> example_lines)).
    + by repeat constructor.
    + discriminate.
    + split; [reflexivity|]. exists example_opts, (header "zcash.conf" +:+ "ok")%string.
      split; [split; [exact example_sets|apply (bool_decide_unpack _); vm_compute; exact I]|].
      split; [left; vm_compute; reflexivity|]. split; [reflexivity|]. exists "ok"%string. by split; [vm_compute; reflexivity|].
Defined.
