(* ===== verification/Http.v ===== *)
(** The HTTP layer that lets clients of Bitcoin's JSON-RPC dialects talk to a
    JSON-RPC 2.0 server
    (src/zallet/src/components/json_rpc/server/http_request_compatibility.rs):
    the content type, the rewriting of a request to version 2.0 and of the
    response back to the client's version, and the HTTP status codes.

    A body is the bytes received, or [None] when reading them failed. *)

From S2P Require Import Prelude Rpc Text.

(** serde_json and hyper. [parse] is [from_slice] to the tree of a text (what a
    [RawValue] keeps), [to_value] the [Value] read from such a tree. *)
Class HttpOps := {
  (** The bytes of a body; only serde_json looks at them. *)
  Bytes : Type;
  parse : Bytes -> option JsonValue;
  to_vec : JsonValue -> Bytes;
  to_value : JsonValue -> JsonValue;
  (** [from_str::<ErrorObject>], and the code of the object. *)
  error_code : JsonValue -> option ErrorCode;
  HeaderValue : Type;
  to_str : HeaderValue -> option string;
  from_static : string -> HeaderValue
}.

Class HttpLaws `{HttpOps} := {
  parse_to_vec : forall v, parse (to_vec v) = Some v;
  to_value_idemp : forall v, to_value (to_value v) = to_value v;
  (** Only a null is read as null. *)
  to_value_null : forall v, to_value v = JNull <-> v = JNull;
  to_str_from_static : forall s, to_str (from_static s) = Some s
}.

Inductive JsonRpcVersion := Bitcoind | Lightwalletd | TwoPointZero | Unknown.

#[export] Instance JsonRpcVersion_eq_dec : EqDecision JsonRpcVersion.
Proof. solve_decision. Defined.

(** [JsonRpcRequest]. *)
Record JsonRpcRequest := {
  req_jsonrpc : option string;
  method : string;
  params : option JsonValue;
  req_id : option JsonValue
}.

(** [JsonRpcResponse]. *)
Record JsonRpcResponse := {
  jsonrpc : option string;
  result : option JsonValue;
  error : option JsonValue;
  resp_id : JsonValue
}.

Section Http.
Context `{HttpOps}.

(** ** The derived [Deserialize] and [Serialize] *)

(** A field of an object: absent, present, or given twice, which is an error. *)
Definition field (name : string) (o : list (string * JsonValue)) : outcome unit (option JsonValue) :=
  match filter (fun kv => kv.1 = name) o with
  | [] => Ret None
  | [(_, v)] => Ret (Some v)
  | _ => Err tt
  end.

(** Optional fields read a null as absent. *)
Definition de_option {A} (f : JsonValue -> outcome unit A) (v : option JsonValue) : outcome unit (option A) :=
  match v with
  | None | Some JNull => Ret None
  | Some v => Some <$> f v
  end.

Definition de_string (v : JsonValue) : outcome unit string :=
  match v with JString s => Ret s | _ => Err tt end.

Definition de_raw (v : JsonValue) : outcome unit JsonValue := Ret v.
Definition de_value (v : JsonValue) : outcome unit JsonValue := Ret (to_value v).

Definition de_request_fields (jsonrpc method params id : option JsonValue) : outcome unit JsonRpcRequest :=
  jsonrpc ← de_option de_string jsonrpc;
  method ← (m ← ok_or method tt; de_string m);
  params ← de_option de_raw params;
  id ← de_option de_value id;
  Ret {| req_jsonrpc := jsonrpc; method := method; params := params; req_id := id |}.

(** A structure is read from an object, ignoring other fields, or from an
    array of all its fields. *)
Definition de_request (v : JsonValue) : outcome unit JsonRpcRequest :=
  match v with
  | JObject o =>
      j ← field "jsonrpc" o; m ← field "method" o; p ← field "params" o; i ← field "id" o;
      de_request_fields j m p i
  | JArray [j; m; p; i] => de_request_fields (Some j) (Some m) (Some p) (Some i)
  | _ => Err tt
  end.

Definition de_response_fields (jsonrpc result error id : option JsonValue) : outcome unit JsonRpcResponse :=
  jsonrpc ← de_option de_string jsonrpc;
  result ← de_option de_raw result;
  error ← de_option de_raw error;
  id ← (i ← ok_or id tt; de_value i);
  Ret {| jsonrpc := jsonrpc; result := result; error := error; resp_id := id |}.

Definition de_response (v : JsonValue) : outcome unit JsonRpcResponse :=
  match v with
  | JObject o =>
      j ← field "jsonrpc" o; r ← field "result" o; e ← field "error" o; i ← field "id" o;
      de_response_fields j r e i
  | JArray [j; r; e; i] => de_response_fields (Some j) (Some r) (Some e) (Some i)
  | _ => Err tt
  end.

(** [skip_serializing_if = Option::is_none]. *)
Definition ser_field (name : string) (v : option JsonValue) : list (string * JsonValue) :=
  match v with Some v => [(name, v)] | None => [] end.

Definition ser_request (r : JsonRpcRequest) : JsonValue :=
  JObject (ser_field "jsonrpc" (JString <$> req_jsonrpc r) ++ [("method"%string, JString (method r))]
           ++ ser_field "params" (params r) ++ ser_field "id" (req_id r)).

Definition ser_response (r : JsonRpcResponse) : JsonValue :=
  JObject (ser_field "jsonrpc" (JString <$> jsonrpc r) ++ ser_field "result" (result r)
           ++ ser_field "error" (error r) ++ [("id"%string, resp_id r)]).

(** [from_slice]. *)
Definition read_request (b : Bytes) : option JsonRpcRequest := v ← parse b; ok (de_request v).
Definition read_response (b : Bytes) : option JsonRpcResponse := v ← parse b; ok (de_response v).

(** ** Versions *)

(** [JsonRpcRequest::version]. *)
Definition version (r : JsonRpcRequest) : JsonRpcVersion :=
  if bool_decide (req_jsonrpc r = Some "2.0"%string) &&
     match req_id r with None | Some JNull | Some (JString _) | Some (JNumber _) => true | _ => false end
  then TwoPointZero
  else match params r, req_id r with
       | Some _, Some _ =>
           if bool_decide (req_jsonrpc r = Some "1.0"%string) then Lightwalletd
           else if bool_decide (req_jsonrpc r = None) then Bitcoind
           else Unknown
       | _, _ => Unknown
       end.

(** [JsonRpcRequest::into_2]. *)
Definition into_2 (r : JsonRpcRequest) : JsonRpcRequest := {|
  req_jsonrpc := Some "2.0"%string; method := method r; params := params r; req_id := req_id r |}.

Definition or_null (v : option JsonValue) : option JsonValue :=
  match v with Some v => Some v | None => Some JNull end.

(** [JsonRpcResponse::into_version]. *)
Definition into_version (r : JsonRpcResponse) (v : JsonRpcVersion) : outcome Empty_set JsonRpcResponse :=
  match v with
  | Bitcoind =>
      Ret {| jsonrpc := None; result := or_null (result r); error := or_null (error r); resp_id := resp_id r |}
  | Lightwalletd =>
      Ret {| jsonrpc := Some "1.0"%string; result := or_null (result r); error := or_null (error r);
             resp_id := resp_id r |}
  | TwoPointZero =>
      _ ← assert (bool_decide (jsonrpc r = Some "2.0"%string));
      match error r with
      | None => Ret {| jsonrpc := jsonrpc r; result := or_null (result r); error := None; resp_id := resp_id r |}
      | Some _ => _ ← assert (negb (bool_decide (is_Some (result r)))); Ret r
      end
  | Unknown => Ret r
  end.

(** ** The middleware *)

Record HttpRequest := { content_type : list HeaderValue; req_body : option Bytes }.
Record HttpResponse := { status : Z; resp_body : option Bytes }.

(** [insert_or_replace_content_type_header]; [get] is the first value, [insert]
    replaces them all. *)
Definition insert_or_replace_content_type_header (headers : list HeaderValue) : list HeaderValue :=
  if match headers with
     | [] => true
     | value :: _ => starts_with "text/plain" (default EmptyString (to_str value))
     end
  then [from_static "application/json"]
  else headers.

(** [request_to_json_rpc_2]. *)
Definition request_to_json_rpc_2 (request : HttpRequest) : outcome Empty_set (JsonRpcVersion * HttpRequest) :=
  bytes ← expect (req_body request);
  let '(v, bytes) :=
    match read_request bytes with
    | Some request =>
        let v := version request in
        if bool_decide (v = Unknown) then (v, bytes) else (v, to_vec (ser_request (into_2 request)))
    | None => (Unknown, bytes)
    end in
  Ret (v, {| content_type := content_type request; req_body := Some bytes |}).

Definition error_status (e : ErrorCode) : Z :=
  match e with
  | InvalidRequest => 400
  | MethodNotFound => 404
  | _ => 500
  end.

(** [response_from_json_rpc_2]. *)
Definition response_from_json_rpc_2 (v : JsonRpcVersion) (response : HttpResponse) :
    outcome Empty_set HttpResponse :=
  bytes ← expect (resp_body response);
  match read_response bytes with
  | Some r =>
      let status :=
        match v with
        | Bitcoind | Lightwalletd =>
            match error r ≫= error_code with
            | Some e => error_status e
            | None => status response
            end
        | _ => status response
        end in
      r ← into_version r v;
      Ret {| status := status; resp_body := Some (to_vec (ser_response r)) |}
  | None => Ret {| status := status response; resp_body := Some bytes |}
  end.

(** [call]; the inner service may fail. *)
Definition call {E} (service : HttpRequest -> outcome E HttpResponse) (request : HttpRequest) :
    outcome E HttpResponse :=
  let request := {| content_type := insert_or_replace_content_type_header (content_type request);
                    req_body := req_body request |} in
  '(v, request) ← map_err (fun e : Empty_set => match e with end) (request_to_json_rpc_2 request);
  response ← service request;
  map_err (fun e : Empty_set => match e with end) (response_from_json_rpc_2 v response).

(** ** Reading back what was written *)

(** What reading a request ensures: no optional field is null. *)
Definition request_wf (r : JsonRpcRequest) : Prop :=
  params r <> Some JNull /\ forall i, req_id r = Some i -> to_value i = i /\ i <> JNull.

Definition response_wf (r : JsonRpcResponse) : Prop :=
  result r <> Some JNull /\ error r <> Some JNull /\ to_value (resp_id r) = resp_id r.

Lemma de_option_raw v : de_option de_raw v = Ret (match v with Some JNull => None | _ => v end).
Proof. by destruct v as [[]|]. Qed.

Lemma de_option_raw_id v : v <> Some JNull -> de_option de_raw v = Ret v.
Proof. by destruct v as [[]|]. Qed.

Lemma field_ser_request r :
  let o := ser_field "jsonrpc" (JString <$> req_jsonrpc r) ++ [("method"%string, JString (method r))]
           ++ ser_field "params" (params r) ++ ser_field "id" (req_id r) in
  field "jsonrpc" o = Ret (JString <$> req_jsonrpc r) /\ field "method" o = Ret (Some (JString (method r))) /\
  field "params" o = Ret (params r) /\ field "id" o = Ret (req_id r).
Proof. destruct r as [[] ? [] []]; split_and!; reflexivity. Qed.

Lemma field_ser_response r :
  let o := ser_field "jsonrpc" (JString <$> jsonrpc r) ++ ser_field "result" (result r)
           ++ ser_field "error" (error r) ++ [("id"%string, resp_id r)] in
  field "jsonrpc" o = Ret (JString <$> jsonrpc r) /\ field "result" o = Ret (result r) /\
  field "error" o = Ret (error r) /\ field "id" o = Ret (Some (resp_id r)).
Proof. destruct r as [[] [] [] ?]; split_and!; reflexivity. Qed.

Context `{!HttpLaws}.

Lemma de_request_wf v r : de_request v = Ret r -> request_wf r.
Proof.
  assert (forall j m p i, de_request_fields j m p i = Ret r -> request_wf r) as Hf.
  { intros j m p i. unfold de_request_fields. rewrite de_option_raw.
    destruct (de_option de_string j); cbn; [|done..].
    destruct m as [m|]; cbn; [|done]. destruct (de_string m); cbn; [|done..].
    destruct i as [i|]; cbn; [destruct i; cbn|]; intros [= <-];
      (split; cbn; [by destruct p as [[]|]|intros i'; try done; intros [= <-]]);
      (split; [apply to_value_idemp|by rewrite to_value_null]). }
  destruct v as [| | | |l|o]; cbn; try done.
  - destruct l as [|j [|j0 [|j1 [|j2 [|]]]]]; try done. apply (Hf (Some j) (Some j0) (Some j1) (Some j2)).
  - destruct (field "jsonrpc" o); cbn; [|done..]. destruct (field "method" o); cbn; [|done..].
    destruct (field "params" o); cbn; [|done..]. destruct (field "id" o); cbn; [|done..]. apply Hf.
Qed.

Lemma read_request_wf b r : read_request b = Some r -> request_wf r.
Proof.
  unfold read_request. destruct (parse b) as [v|]; cbn; [|done].
  destruct (de_request v) eqn:Hv; cbn; try done. intros [= <-]. by eapply de_request_wf.
Qed.

Lemma de_ser_request r : request_wf r -> de_request (ser_request r) = Ret r.
Proof.
  intros [Hp Hi]. destruct (field_ser_request r) as (H1 & H2 & H3 & H4).
  unfold ser_request, de_request. rewrite H1, H2, H3, H4. cbn [mbind outcome_bind].
  unfold de_request_fields. rewrite de_option_raw_id by done.
  destruct r as [[j|] m p [i|]]; cbn in *; try done;
    destruct (Hi i eq_refl) as [Hv Hn]; destruct i; cbn; unfold de_value; cbn; try done; by rewrite Hv.
Qed.

Lemma de_ser_response r : response_wf r -> de_response (ser_response r) = Ret r.
Proof.
  intros (Hr & He & Hi). destruct (field_ser_response r) as (H1 & H2 & H3 & H4).
  unfold ser_response, de_response. rewrite H1, H2, H3, H4. cbn [mbind outcome_bind].
  unfold de_response_fields. rewrite !de_option_raw_id by done.
  destruct r as [[j|] res e i]; cbn in *; unfold de_value; by rewrite Hi.
Qed.

Lemma into_2_wf r : request_wf r -> request_wf (into_2 r).
Proof. done. Qed.

(** A request of a known dialect is forwarded as a 2.0 request that reads
    back with the same method, parameters and id; any other body is forwarded
    byte for byte. *)
Theorem request_rewriting_correct req b :
  req_body req = Some b ->
  exists v req' b',
    request_to_json_rpc_2 req = Ret (v, req') /\ content_type req' = content_type req /\
    req_body req' = Some b' /\
    (v = default Unknown (version <$> read_request b)) /\
    (v = Unknown -> b' = b) /\
    (v <> Unknown -> read_request b' = into_2 <$> read_request b).
Proof.
  intros Hb. unfold request_to_json_rpc_2. rewrite Hb. cbn [expect mbind outcome_bind].
  destruct (read_request b) as [r|] eqn:Hr; cbn [fmap option_fmap option_map default].
  2: { eexists _, _, _. by split_and!. }
  case_bool_decide as Hv.
  - eexists _, _, _. by split_and!.
  - eexists _, _, _. split_and!; [reflexivity..|done|]. intros _.
    unfold read_request. rewrite parse_to_vec. cbn [mbind option_bind].
    by rewrite de_ser_request by (apply into_2_wf; by eapply read_request_wf).
Qed.

(** ** What a client sees *)

(** An answer: a result, or the members of an error object. *)
Abbreviation Answer := (JsonValue + list (string * JsonValue))%type.

(** The answer in each dialect. Bitcoin's has both members, the 2.0 one of them. *)
Definition client_view (v : JsonRpcVersion) (a : Answer) (id : JsonValue) : JsonValue :=
  let both := match a with
              | inl r => [("result"%string, r); ("error"%string, JNull)]
              | inr e => [("result"%string, JNull); ("error"%string, JObject e)]
              end in
  match v with
  | Bitcoind => JObject (both ++ [("id"%string, id)])
  | Lightwalletd => JObject (("jsonrpc"%string, JString "1.0") :: both ++ [("id"%string, id)])
  | TwoPointZero | Unknown =>
      JObject [("jsonrpc"%string, JString "2.0");
               match a with inl r => ("result"%string, r) | inr e => ("error"%string, JObject e) end;
               ("id"%string, id)]
  end.

Definition client_status (v : JsonRpcVersion) (a : Answer) : Z :=
  match v, a with
  | (Bitcoind | Lightwalletd), inr e => default 200 (error_status <$> error_code (JObject e))
  | _, _ => 200
  end.

(** A JSON-RPC 2.0 server: a call with an identifier it accepts, sent as JSON,
    is answered in the 2.0 dialect. *)
Definition serves {E} (service : HttpRequest -> outcome E HttpResponse) (accepts : JsonValue -> bool)
    (answer : string -> option JsonValue -> Answer) : Prop :=
  forall req b r i,
    head (content_type req) ≫= to_str = Some "application/json"%string ->
    req_body req = Some b -> read_request b = Some r ->
    req_jsonrpc r = Some "2.0"%string -> req_id r = Some i -> accepts i = true ->
    service req = Ret {| status := 200;
                         resp_body := Some (to_vec (client_view TwoPointZero (answer (method r) (params r)) i)) |}.

(** A content type that the layer leaves as JSON or makes so. *)
Definition json_or_text (headers : list HeaderValue) : bool :=
  match headers with
  | [] => true
  | value :: _ =>
      let s := default EmptyString (to_str value) in
      starts_with "text/plain" s || String.eqb s "application/json"
  end.

Lemma content_type_json headers :
  json_or_text headers = true ->
  head (insert_or_replace_content_type_header headers) ≫= to_str = Some "application/json"%string.
Proof.
  unfold json_or_text, insert_or_replace_content_type_header. destruct headers as [|value headers].
  { intros _. apply to_str_from_static. }
  destruct (starts_with _ _); cbn [orb]; [intros _; apply to_str_from_static|].
  intros Hs%String.eqb_eq. cbn [head mbind option_bind]. by destruct (to_str value); cbn in Hs; subst.
Qed.

(** The 2.0 answer as the middleware reads it: a null result is lost. *)
Definition read_back (a : Answer) (i : JsonValue) : JsonRpcResponse := {|
  jsonrpc := Some "2.0"%string;
  result := match a with inl JNull | inr _ => None | inl r => Some r end;
  error := match a with inl _ => None | inr e => Some (JObject e) end;
  resp_id := i |}.

Lemma read_client_view a i :
  to_value i = i -> read_response (to_vec (client_view TwoPointZero a i)) = Some (read_back a i).
Proof.
  intros Hi. unfold read_response. rewrite parse_to_vec. cbn [mbind option_bind].
  assert (de_response (client_view TwoPointZero a i) = Ret (read_back a (to_value i))) as ->
    by (destruct a as [[]|]; reflexivity).
  by rewrite Hi.
Qed.

Lemma into_version_client_view a i v :
  v <> Unknown ->
  exists r, into_version (read_back a i) v = Ret r /\ ser_response r = client_view v a i.
Proof.
  intros Hv. destruct v; try done; destruct a as [[]|]; by eexists.
Qed.

(** C11. For a client of any supported dialect, the layer over a JSON-RPC 2.0
    server behaves as a server of that dialect: the answer to its method and
    parameters, under its id, in its shape, with its status code; nothing
    panics. *)
Theorem dialects_refine_json_rpc_2 {E} (service : HttpRequest -> outcome E HttpResponse) accepts answer :
  serves service accepts answer ->
  forall headers b r i v,
    json_or_text headers = true ->
    read_request b = Some r -> version r = v -> v <> Unknown ->
    req_id r = Some i -> accepts i = true ->
    call service {| content_type := headers; req_body := Some b |}
    = Ret {| status := client_status v (answer (method r) (params r));
             resp_body := Some (to_vec (client_view v (answer (method r) (params r)) i)) |}.
Proof.
  intros Hserve headers b r i v Hct Hr Hv Hu Hi Hacc. unfold call. cbn [content_type req_body].
  pose proof (read_request_wf b r Hr) as Hwf.
  unfold request_to_json_rpc_2. cbn [expect mbind outcome_bind req_body content_type].
  rewrite Hr, Hv, bool_decide_false by done. cbn [map_err mbind outcome_bind].
  rewrite (Hserve _ (to_vec (ser_request (into_2 r))) (into_2 r) i); try done.
  2: { by apply content_type_json. }
  2: { unfold read_request. rewrite parse_to_vec. cbn [mbind option_bind].
       by rewrite de_ser_request by by apply into_2_wf. }
  cbn [method params into_2 mbind outcome_bind]. unfold response_from_json_rpc_2.
  cbn [expect resp_body mbind outcome_bind status].
  destruct Hwf as [_ Hid]. destruct (Hid i Hi) as [Hiv _].
  rewrite read_client_view by done.
  destruct (into_version_client_view (answer (method r) (params r)) i v Hu) as (r' & -> & Hr').
  cbn [map_err mbind outcome_bind]. rewrite Hr'. f_equal. f_equal.
  unfold client_status, read_back. cbn [error].
  destruct v, (answer (method r) (params r)); cbn; try done; by destruct (error_code _).
Qed.

(** A 2.0 request whose id is null is forwarded without an id. *)
Theorem null_id_becomes_notification headers b o m p :
  parse b = Some (JObject o) ->
  field "jsonrpc" o = Ret (Some (JString "2.0")) -> field "method" o = Ret (Some (JString m)) ->
  field "params" o = Ret p -> field "id" o = Ret (Some JNull) ->
  exists b' o',
    request_to_json_rpc_2 {| content_type := headers; req_body := Some b |}
    = Ret (TwoPointZero, {| content_type := headers; req_body := Some b' |}) /\
    parse b' = Some (JObject o') /\ field "method" o' = Ret (Some (JString m)) /\ field "id" o' = Ret None.
Proof.
  intros Hb Hj Hm Hp Hi. unfold request_to_json_rpc_2, read_request. cbn [expect req_body mbind outcome_bind].
  rewrite Hb. cbn [mbind option_bind]. unfold de_request. rewrite Hj, Hm, Hp, Hi. cbn [mbind outcome_bind].
  unfold de_request_fields. rewrite de_option_raw. cbn. eexists _, _. split; [reflexivity|].
  rewrite parse_to_vec. split; [reflexivity|]. split; by destruct p as [[]|].
Qed.
End Http.

(** ** An instance: bodies are trees, the server echoes the parameters *)

Definition toy : HttpOps := {|
  Bytes := JsonValue; parse := Some; to_vec v := v; to_value v := v;
  error_code v := match v with JObject [("code"%string, JNull)] => Some MethodNotFound | _ => None end;
  HeaderValue := string; to_str := Some; from_static s := s |}.

Lemma toy_http_laws : @HttpLaws toy.
Proof. by constructor. Qed.

Definition toy_answer (m : string) (p : option JsonValue) : JsonValue + list (string * JsonValue) :=
  if String.eqb m "echo" then inl (default JNull p) else inr [("code"%string, JNull)].

Definition toy_service (req : @HttpRequest toy) : outcome Empty_set (@HttpResponse toy) :=
  match @read_request toy (default (JNull : @Bytes toy) (req_body req)) with
  | Some r =>
      Ret {| status := 200;
             resp_body := Some (client_view TwoPointZero (toy_answer (method r) (params r))
                                  (default JNull (req_id r))) : option (@Bytes toy) |}
  | None => Panic
  end.

Lemma toy_serves : @serves toy Empty_set toy_service (fun _ => true) toy_answer.
Proof.
  intros req b r i _ Hb Hr _ Hi _. unfold toy_service.
  assert (@read_request toy (default (JNull : @Bytes toy) (req_body req)) = Some r) as -> by by rewrite Hb.
  by rewrite Hi.
Qed.

(** A Bitcoin client calls a method that does not exist. *)
Definition toy_request : JsonValue :=
  JObject [("method"%string, JString "nope"); ("params"%string, JArray []); ("id"%string, JString "1")].

Lemma dialects_refine_json_rpc_2_witness :
  @call toy Empty_set toy_service {| content_type := []; req_body := Some toy_request : option (@Bytes toy) |}
  = Ret {| status := 404;
           resp_body := Some (JObject [("result"%string, JNull);
                                       ("error"%string, JObject [("code"%string, JNull)]);
                                       ("id"%string, JString "1")]) : option (@Bytes toy) |}.
Proof.
  apply (@dialects_refine_json_rpc_2 toy toy_http_laws Empty_set toy_service (fun _ => true) toy_answer toy_serves
           [] toy_request
           {| req_jsonrpc := None; method := "nope"; params := Some (JArray []); req_id := Some (JString "1") |}
           (JString "1") Bitcoind); try reflexivity. discriminate.
Defined.

Lemma request_rewriting_correct_witness :
  exists v req' b',
    @request_to_json_rpc_2 toy {| content_type := []; req_body := Some toy_request : option (@Bytes toy) |}
    = Ret (v, req') /\ req_body req' = Some b' /\ v = Bitcoind.
Proof.
  destruct (@request_rewriting_correct toy toy_http_laws
              {| content_type := []; req_body := Some toy_request : option (@Bytes toy) |} toy_request eq_refl)
    as (v & req' & b' & Hr & _ & Hb & Hv & _).
  exists v, req', b'. split; [exact Hr|]. split; [exact Hb|]. exact Hv.
Defined.

Definition toy_null_id : list (string * JsonValue) :=
  [("jsonrpc"%string, JString "2.0"); ("method"%string, JString "stop"); ("id"%string, JNull)].

Lemma null_id_becomes_notification_witness :
  exists b' o',
    @request_to_json_rpc_2 toy {| content_type := []; req_body := Some (JObject toy_null_id) : option (@Bytes toy) |}
    = Ret (TwoPointZero, {| content_type := []; req_body := Some b' |}) /\
    @parse toy b' = Some (JObject o') /\ field "id" o' = Ret None.
Proof.
  destruct (@null_id_becomes_notification toy toy_http_laws [] (JObject toy_null_id) toy_null_id "stop" None
              eq_refl eq_refl eq_refl eq_refl eq_refl) as (b' & o' & Hr & Hp & _ & Hi).
  exists b', o'. split; [exact Hr|]. split; [exact Hp|exact Hi].
Defined.
