(* ===== verification/ViewTx.v ===== *)
(** [z_viewtransaction]
    (src/zallet-core/src/components/json_rpc/methods/view_transaction.rs): what
    the wallet can see of the inputs and outputs of a transaction, which outputs
    are outgoing or internal, and whether the transaction is mined, waiting or
    expired.

    The tables that the method queries with SQL are lists of rows, in the order
    the query yields them; decryption, encodings and the wallet's own queries
    are the class [ViewOps]. *)

From S2P Require Import Prelude Rpc Chain Amount Params Text ListUnspent.

Inductive ShieldedPool := Sapling | Orchard | Ironwood.

#[export] Instance ShieldedPool_eq_dec : EqDecision ShieldedPool.
Proof. solve_decision. Defined.

#[export] Instance Scope_eq_dec : EqDecision Scope.
Proof. solve_decision. Defined.

Record TxOut (TransparentAddress : Type) := {
  recipient_address : option TransparentAddress;
  txout_value : Z
}.
Arguments recipient_address {TransparentAddress}.
Arguments txout_value {TransparentAddress}.

(** The transparent bundle: the prevouts of its inputs, and its outputs. *)
Record TransparentBundle (TxId TransparentAddress : Type) := {
  vin : list (TxId * Z);
  vout : list (TxOut TransparentAddress);
  is_coinbase : bool
}.
Arguments vin {TxId TransparentAddress}.
Arguments vout {TxId TransparentAddress}.
Arguments is_coinbase {TxId TransparentAddress}.

(** A row of the received notes of a pool joined with its transaction, account
    and address; of the sent notes; and of the view of balance changes. *)
Record NoteRow (TxId AccountUuid Nullifier : Type) := {
  nf : Nullifier; row_txid : TxId; row_index : Z; row_account : AccountUuid;
  row_address : option string; row_value : Z
}.
Arguments nf {TxId AccountUuid Nullifier}.
Arguments row_txid {TxId AccountUuid Nullifier}.
Arguments row_index {TxId AccountUuid Nullifier}.
Arguments row_account {TxId AccountUuid Nullifier}.
Arguments row_address {TxId AccountUuid Nullifier}.
Arguments row_value {TxId AccountUuid Nullifier}.

Record SentRow (TxId : Type) := {
  sent_txid : TxId; sent_pool : Z; sent_index : Z; to_address : option string
}.
Arguments sent_txid {TxId}.
Arguments sent_pool {TxId}.
Arguments sent_index {TxId}.
Arguments to_address {TxId}.

(** The three SQL queries of the method. *)
Inductive Query := NoteWithNullifier | SentToAddress | BalanceDeltas.

Class ViewOps `{ChainTypes} `{ParamOps} := {
  #[global] view_decimals :: DecimalOps;
  TransparentAddress : Type;
  Nullifier : Type;
  #[global] Nullifier_eq_dec :: EqDecision Nullifier;
  Ufvk : Type;
  Ovk : Type;
  SaplingIvk : Type;
  OrchardIvk : Type;
  SaplingOutput : Type;
  Action : Type;
  SaplingAddress : Type;
  OrchardAddress : Type;
  MemoBytes : Type;
  (** Transactions. *)
  txid_from_bytes : list Byte.byte -> TxId;
  txid_to_string : TxId -> string;
  tx_txid : Transaction -> TxId;
  version_header : Transaction -> Z;
  expiry_height : Transaction -> Z;
  transparent_bundle : Transaction -> option (TransparentBundle TxId TransparentAddress);
  sapling_bundle : Transaction -> option (list Nullifier * list SaplingOutput);
  orchard_bundle : Transaction -> option (list Action);
  ironwood_bundle : Transaction -> option (list Action);
  action_nullifier : Action -> Nullifier;
  fee_paid : Transaction -> (TxId * Z -> option Z) -> outcome string (option Z);
  vtx : Block -> list Transaction;
  hash_to_string : BlockHash -> string;
  header_time : BlockHeader -> Z;
  (** [BlockHeight - BlockHeight]. *)
  height_diff : Z -> Z -> Z;
  (** Viewing keys. *)
  ovks_for_shielding : Ufvk -> option (Ovk * Ovk);
  sapling_keys : Ufvk -> option (Scope -> SaplingIvk * Ovk);
  orchard_keys : Ufvk -> option (Scope -> OrchardIvk * Ovk);
  (** Trial decryption: the note's value, its recipient and its memo. *)
  sapling_decrypt : SaplingIvk -> SaplingOutput -> option (Z * SaplingAddress * MemoBytes);
  sapling_recover : Ovk -> SaplingOutput -> option (Z * SaplingAddress * MemoBytes);
  orchard_decrypt : ShieldedPool -> OrchardIvk -> Action -> option (Z * OrchardAddress * MemoBytes);
  orchard_recover : ShieldedPool -> Ovk -> Action -> option (Z * OrchardAddress * MemoBytes);
  (** Encodings. *)
  uuid_to_string : AccountUuid -> string;
  encode_transparent : Wallet -> TransparentAddress -> string;
  encode_sapling : Wallet -> SaplingAddress -> string;
  encode_orchard : Wallet -> OrchardAddress -> option string;
  memo_hex : MemoBytes -> string;
  memo_text : MemoBytes -> option string;
  chain_height_unknown : string;
  (** [Zatoshis::const_from_u64], which panics out of range, and [ZatBalance::from_i64]. *)
  zatoshis_const_from_u64 : Z -> option Z;
  zat_balance_from_i64 : Z -> outcome string Z;
  (** The wallet database. *)
  wallet_get_transaction : Wallet -> TxId -> outcome string (option Transaction);
  get_unified_full_viewing_keys : Wallet -> outcome string (list (AccountUuid * Ufvk));
  (** The scope of an address's key, if the account has the address. *)
  get_transparent_address_metadata :
    Wallet -> AccountUuid -> TransparentAddress -> outcome string (option (option Scope));
  get_tx_height : Wallet -> TxId -> outcome string (option Z);
  query_error : Wallet -> Query -> option string;
  received_notes : Wallet -> ShieldedPool -> list (NoteRow TxId AccountUuid Nullifier);
  sent_notes : Wallet -> list (SentRow TxId);
  v_transactions : Wallet -> TxId -> list (AccountUuid * Z)
}.

(** [Display for ChainError]. *)
Definition chain_error_to_string (e : ChainError) : string :=
  match e with
  | Unavailable e => ("chain source unavailable: " +:+ e)%string
  | InvalidData e => ("chain source returned invalid data: " +:+ e)%string
  | Backend e => ("chain backend error: " +:+ e)%string
  end.

Definition POOL_TRANSPARENT : string := "transparent".
Definition POOL_SAPLING : string := "sapling".
Definition POOL_ORCHARD : string := "orchard".
Definition POOL_IRONWOOD : string := "ironwood".

Definition TX_EXPIRING_SOON_THRESHOLD : Z := 3.

(** A loop over [l.iter().zip(0u16..)]: yielding an index computes the next one,
    which must fit. *)
Fixpoint for_indexed {E A B} (f : Z -> A -> outcome E (list B)) (idx : Z) (l : list A) : outcome E (list B) :=
  match l with
  | [] => Ret []
  | x :: l =>
      _ ← assert (idx <? u16_max);
      ys ← f idx x;
      zs ← for_indexed f (idx + 1) l;
      Ret (ys ++ zs)
  end.

(** What the crates document of the numbers. *)
Class ViewLaws `{ViewOps} := {
  zatoshis_const_from_u64_spec : forall v,
    zatoshis_const_from_u64 v = if (0 <=? v) && (v <=? MAX_MONEY) then Some v else None;
  height_diff_spec : forall a b, 0 <= b <= a -> height_diff a b = a - b
}.

Section view_transaction.
Context `{ViewOps} `{HeightOps} `{!ChainView V}.

Record Spend := {
  spend_pool : string;
  t_in : option Z;
  spend : option Z;
  spend_action : option Z;
  txid_prev : string;
  t_out_prev : option Z;
  output_prev : option Z;
  action_prev : option Z;
  spend_account_uuid : option string;
  spend_address : option string;
  spend_value : JsonZec;
  spend_value_zat : Z
}.

Record Output := {
  pool : string;
  t_out : option Z;
  output : option Z;
  action : option Z;
  account_uuid : option string;
  address : option string;
  outgoing : option bool;
  wallet_internal : bool;
  value : JsonZec;
  value_zat : Z;
  memo : option string;
  memo_str : option string
}.

Record AccountEffect := { delta : JsonZec; delta_zat : Z }.

(** ** Viewing keys *)

Record Keys := {
  sapling_ivks : list (AccountUuid * SaplingIvk * Scope);
  orchard_ivks : list (AccountUuid * OrchardIvk * Scope);
  ovks : list (Ovk * Scope)
}.

(** The keys of one account, appended to those collected. *)
Definition add_scope_keys (account_id : AccountUuid) (ufvk : Ufvk) (k : Keys) (scope : Scope) : Keys :=
  let k := match sapling_keys ufvk with
           | Some dfvk => {| sapling_ivks := sapling_ivks k ++ [(account_id, (dfvk scope).1, scope)];
                             orchard_ivks := orchard_ivks k; ovks := ovks k ++ [((dfvk scope).2, scope)] |}
           | None => k
           end in
  match orchard_keys ufvk with
  | Some fvk => {| sapling_ivks := sapling_ivks k;
                   orchard_ivks := orchard_ivks k ++ [(account_id, (fvk scope).1, scope)];
                   ovks := ovks k ++ [((fvk scope).2, scope)] |}
  | None => k
  end.

Definition add_account_keys (k : Keys) (a : AccountUuid * Ufvk) : Keys :=
  let '(account_id, ufvk) := a in
  let k := match ovks_for_shielding ufvk with
           | Some (internal_ovk, external_ovk) =>
               {| sapling_ivks := sapling_ivks k; orchard_ivks := orchard_ivks k;
                  ovks := ovks k ++ [(internal_ovk, Internal); (external_ovk, External)] |}
           | None => k
           end in
  foldl (add_scope_keys account_id ufvk) k [External; Internal].

Definition collect_keys (l : list (AccountUuid * Ufvk)) : Keys :=
  foldl add_account_keys {| sapling_ivks := []; orchard_ivks := []; ovks := [] |} l.

(** ** Queries *)

Definition with_raw {A} (wallet : Wallet) (q : Query) (error : string -> string) (a : A) : RpcResult A :=
  match query_error wallet q with
  | Some e => Err (database_error (error e))
  | None => Ret a
  end.

(** [output_with_nullifier]. *)
Definition output_with_nullifier (wallet : Wallet) (p : ShieldedPool) (n : Nullifier) :
    RpcResult (option (TxId * Z * AccountUuid * option string * Z)) :=
  row ← with_raw wallet NoteWithNullifier (fun e => "Failed to fetch spent note: " +:+ e)%string
          (List.find (fun r => bool_decide (nf r = n)) (received_notes wallet p));
  match row with
  | Some r => v ← expect (zatoshis_const_from_u64 (row_value r)); Ret (Some (row_txid r, row_index r, row_account r, row_address r, v))
  | None => Ret None
  end.

Definition pool_code (p : ShieldedPool) : Z :=
  match p with Sapling => 2 | Orchard => 3 | Ironwood => 4 end.

(** [sent_to_address]: a cached recipient, which may be null, else the fallback. *)
Definition sent_to_address (wallet : Wallet) (txid : TxId) (p : ShieldedPool) (idx : Z)
    (fallback_addr : unit -> RpcResult (option string)) : RpcResult (option string) :=
  row ← with_raw wallet SentToAddress (fun e => "Failed to fetch sent-to address: " +:+ e)%string
          (List.find (fun r => bool_decide (sent_txid r = txid /\ sent_pool r = pool_code p /\ sent_index r = idx))
             (sent_notes wallet));
  match row with
  | Some r => Ret (to_address r)
  | None => fallback_addr tt
  end.

(** ** Spends *)

(** The account of a transparent input: the first whose query yields metadata,
    or fails. *)
Definition input_account (wallet : Wallet) (account_ids : list AccountUuid) (address : TransparentAddress) :
    option AccountUuid :=
  List.find (fun account =>
    match get_transparent_address_metadata wallet account address with
    | Ret None => false
    | _ => true
    end) account_ids.

(** A transparent input, with the value it spends. *)
Definition transparent_spend (wallet : Wallet) (chain_view : V) (account_ids : list AccountUuid) (idx : Z)
    (prevout : TxId * Z) : RpcResult (list (Spend * (TxId * Z * Z))) :=
  match get_transaction chain_view prevout.1 with
  | Ret (Some prev_tx) =>
      output ← expect (b ← transparent_bundle (inner prev_tx); vout b !! Z.to_nat prevout.2);
      let address := recipient_address output in
      let account_id := address ≫= input_account wallet account_ids in
      Ret [({| spend_pool := POOL_TRANSPARENT; t_in := Some idx; spend := None; spend_action := None;
               txid_prev := txid_to_string prevout.1; t_out_prev := Some prevout.2;
               output_prev := None; action_prev := None;
               spend_account_uuid := uuid_to_string <$> account_id;
               spend_address := encode_transparent wallet <$> address;
               spend_value := value_from_zatoshis (txout_value output);
               spend_value_zat := txout_value output |}, (prevout, txout_value output))]
  | _ => Panic
  end.

Definition transparent_spends (wallet : Wallet) (chain_view : V) (account_ids : list AccountUuid)
    (tx : Transaction) : RpcResult (list (Spend * (TxId * Z * Z))) :=
  match transparent_bundle tx with
  | Some bundle =>
      if is_coinbase bundle then Ret []
      else for_indexed (transparent_spend wallet chain_view account_ids) 0 (vin bundle)
  | None => Ret []
  end.

(** A shielded spend is listed when its nullifier is that of a wallet note. *)
Definition sapling_spend (wallet : Wallet) (idx : Z) (n : Nullifier) : RpcResult (list Spend) :=
  spent_note ← output_with_nullifier wallet Sapling n;
  Ret match spent_note with
      | Some (txid_prev, output_prev, account_id, address, value) =>
          [{| spend_pool := POOL_SAPLING; t_in := None; spend := Some idx; spend_action := None;
              txid_prev := txid_to_string txid_prev; t_out_prev := None;
              output_prev := Some output_prev; action_prev := None;
              spend_account_uuid := Some (uuid_to_string account_id); spend_address := address;
              spend_value := value_from_zatoshis value; spend_value_zat := value |}]
      | None => []
      end.

Definition orchard_family_spend (wallet : Wallet) (p : ShieldedPool) (pool_name : string) (idx : Z) (a : Action) :
    RpcResult (list Spend) :=
  spent_note ← output_with_nullifier wallet p (action_nullifier a);
  Ret match spent_note with
      | Some (txid_prev, action_prev, account_id, address, value) =>
          [{| spend_pool := pool_name; t_in := None; spend := None; spend_action := Some idx;
              txid_prev := txid_to_string txid_prev; t_out_prev := None;
              output_prev := None; action_prev := Some action_prev;
              spend_account_uuid := Some (uuid_to_string account_id); spend_address := address;
              spend_value := value_from_zatoshis value; spend_value_zat := value |}]
      | None => []
      end.

Definition orchard_family_spends (wallet : Wallet) (bundle : list Action) (p : ShieldedPool) (pool_name : string) :
    RpcResult (list Spend) :=
  for_indexed (orchard_family_spend wallet p pool_name) 0 bundle.

Definition in_bundle {A B} (bundle : option A) (f : A -> RpcResult (list B)) : RpcResult (list B) :=
  match bundle with Some b => f b | None => Ret [] end.

Definition shielded_spends (wallet : Wallet) (tx : Transaction) : RpcResult (list Spend) :=
  sapling ← in_bundle (sapling_bundle tx) (fun b => for_indexed (sapling_spend wallet) 0 b.1);
  orchard ← in_bundle (orchard_bundle tx) (fun b => orchard_family_spends wallet b Orchard POOL_ORCHARD);
  ironwood ← in_bundle (ironwood_bundle tx) (fun b => orchard_family_spends wallet b Ironwood POOL_IRONWOOD);
  Ret (sapling ++ orchard ++ ironwood).

(** ** Outputs *)

(** The first account that has the address, with the scope of its key; an error
    of the query counts as not having it. *)
Definition output_account (wallet : Wallet) (account_ids : list AccountUuid) (a : TransparentAddress) :
    option (string * option Scope) :=
  head (omap (fun account =>
    match get_transparent_address_metadata wallet account a with
    | Ret (Some scope) => Some (uuid_to_string account, scope)
    | _ => None
    end) account_ids).

Definition transparent_output (wallet : Wallet) (account_ids : list AccountUuid) (funded_by_this_wallet : bool)
    (idx : Z) (o : TxOut TransparentAddress) : RpcResult (list Output) :=
  let '(account_uuid, address, outgoing, wallet_internal) :=
    match recipient_address o with
    | None => (None, None, None, false)
    | Some address =>
        let found := output_account wallet account_ids address in
        let account_uuid := fst <$> found in
        let outgoing := match account_uuid, funded_by_this_wallet with
                        | None, true => Some true
                        | Some _, _ => Some false
                        | None, false => None
                        end in
        (account_uuid, Some (encode_transparent wallet address), outgoing,
         match found with Some (_, Some Internal) => true | _ => false end)
    end in
  Ret [{| pool := POOL_TRANSPARENT; t_out := Some idx; output := None; action := None;
          account_uuid := account_uuid; address := address; outgoing := outgoing;
          wallet_internal := wallet_internal; value := value_from_zatoshis (txout_value o);
          value_zat := txout_value o; memo := None; memo_str := None |}].

Definition transparent_outputs (wallet : Wallet) (account_ids : list AccountUuid) (funded_by_this_wallet : bool)
    (tx : Transaction) : RpcResult (list Output) :=
  in_bundle (transparent_bundle tx)
    (fun b => for_indexed (transparent_output wallet account_ids funded_by_this_wallet) 0 (vout b)).

(** What the Sapling and the Orchard-family outputs share. *)
Section shielded.
Context {Out Addr Ivk : Type}.
Variable decrypt : Ivk -> Out -> option (Z * Addr * MemoBytes).
Variable recover : Ovk -> Out -> option (Z * Addr * MemoBytes).
Variable encode : Wallet -> Addr -> RpcResult string.

Definition external {A} (scope : Scope) (a : A) : option A :=
  match scope with External => Some a | Internal => None end.

Definition open_incoming (ivks : list (AccountUuid * Ivk * Scope)) (o : Out) :
    option (Z * AccountUuid * option Addr * MemoBytes) :=
  head (omap (fun '(account_id, ivk, scope) =>
    '(n, a, m) ← decrypt ivk o; Some (n, account_id, external scope a, m)) ivks).

Definition open_outgoing (ovks : list (Ovk * Scope)) (o : Out) : option (Z * option Addr * MemoBytes) :=
  head (omap (fun '(ovk, scope) => '(n, a, m) ← recover ovk o; Some (n, external scope a, m)) ovks).

(** The maps [incoming] and [outgoing] from indices. *)
Definition opened {X} (f : Out -> option X) (outs : list Out) : RpcResult (gmap Z X) :=
  l ← for_indexed (fun idx o => Ret match f o with Some x => [(idx, x)] | None => [] end) 0 outs;
  Ret (list_to_map l).

(** The entry of an output that was opened. *)
Definition shielded_entry (wallet : Wallet) (txid : TxId) (p : ShieldedPool) (pool_name : string) (idx note : Z)
    (account_uuid : option string) (addr : option Addr) (m : MemoBytes) : RpcResult (list Output) :=
  address ← sent_to_address wallet txid p idx
              (fun _ => match addr with Some a => s ← encode wallet a; Ret (Some s) | None => Ret None end);
  let outgoing := Some (bool_decide (account_uuid = None)) in
  let wallet_internal := bool_decide (address = None) in
  value ← expect (zatoshis_const_from_u64 note);
  Ret [{| pool := pool_name; t_out := None;
          output := (if bool_decide (p = Sapling) then Some idx else None);
          action := (if bool_decide (p = Sapling) then None else Some idx);
          account_uuid := account_uuid; address := address; outgoing := outgoing;
          wallet_internal := wallet_internal; value := value_from_zatoshis value; value_zat := value;
          memo := Some (memo_hex m); memo_str := memo_text m |}].

Definition shielded_output (wallet : Wallet) (txid : TxId) (p : ShieldedPool) (pool_name : string)
    (incoming : gmap Z (Z * AccountUuid * option Addr * MemoBytes)) (outgoing : gmap Z (Z * option Addr * MemoBytes))
    (idx : Z) (_ : Out) : RpcResult (list Output) :=
  match match incoming !! idx with
        | Some (n, account_id, addr, memo) => Some (n, Some (uuid_to_string account_id), addr, memo)
        | None => match outgoing !! idx with
                  | Some (n, addr, memo) => Some (n, None, addr, memo)
                  | None => None
                  end
        end with
  | Some (note, account_uuid, addr, m) => shielded_entry wallet txid p pool_name idx note account_uuid addr m
  | None => Ret []
  end.

Definition shielded_outputs (wallet : Wallet) (txid : TxId) (outs : list Out)
    (ivks : list (AccountUuid * Ivk * Scope)) (ovks : list (Ovk * Scope)) (p : ShieldedPool) (pool_name : string) :
    RpcResult (list Output) :=
  incoming ← opened (open_incoming ivks) outs;
  outgoing ← opened (open_outgoing ovks) outs;
  for_indexed (shielded_output wallet txid p pool_name incoming outgoing) 0 outs.
End shielded.

Definition sapling_outputs (wallet : Wallet) (txid : TxId) (keys : Keys) (tx : Transaction) :
    RpcResult (list Output) :=
  in_bundle (sapling_bundle tx) (fun b =>
    shielded_outputs sapling_decrypt sapling_recover (fun w a => Ret (encode_sapling w a))
      wallet txid b.2 (sapling_ivks keys) (ovks keys) Sapling POOL_SAPLING).

Definition orchard_family_outputs (wallet : Wallet) (txid : TxId) (bundle : list Action) (keys : Keys)
    (p : ShieldedPool) (pool_name : string) : RpcResult (list Output) :=
  shielded_outputs (orchard_decrypt p) (orchard_recover p) (fun w a => expect (encode_orchard w a))
    wallet txid bundle (orchard_ivks keys) (ovks keys) p pool_name.

Definition all_outputs (wallet : Wallet) (txid : TxId) (keys : Keys) (account_ids : list AccountUuid)
    (funded_by_this_wallet : bool) (tx : Transaction) : RpcResult (list Output) :=
  transparent ← transparent_outputs wallet account_ids funded_by_this_wallet tx;
  sapling ← sapling_outputs wallet txid keys tx;
  orchard ← in_bundle (orchard_bundle tx) (fun b => orchard_family_outputs wallet txid b keys Orchard POOL_ORCHARD);
  ironwood ← in_bundle (ironwood_bundle tx) (fun b => orchard_family_outputs wallet txid b keys Ironwood POOL_IRONWOOD);
  Ret (transparent ++ sapling ++ orchard ++ ironwood).

(** ** The state of the transaction: [WalletTxInfo::fetch] *)

Record WalletTxInfo := {
  info_status : string;
  info_confirmations : Z;
  info_generated : option bool;
  info_blockhash : option string;
  info_blockindex : option Z;
  info_blocktime : option Z;
  info_expiryheight : Z
}.

Definition tx_is_coinbase (tx : Transaction) : bool :=
  match transparent_bundle tx with Some b => is_coinbase b | None => false end.

Definition is_expired_tx (tx : Transaction) (height : Z) : bool :=
  if (expiry_height tx =? 0) || tx_is_coinbase tx then false else expiry_height tx <? height.

Definition is_expiring_soon_tx (tx : Transaction) (next_height : Z) : bool :=
  is_expired_tx tx (height_add next_height TX_EXPIRING_SOON_THRESHOLD).

Definition fetch (wallet : Wallet) (chain_view : V) (tx : Transaction) (chain_height : Z) :
    outcome string WalletTxInfo :=
  mined_height ← get_tx_height wallet (tx_txid tx);
  let confirmations :=
    match mined_height with Some h => height_diff (height_add chain_height 1) h | None => -1 end in
  let generated := if tx_is_coinbase tx then Some true else None in
  '(status, (blockhash, blockindex, blocktime)) ←
    match mined_height with
    | Some height =>
        b ← map_err (fun _ => chain_height_unknown) (get_block chain_view height);
        block ← ok_or b chain_height_unknown;
        let tx_index :=
          (fun i => Z.of_nat i.1) <$> list_find (fun ctx => tx_txid ctx = tx_txid tx) (vtx block) in
        Ret ("mined"%string, (Some (hash_to_string (header_hash (block_header block))), tx_index,
                              Some (header_time (block_header block))))
    | None =>
        let status :=
          match is_expired_tx tx chain_height, is_expiring_soon_tx tx (height_add chain_height 1) with
          | false, true => "expiringsoon"%string
          | true, _ => "expired"%string
          | _, _ => "waiting"%string
          end in
        Ret (status, (None, None, None))
    end;
  Ret {| info_status := status; info_confirmations := confirmations; info_generated := generated;
         info_blockhash := blockhash; info_blockindex := blockindex; info_blocktime := blocktime;
         info_expiryheight := expiry_height tx |}.

(** ** The method *)

Record ViewedTransaction := {
  txid : string;
  info : WalletTxInfo;
  tx_version : Z;
  fee : option JsonZec;
  spends : list Spend;
  outputs : list Output;
  accounts : gmap string AccountEffect
}.

(** The balance changes of the accounts involved. *)
Definition account_effects (wallet : Wallet) (id : TxId) : RpcResult (gmap string AccountEffect) :=
  rows ← with_raw wallet BalanceDeltas (fun e => e) (v_transactions wallet id);
  l ← traverse (fun row =>
        delta ← map_err database_error (zat_balance_from_i64 row.2);
        Ret (uuid_to_string row.1, {| delta := value_from_zat_balance delta; delta_zat := row.2 |})) rows;
  Ret (foldl (fun m kv => <[kv.1 := kv.2]> m) ∅ l).

Definition call (wallet : Wallet) (snapshot : outcome ChainError V) (txid_str : string) :
    RpcResult ViewedTransaction :=
  bytes ← parse_txid txid_str;
  let id := txid_from_bytes bytes in
  chain_view ← map_err (fun e => database_error (chain_error_to_string e)) snapshot;
  tx ← map_err database_error (wallet_get_transaction wallet id);
  tx ← ok_or tx (with_static InvalidAddressOrKey "Invalid or non-wallet transaction id");
  account_ids ← map_err database_error (get_account_ids wallet);
  ufvks ← map_err database_error (get_unified_full_viewing_keys wallet);
  let keys := collect_keys ufvks in
  transparent ← transparent_spends wallet chain_view account_ids tx;
  shielded ← shielded_spends wallet tx;
  let transparent_input_values := foldl (fun m kv => <[kv.1 := kv.2]> m) (∅ : gmap (TxId * Z) Z) (snd <$> transparent) in
  let spends := (fst <$> transparent) ++ shielded in
  let funded_by_this_wallet := existsb (fun s => bool_decide (is_Some (spend_account_uuid s))) spends in
  outputs ← all_outputs wallet id keys account_ids funded_by_this_wallet tx;
  chain_tip ← map_err (fun e => database_error (chain_error_to_string e)) (tip chain_view);
  info ← map_err database_error (fetch wallet chain_view tx (height chain_tip));
  fee ← map_err (fun e => database_error ("Failed to compute fee: " +:+ e)%string)
          (fee_paid tx (fun prevout => transparent_input_values !! prevout));
  accounts ← account_effects wallet id;
  Ret {| txid := to_ascii_lowercase txid_str; info := info;
         tx_version := Z.land (version_header tx) 0x7FFFFFFF;
         fee := value_from_zatoshis <$> fee; spends := spends; outputs := outputs; accounts := accounts |}.

(** ** Lemmas *)

Lemma for_indexed_elem_of {E A B} (f : Z -> A -> outcome E (list B)) idx l ys :
  for_indexed f idx l = Ret ys ->
  forall y, y ∈ ys <-> exists i x zs, l !! i = Some x /\ f (idx + Z.of_nat i) x = Ret zs /\ y ∈ zs.
Proof.
  revert idx ys. induction l as [|x l IH]; intros idx ys; cbn [for_indexed].
  { intros [= <-] y. split; [by intros ?%elem_of_nil|]. by intros (i & x & zs & ? & _). }
  intros (u & _ & (zs & Hf & (ws & Hl & [= <-])%bind_Ret)%bind_Ret)%bind_Ret y.
  rewrite elem_of_app, (IH _ _ Hl). split.
  - intros [Hy|(i & x' & vs & Hi & Hx & Hy)].
    + exists 0%nat, x, zs. by rewrite Z.add_0_r.
    + exists (S i), x', vs. by replace (idx + Z.of_nat (S i)) with (idx + 1 + Z.of_nat i) by lia.
  - intros ([|i] & x' & vs & Hi & Hx & Hy); cbn in Hi.
    + injection Hi as <-. rewrite Z.add_0_r, Hf in Hx. injection Hx as <-. by left.
    + right. exists i, x', vs. by replace (idx + 1 + Z.of_nat i) with (idx + Z.of_nat (S i)) by lia.
Qed.

(** Every round succeeded. *)
Lemma for_indexed_lookup {E A B} (f : Z -> A -> outcome E (list B)) idx l ys i x :
  for_indexed f idx l = Ret ys -> l !! i = Some x -> exists zs, f (idx + Z.of_nat i) x = Ret zs.
Proof.
  revert idx ys i. induction l as [|x' l IH]; intros idx ys i; cbn [for_indexed]; [done|].
  intros (u & _ & (zs & Hf & (ws & Hl & _)%bind_Ret)%bind_Ret)%bind_Ret Hi. destruct i as [|i]; cbn in Hi.
  - injection Hi as ->. exists zs. by rewrite Z.add_0_r.
  - destruct (IH _ _ i Hl Hi) as [vs Hv]. exists vs.
    by replace (idx + Z.of_nat (S i)) with (idx + 1 + Z.of_nat i) by lia.
Qed.

Lemma head_omap_Some {A B} (f : A -> option B) l b :
  head (omap f l) = Some b -> exists a, a ∈ l /\ f a = Some b.
Proof.
  induction l as [|a l IH]; [done|]. cbn [omap list_omap]. destruct (f a) eqn:Hf.
  - intros [= <-]. exists a. split; [by left|done].
  - intros (a' & Ha & ?)%IH. exists a'. split; [by right|done].
Qed.

Lemma head_omap_None {A B} (f : A -> option B) l :
  head (omap f l) = None <-> forall a, a ∈ l -> f a = None.
Proof.
  split.
  - induction l as [|a l IH]; intros Hh a' Ha; [by apply elem_of_nil in Ha|].
    cbn [omap list_omap] in Hh. destruct (f a) eqn:Hf; [done|].
    apply elem_of_cons in Ha as [->|Ha]; [done|by apply IH].
  - intros Hl. induction l as [|a l IH]; [done|]. cbn [omap list_omap].
    rewrite (Hl a) by by left. apply IH. intros; apply Hl. by right.
Qed.

Lemma for_indexed_opened {Out X} (f : Out -> option X) idx outs l :
  for_indexed (E := ErrorObject) (fun idx o => Ret match f o with Some x => [(idx, x)] | None => [] end) idx outs
  = Ret l ->
  Forall (fun kv => idx <= kv.1) l /\
  forall i, (list_to_map l : gmap Z X) !! (idx + Z.of_nat i) = outs !! i ≫= f.
Proof.
  revert idx l. induction outs as [|o outs IH]; intros idx l; cbn [for_indexed].
  { intros [= <-]. done. }
  intros (u & _ & (zs & [= <-] & (ws & Hl & [= <-])%bind_Ret)%bind_Ret)%bind_Ret.
  destruct (IH _ _ Hl) as [Hge Hlk]. split.
  - apply Forall_app. split; [destruct (f o); repeat constructor; cbn; lia|].
    eapply Forall_impl; [exact Hge|]. cbn. lia.
  - intros [|i]; cbn [lookup list_lookup].
    + rewrite Z.add_0_r. cbn [mbind option_bind]. destruct (f o) as [x|]; cbn [app]; rewrite ?list_to_map_cons.
      * by rewrite lookup_insert_eq.
      * apply not_elem_of_list_to_map_1. intros Hin. apply list_elem_of_In, in_map_iff in Hin as (kv & Hk & Hkv).
        rewrite Forall_forall in Hge. apply list_elem_of_In in Hkv. specialize (Hge kv Hkv). lia.
    + replace (idx + Z.of_nat (S i)) with (idx + 1 + Z.of_nat i) by lia. rewrite <- Hlk.
      destruct (f o) as [x|]; cbn [app]; rewrite ?list_to_map_cons; [|done]. rewrite lookup_insert_ne by lia. done.
Qed.

Lemma opened_lookup {Out X} (f : Out -> option X) outs m i :
  opened f outs = Ret m -> m !! Z.of_nat i = outs !! i ≫= f.
Proof.
  unfold opened. intros (l & Hl & [= <-])%bind_Ret.
  destruct (for_indexed_opened f 0 outs l Hl) as [_ Hlk]. by rewrite <- (Hlk i), Z.add_0_l.
Qed.

(** ** What is listed *)

(** An entry for a transparent output. *)
Definition transparent_spec (wallet : Wallet) (account_ids : list AccountUuid) (funded : bool) (idx : Z)
    (o : TxOut TransparentAddress) (out : Output) : Prop :=
  pool out = POOL_TRANSPARENT /\ t_out out = Some idx /\ value_zat out = txout_value o /\
  address out = encode_transparent wallet <$> recipient_address o /\ memo out = None /\
  match account_uuid out with
  | Some u => outgoing out = Some false /\ exists account a scope,
      account ∈ account_ids /\ recipient_address o = Some a /\ u = uuid_to_string account /\
      get_transparent_address_metadata wallet account a = Ret (Some scope) /\
      wallet_internal out = bool_decide (scope = Some Internal)
  | None => wallet_internal out = false /\
      outgoing out = (if bool_decide (is_Some (recipient_address o)) && funded then Some true else None) /\
      forall account a scope, account ∈ account_ids -> recipient_address o = Some a ->
        get_transparent_address_metadata wallet account a <> Ret (Some scope)
  end.

Lemma output_account_spec wallet account_ids a :
  match output_account wallet account_ids a with
  | Some (u, scope) => exists account, account ∈ account_ids /\ u = uuid_to_string account /\
      get_transparent_address_metadata wallet account a = Ret (Some scope)
  | None => forall account scope, account ∈ account_ids ->
      get_transparent_address_metadata wallet account a <> Ret (Some scope)
  end.
Proof.
  unfold output_account. destruct (head _) as [[u scope]|] eqn:Hh.
  - apply head_omap_Some in Hh as (account & Hin & Hm). exists account. split; [done|].
    destruct (get_transparent_address_metadata _ _ _) as [[sc|]| |]; try done. by injection Hm as <- <-.
  - intros account scope Hin Hm. rewrite head_omap_None in Hh. specialize (Hh account Hin).
    by rewrite Hm in Hh.
Qed.

Lemma transparent_output_spec wallet account_ids funded idx o :
  exists out, transparent_output wallet account_ids funded idx o = Ret [out] /\
              transparent_spec wallet account_ids funded idx o out.
Proof.
  unfold transparent_output, transparent_spec. destruct (recipient_address o) as [a|].
  - pose proof (output_account_spec wallet account_ids a) as Ho.
    destruct (output_account _ _ _) as [[u scope]|]; cbn [fmap option_fmap option_map fst].
    + destruct Ho as (account & Hin & -> & Hm). eexists. split; [reflexivity|]. cbn. split_and!; try done.
      exists account, a, scope. split_and!; try done. by destruct scope as [[]|].
    + destruct funded; (eexists; split; [reflexivity|]; cbn; split_and!; try done;
        intros account a' scope Hin [= <-]; by apply Ho).
  - eexists. split; [reflexivity|]. cbn. by split_and!.
Qed.

Section shielded_spec.
Context {Out Addr Ivk : Type}.
Variable decrypt : Ivk -> Out -> option (Z * Addr * MemoBytes).
Variable recover : Ovk -> Out -> option (Z * Addr * MemoBytes).
Variable encode : Wallet -> Addr -> RpcResult string.
Variables (wallet : Wallet) (txid : TxId) (ivks : list (AccountUuid * Ivk * Scope)) (ovks : list (Ovk * Scope)).
Variables (p : ShieldedPool) (pool_name : string).

(** Some viewing key of the wallet opens an output. *)
Definition viewable (o : Out) : Prop :=
  (exists k, k ∈ ivks /\ is_Some (decrypt k.1.2 o)) \/ (exists k, k ∈ ovks /\ is_Some (recover k.1 o)).

(** An entry for a shielded output: opened by an incoming key, of the account
    that receives it, or failing that by an outgoing key. *)
Definition shielded_spec (idx : Z) (o : Out) (out : Output) : Prop :=
  pool out = pool_name /\ t_out out = None /\
  (if bool_decide (p = Sapling) then output out = Some idx /\ action out = None
   else output out = None /\ action out = Some idx) /\
  exists n scope a m,
    ((exists account ivk, (account, ivk, scope) ∈ ivks /\ decrypt ivk o = Some (n, a, m) /\
        account_uuid out = Some (uuid_to_string account) /\ outgoing out = Some false) \/
     ((forall k, k ∈ ivks -> decrypt k.1.2 o = None) /\
      exists ovk, (ovk, scope) ∈ ovks /\ recover ovk o = Some (n, a, m) /\
        account_uuid out = None /\ outgoing out = Some true)) /\
    value_zat out = n /\ memo out = Some (memo_hex m) /\ memo_str out = memo_text m /\
    match List.find (fun r => bool_decide (sent_txid r = txid /\ sent_pool r = pool_code p /\ sent_index r = idx))
            (sent_notes wallet), scope with
    | Some r, _ => address out = to_address r
    | None, External => exists s, encode wallet a = Ret s /\ address out = Some s
    | None, Internal => address out = None
    end /\
    wallet_internal out = bool_decide (address out = None).

Lemma open_incoming_spec o :
  match open_incoming decrypt ivks o with
  | Some (n, account, addr, m) => exists ivk scope a,
      (account, ivk, scope) ∈ ivks /\ decrypt ivk o = Some (n, a, m) /\ addr = external scope a
  | None => forall k, k ∈ ivks -> decrypt k.1.2 o = None
  end.
Proof.
  unfold open_incoming. destruct (head _) as [[[[n account] addr] m]|] eqn:Hh.
  - apply head_omap_Some in Hh as ([[acc ivk] scope] & Hin & Hd).
    destruct (decrypt ivk o) as [[[n' a] m']|] eqn:Hdec; [|done]. injection Hd as <- <- <- <-.
    by exists ivk, scope, a.
  - rewrite head_omap_None in Hh. intros [[acc ivk] scope] Hin. specialize (Hh _ Hin). cbn in Hh |- *.
    by destruct (decrypt ivk o) as [[[]]|].
Qed.

Lemma open_outgoing_spec o :
  match open_outgoing recover ovks o with
  | Some (n, addr, m) => exists ovk scope a,
      (ovk, scope) ∈ ovks /\ recover ovk o = Some (n, a, m) /\ addr = external scope a
  | None => forall k, k ∈ ovks -> recover k.1 o = None
  end.
Proof.
  unfold open_outgoing. destruct (head _) as [[[n addr] m]|] eqn:Hh.
  - apply head_omap_Some in Hh as ([ovk scope] & Hin & Hd).
    destruct (recover ovk o) as [[[n' a] m']|] eqn:Hdec; [|done]. injection Hd as <- <- <-.
    by exists ovk, scope, a.
  - rewrite head_omap_None in Hh. intros [ovk scope] Hin. specialize (Hh _ Hin). cbn in Hh |- *.
    by destruct (recover ovk o) as [[[]]|].
Qed.

Context `{!ViewLaws}.

Lemma sent_to_address_spec idx fallback address :
  sent_to_address wallet txid p idx fallback = Ret address ->
  match List.find (fun r => bool_decide (sent_txid r = txid /\ sent_pool r = pool_code p /\ sent_index r = idx))
          (sent_notes wallet) with
  | Some r => address = to_address r
  | None => fallback tt = Ret address
  end.
Proof.
  unfold sent_to_address, with_raw. destruct (query_error _ _); cbn [mbind outcome_bind]; [done|].
  destruct (List.find _ _); [by intros [= <-]|done].
Qed.

(** How an output was opened: by whose key, and what it contains. *)
Definition opening (o : Out) (n : Z) (acc : option string) (scope : Scope) (a : Addr) (m : MemoBytes) : Prop :=
  (exists account ivk, (account, ivk, scope) ∈ ivks /\ decrypt ivk o = Some (n, a, m) /\
      acc = Some (uuid_to_string account)) \/
  ((forall k, k ∈ ivks -> decrypt k.1.2 o = None) /\
    exists ovk, (ovk, scope) ∈ ovks /\ recover ovk o = Some (n, a, m) /\ acc = None).

Lemma opening_viewable o n acc scope a m : opening o n acc scope a m -> viewable o.
Proof.
  intros [(account & ivk & Hk & Hd & _)|[_ (ovk & Hk & Hd & _)]]; [left|right];
    [exists (account, ivk, scope)|exists (ovk, scope)]; (split; [done|]); cbn; rewrite Hd; by eexists.
Qed.

Lemma shielded_entry_spec idx o n acc scope a m zs :
  opening o n acc scope a m ->
  shielded_entry encode wallet txid p pool_name idx n acc (external scope a) m = Ret zs ->
  exists out, zs = [out] /\ shielded_spec idx o out.
Proof.
  unfold shielded_entry. intros Hacc (addr & Haddr%sent_to_address_spec & (v & Hv & [= <-])%bind_Ret)%bind_Ret.
  rewrite zatoshis_const_from_u64_spec in Hv. destruct (_ && _) in Hv; [|done]. injection Hv as <-.
  eexists. split; [reflexivity|]. unfold shielded_spec. cbn. split; [done|]. split; [done|].
  split; [by case_bool_decide|]. exists n, scope, a, m.
  split; [|split; [done|]; split; [done|]; split; [done|]; split; [|done]].
  - destruct Hacc as [(account & ivk & ? & ? & ->)|[? (ovk & ? & ? & ->)]]; [left|right; split; [done|]];
      [by exists account, ivk|by exists ovk].
  - destruct (List.find _ _); [done|]. destruct scope; cbn in Haddr; [|by injection Haddr].
    apply bind_Ret in Haddr as (s & Hs & [= <-]). by exists s.
Qed.

(** One round of the loop over the outputs. *)
Lemma shielded_output_spec incoming outgoing_ idx o zs :
  incoming !! idx = open_incoming decrypt ivks o -> outgoing_ !! idx = open_outgoing recover ovks o ->
  shielded_output encode wallet txid p pool_name incoming outgoing_ idx o = Ret zs ->
  (zs = [] /\ ~ viewable o) \/ exists out, zs = [out] /\ shielded_spec idx o out /\ viewable o.
Proof.
  intros Hi Ho. unfold shielded_output. rewrite Hi, Ho.
  pose proof (open_incoming_spec o) as Hin. pose proof (open_outgoing_spec o) as Hout.
  assert (forall n acc scope a m, opening o n acc scope a m ->
    shielded_entry encode wallet txid p pool_name idx n acc (external scope a) m = Ret zs ->
    exists out, zs = [out] /\ shielded_spec idx o out /\ viewable o) as Hlisted.
  { intros n acc scope a m Hop Hz. destruct (shielded_entry_spec _ _ _ _ _ _ _ _ Hop Hz) as (out & ? & ?).
    exists out. by pose proof (opening_viewable _ _ _ _ _ _ Hop). }
  destruct (open_incoming decrypt ivks o) as [[[[n account] addr] m]|].
  - destruct Hin as (ivk & scope & a & ? & ? & ->). intros Hz. right.
    eapply Hlisted; [|exact Hz]. left. by exists account, ivk.
  - destruct (open_outgoing recover ovks o) as [[[n addr] m]|].
    + destruct Hout as (ovk & scope & a & ? & ? & ->). intros Hz. right.
      eapply Hlisted; [|exact Hz]. right. split; [done|]. by exists ovk.
    + intros [= <-]. left. split; [done|]. intros [(k & Hk & [x Hs])|(k & Hk & [x Hs])].
      * by rewrite (Hin k Hk) in Hs.
      * by rewrite (Hout k Hk) in Hs.
Qed.

Lemma shielded_outputs_spec outs ys :
  shielded_outputs decrypt recover encode wallet txid outs ivks ovks p pool_name = Ret ys ->
  (forall y, y ∈ ys -> exists i o, outs !! i = Some o /\ shielded_spec (Z.of_nat i) o y) /\
  (forall i o, outs !! i = Some o -> viewable o -> exists y, y ∈ ys /\ shielded_spec (Z.of_nat i) o y).
Proof.
  unfold shielded_outputs. intros (inc & Hinc & (outg & Houtg & Hys)%bind_Ret)%bind_Ret.
  assert (forall i o zs, outs !! i = Some o ->
    shielded_output encode wallet txid p pool_name inc outg (0 + Z.of_nat i) o = Ret zs ->
    (zs = [] /\ ~ viewable o) \/ exists out, zs = [out] /\ shielded_spec (Z.of_nat i) o out /\ viewable o) as Hone.
  { intros i o zs Hi. rewrite Z.add_0_l. apply shielded_output_spec.
    - by rewrite (opened_lookup _ _ _ _ Hinc), Hi.
    - by rewrite (opened_lookup _ _ _ _ Houtg), Hi. }
  split.
  - intros y Hy. apply (for_indexed_elem_of _ _ _ _ Hys) in Hy as (i & o & zs & Hi & Hz & Hy).
    exists i, o. split; [done|]. destruct (Hone i o zs Hi Hz) as [[-> _]|(out & -> & Hs & _)].
    + by apply elem_of_nil in Hy.
    + by apply list_elem_of_singleton in Hy as ->.
  - intros i o Hi Hv. destruct (for_indexed_lookup _ _ _ _ _ _ Hys Hi) as [zs Hz].
    destruct (Hone i o zs Hi Hz) as [[-> Hn]|(out & -> & Hs & _)]; [done|].
    exists out. split; [|done]. apply (for_indexed_elem_of _ _ _ _ Hys). exists i, o, [out].
    split; [done|]. split; [done|]. by left.
Qed.
End shielded_spec.

Lemma transparent_outputs_spec wallet account_ids funded tx ys :
  transparent_outputs wallet account_ids funded tx = Ret ys ->
  (forall y, y ∈ ys -> exists b i o, transparent_bundle tx = Some b /\ vout b !! i = Some o /\
      transparent_spec wallet account_ids funded (Z.of_nat i) o y) /\
  (forall b i o, transparent_bundle tx = Some b -> vout b !! i = Some o ->
      exists y, y ∈ ys /\ transparent_spec wallet account_ids funded (Z.of_nat i) o y).
Proof.
  unfold transparent_outputs, in_bundle. destruct (transparent_bundle tx) as [b|].
  2: { intros [= <-]. split; [by intros ? ?%elem_of_nil|done]. }
  intros Hys. split.
  - intros y Hy. apply (for_indexed_elem_of _ _ _ _ Hys) in Hy as (i & o & zs & Hi & Hz & Hy).
    destruct (transparent_output_spec wallet account_ids funded (0 + Z.of_nat i) o) as (out & Hout & Hs).
    rewrite Hout in Hz. injection Hz as <-. apply list_elem_of_singleton in Hy as ->.
    exists b, i, o. by rewrite Z.add_0_l in Hs.
  - intros b' i o [= <-] Hi.
    destruct (transparent_output_spec wallet account_ids funded (0 + Z.of_nat i) o) as (out & Hout & Hs).
    exists out. rewrite Z.add_0_l in Hs. split; [|done].
    apply (for_indexed_elem_of _ _ _ _ Hys). exists i, o, [out]. split_and!; [done|done|by left].
Qed.

(** The entries of a transaction's outputs, pool by pool. *)
Definition sapling_entry (wallet : Wallet) (id : TxId) (keys : Keys) (idx : Z) (o : SaplingOutput) (out : Output) :
    Prop :=
  shielded_spec sapling_decrypt sapling_recover (fun w a => Ret (encode_sapling w a)) wallet id
    (sapling_ivks keys) (ovks keys) Sapling POOL_SAPLING idx o out.

Definition orchard_entry (wallet : Wallet) (id : TxId) (keys : Keys) (p : ShieldedPool) (pool_name : string)
    (idx : Z) (a : Action) (out : Output) : Prop :=
  shielded_spec (orchard_decrypt p) (orchard_recover p) (fun w a => expect (encode_orchard w a)) wallet id
    (orchard_ivks keys) (ovks keys) p pool_name idx a out.

(** An output of the transaction, with its position. *)
Inductive Position :=
  | TransparentAt (i : nat) (o : TxOut TransparentAddress)
  | SaplingAt (i : nat) (o : SaplingOutput)
  | OrchardAt (i : nat) (a : Action)
  | IronwoodAt (i : nat) (a : Action).

Definition output_at (tx : Transaction) (x : Position) : Prop :=
  match x with
  | TransparentAt i o => exists b, transparent_bundle tx = Some b /\ vout b !! i = Some o
  | SaplingAt i o => exists b, sapling_bundle tx = Some b /\ b.2 !! i = Some o
  | OrchardAt i a => exists b, orchard_bundle tx = Some b /\ b !! i = Some a
  | IronwoodAt i a => exists b, ironwood_bundle tx = Some b /\ b !! i = Some a
  end.

(** The wallet can see it: always, or with one of its keys. *)
Definition can_view (keys : Keys) (x : Position) : Prop :=
  match x with
  | TransparentAt _ _ => True
  | SaplingAt _ o => viewable sapling_decrypt sapling_recover (sapling_ivks keys) (ovks keys) o
  | OrchardAt _ a => viewable (orchard_decrypt Orchard) (orchard_recover Orchard) (orchard_ivks keys) (ovks keys) a
  | IronwoodAt _ a => viewable (orchard_decrypt Ironwood) (orchard_recover Ironwood) (orchard_ivks keys) (ovks keys) a
  end.

Definition describes (wallet : Wallet) (id : TxId) (keys : Keys) (account_ids : list AccountUuid) (funded : bool)
    (x : Position) (out : Output) : Prop :=
  match x with
  | TransparentAt i o => transparent_spec wallet account_ids funded (Z.of_nat i) o out
  | SaplingAt i o => sapling_entry wallet id keys (Z.of_nat i) o out
  | OrchardAt i a => orchard_entry wallet id keys Orchard POOL_ORCHARD (Z.of_nat i) a out
  | IronwoodAt i a => orchard_entry wallet id keys Ironwood POOL_IRONWOOD (Z.of_nat i) a out
  end.

Context `{!ViewLaws}.

Lemma all_outputs_spec wallet id keys account_ids funded tx outs :
  all_outputs wallet id keys account_ids funded tx = Ret outs ->
  (forall out, out ∈ outs -> exists x, output_at tx x /\ describes wallet id keys account_ids funded x out) /\
  (forall x, output_at tx x -> can_view keys x ->
     exists out, out ∈ outs /\ describes wallet id keys account_ids funded x out).
Proof.
  unfold all_outputs. intros (ts & Ht & (ss & Hs & (os & Ho & (iws & Hi & [= <-])%bind_Ret)%bind_Ret)%bind_Ret)%bind_Ret.
  apply transparent_outputs_spec in Ht as [Ht1 Ht2].
  unfold sapling_outputs, orchard_family_outputs, in_bundle in *. split.
  - intros out. rewrite !elem_of_app. intros [Hin|[Hin|[Hin|Hin]]].
    + destruct (Ht1 out Hin) as (b & i & o & ? & ? & ?). exists (TransparentAt i o). split; [by exists b|done].
    + destruct (sapling_bundle tx) as [b|] eqn:Hb; [|injection Hs as <-; by apply elem_of_nil in Hin].
      destruct (shielded_outputs_spec _ _ _ _ _ _ _ _ _ _ _ Hs) as [Hsl _]. destruct (Hsl out Hin) as (i & o & ? & ?).
      exists (SaplingAt i o). split; [by exists b|done].
    + destruct (orchard_bundle tx) as [b|] eqn:Hb; [|injection Ho as <-; by apply elem_of_nil in Hin].
      destruct (shielded_outputs_spec _ _ _ _ _ _ _ _ _ _ _ Ho) as [Hol _]. destruct (Hol out Hin) as (i & o & ? & ?).
      exists (OrchardAt i o). split; [by exists b|done].
    + destruct (ironwood_bundle tx) as [b|] eqn:Hb; [|injection Hi as <-; by apply elem_of_nil in Hin].
      destruct (shielded_outputs_spec _ _ _ _ _ _ _ _ _ _ _ Hi) as [Hil _]. destruct (Hil out Hin) as (i & o & ? & ?).
      exists (IronwoodAt i o). split; [by exists b|done].
  - intros x Hx Hv.
    destruct x as [i o|i o|i a|i a]; cbn in Hx, Hv; destruct Hx as (b & Hb & Hl).
    + destruct (Ht2 b i o Hb Hl) as (y & ? & ?). exists y. rewrite !elem_of_app. auto.
    + rewrite Hb in Hs. destruct (shielded_outputs_spec _ _ _ _ _ _ _ _ _ _ _ Hs) as [_ Hsl]. destruct (Hsl i o Hl Hv) as (y & ? & ?).
      exists y. rewrite !elem_of_app. auto.
    + rewrite Hb in Ho. destruct (shielded_outputs_spec _ _ _ _ _ _ _ _ _ _ _ Ho) as [_ Hol]. destruct (Hol i a Hl Hv) as (y & ? & ?).
      exists y. rewrite !elem_of_app. auto.
    + rewrite Hb in Hi. destruct (shielded_outputs_spec _ _ _ _ _ _ _ _ _ _ _ Hi) as [_ Hil]. destruct (Hil i a Hl Hv) as (y & ? & ?).
      exists y. rewrite !elem_of_app. auto.
Qed.

(** ** Whose keys are tried *)

Definition both_scopes {X} (f : Scope -> X) : list X := [f External; f Internal].

Definition account_sapling (a : AccountUuid * Ufvk) : list (AccountUuid * SaplingIvk * Scope) :=
  match sapling_keys a.2 with Some k => both_scopes (fun s => (a.1, (k s).1, s)) | None => [] end.
Definition account_orchard (a : AccountUuid * Ufvk) : list (AccountUuid * OrchardIvk * Scope) :=
  match orchard_keys a.2 with Some k => both_scopes (fun s => (a.1, (k s).1, s)) | None => [] end.

(** The outgoing keys: those of the transparent account's shielding, and the
    Sapling and Orchard keys of both scopes. *)
Definition scope_ovks (u : Ufvk) (s : Scope) : list (Ovk * Scope) :=
  match sapling_keys u with Some k => [((k s).2, s)] | None => [] end ++
  match orchard_keys u with Some k => [((k s).2, s)] | None => [] end.
Definition account_ovks (a : AccountUuid * Ufvk) : list (Ovk * Scope) :=
  match ovks_for_shielding a.2 with
  | Some (internal_ovk, external_ovk) => [(internal_ovk, Internal); (external_ovk, External)]
  | None => []
  end ++ scope_ovks a.2 External ++ scope_ovks a.2 Internal.

(** The viewing keys of a wallet's accounts. *)
Definition keys_of (ufvks : list (AccountUuid * Ufvk)) : Keys := {|
  sapling_ivks := concat (map account_sapling ufvks);
  orchard_ivks := concat (map account_orchard ufvks);
  ovks := concat (map account_ovks ufvks) |}.

Lemma add_account_keys_spec k a : add_account_keys k a = {|
  sapling_ivks := sapling_ivks k ++ account_sapling a;
  orchard_ivks := orchard_ivks k ++ account_orchard a;
  ovks := ovks k ++ account_ovks a |}.
Proof.
  destruct a as [id u], k as [si oi os]. unfold account_sapling, account_orchard, account_ovks, scope_ovks, add_account_keys.
  cbn [fst snd foldl]. destruct (ovks_for_shielding u) as [[]|], (sapling_keys u) as [ks|] eqn:Hs, (orchard_keys u) as [ko|] eqn:Ho;
    unfold add_scope_keys; rewrite ?Hs, ?Ho; cbn; rewrite <- ?app_assoc, ?app_nil_r; done.
Qed.

(** The keys of every account, in both scopes, and no others. *)
Lemma collect_keys_spec l : collect_keys l = keys_of l.
Proof.
  unfold collect_keys.
  assert (forall k, foldl add_account_keys k l = {|
    sapling_ivks := sapling_ivks k ++ sapling_ivks (keys_of l);
    orchard_ivks := orchard_ivks k ++ orchard_ivks (keys_of l);
    ovks := ovks k ++ ovks (keys_of l) |}) as Hk; [|by rewrite Hk].
  unfold keys_of. cbn [sapling_ivks orchard_ivks ovks].
  induction l as [|a l IH]; intros [si oi os]; [by rewrite !app_nil_r|].
  cbn. rewrite IH, add_account_keys_spec. cbn. by rewrite <- !app_assoc.
Qed.

(** ** Spends *)

(** The wallet note that a nullifier spends. *)
Definition note_spent (wallet : Wallet) (p : ShieldedPool) (n : Nullifier) :
    option (NoteRow TxId AccountUuid Nullifier) :=
  List.find (fun r => bool_decide (nf r = n)) (received_notes wallet p).

Definition spend_entry (p : ShieldedPool) (pool_name : string) (i : nat) (r : NoteRow TxId AccountUuid Nullifier) :
    Spend := {|
  spend_pool := pool_name; t_in := None;
  spend := (if bool_decide (p = Sapling) then Some (Z.of_nat i) else None);
  spend_action := (if bool_decide (p = Sapling) then None else Some (Z.of_nat i));
  txid_prev := txid_to_string (row_txid r); t_out_prev := None;
  output_prev := (if bool_decide (p = Sapling) then Some (row_index r) else None);
  action_prev := (if bool_decide (p = Sapling) then None else Some (row_index r));
  spend_account_uuid := Some (uuid_to_string (row_account r)); spend_address := row_address r;
  spend_value := value_from_zatoshis (row_value r); spend_value_zat := row_value r |}.

(** The nullifiers a transaction reveals in a pool. *)
Definition nullifiers (tx : Transaction) (p : ShieldedPool) : list Nullifier :=
  match p with
  | Sapling => from_option fst [] (sapling_bundle tx)
  | Orchard => map action_nullifier (default [] (orchard_bundle tx))
  | Ironwood => map action_nullifier (default [] (ironwood_bundle tx))
  end.

Definition pool_name (p : ShieldedPool) : string :=
  match p with Sapling => POOL_SAPLING | Orchard => POOL_ORCHARD | Ironwood => POOL_IRONWOOD end.

Lemma output_with_nullifier_Ret wallet p n o :
  output_with_nullifier wallet p n = Ret o ->
  o = (fun r => (row_txid r, row_index r, row_account r, row_address r, row_value r)) <$> note_spent wallet p n.
Proof.
  unfold output_with_nullifier, with_raw, note_spent. destruct (query_error _ _); [done|]. cbn [mbind outcome_bind].
  destruct (List.find _ _) as [r|]; [|by intros [= <-]].
  intros (v & Hv & [= <-])%bind_Ret. rewrite zatoshis_const_from_u64_spec in Hv. destruct (_ && _) in Hv; [|done].
  by injection Hv as <-.
Qed.

Lemma for_indexed_spends {A} (f : Z -> A -> RpcResult (list Spend)) (g : A -> Nullifier) wallet p l ys :
  (forall i x zs, f (Z.of_nat i) x = Ret zs ->
     zs = match note_spent wallet p (g x) with
          | Some r => [spend_entry p (pool_name p) i r] | None => [] end) ->
  for_indexed f 0 l = Ret ys ->
  forall y, y ∈ ys <-> exists i n r, map g l !! i = Some n /\ note_spent wallet p n = Some r /\
                                     y = spend_entry p (pool_name p) i r.
Proof.
  intros Hf Hys y. rewrite (for_indexed_elem_of _ _ _ _ Hys). split.
  - intros (i & x & zs & Hi & Hz & Hy). rewrite Z.add_0_l in Hz. rewrite (Hf _ _ _ Hz) in Hy.
    destruct (note_spent wallet p (g x)) as [r|] eqn:Hr; [|by apply elem_of_nil in Hy].
    apply list_elem_of_singleton in Hy as ->. exists i, (g x), r.
    split; [|done]. change (map g l) with (g <$> l). by rewrite list_lookup_fmap, Hi.
  - intros (i & n & r & Hi & Hr & ->). change (map g l) with (g <$> l) in Hi.
    rewrite list_lookup_fmap in Hi. destruct (l !! i) as [x|] eqn:Hx; [|done]. injection Hi as <-.
    destruct (for_indexed_lookup _ _ _ _ _ _ Hys Hx) as [zs Hz]. exists i, x, zs. split_and!; [done..|].
    rewrite Z.add_0_l in Hz. rewrite (Hf _ _ _ Hz), Hr. by left.
Qed.

Lemma shielded_spends_spec wallet tx ys :
  shielded_spends wallet tx = Ret ys ->
  forall y, y ∈ ys <-> exists p i n r, nullifiers tx p !! i = Some n /\ note_spent wallet p n = Some r /\
                                       y = spend_entry p (pool_name p) i r.
Proof.
  unfold shielded_spends. intros (ss & Hs & (os & Ho & (iws & Hi & [= <-])%bind_Ret)%bind_Ret)%bind_Ret y.
  assert (forall p, p <> Sapling -> forall bundle zs,
    in_bundle bundle (fun b => orchard_family_spends wallet b p (pool_name p)) = Ret zs ->
    forall y, y ∈ zs <-> exists i n r, map action_nullifier (default [] bundle) !! i = Some n /\
      note_spent wallet p n = Some r /\ y = spend_entry p (pool_name p) i r) as Hfam.
  { intros p Hp [b|] zs Hz y'; [|injection Hz as <-; split; [by intros ?%elem_of_nil|by intros (? & ? & ? & ? & _)]].
    eapply for_indexed_spends; [|exact Hz]. intros i x ws (o & Hn & [= <-])%bind_Ret.
    apply output_with_nullifier_Ret in Hn as ->. destruct (note_spent _ _ _); [|done].
    unfold spend_entry. cbn. by rewrite !bool_decide_false by done. }
  rewrite !elem_of_app.
  assert (y ∈ ss <-> exists i n r, nullifiers tx Sapling !! i = Some n /\ note_spent wallet Sapling n = Some r /\
            y = spend_entry Sapling POOL_SAPLING i r) as ->.
  { unfold nullifiers, in_bundle in *. destruct (sapling_bundle tx) as [b|]; cbn [from_option].
    2: { injection Hs as <-. split; [by intros ?%elem_of_nil|by intros (? & ? & ? & ? & _)]. }
    assert (forall i n ws, sapling_spend wallet (Z.of_nat i) n = Ret ws ->
              ws = match note_spent wallet Sapling n with
                   | Some r => [spend_entry Sapling (pool_name Sapling) i r] | None => [] end) as Hone.
    { intros i n ws (o & Hn & [= <-])%bind_Ret.
      apply output_with_nullifier_Ret in Hn as ->. by destruct (note_spent _ _ _). }
    pose proof (for_indexed_spends _ (fun n => n) wallet Sapling _ _ Hone Hs y) as Hy.
    by rewrite map_id in Hy. }
  rewrite (Hfam Orchard ltac:(done) _ _ Ho), (Hfam Ironwood ltac:(done) _ _ Hi). split.
  - intros [(i & Hx)|[(i & Hx)|(i & Hx)]]; [exists Sapling|exists Orchard|exists Ironwood]; by exists i.
  - intros ([| |] & i & Hx); [left|right; left|right; right]; by exists i.
Qed.

Lemma transparent_spends_t_in wallet view ids tx ts s :
  transparent_spends wallet view ids tx = Ret ts -> s ∈ fst <$> ts -> is_Some (t_in s).
Proof.
  unfold transparent_spends. destruct (transparent_bundle tx) as [b|]; [|intros [= <-] Hs; by apply elem_of_nil in Hs].
  destruct (is_coinbase b); [intros [= <-] Hs; by apply elem_of_nil in Hs|].
  intros Hts ([s' v] & -> & Hin)%list_elem_of_fmap.
  apply (for_indexed_elem_of _ _ _ _ Hts) in Hin as (i & x & zs & _ & Hz & Hin). unfold transparent_spend in Hz.
  destruct (get_transaction _ _) as [[prev|]| |]; try done. apply bind_Ret in Hz as (o & _ & [= <-]).
  apply list_elem_of_singleton in Hin. injection Hin as -> _. by eexists.
Qed.

Definition funded_by (spends : list Spend) : bool :=
  existsb (fun s => bool_decide (is_Some (spend_account_uuid s))) spends.

(** C14. On success every transparent output and exactly the shielded outputs
    that some viewing key of the wallet opens are listed (the keys being the
    incoming and outgoing Sapling and Orchard keys of every account in both
    scopes and the transparent accounts' outgoing keys for shielding), with
    account, direction, address, memo and internal flag as their opening says;
    shielded spends are exactly those of the wallet's notes. *)
Theorem z_viewtransaction_correct wallet snapshot txid_str t :
  call wallet snapshot txid_str = Ret t ->
  exists bytes view tx ids ufvks,
    parse_txid txid_str = Ret bytes /\ snapshot = Ret view /\
    wallet_get_transaction wallet (txid_from_bytes bytes) = Ret (Some tx) /\
    get_account_ids wallet = Ret ids /\ get_unified_full_viewing_keys wallet = Ret ufvks /\
    let keys := keys_of ufvks in
    let describes := describes wallet (txid_from_bytes bytes) keys ids (funded_by (spends t)) in
    (forall out, out ∈ outputs t -> exists x, output_at tx x /\ describes x out) /\
    (forall x, output_at tx x -> can_view keys x -> exists out, out ∈ outputs t /\ describes x out) /\
    (forall s, s ∈ spends t /\ t_in s = None <->
       exists p i n r, nullifiers tx p !! i = Some n /\ note_spent wallet p n = Some r /\
                       s = spend_entry p (pool_name p) i r).
Proof.
  unfold call.
  intros (bytes & Hb & (view & Hv%map_err_Ret & (tx0 & Ht%map_err_Ret & (tx & Htx%ok_or_Ret & (ids & Hi%map_err_Ret
    & (ufvks & Hu%map_err_Ret & (ts & Hts & (ss & Hss & Hr)%bind_Ret)%bind_Ret)%bind_Ret)%bind_Ret)%bind_Ret)
    %bind_Ret)%bind_Ret)%bind_Ret.
  subst tx0. apply bind_Ret in Hr as (outs & Houts & Hr). apply bind_Ret in Hr as (tip_ & _ & Hr).
  apply bind_Ret in Hr as (inf & _ & Hr). apply bind_Ret in Hr as (fee_ & _ & Hr).
  apply bind_Ret in Hr as (accs & _ & [= <-]). cbn [spends outputs].
  exists bytes, view, tx, ids, ufvks. do 5 (split; [done|]).
  rewrite collect_keys_spec in Houts. apply all_outputs_spec in Houts as [Ho1 Ho2].
  cbv zeta. split; [done|]. split; [done|].
  intros s. rewrite <- (shielded_spends_spec _ _ _ Hss). rewrite elem_of_app. split.
  - intros [[Hs|Hs] Ht_in]; [|done]. apply (transparent_spends_t_in _ _ _ _ _ _ Hts) in Hs as [? Hs].
    by rewrite Hs in Ht_in.
  - intros Hs. split; [by right|]. apply (shielded_spends_spec _ _ _ Hss) in Hs as (p & i & n & r & _ & _ & ->). done.
Qed.

(** ** The state reported *)

Context `{!HeightLaws}.

(** The first height at which the transaction could no longer be mined, if any. *)
Definition dead_from (tx : Transaction) : option Z :=
  if (expiry_height tx =? 0) || tx_is_coinbase tx then None else Some (expiry_height tx + 1).

Lemma is_expired_tx_spec tx h :
  is_expired_tx tx h = match dead_from tx with Some d => d <=? h | None => false end.
Proof.
  unfold is_expired_tx, dead_from. destruct (_ || _); [done|].
  destruct (Z.ltb_spec (expiry_height tx) h), (Z.leb_spec (expiry_height tx + 1) h); (done || lia).
Qed.

(** The state reported: mined with the block and its confirmations, or
    unmined with -1 confirmations and expired, expiring soon or waiting
    exactly by the distance of the expiry height from the tip; a coinbase
    never expires. *)
Theorem fetch_correct wallet view tx chain_height i :
  0 <= chain_height -> chain_height + 4 <= u32_max ->
  fetch wallet view tx chain_height = Ret i ->
  info_expiryheight i = expiry_height tx /\
  info_generated i = (if tx_is_coinbase tx then Some true else None) /\
  exists mined, get_tx_height wallet (tx_txid tx) = Ret mined /\
  match mined with
  | Some h =>
      info_status i = "mined"%string /\
      (0 <= h <= chain_height -> info_confirmations i = chain_height - h + 1) /\
      exists block, get_block view h = Ret (Some block) /\
        info_blockhash i = Some (hash_to_string (header_hash (block_header block))) /\
        info_blocktime i = Some (header_time (block_header block)) /\
        forall k, info_blockindex i = Some k -> exists n ctx, k = Z.of_nat n /\ vtx block !! n = Some ctx /\
          tx_txid ctx = tx_txid tx /\
          forall n' ctx', (n' < n)%nat -> vtx block !! n' = Some ctx' -> tx_txid ctx' <> tx_txid tx
  | None =>
      info_confirmations i = -1 /\
      info_blockhash i = None /\ info_blockindex i = None /\ info_blocktime i = None /\
      match dead_from tx with
      | Some d =>
          (info_status i = "expired"%string /\ d <= chain_height) \/
          (info_status i = "expiringsoon"%string /\ chain_height < d <= chain_height + 4) \/
          (info_status i = "waiting"%string /\ chain_height + 4 < d)
      | None => info_status i = "waiting"%string
      end
  end.
Proof.
  intros Hc Hmax. unfold fetch. intros (mined & Hm & Hr)%bind_Ret.
  apply bind_Ret in Hr as ([status [[bh bi] bt]] & Hst & [= <-]). cbn.
  split; [done|]. split; [done|]. exists mined. split; [done|]. destruct mined as [h|].
  - apply bind_Ret in Hst as (b & Hb%map_err_Ret & (block & ->%ok_or_Ret & [= <- <- <- <-])%bind_Ret).
    split; [done|]. split.
    + intros Hh. rewrite height_add_spec, height_diff_spec by lia. lia.
    + exists block. split; [done|]. split; [done|]. split; [done|]. intros k Hk.
      destruct (list_find _ (vtx block)) as [[n ctx]|] eqn:Hf; [|done]. injection Hk as <-.
      apply list_find_Some in Hf as (Hn & Heq & Hfirst). exists n, ctx. split_and!; try done.
      intros n' ctx' Hlt Hn'. by eapply Hfirst.
  - injection Hst as <- <- <- <-. do 4 (split; [done|]).
    unfold is_expiring_soon_tx, TX_EXPIRING_SOON_THRESHOLD. rewrite !is_expired_tx_spec.
    rewrite !height_add_spec by (rewrite ?height_add_spec; lia).
    destruct (dead_from tx) as [d|]; [|done].
    destruct (Z.leb_spec d chain_height); [by left|right].
    destruct (Z.leb_spec d (chain_height + 1 + 3)); [left|right]; (split; [done|lia]).
Qed.

(** Viewing a transaction whose first transparent input has a previous
    transaction or output that the chain backend does not return panics. *)
Theorem missing_prevout_panics wallet view ids tx b prevout rest :
  transparent_bundle tx = Some b -> is_coinbase b = false -> vin b = prevout :: rest ->
  transparent_spends wallet view ids tx <> Panic ->
  exists prev_tx o,
    get_transaction view prevout.1 = Ret (Some prev_tx) /\
    (b ← transparent_bundle (inner prev_tx); vout b !! Z.to_nat prevout.2) = Some o.
Proof.
  intros Hb Hc Hv. unfold transparent_spends. rewrite Hb, Hc, Hv. cbn [for_indexed].
  change (assert (0 <? u16_max)) with (Ret (E := ErrorObject) tt). cbn [mbind outcome_bind].
  intros Hn. assert (transparent_spend wallet view ids 0 prevout <> Panic) as Hp
    by (intros Heq; apply Hn; by rewrite Heq).
  clear Hn. unfold transparent_spend in Hp.
  destruct (get_transaction view prevout.1) as [[prev|]| |]; try (exfalso; by apply Hp).
  exists prev. destruct (b ← transparent_bundle (inner prev); vout b !! Z.to_nat prevout.2) as [o|];
    [by exists o|exfalso; by apply Hp].
Qed.

(** An error of the metadata query attributes a transparent input to the account
    asked about, while an output would not be. *)
Lemma input_account_on_error wallet account ids a e :
  get_transparent_address_metadata wallet account a = Err e ->
  input_account wallet (account :: ids) a = Some account /\
  output_account wallet [account] a = None.
Proof. unfold input_account, output_account. cbn. by intros ->. Qed.
End view_transaction.

(** ** An instance

    Transaction 1 spends output 0 of transaction 2 and a Sapling note; it pays a
    transparent address and three Sapling outputs, one to the wallet, one sent by
    it, one that no key opens. *)
Section example.
#[local] Instance toy_chain : ChainTypes.
Proof.
  refine {| BlockHash := Z; BlockHeader := Z; Block := Z; Transaction := Z; TxId := Z;
    ChainState := Z; header_hash h := h; claimed_height h := h; block_header h := h |}.
Defined.

#[local] Instance toy_params : ParamOps := @Build_ParamOps
  unit Z Z Z Z _ _ (fun _ => None) (fun _ => None) (fun s => Err "malformed"%string) (fun b => 0) (fun s => None)
  (fun s => Some []) (fun z => None) (fun n => "3"%string) (fun c => "error"%string)
  (fun w => Ret []) (fun w => Ret [1]) (fun w i => Ret (Some i)) (fun a => None).

#[local] Instance toy_heights : HeightOps :=
  {| height_add a b := Z.min u32_max (a + b); height_sub a b := Z.max 0 (a - b) |}.

#[local] Instance toy_heights_laws : HeightLaws.
Proof. split; unfold height_add, height_sub; cbn; intros; lia. Qed.

Definition toy_bundle (tx : Z) : TransparentBundle Z Z :=
  if tx =? 1 then {| vin := [(2, 0)]; vout := [{| recipient_address := Some 8; txout_value := 70 |}]; is_coinbase := false |}
  else {| vin := []; vout := [{| recipient_address := Some 9; txout_value := 90 |}]; is_coinbase := true |}.

#[local] Instance toy_view : ViewOps.
Proof.
  refine {|
    view_decimals := {| JsonZec := Z; decimal_of z := z; decimal_div := Z.div; trunc_with_scale z _ := z |};
    TransparentAddress := Z; Nullifier := Z; Ufvk := unit; Ovk := Z; SaplingIvk := Z; OrchardIvk := Z;
    SaplingOutput := Z; Action := Z; SaplingAddress := Z; OrchardAddress := Z; MemoBytes := unit;
    txid_from_bytes _ := 1; txid_to_string _ := "txid"%string; tx_txid t := t; version_header _ := 5;
    expiry_height _ := 120; transparent_bundle t := Some (toy_bundle t);
    sapling_bundle t := Some ([7], [100; 200; 300]); orchard_bundle _ := None; ironwood_bundle _ := None;
    action_nullifier a := a; fee_paid _ _ := Ret (Some 10); vtx h := [2; 1]; hash_to_string _ := "hash"%string;
    header_time h := h; height_diff a b := Z.max 0 (a - b); ovks_for_shielding _ := None;
    sapling_keys _ := Some (fun s => (match s with External => 10 | Internal => 11 end, 20));
    orchard_keys _ := None;
    sapling_decrypt ivk o := if (ivk =? 11) && (o =? 100) then Some (1000, 5, tt) else None;
    sapling_recover ovk o := if o =? 200 then Some (2000, 6, tt) else None;
    orchard_decrypt _ _ _ := None; orchard_recover _ _ _ := None;
    uuid_to_string _ := "uuid"%string; encode_transparent _ _ := "t1"%string; encode_sapling _ _ := "zs1"%string;
    encode_orchard _ _ := None; memo_hex _ := "f6"%string; memo_text _ := None;
    chain_height_unknown := "unknown"%string;
    zatoshis_const_from_u64 v := if (0 <=? v) && (v <=? MAX_MONEY) then Some v else None;
    zat_balance_from_i64 v := Ret v;
    wallet_get_transaction _ t := Ret (if t =? 1 then Some 1 else None);
    get_unified_full_viewing_keys _ := Ret [(1, tt)];
    get_transparent_address_metadata _ _ a := Ret (if a =? 9 then Some (Some External) else None);
    get_tx_height _ t := Ret (if t =? 1 then None else Some 100); query_error _ _ := None;
    received_notes _ p := match p with
                          | Sapling => [{| nf := 7; row_txid := 2; row_index := 0; row_account := 1;
                                           row_address := None; row_value := 3000 |}]
                          | _ => [] end;
    sent_notes _ := []; v_transactions _ _ := [(1, -5)] |}.
Defined.

#[local] Instance toy_view_laws : ViewLaws.
Proof. split; cbn; intros; [done|lia]. Qed.

#[local] Instance toy_chain_view : ChainView unit := {|
  tip _ := Ret {| height := 118; hash := 118 |};
  find_fork_point _ _ := Ret None; tree_state_as_of _ _ := Ret None; get_block_header _ _ := Ret None;
  get_block _ h := Ret (Some h);
  stream_blocks_to_tip _ _ := Ret (Stream [] None); stream_blocks _ _ := Ret (Stream [] None);
  get_mempool_stream _ := Ret None;
  get_transaction _ t := Ret (if t =? 2 then Some {| inner := 2; raw := []; block_hash := None; mined_height := None;
                                                     block_time := None |} else None);
  get_transaction_status _ _ := Ret TxidNotRecognized |}.

Definition toy_result : RpcResult ViewedTransaction := call tt (Ret tt) "01".

(** Pool, index, account, outgoing, internal. *)
Definition toy_outputs (t : ViewedTransaction) :=
  map (fun o => (pool o, t_out o, output o, account_uuid o, outgoing o, wallet_internal o)) (outputs t).

Lemma z_viewtransaction_correct_witness :
  exists t, toy_result = Ret t /\
  toy_outputs t =
    [("transparent"%string, Some 0, None, None, Some true, false);
     ("sapling"%string, None, Some 0, Some "uuid"%string, Some false, true);
     ("sapling"%string, None, Some 1, None, Some true, false)] /\
  exists x out, out ∈ outputs t /\ output_at 1 x /\
    describes tt 1 (keys_of [(1, tt)]) [1] (funded_by (spends t)) x out.
Proof.
  assert (is_ret toy_result = true) as Hok by (vm_compute; reflexivity).
  assert (match toy_result with Ret t => toy_outputs t | _ => [] end =
    [("transparent"%string, Some 0, None, None, Some true, false);
     ("sapling"%string, None, Some 0, Some "uuid"%string, Some false, true);
     ("sapling"%string, None, Some 1, None, Some true, false)]) as Hout by (vm_compute; reflexivity).
  destruct toy_result as [t|e|] eqn:Hr; [|discriminate Hok..].
  exists t. split; [reflexivity|]. split; [exact Hout|].
  destruct (z_viewtransaction_correct (H0:=toy_params) tt (Ret tt) "01" _ Hr)
    as (bytes & view & tx & ids & ufvks & _ & _ & Htx & Hids & Huf & _ & Ho & _).
  injection Htx as <-. injection Hids as <-. injection Huf as <-.
  destruct (Ho (TransparentAt (H1:=toy_view) 0 {| recipient_address := Some 8; txout_value := 70 |})) as (out & Hin & Hd).
  - eexists. split; reflexivity.
  - exact I.
  - eexists _, out. split; [exact Hin|]. split; [|exact Hd]. eexists. split; reflexivity.
Defined.

Definition toy_fetch : outcome string WalletTxInfo := fetch tt tt 1 118.

Lemma fetch_correct_witness :
  exists i, toy_fetch = Ret i /\ info_status i = "expiringsoon"%string /\
            info_expiryheight i = 120 /\ 118 < 121 <= 122.
Proof.
  assert (match toy_fetch with Ret i => info_status i | _ => ""%string end = "expiringsoon"%string) as Hs
    by (vm_compute; reflexivity).
  destruct (toy_fetch) as [i|e|] eqn:Hf; [|discriminate Hs..].
  exists i. split; [reflexivity|]. split; [exact Hs|].
  destruct (fetch_correct (H:=toy_chain) (H0:=toy_params) tt tt 1 118 i ltac:(lia) ltac:(vm_compute; discriminate) Hf) as (He & _ & _).
  split; [exact He|lia].
Defined.

(** The chain has transaction 2, which transaction 1 spends. *)
Lemma missing_prevout_panics_witness :
  exists prev_tx o, get_transaction (tt : unit) 2 = Ret (Some prev_tx) /\
    (b ← transparent_bundle (inner prev_tx); vout b !! Z.to_nat 0) = Some o.
Proof.
  apply (missing_prevout_panics (H:=toy_chain) (H0:=toy_params) (H1:=toy_view) tt tt [] 1 (toy_bundle 1) (2, 0) []);
    [reflexivity..|].
  intros Hp. apply (f_equal is_panic) in Hp. vm_compute in Hp. discriminate Hp.
Defined.
End example.
