(* ===== verification/Balances.v ===== *)
(** Balances and note counts
    (src/zallet/src/components/json_rpc/methods/get_balances.rs,
    z_get_total_balance.rs and get_notes_count.rs): the wallet summary as
    z_getbalances and z_gettotalbalance report it, and z_getnotescount.

    The summary is what zcash_client_backend computes; its sums of amounts are
    bounded by the money supply, which [zat_sum] keeps. *)

From S2P Require Import Prelude Rpc Chain Amount Params.

(** [zcash_client_backend::data_api::Balance] and [AccountBalance]. *)
Record PoolBalance := {
  spendable_value : Z;
  change_pending_confirmation : Z;
  value_pending_spendability : Z;
  uneconomic_value : Z;
  pool_total : Z
}.

Record AccountSummary := {
  sapling_balance : PoolBalance;
  orchard_balance : PoolBalance;
  unshielded_balance : PoolBalance;
  (** The sums over the pools. *)
  account_balance : PoolBalance
}.

Class BalanceOps `{ParamOps} := {
  #[global] balance_decimals :: DecimalOps;
  Policy : Type;
  new_symmetrical : Z -> bool -> Policy;
  (** [Zatoshis + Zatoshis]. *)
  zat_sum : Z -> Z -> option Z;
  json_zec_to_string : JsonZec -> string;
  uuid_to_string : AccountUuid -> string;
  get_wallet_summary : Wallet -> Policy -> outcome string (option (list (AccountUuid * AccountSummary)));
  chain_height : Wallet -> outcome string (option Z);
  (** The Sapling and the Orchard note counts of [get_account_metadata]. *)
  get_note_counts : Wallet -> AccountUuid -> Z -> outcome string (option Z * option Z)
}.

Class BalanceLaws `{BalanceOps} := {
  zat_sum_spec : forall a b, 0 <= a <= MAX_MONEY -> 0 <= b <= MAX_MONEY ->
    zat_sum a b = if a + b <=? MAX_MONEY then Some (a + b) else None
}.

(** What the crate keeps of a balance: amounts in range, their total too. *)
Definition balance_wf (b : PoolBalance) : Prop :=
  0 <= spendable_value b /\ 0 <= change_pending_confirmation b /\ 0 <= value_pending_spendability b /\
  0 <= uneconomic_value b <= MAX_MONEY /\
  pool_total b = spendable_value b + change_pending_confirmation b + value_pending_spendability b /\
  pool_total b <= MAX_MONEY.

Definition summary_wf (a : AccountSummary) : Prop :=
  balance_wf (sapling_balance a) /\ balance_wf (orchard_balance a) /\ balance_wf (unshielded_balance a) /\
  balance_wf (account_balance a).

Section balances.
Context `{BalanceOps} `{HeightOps}.

(** The [ConfirmationsPolicy] of both methods. *)
Definition confirmations_policy (minconf : option Z) : Policy :=
  match minconf with
  | Some c => if c =? 0 then new_symmetrical 1 true else new_symmetrical c false
  | None => new_symmetrical 1 false
  end.

(** ** z_getbalances *)

(** [Value] is the number of zatoshis. *)
Record Balance := {
  spendable : Z;
  locked : option Z;
  pending : option Z;
  dust : option Z
}.

Record TransparentBalance := {
  regular : option Balance;
  coinbase : option Balance
}.

Record AccountBalance := {
  account_uuid : string;
  transparent : option TransparentBalance;
  transparent_watchonly : list (string * TransparentBalance);
  sapling : option Balance;
  orchard : option Balance;
  total : Balance
}.

Record Balances := {
  accounts : list AccountBalance;
  legacy_transparent : option TransparentBalance;
  legacy_transparent_watchonly : option TransparentBalance
}.

Definition opt_value (value : Z) : option Z := if value =? 0 then None else Some value.

Definition balance (spendable pending dust : Z) : Balance := {|
  spendable := spendable; locked := None; pending := opt_value pending; dust := opt_value dust |}.

Definition opt_balance (spendable pending dust : Z) : option Balance :=
  if (spendable =? 0) && (pending =? 0) && (dust =? 0) then None
  else Some {| spendable := spendable; locked := None; pending := opt_value pending; dust := opt_value dust |}.

Definition corrupt : ErrorObject :=
  with_static Database "Wallet database is corrupt: storing more than MAX_MONEY".

Definition pending_value (b : PoolBalance) : RpcResult Z :=
  ok_or (zat_sum (change_pending_confirmation b) (value_pending_spendability b)) corrupt.

Definition balance_from (b : PoolBalance) : RpcResult Balance :=
  p ← pending_value b; Ret (balance (spendable_value b) p (uneconomic_value b)).

Definition opt_balance_from (b : PoolBalance) : RpcResult (option Balance) :=
  p ← pending_value b; Ret (opt_balance (spendable_value b) p (uneconomic_value b)).

Definition opt_transparent_balance (b : PoolBalance) : RpcResult (option TransparentBalance) :=
  if (pool_total b =? 0) && (uneconomic_value b =? 0) then Ret None
  else r ← opt_balance_from b; Ret (Some {| regular := r; coinbase := None |}).

Definition account_entry (a : AccountUuid * AccountSummary) : RpcResult AccountBalance :=
  t ← opt_transparent_balance (unshielded_balance a.2);
  s ← opt_balance_from (sapling_balance a.2);
  o ← opt_balance_from (orchard_balance a.2);
  tot ← balance_from (account_balance a.2);
  Ret {| account_uuid := uuid_to_string a.1; transparent := t; transparent_watchonly := [];
         sapling := s; orchard := o; total := tot |}.

Definition get_balances (wallet : Wallet) (minconf : option Z) : RpcResult Balances :=
  s ← map_err database_error (get_wallet_summary wallet (confirmations_policy minconf));
  summary ← ok_or s (with_static InWarmup "Wallet sync required");
  accounts ← traverse account_entry summary;
  Ret {| accounts := accounts; legacy_transparent := None; legacy_transparent_watchonly := None |}.

(** ** z_gettotalbalance *)

Record TotalBalance := {
  total_transparent : string;
  total_private : string;
  total_all : string
}.

(** [Option<Zatoshis> + Zatoshis]. *)
Definition add_to (a : option Z) (b : Z) : option Z := a ← a; zat_sum a b.

Definition add_account (acc : option Z * option Z) (a : AccountUuid * AccountSummary) : option Z * option Z :=
  (add_to acc.1 (pool_total (unshielded_balance a.2)),
   add_to (add_to acc.2 (pool_total (sapling_balance a.2))) (pool_total (orchard_balance a.2))).

Definition zec_string (z : Z) : string := json_zec_to_string (value_from_zatoshis z).

Definition z_get_total_balance (wallet : Wallet) (minconf : option Z) (include_watchonly : option bool) :
    RpcResult TotalBalance :=
  _ ← match include_watchonly with
      | Some true => Ret tt
      | _ => Err (with_message Misc (Text "include_watchonly argument must be set to true (for now)"))
      end;
  s ← map_err database_error (get_wallet_summary wallet (confirmations_policy minconf));
  let '(transparent, private) :=
    match s with
    | Some summary => foldl add_account (Some 0, Some 0) summary
    | None => (Some 0, Some 0)
    end in
  ok_or (t ← transparent; p ← private; total ← zat_sum t p;
         Some {| total_transparent := zec_string t; total_private := zec_string p; total_all := zec_string total |})
    (with_static Rpc.Wallet "balance overflow").

(** ** z_getnotescount *)

Record GetNotesCount := { sprout : Z; sapling_notes : Z; orchard_notes : Z }.

(** [sum += count as u32], the count being a [usize]. *)
Definition add_count (sum : Z) (count : option Z) : RpcResult Z :=
  match count with
  | Some c => u32 (sum + c mod (u32_max + 1))
  | None => Ret sum
  end.

Definition count_account (wallet : Wallet) (target_height : Z) (s : Z * Z) (id : AccountUuid) : RpcResult (Z * Z) :=
  m ← map_err database_error (get_note_counts wallet id target_height);
  sapling ← add_count s.1 m.1;
  orchard ← add_count s.2 m.2;
  Ret (sapling, orchard).

Definition get_notes_count (wallet : Wallet) (minconf : option Z) (as_of_height : option Z) :
    RpcResult GetNotesCount :=
  as_of_height ← parse_as_of_height as_of_height;
  minconf ← parse_minconf minconf 1 as_of_height;
  h ← map_err database_error (chain_height wallet);
  chain_height ← ok_or h (with_static InWarmup "Wallet sync required");
  let target_height := height_sub (height_add (default chain_height as_of_height) 1) minconf in
  ids ← map_err database_error (get_account_ids wallet);
  '(sapling, orchard) ← foldM (count_account wallet target_height) (0, 0) ids;
  Ret {| sprout := 0; sapling_notes := sapling; orchard_notes := orchard |}.

(** ** Lemmas *)

Context `{!BalanceLaws}.

(** What an entry says: spendable, pending and dust amounts, omitted meaning zero. *)
Definition amounts (b : option Balance) : Z * Z * Z :=
  match b with
  | Some b => (spendable b, default 0 (pending b), default 0 (dust b))
  | None => (0, 0, 0)
  end.

Definition amounts_of (b : PoolBalance) : Z * Z * Z :=
  (spendable_value b, change_pending_confirmation b + value_pending_spendability b, uneconomic_value b).

(** Amounts that are zero are omitted, and so is a balance of zeros. *)
Definition canonical (b : option Balance) : Prop :=
  (b = None <-> amounts b = (0, 0, 0)) /\
  forall b', b = Some b' -> locked b' = None /\ pending b' <> Some 0 /\ dust b' <> Some 0.

Lemma default_opt_value v : default 0 (opt_value v) = v.
Proof. unfold opt_value. by destruct (Z.eqb_spec v 0). Qed.

Lemma opt_value_nonzero v : opt_value v <> Some 0.
Proof. unfold opt_value. destruct (Z.eqb_spec v 0); congruence. Qed.

Lemma pending_value_spec b :
  balance_wf b -> pending_value b = Ret (change_pending_confirmation b + value_pending_spendability b).
Proof.
  intros (? & ? & ? & ? & ? & ?). unfold pending_value. rewrite zat_sum_spec by lia.
  by rewrite (proj2 (Z.leb_le _ _)) by lia.
Qed.

Lemma opt_balance_spec s p d :
  amounts (opt_balance s p d) = (s, p, d) /\ canonical (opt_balance s p d).
Proof.
  unfold opt_balance, canonical.
  destruct (Z.eqb_spec s 0), (Z.eqb_spec p 0), (Z.eqb_spec d 0); subst; cbn [andb amounts spendable pending dust];
    rewrite ?default_opt_value; (split; [done|]); (split; [split; congruence|]); intros b'; try done;
    intros [= <-]; (split; [done|]); split; exact (opt_value_nonzero _) || apply opt_value_nonzero.
Qed.

Lemma opt_balance_from_spec b :
  balance_wf b ->
  exists o, opt_balance_from b = Ret o /\ amounts o = amounts_of b /\ canonical o.
Proof.
  intros Hb. unfold opt_balance_from. rewrite pending_value_spec by done. eexists. split; [reflexivity|].
  apply opt_balance_spec.
Qed.

Lemma opt_transparent_balance_spec b :
  balance_wf b ->
  exists o, opt_transparent_balance b = Ret o /\
    amounts (o ≫= regular) = amounts_of b /\ canonical (o ≫= regular) /\
    (o = None <-> o ≫= regular = None) /\ forall t, o = Some t -> coinbase t = None.
Proof.
  intros Hb. unfold opt_transparent_balance.
  destruct (opt_balance_from_spec b Hb) as (r & Hr & Ha & Hc). rewrite Hr. cbn [mbind outcome_bind].
  destruct Hb as (? & ? & ? & ? & Htot & ?).
  destruct (Z.eqb_spec (pool_total b) 0), (Z.eqb_spec (uneconomic_value b) 0); cbn [andb].
  1: { exists None. split; [done|]. cbn. unfold amounts_of.
       split; [repeat f_equal; lia|]. by split_and!. }
  all: eexists; split; [reflexivity|]; cbn; split; [done|]; split; [done|]; split; [|by intros t [= <-]].
  all: split; [done|]; intros ->; unfold amounts_of in Ha; cbn in Ha; injection Ha; lia.
Qed.

(** What one account's entry says of its summary. *)
Definition entry_spec (a : AccountUuid * AccountSummary) (e : AccountBalance) : Prop :=
  account_uuid e = uuid_to_string a.1 /\ transparent_watchonly e = [] /\
  amounts (sapling e) = amounts_of (sapling_balance a.2) /\ canonical (sapling e) /\
  amounts (orchard e) = amounts_of (orchard_balance a.2) /\ canonical (orchard e) /\
  amounts (transparent e ≫= regular) = amounts_of (unshielded_balance a.2) /\
  canonical (transparent e ≫= regular) /\
  (transparent e = None <-> transparent e ≫= regular = None) /\
  (forall t, transparent e = Some t -> coinbase t = None) /\
  amounts (Some (total e)) = amounts_of (account_balance a.2).

Lemma account_entry_spec a : summary_wf a.2 -> exists e, account_entry a = Ret e /\ entry_spec a e.
Proof.
  intros (Hs & Ho & Ht & Ha). unfold account_entry.
  destruct (opt_transparent_balance_spec _ Ht) as (t & -> & ? & ? & ? & ?). cbn [mbind outcome_bind].
  destruct (opt_balance_from_spec _ Hs) as (s & -> & ? & ?). cbn [mbind outcome_bind].
  destruct (opt_balance_from_spec _ Ho) as (o & -> & ? & ?). cbn [mbind outcome_bind].
  unfold balance_from. rewrite pending_value_spec by done. cbn [mbind outcome_bind].
  eexists. split; [reflexivity|]. unfold entry_spec. cbn [account_uuid transparent_watchonly sapling orchard transparent total].
  split_and!; try done. cbn [amounts spendable pending dust balance]. by rewrite !default_opt_value.
Qed.

(** Every account is listed with exactly its spendable, pending and dust
    amounts in each pool and in total, zero amounts and empty pools being
    omitted; without a summary the wallet is reported as syncing. *)
Theorem get_balances_correct wallet minconf :
  (forall p summary, get_wallet_summary wallet p = Ret (Some summary) ->
     Forall (fun a => summary_wf a.2) summary) ->
  match get_wallet_summary wallet (confirmations_policy minconf) with
  | Ret (Some summary) => exists b, get_balances wallet minconf = Ret b /\
      Forall2 entry_spec summary (accounts b) /\
      legacy_transparent b = None /\ legacy_transparent_watchonly b = None
  | Ret None => get_balances wallet minconf = Err (with_static InWarmup "Wallet sync required")
  | Err e => get_balances wallet minconf = Err (database_error e)
  | Panic => get_balances wallet minconf = Panic
  end.
Proof.
  intros Hwf. unfold get_balances. specialize (Hwf (confirmations_policy minconf)).
  destruct (get_wallet_summary _ _) as [[summary|]|e|]; try done. cbn [map_err ok_or mbind outcome_bind].
  specialize (Hwf summary eq_refl).
  assert (exists es, traverse account_entry summary = Ret es /\ Forall2 entry_spec summary es) as (es & -> & Hes).
  { clear minconf. induction Hwf as [|a l Ha _ (es & Hes & HF)]; [by exists []|].
    destruct (account_entry_spec a Ha) as (e & He & Hs). exists (e :: es). cbn. rewrite He. cbn. rewrite Hes. cbn.
    split; [done|by constructor]. }
  cbn [mbind outcome_bind]. eexists. split; [reflexivity|]. by split_and!.
Qed.

(** ** Totals *)

Definition sum (f : AccountSummary -> Z) (l : list (AccountUuid * AccountSummary)) : Z :=
  foldr (fun a n => f a.2 + n) 0 l.

(** A sum of amounts that stops at the first that exceeds the supply. *)
Definition capped (n : Z) : option Z := if n <=? MAX_MONEY then Some n else None.

Lemma add_to_capped n b :
  0 <= n -> 0 <= b <= MAX_MONEY -> add_to (capped n) b = capped (n + b).
Proof.
  intros Hn Hb. unfold add_to, capped. destruct (Z.leb_spec n MAX_MONEY); cbn [mbind option_bind].
  - rewrite zat_sum_spec by lia. done.
  - destruct (Z.leb_spec (n + b) MAX_MONEY); [lia|done].
Qed.

Lemma fold_capped t p l :
  0 <= t -> 0 <= p -> Forall (fun a => summary_wf a.2) l ->
  foldl add_account (capped t, capped p) l =
  (capped (t + sum (fun a => pool_total (unshielded_balance a)) l),
   capped (p + sum (fun a => pool_total (sapling_balance a) + pool_total (orchard_balance a)) l)).
Proof.
  intros Ht Hp Hl. revert t p Ht Hp. induction Hl as [|a l (Hs & Ho & Hu & _) _ IH]; intros t p Ht Hp; cbn [foldl sum foldr].
  - by rewrite !Z.add_0_r.
  - unfold balance_wf in *. unfold add_account at 2. cbn [fst snd]. rewrite !add_to_capped by lia.
    rewrite IH by lia. unfold sum. f_equal; f_equal; lia.
Qed.

Lemma sum_nonneg f l : Forall (fun a => 0 <= f a.2) l -> 0 <= sum f l.
Proof. induction 1; cbn; [lia|]. unfold sum in *. lia. Qed.

(** C38. Unless include_watchonly is true the method refuses, before it reads
    the wallet; an error of the wallet summary is reported as a database
    error; without a summary all totals are zero; and with one (whose balances
    are in the ranges that the wallet crate documents) the transparent and the
    private total are the exact sums, over all accounts, of the totals of the
    unshielded and of the Sapling and Orchard balances (which leave uneconomic
    outputs out), if these do not exceed the money supply together, and a
    balance overflow is reported exactly if they do. *)
Theorem z_get_total_balance_correct wallet minconf include_watchonly :
  (forall summary, get_wallet_summary wallet (confirmations_policy minconf) = Ret (Some summary) ->
     Forall (fun a => summary_wf a.2) summary) ->
  let r := z_get_total_balance wallet minconf include_watchonly in
  let totals t p := {| total_transparent := zec_string t; total_private := zec_string p; total_all := zec_string (t + p) |} in
  (include_watchonly <> Some true ->
     r = Err (with_message Misc (Text "include_watchonly argument must be set to true (for now)"))) /\
  (include_watchonly = Some true ->
   (forall e, get_wallet_summary wallet (confirmations_policy minconf) = Err e -> r = Err (database_error e)) /\
   (get_wallet_summary wallet (confirmations_policy minconf) = Panic -> r = Panic) /\
   (get_wallet_summary wallet (confirmations_policy minconf) = Ret None -> r = Ret (totals 0 0)) /\
   forall summary, get_wallet_summary wallet (confirmations_policy minconf) = Ret (Some summary) ->
     let t := sum (fun a => pool_total (unshielded_balance a)) summary in
     let p := sum (fun a => pool_total (sapling_balance a) + pool_total (orchard_balance a)) summary in
     (t + p <= MAX_MONEY -> r = Ret (totals t p)) /\
     (MAX_MONEY < t + p -> r = Err (with_static Rpc.Wallet "balance overflow"))).
Proof.
  intros Hwf r totals. unfold r, z_get_total_balance. split.
  { intros Hne. by destruct include_watchonly as [[]|]. }
  intros ->. cbn [mbind outcome_bind]. split_and!.
  - by intros e ->.
  - by intros ->.
  - intros ->. cbn [map_err mbind outcome_bind option_bind]. rewrite zat_sum_spec by (unfold MAX_MONEY, COIN; lia). done.
  - intros summary Hs. specialize (Hwf summary Hs). rewrite Hs. cbn [map_err mbind outcome_bind].
    set (t := sum _ summary). set (p := sum _ summary). cbv zeta.
    assert (0 <= t) as Ht by (apply sum_nonneg; eapply Forall_impl; [exact Hwf|]; intros a (_ & _ & Hu & _);
      unfold balance_wf in Hu; lia).
    assert (0 <= p) as Hp by (apply sum_nonneg; eapply Forall_impl; [exact Hwf|]; intros a (Hsap & Horch & _);
      unfold balance_wf in *; lia).
    change (Some 0, Some 0) with (capped 0, capped 0). rewrite fold_capped by (done || lia). rewrite !Z.add_0_l.
    fold t p. unfold capped. destruct (Z.leb_spec t MAX_MONEY), (Z.leb_spec p MAX_MONEY); cbn [mbind option_bind];
      [rewrite zat_sum_spec by lia; destruct (Z.leb_spec (t + p) MAX_MONEY)|..]; (split; [done || lia|done || lia]).
Qed.

(** ** Note counts *)

Definition counted (count : option Z) : Z := match count with Some c => c | None => 0 end.

(** z_getnotescount adds up the notes of all accounts at the height asked for,
    counting nothing for a pool without a count; there are no Sprout notes. *)
Theorem get_notes_count_correct wallet minconf as_of_height n :
  get_notes_count wallet minconf as_of_height = Ret n ->
  exists as_of mc tip ids counts,
    parse_as_of_height as_of_height = Ret as_of /\ parse_minconf minconf 1 as_of = Ret mc /\
    chain_height wallet = Ret (Some tip) /\ get_account_ids wallet = Ret ids /\
    Forall2 (fun id c => get_note_counts wallet id (height_sub (height_add (default tip as_of) 1) mc) = Ret c)
      ids counts /\
    sprout n = 0 /\
    (Forall (fun c => 0 <= counted c.1 <= u32_max /\ 0 <= counted c.2 <= u32_max) counts ->
     sapling_notes n = foldr (fun c m => counted c.1 + m) 0 counts /\
     orchard_notes n = foldr (fun c m => counted c.2 + m) 0 counts).
Proof.
  unfold get_notes_count. intros (as_of & Ha & (mc & Hm & (h & Hh%map_err_Ret & (tip & ->%ok_or_Ret & Hr)%bind_Ret)
    %bind_Ret)%bind_Ret)%bind_Ret. apply bind_Ret in Hr as (ids & Hi%map_err_Ret & Hr).
  apply bind_Ret in Hr as ([s o] & Hf & [= <-]). cbn [sprout sapling_notes orchard_notes].
  set (target := height_sub _ _) in *.
  assert (forall s0 o0 s o, foldM (count_account wallet target) (s0, o0) ids = Ret (s, o) ->
    exists counts, Forall2 (fun id c => get_note_counts wallet id target = Ret c) ids counts /\
      (Forall (fun c => 0 <= counted c.1 <= u32_max /\ 0 <= counted c.2 <= u32_max) counts ->
       s = s0 + foldr (fun c m => counted c.1 + m) 0 counts /\
       o = o0 + foldr (fun c m => counted c.2 + m) 0 counts)) as Hfold.
  { clear. induction ids as [|id ids IH]; intros s0 o0 s o; cbn [foldM].
    - intros [= <- <-]. exists []. split; [constructor|]. intros _. cbn. lia.
    - intros ([s1 o1] & (c & Hc%map_err_Ret & (s1' & Hs & (o1' & Ho & [= <- <-])%bind_Ret)%bind_Ret)%bind_Ret
        & Hf)%bind_Ret.
      destruct (IH _ _ _ _ Hf) as (counts & HF & Hsum). exists (c :: counts). split; [by constructor|].
      intros [[Hc1 Hc2] Hcs]%Forall_cons. destruct (Hsum Hcs) as [-> ->]. cbn [foldr].
      assert (forall x cnt y, add_count x cnt = Ret y -> 0 <= counted cnt <= u32_max -> y = x + counted cnt) as Hadd.
      { intros x [cnt|] y; cbn [add_count counted]; [|intros [= <-]; lia].
        unfold u32. destruct (in_u32 _); [|done]. intros [= <-] Hb. rewrite Z.mod_small; lia. }
      apply Hadd in Hs; [|done]. apply Hadd in Ho; [|done]. cbn [fst snd] in *. lia. }
  destruct (Hfold 0 0 s o Hf) as (counts & HF & Hsum). exists as_of, mc, tip, ids, counts.
  do 6 (split; [done|]). intros Hc. destruct (Hsum Hc). lia.
Qed.
End balances.

(** ** An instance: two accounts, one without funds *)

Definition toy_balance (s c v u : Z) : PoolBalance := {|
  spendable_value := s; change_pending_confirmation := c; value_pending_spendability := v; uneconomic_value := u;
  pool_total := s + c + v |}.

Definition toy_summary : list (Z * AccountSummary) :=
  [(1, {| sapling_balance := toy_balance 100 5 6 1; orchard_balance := toy_balance 0 0 0 0;
          unshielded_balance := toy_balance 7 0 0 0; account_balance := toy_balance 107 5 6 1 |});
   (2, {| sapling_balance := toy_balance 0 0 0 0; orchard_balance := toy_balance 0 0 0 0;
          unshielded_balance := toy_balance 0 0 0 0; account_balance := toy_balance 0 0 0 0 |})].

Definition toy_balances : @BalanceOps example_params := @Build_BalanceOps example_params
  {| JsonZec := Z; decimal_of z := z; decimal_div := Z.div; trunc_with_scale z _ := z |}
  (Z * bool) (fun n b => (n, b)) (fun a b => if a + b <=? MAX_MONEY then Some (a + b) else None)
  (fun z => if z =? 0 then "0"%string else "1"%string) (fun _ => "uuid"%string)
  (fun _ _ => Ret (Some toy_summary)) (fun _ => Ret (Some 100)) (fun _ _ _ => Ret (Some 3, None)).

#[local] Existing Instances example_params toy_balances.

#[local] Instance toy_balance_laws : BalanceLaws.
Proof. split. done. Qed.

#[local] Instance toy_balance_heights : HeightOps :=
  {| height_add a b := Z.min u32_max (a + b); height_sub a b := Z.max 0 (a - b) |}.

Lemma toy_summary_wf : Forall (fun a => summary_wf a.2) toy_summary.
Proof.
  repeat constructor; unfold balance_wf; cbn; try lia; vm_compute; congruence.
Qed.

Lemma get_balances_correct_witness :
  exists b, get_balances example_wallet None = Ret b /\ Forall2 entry_spec toy_summary (accounts b).
Proof.
  assert (forall p summary, get_wallet_summary example_wallet p = Ret (Some summary) ->
            Forall (fun a => summary_wf a.2) summary) as Hwf.
  { intros p summary Hs. assert (toy_summary = summary) as <- by (by injection Hs). apply toy_summary_wf. }
  destruct (get_balances_correct example_wallet None Hwf) as (b & Hb & HF & _).
  exists b. split; [exact Hb|exact HF].
Defined.

Lemma z_get_total_balance_correct_witness :
  z_get_total_balance example_wallet (Some 0) (Some true)
  = Ret {| total_transparent := zec_string 7; total_private := zec_string 111; total_all := zec_string 118 |} /\
  z_get_total_balance example_wallet None None
  = Err (with_message Misc (Text "include_watchonly argument must be set to true (for now)")).
Proof.
  assert (forall p summary, get_wallet_summary example_wallet p = Ret (Some summary) ->
            Forall (fun a => summary_wf a.2) summary) as Hwf.
  { intros p summary Hs. assert (toy_summary = summary) as <- by (by injection Hs). apply toy_summary_wf. }
  split.
  - destruct (z_get_total_balance_correct example_wallet (Some 0) (Some true) (Hwf _)) as [_ Hc].
    destruct (Hc eq_refl) as (_ & _ & _ & Hs). destruct (Hs toy_summary eq_refl) as [Hok _].
    apply Hok. vm_compute. discriminate.
  - apply (z_get_total_balance_correct example_wallet None None (Hwf _)). discriminate.
Defined.

Lemma get_notes_count_correct_witness :
  exists n ids, get_notes_count example_wallet None None = Ret n /\ sprout n = 0 /\
                get_account_ids example_wallet = Ret ids.
Proof.
  destruct (get_notes_count example_wallet None None) as [n|e|] eqn:Hn; [|discriminate Hn..].
  destruct (get_notes_count_correct example_wallet None None n Hn)
    as (as_of & mc & tip & ids & counts & _ & _ & _ & Hi & _ & Hs & _).
  by exists n, ids.
Defined.
