(* ===== verification/ListTx.v ===== *)
(** [z_listtransactions]
    (src/zallet/src/components/json_rpc/methods/list_transactions.rs): which
    rows of the wallet's transaction view a page holds, in which order, and how
    rows become entries.

    The SQL query is written out clause by clause on the rows of
    [v_transactions]; the order in which SQLite leaves rows of equal sort height
    is [order_by], of which only what [ORDER BY] promises is assumed. *)

From stdpp Require Import sorting.
From S2P Require Import Prelude Rpc Amount.

(** A row of [v_transactions] and one of [v_tx_outputs]. *)
Record TxRow := {
  row_account : string;
  row_mined_height : option Z;
  row_txid : string;
  row_expiry_height : option Z;
  row_delta : Z;
  row_fee : option Z;
  row_sent : Z;
  row_received : Z;
  row_block_time : option Z;
  row_expired_unmined : bool
}.

Record OutputRow := {
  out_pool : Z;
  out_index : Z;
  out_from_account : option string;
  out_to_account : option string;
  out_to_address : option string;
  out_value : Z;
  out_is_change : bool;
  out_memo : option string
}.

Class ListTxOps := {
  Wallet : Type;
  Uuid : Type;
  #[global] Uuid_eq_dec :: EqDecision Uuid;
  uuid_try_parse : string -> option Uuid;
  (** The sixteen bytes of a UUID, and its text. *)
  uuid_bytes : Uuid -> string;
  uuid_from_bytes : string -> option Uuid;
  uuid_to_string : Uuid -> string;
  txid_from_bytes : string -> option string;
  (** The text of a memo, if it is not empty; an error for invalid bytes. *)
  memo_string : string -> outcome string (option string);
  (** [Zatoshis::from_nonnegative_i64], [from_u64] and [ZatBalance::from_i64]. *)
  from_nonnegative_i64 : Z -> outcome string Z;
  zatoshis_from_u64 : Z -> outcome string Z;
  zat_balance_from_i64 : Z -> outcome string Z;
  (** The RFC 3339 text of a timestamp in range. *)
  datetime : Z -> outcome string string;
  show_int : Z -> string;
  (** The text of [SqliteClientError::CorruptedData]. *)
  corrupted : string -> string;
  transaction_error : Wallet -> option string;
  query_error : Wallet -> option string;
  v_transactions : Wallet -> list TxRow;
  v_tx_outputs : Wallet -> string -> list OutputRow;
  order_by : (TxRow -> option Z) -> list TxRow -> list TxRow
}.

(** [ORDER BY .. ASC NULLS LAST]. *)
Definition nulls_last (a b : option Z) : Prop :=
  match a, b with
  | Some a, Some b => a <= b
  | _, None => True
  | None, Some _ => False
  end.

Class ListTxLaws `{ListTxOps} := {
  order_by_permutation : forall key l, order_by key l ≡ₚ l;
  order_by_sorted : forall key l, StronglySorted (fun x y => nulls_last (key x) (key y)) (order_by key l);
  zatoshis_from_u64_Ret : forall v z, zatoshis_from_u64 v = Ret z -> z = v;
  from_nonnegative_i64_Ret : forall v z, from_nonnegative_i64 v = Ret z -> z = v /\ 0 <= v <= MAX_MONEY;
  zat_balance_from_i64_Ret : forall v z, zat_balance_from_i64 v = Ret z -> z = v
}.

Section list_transactions.
Context `{ListTxOps}.

(** ** Outputs *)

Inductive PoolType := Transparent | SaplingPool | OrchardPool.

Record WalletTxOutput := {
  pool : string;
  output_index : Z;
  from_account : option string;
  to_account : option string;
  to_address : option string;
  value : Z;
  is_change : bool;
  memo : option string
}.

Definition parse_pool_code (pool_code : Z) : option PoolType :=
  if pool_code =? 0 then Some Transparent
  else if pool_code =? 2 then Some SaplingPool
  else if pool_code =? 3 then Some OrchardPool
  else None.

Definition pool_string (p : PoolType) : string :=
  match p with Transparent => "transparent" | SaplingPool => "sapling" | OrchardPool => "orchard" end.

(** A UUID column; a blob of another length is an error of the query. *)
Definition get_uuid (o : option string) : outcome string (option Uuid) :=
  match o with
  | None => Ret None
  | Some b => u ← ok_or (uuid_from_bytes b) "InvalidColumnType"%string; Ret (Some u)
  end.

(** [WalletTxOutput::new], on the columns of a row. *)
Definition new_output (r : OutputRow) : outcome string WalletTxOutput :=
  from_account ← get_uuid (out_from_account r);
  to_account ← get_uuid (out_to_account r);
  p ← ok_or (parse_pool_code (out_pool r)) (corrupted ("Invalid pool code: " +:+ show_int (out_pool r)))%string;
  value ← map_err (fun e => corrupted ("Invalid output value " +:+ show_int (out_value r) +:+ ": " +:+ e)%string)
            (from_nonnegative_i64 (out_value r));
  memo ← match out_memo r with
         | Some b => map_err (fun e => corrupted ("Invalid memo data: " +:+ e)%string) (memo_string b)
         | None => Ret None
         end;
  Ret {| pool := pool_string p; output_index := out_index r; from_account := uuid_to_string <$> from_account;
         to_account := uuid_to_string <$> to_account; to_address := out_to_address r; value := value;
         is_change := out_is_change r; memo := memo |}.

(** ** Transactions *)

Record WalletTx := {
  account_uuid : string;
  mined_height : option Z;
  txid : string;
  expiry_height : option Z;
  account_balance_delta : Z;
  fee_paid : option Z;
  sent_note_count : Z;
  received_note_count : Z;
  block_time : option Z;
  block_datetime : option string;
  expired_unmined : bool;
  outputs : list WalletTxOutput
}.

Definition option_traverse {A B} (f : A -> outcome string B) (o : option A) : outcome string (option B) :=
  match o with Some a => b ← f a; Ret (Some b) | None => Ret None end.

Definition show_length (b : string) : string := show_int (Z.of_nat (String.length b)).

(** [WalletTx::from_parts]. *)
Definition from_parts (r : TxRow) (outputs : list WalletTxOutput) : outcome string WalletTx :=
  u ← ok_or (uuid_from_bytes (row_account r)) (corrupted ("Invalid account uuid: " +:+ show_length (row_account r))%string);
  txid ← ok_or (txid_from_bytes (row_txid r)) (corrupted ("Invalid txid: " +:+ show_length (row_txid r))%string);
  delta ← map_err (fun e => corrupted ("Invalid balance delta " +:+ show_int (row_delta r) +:+ ": " +:+ e)%string)
            (zat_balance_from_i64 (row_delta r));
  fee ← option_traverse (fun v => map_err (fun e => corrupted ("Invalid fee value " +:+ show_int v +:+ ": " +:+ e)%string)
                                    (zatoshis_from_u64 v)) (row_fee r);
  datetime ← option_traverse (fun t => map_err (fun e => corrupted ("Invalid unix timestamp " +:+ show_int t +:+ ": " +:+ e)%string)
                                         (datetime t)) (row_block_time r);
  Ret {| account_uuid := uuid_to_string u; mined_height := row_mined_height r; txid := txid;
         expiry_height := row_expiry_height r; account_balance_delta := delta; fee_paid := fee;
         sent_note_count := row_sent r; received_note_count := row_received r; block_time := row_block_time r;
         block_datetime := datetime; expired_unmined := row_expired_unmined r; outputs := outputs |}.

(** ** The query *)

(** The column [sort_height]. *)
Definition sort_height (r : TxRow) : option Z :=
  match row_mined_height r with
  | Some h => Some h
  | None => match row_expiry_height r with
            | Some e => if e =? 0 then None else Some e
            | None => None
            end
  end.

(** The [WHERE] clause: a comparison with NULL does not hold. *)
Definition where_clause (account : option Uuid) (start_height end_height : option Z) (r : TxRow) : bool :=
  match account with Some a => bool_decide (row_account r = uuid_bytes a) | None => true end &&
  match start_height with
  | None => true
  | Some s =>
      match row_mined_height r with
      | Some m => s <=? m
      | None => match end_height with None => true | Some _ => false end
      end
  end &&
  match end_height with
  | None => true
  | Some e => match row_mined_height r with Some m => m <? e | None => false end
  end.

(** [LIMIT] and [OFFSET]: a negative limit is none. *)
Definition limit_offset {A} (limit offset : Z) (l : list A) : list A :=
  let l := drop (Z.to_nat offset) l in
  if limit <? 0 then l else take (Z.to_nat limit) l.

Definition page (wallet : Wallet) (account : option Uuid) (start_height end_height offset limit : option Z) :
    list TxRow :=
  limit_offset (match limit with Some l => l | None => -1 end) (default 0 offset)
    (order_by sort_height
       (filter (fun r => where_clause account start_height end_height r = true) (v_transactions wallet))).

(** The closure of [query_and_then]. *)
Definition read_row (wallet : Wallet) (r : TxRow) : outcome string WalletTx :=
  tx_outputs ← traverse new_output (v_tx_outputs wallet (row_txid r));
  from_parts r tx_outputs.

Definition query_transactions (wallet : Wallet) (account : option Uuid)
    (start_height end_height offset limit : option Z) : outcome string (list WalletTx) :=
  match query_error wallet with
  | Some e => Err e
  | None => traverse (read_row wallet) (page wallet account start_height end_height offset limit)
  end.

Definition call (wallet : Wallet) (account_uuid : option string) (start_height end_height offset limit : option Z) :
    RpcResult (list WalletTx) :=
  account ← match account_uuid with
            | Some s => u ← ok_or (uuid_try_parse s) (with_message InvalidParameter (Text ("not a valid UUID: " +:+ s)%string));
                        Ret (Some u)
            | None => Ret None
            end;
  match transaction_error wallet with
  | Some e => Err (with_message Database (Text e))
  | None => map_err (fun e => with_message Database (Text e))
              (query_transactions wallet account start_height end_height offset limit)
  end.

(** ** What a page holds *)

Context `{!ListTxLaws}.

(** All the rows the filters keep, in order. *)
Definition all_rows (wallet : Wallet) (account : option Uuid) (start_height end_height : option Z) : list TxRow :=
  page wallet account start_height end_height None None.

Lemma all_rows_eq wallet account start_height end_height :
  all_rows wallet account start_height end_height =
  order_by sort_height (filter (fun r => where_clause account start_height end_height r = true)
                          (v_transactions wallet)).
Proof. done. Qed.

Lemma page_eq wallet account start_height end_height offset limit :
  page wallet account start_height end_height offset limit =
  limit_offset (match limit with Some l => l | None => -1 end) (default 0 offset)
    (all_rows wallet account start_height end_height).
Proof. done. Qed.

(** The rows a caller asks for. *)
Definition wanted (account : option Uuid) (start_height end_height : option Z) (r : TxRow) : Prop :=
  (forall a, account = Some a -> row_account r = uuid_bytes a) /\
  (forall s m, start_height = Some s -> row_mined_height r = Some m -> s <= m) /\
  (forall e, end_height = Some e -> exists m, row_mined_height r = Some m /\ m < e).

Lemma where_clause_spec account start_height end_height r :
  where_clause account start_height end_height r = true <-> wanted account start_height end_height r.
Proof.
  unfold where_clause, wanted. rewrite !andb_true_iff. split.
  - intros [[Ha Hs] He]. split_and!.
    + intros a ->. by apply bool_decide_eq_true in Ha.
    + intros s m -> Hm. rewrite Hm in Hs. by apply Z.leb_le.
    + intros e ->. destruct (row_mined_height r) as [m|]; [|done]. exists m. split; [done|by apply Z.ltb_lt].
  - intros (Ha & Hs & He). split; [split|].
    + destruct account as [a|]; [|done]. apply bool_decide_eq_true. by apply Ha.
    + destruct start_height as [s|]; [|done]. destruct (row_mined_height r) as [m|].
      * by apply Z.leb_le, Hs.
      * destruct end_height as [e|]; [|done]. by destruct (He e eq_refl) as (m & ? & _).
    + destruct end_height as [e|]; [|done]. destruct (He e eq_refl) as (m & -> & ?). by apply Z.ltb_lt.
Qed.

(** An entry repeats its row, whose amounts are valid; outputs keep their order. *)
Definition output_spec (r : OutputRow) (o : WalletTxOutput) : Prop :=
  (exists p, parse_pool_code (out_pool r) = Some p /\ pool o = pool_string p) /\
  output_index o = out_index r /\ to_address o = out_to_address r /\ value o = out_value r /\
  0 <= value o <= MAX_MONEY /\ is_change o = out_is_change r.

Definition entry_spec (wallet : Wallet) (r : TxRow) (t : WalletTx) : Prop :=
  (exists u, uuid_from_bytes (row_account r) = Some u /\ account_uuid t = uuid_to_string u) /\
  txid_from_bytes (row_txid r) = Some (txid t) /\
  mined_height t = row_mined_height r /\ expiry_height t = row_expiry_height r /\
  account_balance_delta t = row_delta r /\ fee_paid t = row_fee r /\
  block_time t = row_block_time r /\ expired_unmined t = row_expired_unmined r /\
  Forall2 output_spec (v_tx_outputs wallet (row_txid r)) (outputs t).

Lemma new_output_spec r o : new_output r = Ret o -> output_spec r o.
Proof.
  unfold new_output. intros (f & _ & (t & _ & (p & Hp%ok_or_Ret & (v & Hv%map_err_Ret & (m & _ & [= <-])%bind_Ret)
    %bind_Ret)%bind_Ret)%bind_Ret)%bind_Ret.
  apply from_nonnegative_i64_Ret in Hv as [-> [? ?]]. unfold output_spec. cbn. split; [by exists p|]. by split_and!.
Qed.

Lemma read_row_spec wallet r t : read_row wallet r = Ret t -> entry_spec wallet r t.
Proof.
  unfold read_row, from_parts. intros (outs & Hos%traverse_Ret & (u & Hu%ok_or_Ret & (x & Hx%ok_or_Ret & Hr)%bind_Ret)
    %bind_Ret)%bind_Ret.
  apply bind_Ret in Hr as (d & Hd%map_err_Ret%zat_balance_from_i64_Ret & Hr).
  apply bind_Ret in Hr as (fee & Hf & Hr). apply bind_Ret in Hr as (dt & _ & [= <-]). subst d.
  assert (fee = row_fee r) as ->.
  { destruct (row_fee r) as [v|]; cbn in Hf; [|by injection Hf].
    apply bind_Ret in Hf as (z & Hz%map_err_Ret%zatoshis_from_u64_Ret & [= <-]). by subst. }
  unfold entry_spec. cbn. split; [by exists u|]. do 7 (split; [done|]).
  eapply Forall2_impl; [exact Hos|]. apply new_output_spec.
Qed.

Lemma call_Ret wallet acct s e offset limit txs :
  call wallet acct s e offset limit = Ret txs <->
  transaction_error wallet = None /\ query_error wallet = None /\
  exists account, (acct = None /\ account = None \/
                   exists a u, acct = Some a /\ uuid_try_parse a = Some u /\ account = Some u) /\
  Forall2 (fun r t => read_row wallet r = Ret t) (page wallet account s e offset limit) txs.
Proof.
  unfold call, query_transactions. split.
  - intros (account & Ha & Hr)%bind_Ret. destruct (transaction_error wallet); [done|]. apply map_err_Ret in Hr.
    destruct (query_error wallet); [done|]. split; [done|]. split; [done|]. exists account.
    split; [|by apply traverse_Ret]. destruct acct as [a|].
    + right. apply bind_Ret in Ha as (u & Hu%ok_or_Ret & [= <-]). by exists a, u.
    + left. by injection Ha.
  - intros (-> & -> & account & Ha & HF). apply bind_Ret. exists account. split.
    + destruct Ha as [[-> ->]|(a & u & -> & Hu & ->)]; [done|]. by rewrite Hu.
    + apply map_err_Ret. by apply traverse_Ret.
Qed.

(** On success the page holds, in order of sort height with the mempool
    last, the rows of the account mined in the range asked (unmined ones only
    without an end height), each entry repeating its row and outputs with
    valid amounts. *)
Theorem z_listtransactions_correct wallet acct start_height end_height offset limit txs :
  call wallet acct start_height end_height offset limit = Ret txs ->
  exists account all,
    (acct = None /\ account = None \/
     exists a u, acct = Some a /\ uuid_try_parse a = Some u /\ account = Some u) /\
    (forall r, r ∈ all <-> r ∈ v_transactions wallet /\ wanted account start_height end_height r) /\
    Permutation all (filter (fun r => where_clause account start_height end_height r = true) (v_transactions wallet)) /\
    StronglySorted (fun x y => nulls_last (sort_height x) (sort_height y)) all /\
    Forall2 (entry_spec wallet)
      (limit_offset (match limit with Some l => l | None => -1 end) (default 0 offset) all) txs.
Proof.
  intros (_ & _ & account & Ha & HF)%call_Ret. exists account, (all_rows wallet account start_height end_height).
  rewrite all_rows_eq. split; [done|]. split.
  - intros r. rewrite order_by_permutation, list_elem_of_filter, where_clause_spec. tauto.
  - split; [apply order_by_permutation|]. split; [apply order_by_sorted|].
    eapply Forall2_impl; [exact HF|]. apply read_row_spec.
Qed.

(** ** Paging *)

Lemma concat_pages {A} (l : nat) (n : nat) (xs : list A) :
  (0 < l)%nat -> (length xs <= n * l)%nat ->
  concat (map (fun k => take l (drop (k * l) xs)) (seq 0 n)) = xs.
Proof.
  intros Hl Hn. revert xs Hn. induction n as [|n IH]; intros xs Hn.
  - destruct xs; cbn in *; [done|lia].
  - cbn [seq map concat]. rewrite drop_0. rewrite <- seq_shift, map_map.
    rewrite <- (take_drop l xs) at 2. f_equal.
    rewrite <- (IH (drop l xs)) at 1; [|rewrite length_drop; cbn in Hn; lia].
    f_equal. apply map_ext. intros k. rewrite drop_drop. do 2 f_equal.
Qed.

(** When the unlimited call succeeds, every page of a positive size
    succeeds and the pages in sequence are that list, without gap or
    repetition. *)
Theorem pages_cut_list wallet acct start_height end_height (l : Z) (n : nat) all :
  0 < l -> call wallet acct start_height end_height None None = Ret all ->
  Z.of_nat (length all) <= Z.of_nat n * l ->
  exists pages,
    traverse (fun k => call wallet acct start_height end_height (Some (Z.of_nat k * l)) (Some l)) (seq 0 n)
      = Ret pages /\
    concat pages = all.
Proof.
  intros Hl Hall Hn. apply call_Ret in Hall as (Ht & Hq & account & Ha & HF).
  change (page wallet account start_height end_height None None)
    with (all_rows wallet account start_height end_height) in HF.
  exists (map (fun k => take (Z.to_nat l) (drop (k * Z.to_nat l) all)) (seq 0 n)).
  split; [|apply concat_pages; lia].
  apply traverse_Ret. apply Forall2_fmap_r. apply Forall_Forall2_diag, Forall_forall. intros k _.
  apply call_Ret. split; [done|]. split; [done|]. exists account. split; [done|].
  rewrite page_eq. unfold limit_offset. cbn [default]. destruct (Z.ltb_spec l 0); [lia|].
  replace (Z.to_nat (Datatypes.id (Z.of_nat k * l))) with (k * Z.to_nat l)%nat by (unfold Datatypes.id; lia).
  by apply Forall2_take, Forall2_drop.
Qed.
End list_transactions.

(** ** An instance: three transactions, the one with the expiry height last but one *)
Section example.

Definition toy_row (account txid : string) (mined expiry : option Z) : TxRow := {|
  row_account := account; row_mined_height := mined; row_txid := txid; row_expiry_height := expiry;
  row_delta := 5; row_fee := Some 1; row_sent := 1; row_received := 0; row_block_time := None;
  row_expired_unmined := false |}.

Definition toy_rows : list TxRow :=
  [toy_row "a" "t1" None (Some 0); toy_row "a" "t2" (Some 7) (Some 40); toy_row "b" "t3" (Some 5) (Some 40);
   toy_row "a" "t4" None (Some 9)].

(** An insertion sort. *)
Definition key_le (a b : option Z) : bool :=
  match a, b with Some a, Some b => a <=? b | _, None => true | None, Some _ => false end.

Fixpoint insert_row (key : TxRow -> option Z) (x : TxRow) (l : list TxRow) : list TxRow :=
  match l with
  | [] => [x]
  | y :: l' => if key_le (key x) (key y) then x :: l else y :: insert_row key x l'
  end.

Definition sort_rows (key : TxRow -> option Z) (l : list TxRow) : list TxRow := foldr (insert_row key) [] l.

Lemma key_le_spec a b : key_le a b = true <-> nulls_last a b.
Proof. destruct a, b; cbn; rewrite ?Z.leb_le; intuition congruence. Qed.

Lemma nulls_last_trans a b c : nulls_last a b -> nulls_last b c -> nulls_last a c.
Proof. destruct a, b, c; cbn; try tauto; lia. Qed.

Lemma insert_row_permutation key x l : insert_row key x l ≡ₚ x :: l.
Proof.
  induction l as [|y l IH]; [done|]. cbn [insert_row]. destruct (key_le _ _); [done|].
  rewrite IH. apply Permutation_swap.
Qed.

Lemma insert_row_sorted key x l :
  StronglySorted (fun x y => nulls_last (key x) (key y)) l ->
  StronglySorted (fun x y => nulls_last (key x) (key y)) (insert_row key x l).
Proof.
  induction 1 as [|y l Hl IH Hy]; cbn [insert_row]; [repeat constructor|].
  destruct (key_le (key x) (key y)) eqn:Hk.
  - apply key_le_spec in Hk. constructor; [by constructor|]. constructor; [done|].
    eapply Forall_impl; [exact Hy|]. intros z. by apply nulls_last_trans.
  - constructor; [done|]. rewrite insert_row_permutation. constructor; [|done].
    destruct (key x), (key y); cbn in *; try done. apply Z.leb_gt in Hk. lia.
Qed.

#[local] Instance toy : ListTxOps := {|
  Wallet := unit; Uuid := string; uuid_try_parse s := Some s; uuid_bytes u := u; uuid_from_bytes b := Some b;
  uuid_to_string u := u; txid_from_bytes b := Some b; memo_string b := Ret (Some b);
  from_nonnegative_i64 v := if bool_decide (0 <= v <= MAX_MONEY) then Ret v else Err "range"%string;
  zatoshis_from_u64 v := Ret v; zat_balance_from_i64 v := Ret v; datetime _ := Ret "now"%string;
  show_int _ := "0"%string; corrupted m := m; transaction_error _ := None; query_error _ := None; v_transactions _ := toy_rows;
  v_tx_outputs _ _ := []; order_by := sort_rows |}.

#[local] Instance toy_list_laws : ListTxLaws.
Proof.
  split; cbn.
  - intros key l. unfold sort_rows. induction l as [|x l IH]; [done|]. cbn [foldr].
    by rewrite insert_row_permutation, IH.
  - intros key l. unfold sort_rows. induction l as [|x l IH]; [constructor|]. by apply insert_row_sorted.
  - by intros v z [= <-].
  - intros v z Hv. case_bool_decide; [|done]. by injection Hv as <-.
  - by intros v z [= <-].
Qed.

Definition toy_list (offset limit : option Z) : RpcResult (list WalletTx) :=
  call (tt : @Wallet toy) (Some "a"%string) (Some 6) None offset limit.

Lemma z_listtransactions_correct_witness :
  exists txs, toy_list None None = Ret txs /\ map txid txs = ["t2"; "t4"; "t1"]%string /\
  exists all, Forall2 (entry_spec (tt : @Wallet toy)) all txs.
Proof.
  destruct (toy_list None None) as [txs|e|] eqn:Hr; [|discriminate Hr..].
  exists txs. split; [reflexivity|]. split.
  - assert (map txid <$> toy_list None None = Ret ["t2"; "t4"; "t1"]%string) as Ht by reflexivity.
    rewrite Hr in Ht. by injection Ht.
  - destruct (z_listtransactions_correct (H:=toy) (tt : @Wallet toy) (Some "a"%string) (Some 6) None None None txs Hr)
      as (account & all & _ & _ & _ & _ & HF).
    by exists all.
Defined.

Lemma pages_cut_list_witness :
  exists all pages, toy_list None None = Ret all /\
    traverse (fun k => toy_list (Some (Z.of_nat k * 2)) (Some 2)) (seq 0 2) = Ret pages /\ concat pages = all.
Proof.
  destruct (toy_list None None) as [all|e|] eqn:Hr; [|discriminate Hr..].
  assert (Z.of_nat (length all) <= Z.of_nat 2 * 2) as Hlen.
  { assert (length <$> toy_list None None = Ret 3%nat) as Hl by reflexivity. rewrite Hr in Hl.
    injection Hl as ->. lia. }
  destruct (pages_cut_list (H:=toy) (tt : @Wallet toy) (Some "a"%string) (Some 6) None 2 2 all ltac:(lia) Hr Hlen)
    as (pages & Hp & Hc).
  exists all, pages. split; [reflexivity|]. split; [exact Hp|exact Hc].
Defined.
End example.
