(* ===== verification/Addresses.v ===== *)
(** Accounts and their addresses
    (src/zallet/src/components/json_rpc/methods/list_accounts.rs, get_account.rs,
    list_addresses.rs, list_unified_receivers.rs and
    get_address_for_account.rs): z_listaccounts, z_getaccount, listaddresses,
    z_listunifiedreceivers and z_getaddressforaccount.

    Addresses are the crates' enums over abstract receivers; the wallet's tables,
    the codecs and the derivation of addresses are [AddressOps]. *)

From S2P Require Import Prelude Rpc Params.

(** [TransparentKeyScope]: a BIP 44 scope number. *)
Inductive TransparentKeyScope :=
  | EXTERNAL
  | INTERNAL
  | EPHEMERAL
  | CustomScope (n : Z).

#[export] Instance TransparentKeyScope_eq_dec : EqDecision TransparentKeyScope.
Proof. solve_decision. Defined.

(** [zcash_client_backend::data_api::AddressSource]. *)
Inductive AddressOrigin :=
  | DerivedAt (diversifier_index : Z) (transparent_key_scope : option TransparentKeyScope)
  | Standalone.

Definition scope_of (s : AddressOrigin) : option TransparentKeyScope :=
  match s with
  | DerivedAt _ scope => scope
  | Standalone => None
  end.

(** [zcash_address::unified::Typecode]. *)
Inductive Typecode :=
  | P2pkh
  | P2sh
  | SaplingCode
  | OrchardCode
  | Unknown (typecode : Z).

(** [ReceiverRequirement]. *)
Inductive ReceiverRequirement := Require_ | Allow | Omit.

#[export] Instance ReceiverRequirement_eq_dec : EqDecision ReceiverRequirement.
Proof. solve_decision. Defined.

(** [AddressGenerationError] and the kinds of [SqliteClientError] the method tells
    apart; diversifier indices as numbers, other payloads as their text. *)
Inductive AddressGenerationError :=
  | InvalidTransparentChildIndex (index : Z)
  | InvalidSaplingDiversifierIndex (index : Z)
  | DiversifierSpaceExhausted
  | ReceiverTypeNotSupported (typecode : Typecode)
  | KeyNotAvailable (typecode : Typecode)
  | ShieldedReceiverRequired
  | UnsupportedTransparentKeyScope (scope : string)
  | Bip32DerivationError (e : string).

Inductive SqliteClientError :=
  | TransparentDerivation (error : string)
  | AddressGeneration (e : AddressGenerationError)
  | AccountUnknown
  | ChainHeightUnknown
  | ReachedGapLimit (index : Z)
  | DiversifierIndexReuse (index : Z)
  | OtherSqliteError (e : string).

(** [transparent::address::TransparentAddress], over 20-byte hashes. *)
Inductive TransparentAddress (Hash : Type) :=
  | PublicKeyHash (h : Hash)
  | ScriptHash (h : Hash).

Arguments PublicKeyHash {Hash} h.
Arguments ScriptHash {Hash} h.

(** [AccountPurpose] and [AccountSource], over derivations. *)
Inductive AccountPurpose (D : Type) :=
  | Spending (derivation : option D)
  | ViewOnly.

Inductive AccountSource (D : Type) :=
  | Derived (derivation : D)
  | Imported (purpose : AccountPurpose D).

Arguments Spending {D} derivation.
Arguments ViewOnly {D}.
Arguments Derived {D} derivation.
Arguments Imported {D} purpose.

Class AddressOps `{ParamOps} := {
  SaplingReceiver : Type;
  OrchardReceiver : Type;
  AddressHash : Type;
  UnifiedAddress : Type;
  UnifiedAddressRequest : Type;
  account_id_of : Account -> AccountUuid;
  account_name : Account -> option string;
  (** Its derivation is [key_derivation]. *)
  account_source : Account -> AccountSource (SeedFingerprint * Z);
  uuid_to_string : AccountUuid -> string;
  fp_to_string : SeedFingerprint -> string;
  show_num : Z -> string;
  coin_type : Wallet -> Z;
  diversifier_index_value : DiversifierIndex -> Z;
  (** The receivers of a unified address, and its text. *)
  ua_transparent : UnifiedAddress -> option (TransparentAddress AddressHash);
  ua_sapling : UnifiedAddress -> option SaplingReceiver;
  ua_orchard : UnifiedAddress -> option OrchardReceiver;
  ua_receiver_types : UnifiedAddress -> list Typecode;
  from_receivers : option OrchardReceiver -> option SaplingReceiver ->
    option (TransparentAddress AddressHash) -> option UnifiedAddress;
  encode_ua : Wallet -> UnifiedAddress -> string;
  decode_ua : Wallet -> string -> option UnifiedAddress;
  encode_sapling : Wallet -> SaplingReceiver -> string;
  encode_taddr : Wallet -> TransparentAddress AddressHash -> string;
  encode_tex : Wallet -> AddressHash -> string;
  (** [UnifiedAddressRequest::custom] and [unsafe_custom], of the requirements on
      the Orchard, the Sapling and the P2PKH receiver. *)
  custom : ReceiverRequirement -> ReceiverRequirement -> ReceiverRequirement -> option UnifiedAddressRequest;
  unsafe_custom : ReceiverRequirement -> ReceiverRequirement -> ReceiverRequirement -> UnifiedAddressRequest;
  (** [ZcashAddress::try_from_encoded]. *)
  is_zcash_address : string -> bool;
  (** The text of values in messages. *)
  debug_strings : list string -> string;
  debug_typecode : Typecode -> string;
  json_to_string : JsonValue -> string
}.

(** [zcash_keys::address::Address]. *)
Inductive Address `{AddressOps} :=
  | SaplingAddr (a : SaplingReceiver)
  | TransparentAddr (a : TransparentAddress AddressHash)
  | UnifiedAddr (a : UnifiedAddress)
  | TexAddr (h : AddressHash).

(** [Address::encode], and [to_zcash_address(..).to_string()], which it is
    defined as. *)
Definition encode_address `{AddressOps} (wallet : Wallet) (a : Address) : string :=
  match a with
  | SaplingAddr a => encode_sapling wallet a
  | TransparentAddr a => encode_taddr wallet a
  | UnifiedAddr a => encode_ua wallet a
  | TexAddr h => encode_tex wallet h
  end.

Record AddressInfo `{AddressOps} := Info { address : Address; source : AddressOrigin }.

Arguments Info {H H0} address source.

(** The wallet's address tables, and the derivation of new addresses. *)
Class AddressTables `{AddressOps} := {
  list_addresses : Wallet -> AccountUuid -> outcome string (list AddressInfo);
  get_address_for_index : AccountUuid -> DiversifierIndex -> UnifiedAddressRequest ->
    M Wallet SqliteClientError (option UnifiedAddress);
  get_next_available_address : AccountUuid -> UnifiedAddressRequest ->
    M Wallet SqliteClientError (option (UnifiedAddress * DiversifierIndex));
  sqlite_to_string : SqliteClientError -> string
}.

Section addresses.
Context `{AddressTables}.

(** ** z_listaccounts and z_getaccount *)

(** The [Address] of the response. *)
Record ListedAddress := {
  diversifier_index : option Z;
  ua : option string;
  sapling : option string;
  transparent : option string
}.

(** The [Account] of both responses: [zip32_account_index] is repeated under the
    name [account] by z_listaccounts, and [addresses] is always there in
    z_getaccount. *)
Record ListedAccount := {
  account_uuid : string;
  name : option string;
  seedfp : option string;
  zip32_account_index : option Z;
  addresses : option (list ListedAddress)
}.

Definition listed_address (wallet : Wallet) (a : AddressInfo) : RpcResult ListedAddress :=
  let diversifier_index := match source a with
                           | DerivedAt diversifier_index _ => Some diversifier_index
                           | Standalone => None
                           end in
  let enc := encode_address wallet (address a) in
  '(ua, sapling, transparent) ← match address a with
    | SaplingAddr _ => Ret (None, Some enc, None)
    | TransparentAddr _ => Ret (None, None, Some enc)
    | UnifiedAddr _ => Ret (Some enc, None, None)
    | TexAddr _ => Panic
    end;
  Ret {| diversifier_index := diversifier_index; ua := ua; sapling := sapling; transparent := transparent |}.

Definition account_details {T} (wallet : Wallet) (account_id : AccountUuid) (include_addresses : bool)
    (f : option string -> option string -> option Z -> option (list ListedAddress) -> RpcResult T) :
    RpcResult T :=
  o ← map_err database_error (get_account wallet account_id);
  account ← ok_or o (of_code InternalError);
  let name := account_name account in
  let derivation := key_derivation account in
  let seedfp := (fun d => fp_to_string d.1) <$> derivation in
  let index := (fun d : SeedFingerprint * Z => d.2) <$> derivation in
  addresses ← map_err database_error (list_addresses wallet account_id);
  addresses ← (if include_addresses then
                 l ← traverse (listed_address wallet) addresses; Ret (Some l)
               else Ret None);
  f name seedfp index addresses.

(** The closures that build the two [Account]s. *)
Definition listed_account (account_id : AccountUuid) (name seedfp : option string)
    (zip32_account_index : option Z) (addresses : option (list ListedAddress)) : RpcResult ListedAccount :=
  Ret {| account_uuid := uuid_to_string account_id; name := name; seedfp := seedfp;
         zip32_account_index := zip32_account_index; addresses := addresses |}.

Definition single_account (account_id : AccountUuid) (name seedfp : option string)
    (zip32_account_index : option Z) (addresses : option (list ListedAddress)) : RpcResult ListedAccount :=
  addresses ← expect addresses;
  Ret {| account_uuid := uuid_to_string account_id; name := name; seedfp := seedfp;
         zip32_account_index := zip32_account_index; addresses := Some addresses |}.

Definition list_accounts (wallet : Wallet) (include_addresses : option bool) : RpcResult (list ListedAccount) :=
  let include_addresses := default true include_addresses in
  account_ids ← map_err database_error (get_account_ids wallet);
  traverse (fun account_id =>
    account_details wallet account_id include_addresses (listed_account account_id)) account_ids.

Definition get_account_call (wallet : Wallet) (account_uuid : string) : RpcResult ListedAccount :=
  account_id ← ok_or (uuid_parse account_uuid)
    (with_message InvalidParameter (Text ("not a valid UUID: " +:+ account_uuid)%string));
  account_details wallet account_id true (single_account account_id).

(** ** listaddresses *)

Record TransparentAddresses := { t_addresses : list string; t_change_addresses : list string }.

Record DerivedTransparentAddresses := {
  d_seedfp : string;
  d_account : Z;
  d_addresses : list string;
  d_change_addresses : list string;
  d_ephemeral_addresses : list string
}.

Record SaplingAddresses := { zip32_key_path : option string; s_addresses : list string }.

Record UnifiedEntry := { u_diversifier_index : Z; u_receiver_types : list string; u_address : string }.

Record UnifiedAddresses := {
  u_seedfp : option string;
  u_account : option Z;
  u_addresses : list UnifiedEntry
}.

(** The [AddressSource] of the response. *)
Record AddressSource := {
  source_name : string;
  imported_transparent : option TransparentAddresses;
  derived_transparent : list DerivedTransparentAddresses;
  sapling_groups : list SaplingAddresses;
  unified_groups : list UnifiedAddresses
}.

Definition empty (source : string) : AddressSource := {|
  source_name := source; imported_transparent := None; derived_transparent := [];
  sapling_groups := []; unified_groups := [] |}.

Definition nonempty {A} (l : list A) : bool := match l with [] => false | _ => true end.

Definition has_data (s : AddressSource) : bool :=
  bool_decide (is_Some (imported_transparent s)) || nonempty (derived_transparent s) ||
  nonempty (sapling_groups s) || nonempty (unified_groups s).

(** The five vectors a loop over an account's addresses fills. *)
Record Grouped := Group {
  transparent_addresses : list string;
  transparent_change_addresses : list string;
  transparent_ephemeral_addresses : list string;
  sapling_addresses : list string;
  unified_addresses : list UnifiedEntry
}.

Definition receiver_type_name (r : Typecode) : string :=
  match r with
  | P2pkh => "p2pkh"
  | P2sh => "p2sh"
  | SaplingCode => "sapling"
  | OrchardCode => "orchard"
  | Unknown typecode => ("unknown(" +:+ show_num typecode +:+ ")")%string
  end.

(** One round of the loop over an account's addresses. *)
Definition group_address (wallet : Wallet) (g : Grouped) (address_info : AddressInfo) : RpcResult Grouped :=
  let '(Group ts cs es ss us) := g in
  let enc := encode_address wallet (address address_info) in
  match address address_info with
  | TransparentAddr _ | TexAddr _ =>
      match scope_of (source address_info) with
      | Some EXTERNAL | None => Ret (Group (ts ++ [enc]) cs es ss us)
      | Some INTERNAL => Ret (Group ts (cs ++ [enc]) es ss us)
      | Some EPHEMERAL => Ret (Group ts cs (es ++ [enc]) ss us)
      | Some (CustomScope _) => Err (of_code InternalError)
      end
  | SaplingAddr _ => Ret (Group ts cs es (ss ++ [enc]) us)
  | UnifiedAddr addr =>
      diversifier_index ← match source address_info with
        | DerivedAt diversifier_index _ => Ret diversifier_index
        | Standalone => Err (of_code InternalError)
        end;
      Ret (Group ts cs es ss (us ++ [{|
        u_diversifier_index := diversifier_index;
        u_receiver_types := receiver_type_name <$> ua_receiver_types addr;
        u_address := enc |}]))
  end.

(** The closure [add_addrs]. *)
Definition add_addrs (wallet : Wallet) (g : Grouped) (source : AddressSource)
    (derivation : option (SeedFingerprint * Z)) : AddressSource :=
  let seedfp := (fun d => fp_to_string d.1) <$> derivation in
  let account := (fun d : SeedFingerprint * Z => d.2) <$> derivation in
  let source :=
    if negb (nonempty (transparent_addresses g) || nonempty (transparent_change_addresses g) ||
             nonempty (transparent_ephemeral_addresses g)) then source
    else match seedfp, account with
    | Some seedfp, Some account => {|
        source_name := source_name source;
        imported_transparent := imported_transparent source;
        derived_transparent := derived_transparent source ++ [{|
          d_seedfp := seedfp; d_account := account; d_addresses := transparent_addresses g;
          d_change_addresses := transparent_change_addresses g;
          d_ephemeral_addresses := transparent_ephemeral_addresses g |}];
        sapling_groups := sapling_groups source;
        unified_groups := unified_groups source |}
    | _, _ =>
        let t := default {| t_addresses := []; t_change_addresses := [] |} (imported_transparent source) in {|
        source_name := source_name source;
        imported_transparent := Some {|
          t_addresses := t_addresses t ++ transparent_addresses g;
          t_change_addresses := t_change_addresses t ++ transparent_change_addresses g |};
        derived_transparent := derived_transparent source;
        sapling_groups := sapling_groups source;
        unified_groups := unified_groups source |}
    end in
  let sapling :=
    if nonempty (sapling_addresses g) then
      [{| zip32_key_path := (fun account_index =>
            ("m/32'/" +:+ show_num (coin_type wallet) +:+ "'/" +:+ show_num account_index +:+ "'")%string)
            <$> account;
          s_addresses := sapling_addresses g |}]
    else [] in {|
    source_name := source_name source;
    imported_transparent := imported_transparent source;
    derived_transparent := derived_transparent source;
    sapling_groups := sapling_groups source ++ sapling;
    unified_groups := unified_groups source ++
      [{| u_seedfp := seedfp; u_account := account; u_addresses := unified_addresses g |}] |}.

(** One round of the loop over the accounts, on [imported_watchonly] and
    [mnemonic_seed]. *)
Definition list_account (wallet : Wallet) (s : AddressSource * AddressSource) (account_id : AccountUuid) :
    RpcResult (AddressSource * AddressSource) :=
  let '(imported_watchonly, mnemonic_seed) := s in
  o ← map_err database_error (get_account wallet account_id);
  account ← ok_or o (of_code InternalError);
  addresses ← map_err database_error (list_addresses wallet (account_id_of account));
  g ← foldM (group_address wallet) (Group [] [] [] [] []) addresses;
  Ret match account_source account with
      | Derived derivation => (imported_watchonly, add_addrs wallet g mnemonic_seed (Some derivation))
      | Imported purpose =>
          let derivation := match purpose with
                            | Spending derivation => derivation
                            | ViewOnly => None
                            end in
          (add_addrs wallet g imported_watchonly derivation, mnemonic_seed)
      end.

Definition list_addresses_call (wallet : Wallet) : RpcResult (list AddressSource) :=
  account_ids ← map_err database_error (get_account_ids wallet);
  '(imported_watchonly, mnemonic_seed) ←
    foldM (list_account wallet) (empty "imported_watchonly", empty "mnemonic_seed") account_ids;
  Ret (base.filter (fun s => has_data s = true) [imported_watchonly; mnemonic_seed]).

(** ** z_listunifiedreceivers *)

Record ListUnifiedReceivers := {
  p2pkh_receiver : option string;
  p2sh_receiver : option string;
  sapling_receiver : option string;
  orchard_receiver : option string
}.

Definition list_unified_receivers (wallet : Wallet) (unified_address : string) : RpcResult ListUnifiedReceivers :=
  _ ← ensure (is_zcash_address unified_address)
    (with_message InvalidAddressOrKey (Text "Invalid address"));
  address ← ok_or (decode_ua wallet unified_address)
    (with_message InvalidParameter (Text "Address is not a unified address"));
  let transparent := (fun taddr =>
    match taddr with
    | PublicKeyHash _ => (Some (encode_taddr wallet taddr), None)
    | ScriptHash _ => (None, Some (encode_taddr wallet taddr))
    end) <$> ua_transparent address in
  let '(p2pkh, p2sh) := default (None, None) transparent in
  let sapling := encode_sapling wallet <$> ua_sapling address in
  let orchard := orch ← ua_orchard address;
                 encode_ua wallet <$> from_receivers (Some orch) None None in
  Ret {| p2pkh_receiver := p2pkh; p2sh_receiver := p2sh; sapling_receiver := sapling;
         orchard_receiver := orchard |}.

(** ** z_getaddressforaccount *)

(** The [Address] of the response. *)
Record AccountAddress := {
  a_account_uuid : string;
  a_account : option Z;
  a_diversifier_index : Z;
  a_receiver_types : list string;
  a_address : string
}.

Definition NO_SHIELDED : string := "Error: cannot generate an address containing no shielded receivers.".
Definition NO_P2SH : string := "Error: P2SH addresses can not be created using this RPC method.".

Definition map_address_generation_error (e : AddressGenerationError) (account : JsonValue) : ErrorObject :=
  match e with
  | InvalidTransparentChildIndex diversifier_index => with_message Rpc.Wallet (Text
      ("Error: diversifier index " +:+ show_num diversifier_index +:+
       " cannot generate an address with a transparent receiver.")%string)
  | InvalidSaplingDiversifierIndex diversifier_index => with_message Rpc.Wallet (Text
      ("Error: diversifier index " +:+ show_num diversifier_index +:+
       " cannot generate an address with a Sapling receiver.")%string)
  | DiversifierSpaceExhausted => with_static Rpc.Wallet
      "Error: ran out of diversifier indices. Generate a new account with z_getnewaccount"
  | ReceiverTypeNotSupported P2sh => with_static Rpc.Wallet NO_P2SH
  | ReceiverTypeNotSupported typecode => with_message Rpc.Wallet (Text
      ("Error: receiver type " +:+ debug_typecode typecode +:+ " is not supported.")%string)
  | KeyNotAvailable typecode => with_message Rpc.Wallet (Text
      ("Error: account " +:+ json_to_string account +:+
       " cannot generate a receiver component with type " +:+ debug_typecode typecode +:+ ".")%string)
  | ShieldedReceiverRequired => with_static Rpc.Wallet NO_SHIELDED
  | UnsupportedTransparentKeyScope s => with_message Rpc.Wallet (Text
      ("Error: Address generation is not supported for transparent key scope " +:+ s)%string)
  | Bip32DerivationError e => with_message Rpc.Wallet (Text
      ("An error occurred in BIP 32 address derivation: " +:+ e)%string)
  end.

Definition map_sqlite_error (e : SqliteClientError) (account : JsonValue) : ErrorObject :=
  match e with
  | TransparentDerivation error => with_message Rpc.Wallet (Text
      ("Error: failed to derive a transparent component: " +:+ error)%string)
  | AddressGeneration e => map_address_generation_error e account
  | AccountUnknown => with_message Rpc.Wallet (Text
      ("Error: account " +:+ json_to_string account +:+ " has not been generated by z_getnewaccount.")%string)
  | ChainHeightUnknown => with_static Rpc.Wallet
      "Error: chain height is unknown. Wait for syncing to progress and then try again."
  | ReachedGapLimit index => with_message Rpc.Wallet (Text
      ("Error: reached the transparent gap limit while attempting to generate a new address at index "
       +:+ show_num index +:+ ".")%string)
  | DiversifierIndexReuse diversifier_index => with_message Rpc.Wallet (Text
      ("Error: address at diversifier index " +:+ show_num diversifier_index +:+
       " was already generated with different receiver types.")%string)
  | OtherSqliteError _ => with_message Database (Text (sqlite_to_string e))
  end.

(** The variables of the loop over [receiver_types]. *)
Record Requested := {
  orchard : ReceiverRequirement;
  sapling_req : ReceiverRequirement;
  p2pkh : ReceiverRequirement;
  invalid_receivers : list string
}.

Definition read_receiver_type (s : Requested) (receiver_type : string) : RpcResult Requested :=
  if bool_decide (receiver_type = "orchard"%string) then
    Ret {| orchard := Require_; sapling_req := sapling_req s; p2pkh := p2pkh s;
           invalid_receivers := invalid_receivers s |}
  else if bool_decide (receiver_type = "sapling"%string) then
    Ret {| orchard := orchard s; sapling_req := Require_; p2pkh := p2pkh s;
           invalid_receivers := invalid_receivers s |}
  else if bool_decide (receiver_type = "p2sh"%string) then Err (with_static Rpc.Wallet NO_P2SH)
  else if bool_decide (receiver_type = "p2pkh"%string) then
    Ret {| orchard := orchard s; sapling_req := sapling_req s; p2pkh := Require_;
           invalid_receivers := invalid_receivers s |}
  else
    Ret {| orchard := orchard s; sapling_req := sapling_req s; p2pkh := p2pkh s;
           invalid_receivers := invalid_receivers s ++ [receiver_type] |}.

Definition no_receivers : Requested :=
  {| orchard := Omit; sapling_req := Omit; p2pkh := Omit; invalid_receivers := [] |}.

Definition invalid_receiver_error (invalid_receivers : list string) : ErrorObject :=
  with_message InvalidParameter (Text
    (debug_strings invalid_receivers +:+ " " +:+
     (if bool_decide (length invalid_receivers = 1%nat) then "is an invalid receiver type"
      else "are invalid receiver types") +:+
     ". Arguments must be “p2pkh”, “sapling”, or “orchard”")%string).

Definition read_receiver_types (receiver_types : option (list string)) :
    RpcResult (list string * UnifiedAddressRequest) :=
  match receiver_types with
  | Some ((_ :: _) as receiver_types) =>
      s ← foldM read_receiver_type no_receivers receiver_types;
      match invalid_receivers s with
      | [] => request ← ok_or (custom (orchard s) (sapling_req s) (p2pkh s))
                (with_static InvalidParameter NO_SHIELDED);
              Ret (receiver_types, request)
      | invalid_receivers => Err (invalid_receiver_error invalid_receivers)
      end
  | _ => Ret (["orchard"; "sapling"; "p2pkh"]%string, unsafe_custom Require_ Require_ Require_)
  end.

Definition get_address_for_account (account : JsonValue) (receiver_types : option (list string))
    (diversifier_index : option Z) : M Wallet ErrorObject AccountAddress :=
  wallet ← get;
  account_id ← lift (parse_account_parameter wallet account);
  '(receiver_types, request) ← lift (read_receiver_types receiver_types);
  diversifier_index ← lift match diversifier_index with
    | Some n => i ← parse_diversifier_index n; Ret (Some i)
    | None => Ret None
    end;
  '(address, diversifier_index) ←
    match diversifier_index with
    | Some diversifier_index =>
        o ← with_err (fun e => map_sqlite_error e account)
          (get_address_for_index account_id diversifier_index request);
        lift (address ← ok_or o (with_message Rpc.Wallet (Text
          ("Error: diversifier index " +:+ show_num (diversifier_index_value diversifier_index) +:+
           " cannot generate an address with the requested receivers.")%string));
          Ret (address, diversifier_index))
    | None =>
        o ← with_err (fun e => map_sqlite_error e account) (get_next_available_address account_id request);
        lift (ok_or o (of_code InternalError))
    end;
  let account := match account with
                 | JNumber n => as_u64 n
                 | _ => None
                 end in
  mret {| a_account_uuid := uuid_to_string account_id; a_account := account;
          a_diversifier_index := diversifier_index_value diversifier_index;
          a_receiver_types := receiver_types; a_address := encode_ua wallet address |}.
End addresses.

(** What the crates document: text codecs invert, an address of one receiver has
    that receiver only, and a request needs a shielded receiver. *)
Class AddressLaws `{AddressOps} := {
  decode_encode_ua : forall w a, decode_ua w (encode_ua w a) = Some a;
  encoded_ua_is_address : forall w a, is_zcash_address (encode_ua w a) = true;
  orchard_only : forall o, exists a, from_receivers (Some o) None None = Some a /\
    ua_orchard a = Some o /\ ua_sapling a = None /\ ua_transparent a = None;
  custom_spec : forall o s p, o <> Allow -> s <> Allow -> p <> Allow ->
    custom o s p = if bool_decide (o = Omit /\ s = Omit) then None else Some (unsafe_custom o s p)
}.

Section list_accounts_proofs.
Context `{AddressTables}.

(** No row of the address table is a TEX address. *)
Definition storable (a : AddressInfo) : Prop :=
  match address a with
  | TexAddr _ => False
  | _ => True
  end.

(** How a stored address is listed: under the name of its kind only. *)
Definition listed (w : Wallet) (a : AddressInfo) (e : ListedAddress) : Prop :=
  diversifier_index e = match source a with DerivedAt i _ => Some i | Standalone => None end /\
  (ua e, sapling e, transparent e) =
    match address a with
    | UnifiedAddr u => (Some (encode_ua w u), None, None)
    | SaplingAddr s => (None, Some (encode_sapling w s), None)
    | TransparentAddr t => (None, None, Some (encode_taddr w t))
    | TexAddr _ => (None, None, None)
    end.

Definition account_entry (w : Wallet) (id : AccountUuid) (acc : Account) (l : list AddressInfo)
    (e : ListedAccount) : Prop :=
  account_uuid e = uuid_to_string id /\ name e = account_name acc /\
  seedfp e = (fun d => fp_to_string d.1) <$> key_derivation acc /\
  zip32_account_index e = (fun d : SeedFingerprint * Z => d.2) <$> key_derivation acc /\
  exists es, addresses e = Some es /\ Forall2 (listed w) l es.

Definition without_addresses (e : ListedAccount) : ListedAccount := {|
  account_uuid := account_uuid e; name := name e; seedfp := seedfp e;
  zip32_account_index := zip32_account_index e; addresses := None |}.

Lemma listed_addresses_spec w l :
  Forall storable l -> exists es, traverse (listed_address w) l = Ret es /\ Forall2 (listed w) l es.
Proof.
  intros Hl. induction Hl as [|a l Ha _ (es & Hes & HF)]; [by exists []|].
  assert (exists e, listed_address w a = Ret e /\ listed w a e) as (e & He & Hle).
  { destruct a as [[]]; unfold storable in Ha; cbn in *; try done; by eexists. }
  exists (e :: es). cbn. rewrite He. cbn. rewrite Hes. cbn. split; [done|]. by constructor.
Qed.

(** What one account gives to any of the three calls. *)
Lemma account_details_spec w id acc l :
  is_account w id acc -> list_addresses w id = Ret l -> Forall storable l ->
  exists e, account_details w id true (listed_account id) = Ret e /\
    account_details w id true (single_account id) = Ret e /\
    account_details w id false (listed_account id) = Ret (without_addresses e) /\
    account_entry w id acc l e.
Proof.
  intros Hacc Hl Hst. destruct (listed_addresses_spec w l Hst) as (es & Hes & HF).
  unfold account_details. rewrite Hacc. cbn. rewrite Hl. cbn. rewrite Hes. cbn.
  eexists. split_and!; [done..|]. unfold account_entry. cbn. split_and!; try done. by exists es.
Qed.

(** z_listaccounts lists each account with its addresses, each under the name of
    its kind; z_getaccount of its UUID gives the same entry, and without addresses
    the same entries are listed without them. *)
Theorem list_accounts_correct w ids accs ls :
  get_account_ids w = Ret ids -> Forall2 (is_account w) ids accs ->
  Forall2 (fun id l => list_addresses w id = Ret l /\ Forall storable l) ids ls ->
  exists es, list_accounts w None = Ret es /\ list_accounts w (Some true) = Ret es /\
    list_accounts w (Some false) = Ret (without_addresses <$> es) /\
    Forall2 (fun id e => exists acc l, is_account w id acc /\ list_addresses w id = Ret l /\
      account_entry w id acc l e /\
      forall s, uuid_parse s = Some id -> get_account_call w s = Ret e) ids es.
Proof.
  intros Hids Haccs Hls. unfold list_accounts. rewrite Hids. cbn [map_err default]. clear Hids.
  enough (exists es, traverse (fun id => account_details w id true (listed_account id)) ids = Ret es /\
    traverse (fun id => account_details w id false (listed_account id)) ids = Ret (without_addresses <$> es) /\
    Forall2 (fun id e => exists acc l, is_account w id acc /\ list_addresses w id = Ret l /\
      account_entry w id acc l e /\
      forall s, uuid_parse s = Some id -> get_account_call w s = Ret e) ids es) as (es & ? & ? & ?)
    by (exists es; split_and!; done).
  revert accs Haccs. induction Hls as [|id l ids ls [Hl Hst] _ IH]; intros accs Haccs; [by exists []|].
  apply Forall2_cons_inv_l in Haccs as (acc & accs' & Hacc & Haccs & ->).
  destruct (IH accs' Haccs) as (es & Hr1 & Hr2 & HF).
  destruct (account_details_spec w id acc l Hacc Hl Hst) as (e & He1 & He2 & He3 & Hent).
  exists (e :: es). cbn [traverse]. rewrite He1, He3. cbn. rewrite Hr1, Hr2. cbn. split_and!; try done.
  constructor; [|done]. exists acc, l. split_and!; try done.
  intros s Hs. unfold get_account_call. by rewrite Hs.
Qed.
End list_accounts_proofs.

Section list_addresses_proofs.
Context `{AddressTables}.

(** The vector an address goes to; a unified address needs a diversifier index,
    and a transparent one a scope that is known. *)
Inductive Category := External | Change | Ephemeral | SaplingCategory | UnifiedCategory.

#[local] Instance Category_eq_dec : EqDecision Category.
Proof. solve_decision. Defined.

Definition category (a : AddressInfo) : option Category :=
  match address a, source a with
  | (TransparentAddr _ | TexAddr _), (DerivedAt _ (Some EXTERNAL | None) | Standalone) => Some External
  | (TransparentAddr _ | TexAddr _), DerivedAt _ (Some INTERNAL) => Some Change
  | (TransparentAddr _ | TexAddr _), DerivedAt _ (Some EPHEMERAL) => Some Ephemeral
  | (TransparentAddr _ | TexAddr _), DerivedAt _ (Some (CustomScope _)) => None
  | SaplingAddr _, _ => Some SaplingCategory
  | UnifiedAddr _, DerivedAt _ _ => Some UnifiedCategory
  | UnifiedAddr _, Standalone => None
  end.

(** The texts of the addresses of a category, in order. *)
Definition texts_of (w : Wallet) (c : Category) (l : list AddressInfo) : list string :=
  (fun a => encode_address w (address a)) <$> base.filter (fun a => category a = Some c) l.

Definition unified_entry (w : Wallet) (a : AddressInfo) : option UnifiedEntry :=
  match address a, source a with
  | UnifiedAddr u, DerivedAt i _ => Some {| u_diversifier_index := i;
      u_receiver_types := receiver_type_name <$> ua_receiver_types u; u_address := encode_ua w u |}
  | _, _ => None
  end.

(** An account: its derivation, and its addresses. *)
Definition entry : Type := option (SeedFingerprint * Z) * list AddressInfo.

Definition grouped (w : Wallet) (l : list AddressInfo) : Grouped := {|
  transparent_addresses := texts_of w External l;
  transparent_change_addresses := texts_of w Change l;
  transparent_ephemeral_addresses := texts_of w Ephemeral l;
  sapling_addresses := texts_of w SaplingCategory l;
  unified_addresses := omap (unified_entry w) l |}.

Definition unified_group (w : Wallet) (e : entry) : UnifiedAddresses := {|
  u_seedfp := (fun d => fp_to_string d.1) <$> e.1;
  u_account := snd <$> e.1;
  u_addresses := omap (unified_entry w) e.2 |}.

Definition sapling_group (w : Wallet) (e : entry) : option SaplingAddresses :=
  if nonempty (texts_of w SaplingCategory e.2) then Some {|
    zip32_key_path := (fun d : SeedFingerprint * Z =>
      ("m/32'/" +:+ show_num (coin_type w) +:+ "'/" +:+ show_num d.2 +:+ "'")%string) <$> e.1;
    s_addresses := texts_of w SaplingCategory e.2 |}
  else None.

Definition derived_group (w : Wallet) (e : entry) : option DerivedTransparentAddresses :=
  match e.1 with
  | Some d =>
      if nonempty (texts_of w External e.2) || nonempty (texts_of w Change e.2) ||
         nonempty (texts_of w Ephemeral e.2)
      then Some {| d_seedfp := fp_to_string d.1; d_account := d.2;
                   d_addresses := texts_of w External e.2; d_change_addresses := texts_of w Change e.2;
                   d_ephemeral_addresses := texts_of w Ephemeral e.2 |}
      else None
  | None => None
  end.

(** The texts of all addresses a source lists. *)
Definition texts (s : AddressSource) : list string :=
  match imported_transparent s with Some t => t_addresses t ++ t_change_addresses t | None => [] end ++
  concat ((fun d => d_addresses d ++ d_change_addresses d ++ d_ephemeral_addresses d) <$> derived_transparent s) ++
  concat (s_addresses <$> sapling_groups s) ++
  concat ((fun u => u_address <$> u_addresses u) <$> unified_groups s).

(** The addresses of an account that are listed: all of them, but the ephemeral
    ones of an account without derivation. *)
Definition kept (w : Wallet) (e : entry) : list string :=
  (fun a => encode_address w (address a)) <$>
    base.filter (fun a => ~ (e.1 = None /\ category a = Some Ephemeral)) e.2.

Definition add_entry (w : Wallet) (s : AddressSource) (e : entry) : AddressSource :=
  add_addrs w (grouped w e.2) s e.1.

(** What the section says of a source that lists accounts [es]. *)
Definition lists (w : Wallet) (s : AddressSource) (es : list entry) : Prop :=
  texts s ≡ₚ concat (kept w <$> es) /\
  unified_groups s = unified_group w <$> es /\
  sapling_groups s = omap (sapling_group w) es /\
  derived_transparent s = omap (derived_group w) es.

Lemma texts_of_app w c l l' : texts_of w c (l ++ l') = texts_of w c l ++ texts_of w c l'.
Proof. unfold texts_of. by rewrite filter_app, fmap_app. Qed.

(** The vectors of two parts of a list of addresses, put together. *)
Definition join (g g' : Grouped) : Grouped := {|
  transparent_addresses := transparent_addresses g ++ transparent_addresses g';
  transparent_change_addresses := transparent_change_addresses g ++ transparent_change_addresses g';
  transparent_ephemeral_addresses := transparent_ephemeral_addresses g ++ transparent_ephemeral_addresses g';
  sapling_addresses := sapling_addresses g ++ sapling_addresses g';
  unified_addresses := unified_addresses g ++ unified_addresses g' |}.

Lemma join_grouped w g l l' : join (join g (grouped w l)) (grouped w l') = join g (grouped w (l ++ l')).
Proof. unfold join, grouped. cbn -[texts_of]. by rewrite !texts_of_app, omap_app, <- !(assoc_L (++)). Qed.

Lemma group_address_spec w g a :
  group_address w g a =
    match category a with
    | Some _ => Ret (join g (grouped w [a]))
    | None => Err (of_code InternalError)
    end.
Proof. destruct g, a as [[] [i [[]|]|]]; cbn; unfold join, grouped, texts_of; cbn; by rewrite ?app_nil_r. Qed.

Lemma group_addresses_spec w l g :
  foldM (group_address w) g l =
    if bool_decide (Forall (fun a => is_Some (category a)) l) then Ret (join g (grouped w l))
    else Err (of_code InternalError).
Proof.
  revert g. induction l as [|a l IH]; intros g; cbn [foldM].
  { rewrite bool_decide_true by done. unfold join. destruct g; cbn. by rewrite !app_nil_r. }
  rewrite group_address_spec. destruct (category a) eqn:Hc; cbn [mbind outcome_bind].
  - rewrite IH, join_grouped. cbn [app].
    assert (Forall (fun a => is_Some (category a)) (a :: l) <-> Forall (fun a => is_Some (category a)) l) as Hiff.
    { rewrite Forall_cons, Hc. split; [by intros [_ ?]|]. split; [by eexists|done]. }
    by rewrite (bool_decide_ext _ _ Hiff).
  - rewrite bool_decide_false; [done|]. rewrite Forall_cons, Hc. by intros [[? ?] _].
Qed.

Lemma texts_of_cons w c a l :
  texts_of w c (a :: l) =
    (if bool_decide (category a = Some c) then [encode_address w (address a)] else []) ++ texts_of w c l.
Proof. unfold texts_of. rewrite filter_cons. by case_bool_decide; case_decide. Qed.

Lemma kept_cons w d a l :
  kept w (d, a :: l) =
    (if bool_decide (d = None /\ category a = Some Ephemeral) then [] else [encode_address w (address a)]) ++
    kept w (d, l).
Proof.
  unfold kept. cbn [fst snd]. rewrite filter_cons.
  case_bool_decide as Hb; case_decide as Hd; cbn in Hd; try done; tauto.
Qed.

(** Every address is in exactly one of the categories. *)
Lemma kept_categories w d l :
  Forall (fun a => is_Some (category a)) l ->
  kept w (d, l) ≡ₚ texts_of w External l ++ texts_of w Change l ++
    match d with Some _ => texts_of w Ephemeral l | None => [] end ++
    texts_of w SaplingCategory l ++ (u_address <$> omap (unified_entry w) l).
Proof.
  induction 1 as [|a l [c Hc] _ IH]; [by destruct d|].
  rewrite kept_cons, !texts_of_cons, IH, Hc.
  change (omap (unified_entry w) (a :: l)) with (omap (unified_entry w) ([a] ++ l)).
  rewrite omap_app, fmap_app.
  assert (u_address <$> omap (unified_entry w) [a] =
    if bool_decide (category a = Some UnifiedCategory) then [encode_address w (address a)] else []) as ->.
  { by destruct a as [[] [i [[]|]|]]. }
  rewrite Hc. destruct c, d; repeat first [rewrite bool_decide_true by (by split || done)
    | rewrite bool_decide_false by (by intros [=] || by intros [[=] [=]] || by intros [_ [=]])]; solve_Permutation.
Qed.

Lemma nonempty_false {A} (l : list A) : nonempty l = false -> l = [].
Proof. by destruct l. Qed.

Lemma texts_add_entry w s e :
  Forall (fun a => is_Some (category a)) e.2 -> texts (add_entry w s e) ≡ₚ texts s ++ kept w e.
Proof.
  destruct e as [d l]. cbn [snd]. intros Hl. rewrite kept_categories by done.
  unfold add_entry, add_addrs. cbn -[texts_of]. destruct (nonempty (texts_of w SaplingCategory l)) eqn:Hs;
    [|apply nonempty_false in Hs; rewrite Hs].
  all: destruct (_ || _) eqn:Hn; [|apply orb_false_iff in Hn as [[Ha%nonempty_false Hb%nonempty_false]%orb_false_iff
    Hc%nonempty_false]; rewrite Ha, Hb, Hc].
  all: destruct s as [? [[]|] ?]; destruct d; unfold texts; cbn -[texts_of];
    rewrite ?fmap_app, ?concat_app; cbn -[texts_of]; rewrite ?app_nil_r; try solve_Permutation.
Qed.

Lemma lists_add_entry w s es e :
  Forall (fun a => is_Some (category a)) e.2 -> lists w s es -> lists w (add_entry w s e) (es ++ [e]).
Proof.
  intros He (Ht & Hu & Hs & Hd). unfold lists. rewrite texts_add_entry by done.
  rewrite !fmap_app, !omap_app, concat_app. cbn [fmap list_fmap concat]. rewrite app_nil_r, Ht. split; [done|].
  rewrite <- Hu, <- Hs, <- Hd. destruct e as [d l]. unfold add_entry, add_addrs, sapling_group, derived_group.
  cbn -[texts_of nonempty]. destruct (nonempty (texts_of w SaplingCategory l)), d, (_ || _);
    cbn -[texts_of nonempty]; rewrite ?app_nil_r; done.
Qed.

Lemma add_entry_name w s e : source_name (add_entry w s e) = source_name s.
Proof.
  unfold add_entry, add_addrs. cbn -[texts_of nonempty]. destruct (negb _); [done|]. by destruct e.1.
Qed.

Lemma add_entry_has_data w s e : has_data (add_entry w s e) = true.
Proof.
  unfold has_data, add_entry, add_addrs. cbn [unified_groups]. rewrite orb_true_iff. right.
  by destruct (unified_groups _).
Qed.

Lemma lists_fold w name es :
  Forall (fun e => Forall (fun a => is_Some (category a)) e.2) es ->
  let s := foldl (add_entry w) (empty name) es in
  lists w s es /\ source_name s = name /\ has_data s = nonempty es.
Proof.
  intros Hes. induction es as [|e es IH] using rev_ind; [done|]. apply Forall_app in Hes as [Hes He]. rewrite Forall_singleton in He.
  rewrite foldl_app. cbn [foldl]. destruct (IH Hes) as (Hl & Hn & _). split_and!.
  - by apply lists_add_entry.
  - by rewrite add_entry_name.
  - rewrite add_entry_has_data. by destruct es.
Qed.

(** The accounts of the two sources. *)
Definition imported_entry (p : Account * list AddressInfo) : option entry :=
  match account_source p.1 with
  | Imported (Spending d) => Some (d, p.2)
  | Imported ViewOnly => Some (None, p.2)
  | Derived _ => None
  end.

Definition derived_entry (p : Account * list AddressInfo) : option entry :=
  match account_source p.1 with
  | Derived d => Some (Some d, p.2)
  | Imported _ => None
  end.

(** What the wallet stores of an account. *)
Definition stored (w : Wallet) (id : AccountUuid) (p : Account * list AddressInfo) : Prop :=
  is_account w id p.1 /\ list_addresses w (account_id_of p.1) = Ret p.2.

Definition classified (p : Account * list AddressInfo) : Prop := Forall (fun a => is_Some (category a)) p.2.

Lemma list_accounts_loop w ids ps i m :
  Forall2 (stored w) ids ps ->
  foldM (list_account w) (i, m) ids =
    if bool_decide (Forall classified ps) then
      Ret (foldl (add_entry w) i (omap imported_entry ps), foldl (add_entry w) m (omap derived_entry ps))
    else Err (of_code InternalError).
Proof.
  intros Hps. revert i m. induction Hps as [|id [acc l] ids ps [Hacc Hl] _ IH]; intros i m.
  { by rewrite bool_decide_true by done. }
  cbn [foldM]. unfold list_account. rewrite Hacc. cbn [mbind outcome_bind map_err ok_or fst]. cbn [fst] in Hl. rewrite Hl.
  cbn [mbind outcome_bind map_err]. rewrite group_addresses_spec. cbn [snd].
  destruct (decide (Forall (fun a => is_Some (category a)) l)) as [Hc|Hc];
    [rewrite (bool_decide_true _ Hc)|rewrite (bool_decide_false _ Hc)]; cbn [mbind outcome_bind].
  - replace (join _ _) with (grouped w l) by done.
    assert (Forall classified ((acc, l) :: ps) <-> Forall classified ps) as Hiff.
    { rewrite Forall_cons. split; [by intros [_ ?]|intros Hps; split; [exact Hc|exact Hps]]. }
    rewrite (bool_decide_ext _ _ Hiff). cbn [omap list_omap]. unfold imported_entry, derived_entry. cbn [fst snd].
    by destruct (account_source acc) as [d|[d|]]; rewrite IH.
  - rewrite bool_decide_false; [done|]. rewrite Forall_cons. by intros [Hn _].
Qed.

Lemma Forall_entries (f : Account * list AddressInfo -> option entry) ps :
  (forall p e, f p = Some e -> e.2 = p.2) -> Forall classified ps ->
  Forall (fun e : entry => Forall (fun a => is_Some (category a)) e.2) (omap f ps).
Proof.
  intros Hf Hps. apply Forall_forall. intros e (p & Hp & He)%list_elem_of_omap.
  rewrite (Hf p e He). by eapply Forall_forall in Hps.
Qed.

Lemma filter_pair {A} (f : A -> bool) i m :
  base.filter (fun s => f s = true) [i; m] = (if f i then [i] else []) ++ (if f m then [m] else []).
Proof. rewrite !filter_cons, filter_nil. by destruct (f i), (f m). Qed.

(** When every address has a category, the response lists every address
    of every account once, in its category and under the source of its
    account, except the ephemeral addresses of accounts without derivation; an
    address without a category fails the call. *)
Theorem list_addresses_correct w ids ps :
  get_account_ids w = Ret ids -> Forall2 (stored w) ids ps ->
  if bool_decide (Forall classified ps) then
    exists imported_watchonly mnemonic_seed,
      list_addresses_call w = Ret
        ((if nonempty (omap imported_entry ps) then [imported_watchonly] else []) ++
         (if nonempty (omap derived_entry ps) then [mnemonic_seed] else [])) /\
      source_name imported_watchonly = "imported_watchonly"%string /\
      lists w imported_watchonly (omap imported_entry ps) /\
      source_name mnemonic_seed = "mnemonic_seed"%string /\
      lists w mnemonic_seed (omap derived_entry ps)
  else list_addresses_call w = Err (of_code InternalError).
Proof.
  intros Hids Hps. unfold list_addresses_call. rewrite Hids. cbn [mbind outcome_bind map_err].
  rewrite (list_accounts_loop w ids ps) by done. case_bool_decide as Hc; [|done]. cbn [mbind outcome_bind].
  destruct (lists_fold w "imported_watchonly" (omap imported_entry ps)) as (Hi & Hin & Hid).
  { apply Forall_entries; [|done]. intros [a l] e. unfold imported_entry. cbn.
    by destruct (account_source a) as [|[]]; intros [= <-]. }
  destruct (lists_fold w "mnemonic_seed" (omap derived_entry ps)) as (Hm & Hmn & Hmd).
  { apply Forall_entries; [|done]. intros [a l] e. unfold derived_entry. cbn.
    by destruct (account_source a) as [|[]]; intros [= <-]. }
  set (i := foldl _ (empty "imported_watchonly") _) in *. set (m := foldl _ (empty "mnemonic_seed") _) in *.
  exists i, m. split_and!; try done. rewrite filter_pair. f_equal. f_equal; [by rewrite Hid|by rewrite Hmd].
Qed.
End list_addresses_proofs.

(** What the wallet documents of the addresses it derives: they have the
    receivers required, and none of those omitted. *)
Definition has_receivers `{AddressOps} (a : UnifiedAddress) (o s p : ReceiverRequirement) : Prop :=
  (is_Some (ua_orchard a) <-> o = Require_) /\ (is_Some (ua_sapling a) <-> s = Require_) /\
  (is_Some (ua_transparent a) <-> p = Require_).

Class TablesLaws `{AddressTables} := {
  index_receivers : forall id i o s p w a w', o <> Allow -> s <> Allow -> p <> Allow ->
    get_address_for_index id i (unsafe_custom o s p) w = (Ret (Some a), w') -> has_receivers a o s p;
  next_receivers : forall id o s p w a i w', o <> Allow -> s <> Allow -> p <> Allow ->
    get_next_available_address id (unsafe_custom o s p) w = (Ret (Some (a, i)), w') -> has_receivers a o s p
}.

Section receivers_proofs.
Context `{AddressTables} `{!AddressLaws}.

(** A unified address is listed with the text of each of its receivers, under at
    most one of the two transparent names; the text of its Orchard receiver is a
    unified address that is listed with that receiver only. *)
Theorem list_unified_receivers_correct w s a :
  decode_ua w s = Some a -> is_zcash_address s = true ->
  exists r, list_unified_receivers w s = Ret r /\
    sapling_receiver r = encode_sapling w <$> ua_sapling a /\
    match ua_transparent a with
    | Some t => match t with
                | PublicKeyHash _ => p2pkh_receiver r = Some (encode_taddr w t) /\ p2sh_receiver r = None
                | ScriptHash _ => p2pkh_receiver r = None /\ p2sh_receiver r = Some (encode_taddr w t)
                end
    | None => p2pkh_receiver r = None /\ p2sh_receiver r = None
    end /\
    (is_Some (orchard_receiver r) <-> is_Some (ua_orchard a)) /\
    forall o, orchard_receiver r = Some o -> list_unified_receivers w o = Ret {|
      p2pkh_receiver := None; p2sh_receiver := None; sapling_receiver := None; orchard_receiver := Some o |}.
Proof.
  intros Ha Hs. unfold list_unified_receivers at 1. rewrite Ha, Hs. cbn [ensure ok_or mbind outcome_bind].
  set (orchard := ua_orchard a ≫= _).
  assert ((is_Some orchard <-> is_Some (ua_orchard a)) /\
    forall o, orchard = Some o -> list_unified_receivers w o = Ret {|
      p2pkh_receiver := None; p2sh_receiver := None; sapling_receiver := None; orchard_receiver := Some o |})
    as [Hiff Hself].
  { subst orchard. destruct (ua_orchard a) as [o|]; cbn; [|done].
    destruct (orchard_only o) as (u & Hu & Huo & Hus & Hut). rewrite Hu. cbn. split; [split; by eexists|].
    intros ? [= <-]. unfold list_unified_receivers. rewrite encoded_ua_is_address, decode_encode_ua. cbn.
    by rewrite Huo, Hus, Hut; cbn; rewrite Hu. }
  destruct (ua_transparent a) as [[h|h]|]; cbn; by eexists.
Qed.

(** ** Requests *)

Definition asked (r : string) (l : list string) : ReceiverRequirement :=
  if bool_decide (r ∈ l) then Require_ else Omit.

Definition known_types : list string := ["orchard"; "sapling"; "p2pkh"]%string.

(** Evaluates decisions on literals. *)
Ltac eval_decisions :=
  repeat match goal with
  | |- context [bool_decide (?x = ?y)] =>
      let b := eval vm_compute in (bool_decide (x = y)) in
      match b with true => idtac | false => idtac end;
      change (bool_decide (x = y)) with b
  end.

(** The loop with the variables [s] before it. *)
Lemma read_receiver_loop s l :
  foldM read_receiver_type s l =
    if bool_decide ("p2sh"%string ∈ l) then Err (with_static Rpc.Wallet NO_P2SH)
    else Ret {|
      orchard := if bool_decide ("orchard"%string ∈ l) then Require_ else orchard s;
      sapling_req := if bool_decide ("sapling"%string ∈ l) then Require_ else sapling_req s;
      p2pkh := if bool_decide ("p2pkh"%string ∈ l) then Require_ else p2pkh s;
      invalid_receivers := invalid_receivers s ++ base.filter (fun r => r ∉ known_types) l |}.
Proof.
  revert s. induction l as [|r l IH]; intros s; cbn [foldM].
  { rewrite !bool_decide_false by (by intros ?%not_elem_of_nil). destruct s; cbn. by rewrite app_nil_r. }
  pose proof (eq_refl (read_receiver_type s r)) as Hstep. unfold read_receiver_type in Hstep at 2.
  rewrite Hstep, filter_cons. clear Hstep.
  assert (forall x, bool_decide (x ∈ r :: l) = bool_decide (r = x) || bool_decide (x ∈ l)) as Hcons.
  { intros x. rewrite (bool_decide_ext (x ∈ r :: l) (r = x \/ x ∈ l)); [by rewrite bool_decide_or|].
    rewrite elem_of_cons. naive_solver. }
  rewrite !Hcons. destruct (decide (r ∉ known_types)) as [Hr|Hr].
  - assert (r <> "orchard" /\ r <> "sapling" /\ r <> "p2pkh")%string as (Ho & Hs & Hp)
      by (split_and!; intros ->; apply Hr; vm_compute; set_solver).
    rewrite (bool_decide_false _ Ho), (bool_decide_false _ Hs), (bool_decide_false _ Hp). cbn [orb].
    destruct (decide (r = "p2sh"%string)) as [Hp2|Hp2];
      [by rewrite (bool_decide_true _ Hp2)|rewrite (bool_decide_false _ Hp2)].
    cbn [orb mbind outcome_bind]. rewrite IH. cbn.
    by rewrite <- (assoc_L (++)).
  - apply dec_stable in Hr. unfold known_types in Hr. rewrite !elem_of_cons in Hr.
    destruct Hr as [-> | [-> | [-> | []%not_elem_of_nil]]]; eval_decisions; cbn; rewrite IH; cbn;
      by repeat case_bool_decide.
Qed.

(** A request that means something: the receiver types asked for, all three when
    none are, with the requirements they put on each receiver. *)
Definition request_for (types : option (list string)) (rs : list string) (o s p : ReceiverRequirement) : Prop :=
  o = asked "orchard" rs /\ s = asked "sapling" rs /\ p = asked "p2pkh" rs /\
  Forall (fun r => r ∈ known_types) rs /\ ("orchard"%string ∈ rs \/ "sapling"%string ∈ rs) /\
  match types with
  | Some ((_ :: _) as l) => rs = l
  | _ => rs = known_types
  end.

Lemma asked_not_Allow r l : asked r l <> Allow.
Proof. unfold asked. by case_bool_decide. Qed.

Lemma filter_unknown l : base.filter (fun r => r ∉ known_types) l = [] <-> Forall (fun r => r ∈ known_types) l.
Proof.
  rewrite Forall_forall. split.
  - intros Hnil r Hr. destruct (decide (r ∈ known_types)); [done|].
    assert (r ∈ base.filter (fun r => r ∉ known_types) l) as Hin by (by apply list_elem_of_filter).
    rewrite Hnil in Hin. by apply not_elem_of_nil in Hin.
  - intros Hall. destruct (base.filter _ l) as [|r l'] eqn:Hf; [done|].
    assert (r ∈ base.filter (fun r => r ∉ known_types) l) as [Hn Hr]%list_elem_of_filter by (rewrite Hf; by left).
    by apply Hall in Hr.
Qed.

Lemma read_receiver_types_spec types rs req :
  read_receiver_types types = Ret (rs, req) <->
  exists o s p, request_for types rs o s p /\ req = unsafe_custom o s p.
Proof.
  destruct types as [[|t l]|]; cbn [read_receiver_types].
  1,3: split; [intros [= <- <-]; eexists _, _, _; split; [|done]; unfold request_for; split_and!; try done;
      [by rewrite Forall_forall|by left; left]
    |by intros (o & s & p & (-> & -> & -> & _ & _ & ->) & ->)].
  rewrite read_receiver_loop. remember (t :: l) as l' eqn:Hl'. split.
  - case_bool_decide as Hp2; [done|]. cbn. intros Hr.
    destruct (base.filter _ l') eqn:Hf; [|done]. apply filter_unknown in Hf.
    rewrite custom_spec in Hr by (by apply asked_not_Allow). case_bool_decide as Hnone; [done|].
    cbn in Hr. injection Hr as <- <-. exists (asked "orchard" l'), (asked "sapling" l'), (asked "p2pkh" l').
    split; [|done]. unfold request_for. split_and!; try done; [|by rewrite Hl'].
    destruct (decide ("orchard"%string ∈ l')); [by left|]. destruct (decide ("sapling"%string ∈ l')); [by right|].
    destruct Hnone. by rewrite !bool_decide_false.
  - intros (o & s & p & (-> & -> & -> & Hk & Hsh & Hrs) & ->). rewrite Hl' in Hrs. rewrite <- Hl' in Hrs. subst rs.
    rewrite bool_decide_false.
    + cbn. rewrite (proj2 (filter_unknown l') Hk). cbn.
      rewrite custom_spec by (by apply asked_not_Allow). rewrite bool_decide_false; [done|].
      intros [Ho Hs]. by destruct Hsh as [Hin|Hin]; rewrite (bool_decide_true _ Hin) in *.
    + intros Hin. rewrite Forall_forall in Hk. apply Hk in Hin. revert Hin.
      apply (bool_decide_unpack ("p2sh"%string ∉ known_types)). by vm_compute.
Qed.

Definition answer (w : Wallet) (account : JsonValue) (id : AccountUuid) (rs : list string)
    (a : UnifiedAddress) (i : DiversifierIndex) : AccountAddress := {|
  a_account_uuid := uuid_to_string id;
  a_account := match account with JNumber t => as_u64 t | _ => None end;
  a_diversifier_index := diversifier_index_value i;
  a_receiver_types := rs;
  a_address := encode_ua w a |}.

(** The wallet derives the address [a] at [i], the index asked for if one is. *)
Definition derives (n : option Z) (id : AccountUuid) (o s p : ReceiverRequirement) (w : Wallet)
    (a : UnifiedAddress) (i : DiversifierIndex) (w' : Wallet) : Prop :=
  match n with
  | Some n => diversifier_index_of n = Some i /\
      get_address_for_index id i (unsafe_custom o s p) w = (Ret (Some a), w')
  | None => get_next_available_address id (unsafe_custom o s p) w = (Ret (Some (a, i)), w')
  end.

Lemma get_address_for_account_spec account types n w r w' :
  get_address_for_account account types n w = (Ret r, w') <->
  exists id rs o s p a i,
    parse_account_parameter w account = Ret id /\ request_for types rs o s p /\
    derives n id o s p w a i w' /\ r = answer w account id rs a i.
Proof.
  unfold get_address_for_account. rewrite run_bind_Ret. setoid_rewrite run_get_Ret. split.
  - intros (w0 & w1 & [-> ->] & Hr). apply run_bind_Ret in Hr as (id & w2 & [Hid ->]%run_lift_Ret & Hr).
    apply run_bind_Ret in Hr as ([rs req] & w3 & [Hreq ->]%run_lift_Ret & Hr).
    apply read_receiver_types_spec in Hreq as (o & s & p & Hreq & ->).
    apply run_bind_Ret in Hr as (oi & w4 & [Hoi ->]%run_lift_Ret & Hr).
    apply run_bind_Ret in Hr as ([a i] & w5 & Ha & [-> ->]%run_ret_Ret).
    exists id, rs, o, s, p, a, i. split_and!; try done. destruct n as [n|].
    + apply bind_Ret in Hoi as (i0 & Hi & [= <-]). apply ok_or_Ret in Hi.
      apply run_bind_Ret in Ha as (oa & w6 & Ha%run_with_err_Ret & [Hoa ->]%run_lift_Ret).
      apply bind_Ret in Hoa as (a0 & Hoa%ok_or_Ret & [= -> ->]). by rewrite Hoa in Ha.
    + injection Hoi as <-. apply run_bind_Ret in Ha as (oa & w6 & Ha%run_with_err_Ret & [Hoa%ok_or_Ret ->]%run_lift_Ret).
      by rewrite Hoa in Ha.
  - intros (id & rs & o & s & p & a & i & Hid & Hreq & Hn & ->). exists w, w. split; [done|].
    apply run_bind_Ret. exists id, w. split; [by rewrite Hid|].
    apply run_bind_Ret. exists (rs, unsafe_custom o s p), w. split.
    { apply run_lift_Ret. split; [|done]. apply read_receiver_types_spec. by exists o, s, p. }
    apply run_bind_Ret. destruct n as [n|].
    + destruct Hn as [Hi Ha]. exists (Some i), w. split; [unfold parse_diversifier_index; by rewrite Hi|].
      apply run_bind_Ret. exists (a, i), w'. split; [|done].
      apply run_bind_Ret. exists (Some a), w'. split; [by apply run_with_err_Ret|done].
    + exists None, w. split; [done|]. apply run_bind_Ret. exists (a, i), w'. split; [|done].
      apply run_bind_Ret. exists (Some (a, i)), w'. split; [by apply run_with_err_Ret|done].
Qed.

(** The call succeeds exactly when the account exists, the receiver types
    are known ones with a shielded one among them and the wallet derives an
    address for exactly those receivers, at the index given if one is; the
    address returned has exactly the receivers listed; a request that means
    nothing fails without touching the wallet. *)
Theorem get_address_for_account_correct `{!TablesLaws} account types n w :
  (forall r w', get_address_for_account account types n w = (Ret r, w') <->
     exists id rs o s p a i,
       parse_account_parameter w account = Ret id /\ request_for types rs o s p /\
       derives n id o s p w a i w' /\ r = answer w account id rs a i) /\
  (forall r w', get_address_for_account account types n w = (Ret r, w') ->
     exists a, decode_ua w (a_address r) = Some a /\
       (is_Some (ua_orchard a) <-> "orchard"%string ∈ a_receiver_types r) /\
       (is_Some (ua_sapling a) <-> "sapling"%string ∈ a_receiver_types r) /\
       (is_Some (ua_transparent a) <-> "p2pkh"%string ∈ a_receiver_types r)) /\
  ((forall rs o s p, ~ request_for types rs o s p) ->
     (get_address_for_account account types n w).2 = w /\
     is_ret (get_address_for_account account types n w).1 = false).
Proof.
  split_and!; [intros; apply get_address_for_account_spec| |].
  - intros r w' (id & rs & o & s & p & a & i & _ & (Ho & Hs & Hp & _) & Hn & ->)%get_address_for_account_spec.
    exists a. split; [apply decode_encode_ua|]. cbn [answer a_receiver_types].
    assert (has_receivers a o s p) as (Hro & Hrs & Hrp).
    { pose proof asked_not_Allow. destruct n as [n|]; [destruct Hn as [_ Hn]; eapply index_receivers, Hn
        |eapply next_receivers, Hn]; by subst. }
    rewrite Hro, Hrs, Hrp, Ho, Hs, Hp. unfold asked. split_and!; by case_bool_decide.
  - intros Hno. unfold get_address_for_account. rewrite run_bind. cbn [get].
    rewrite run_bind. unfold lift at 1. destruct (parse_account_parameter w account); [|done..].
    rewrite run_bind. unfold lift at 1. destruct (read_receiver_types types) as [[rs req]| |] eqn:Hr; [|done..].
    apply read_receiver_types_spec in Hr as (o & s & p & Hr & _). by apply Hno in Hr.
Qed.
End receivers_proofs.

(** ** An instance: the wallet of four accounts, with receivers of one value each *)

Section example.
#[local] Existing Instance example_params.

Definition toy_ua : Type := bool * bool * option (TransparentAddress unit).

Definition toy_encode (a : toy_ua) : string :=
  ("u" +:+ (if a.1.1 then "o" else "-") +:+ (if a.1.2 then "s" else "-") +:+
   match a.2 with Some (PublicKeyHash _) => "p" | Some (ScriptHash _) => "h" | None => "-" end)%string.

Definition toy_uas : list toy_ua :=
  o ← [true; false]; s ← [true; false]; p ← [Some (PublicKeyHash tt); Some (ScriptHash tt); None]; [(o, s, p)].

Definition toy_decode (s : string) : option toy_ua := head (base.filter (fun a => toy_encode a = s) toy_uas).

Definition requires (r : ReceiverRequirement) : bool := bool_decide (r = Require_).

#[local] Instance toy_addresses : AddressOps := {|
  SaplingReceiver := unit; OrchardReceiver := unit; AddressHash := unit; UnifiedAddress := toy_ua;
  UnifiedAddressRequest := ReceiverRequirement * ReceiverRequirement * ReceiverRequirement;
  account_id_of a := match a with Some (5, k) => if k =? 0 then 1 else 2 | Some _ => 3 | None => 4 end;
  account_name a := None;
  account_source a := match a with Some d => Derived d | None => Imported ViewOnly end;
  uuid_to_string i := if i =? 1 then "one"%string else "other"%string;
  fp_to_string _ := "fp"%string; show_num _ := "0"%string; coin_type _ := 133;
  diversifier_index_value i := i;
  ua_transparent a := a.2; ua_sapling a := if a.1.2 then Some tt else None;
  ua_orchard a := if a.1.1 then Some tt else None; ua_receiver_types a := [];
  from_receivers o s p := Some (bool_decide (is_Some o), bool_decide (is_Some s), p);
  encode_ua _ := toy_encode; decode_ua _ := toy_decode; encode_sapling _ _ := "zs"%string;
  encode_taddr _ t := match t with PublicKeyHash _ => "t1"%string | ScriptHash _ => "t3"%string end;
  encode_tex _ _ := "tex"%string;
  custom o s p := if bool_decide (o = Omit /\ s = Omit) then None else Some (o, s, p);
  unsafe_custom o s p := (o, s, p);
  is_zcash_address _ := true; debug_strings _ := "[..]"%string; debug_typecode _ := "?"%string;
  json_to_string _ := "3"%string |}.

#[local] Instance toy_tables : AddressTables := {|
  list_addresses w i := Ret
    (if i =? 1 then [Info (UnifiedAddr (true, true, None)) (DerivedAt 7 None);
                     Info (TransparentAddr (PublicKeyHash tt)) (DerivedAt 0 (Some EPHEMERAL))]
     else if i =? 4 then [Info (TransparentAddr (ScriptHash tt)) Standalone;
                          Info (TransparentAddr (PublicKeyHash tt)) (DerivedAt 1 (Some EPHEMERAL))]
     else []);
  get_address_for_index id i r := mret (Some (requires r.1.1, requires r.1.2,
    if requires r.2 then Some (PublicKeyHash tt) else None));
  get_next_available_address id r := mret (Some ((requires r.1.1, requires r.1.2,
    if requires r.2 then Some (PublicKeyHash tt) else None), 0));
  sqlite_to_string _ := "error"%string |}.

#[local] Instance toy_address_laws : AddressLaws.
Proof.
  split; try done.
  - intros w [[[] []] [[[]|[]]|]]; by vm_compute.
  - intros o. exists (true, false, None). by destruct o.
Qed.

#[local] Instance toy_tables_laws : TablesLaws.
Proof.
  assert (forall o s p, o <> Allow -> s <> Allow -> p <> Allow -> has_receivers (H0:=toy_addresses)
    (requires o, requires s, if requires p then Some (PublicKeyHash tt) else None) o s p) as Hr.
  { intros [] [] [] ? ? ?; try done; unfold has_receivers, requires; cbn; split_and!; split;
      try done; try (by eexists); by intros [? [=]]. }
  split; [intros id i o s p w a w' ? ? ? [= <- <-]|intros id o s p w a i w' ? ? ? [= <- <- <-]]; by apply Hr.
Qed.

Definition toy_p2pkh : @UnifiedAddress example_params toy_addresses := (true, false, Some (PublicKeyHash tt)).

Lemma list_accounts_correct_witness :
  exists es, list_accounts example_wallet None = Ret es /\
    list_accounts example_wallet (Some false) = Ret (without_addresses <$> es).
Proof.
  destruct (list_accounts_correct example_wallet [1; 2; 3; 4] [Some (5, 0); Some (5, 3); Some (9, 3); None]
    ((fun i => match list_addresses example_wallet i with Ret l => l | _ => [] end) <$> [1; 2; 3; 4]))
    as (es & ? & ? & ? & ?); [done|by repeat constructor|by repeat constructor|]. by exists es.
Defined.

Lemma list_addresses_correct_witness :
  list_addresses_call example_wallet =
    Ret [{| source_name := "imported_watchonly";
            imported_transparent := Some {| t_addresses := ["t3"%string]; t_change_addresses := [] |};
            derived_transparent := []; sapling_groups := [];
            unified_groups := [{| u_seedfp := None; u_account := None; u_addresses := [] |}] |};
         {| source_name := "mnemonic_seed"; imported_transparent := None;
            derived_transparent := [{| d_seedfp := "fp"; d_account := 0; d_addresses := [];
              d_change_addresses := []; d_ephemeral_addresses := ["t1"%string] |}];
            sapling_groups := [];
            unified_groups := [
              {| u_seedfp := Some "fp"%string; u_account := Some 0; u_addresses := [
                   {| u_diversifier_index := 7; u_receiver_types := []; u_address := "uos-" |}] |};
              {| u_seedfp := Some "fp"%string; u_account := Some 3; u_addresses := [] |};
              {| u_seedfp := Some "fp"%string; u_account := Some 3; u_addresses := [] |}] |}] /\
  exists i m, list_addresses_call example_wallet = Ret [i; m] /\
    texts i ≡ₚ ["t3"%string] /\ texts m ≡ₚ ["uos-"%string; "t1"%string].
Proof.
  split; [reflexivity|].
  set (ps := (fun a : Account => (a, match list_addresses example_wallet (account_id_of a) with
    Ret l => l | _ => [] end)) <$> ([Some (5, 0); Some (5, 3); Some (9, 3); None] : list (@Account example_params))).
  pose proof (list_addresses_correct example_wallet [1; 2; 3; 4] ps eq_refl) as Hc.
  destruct Hc as (i & m & Hr & _ & [Hi _] & _ & [Hm _]); [by repeat constructor|]. by exists i, m.
Defined.

Lemma list_unified_receivers_correct_witness :
  exists r, list_unified_receivers example_wallet "uo-p" = Ret r /\ p2pkh_receiver r = Some "t1"%string /\
    list_unified_receivers example_wallet "uo--" =
      Ret {| p2pkh_receiver := None; p2sh_receiver := None; sapling_receiver := None;
             orchard_receiver := Some "uo--"%string |}.
Proof.
  destruct (list_unified_receivers_correct example_wallet "uo-p" toy_p2pkh)
    as (r & Hr & _ & [Hp _] & _ & Ho); [by vm_compute|done|].
  exists r. split; [done|]. split; [done|]. apply Ho. vm_compute in Hr. injection Hr as <-. by vm_compute.
Defined.

Lemma get_address_for_account_correct_witness :
  exists r, get_address_for_account (JString "one") (Some ["p2pkh"; "orchard"]%string) (Some 5) example_wallet =
      (Ret r, example_wallet) /\ a_address r = "uo-p"%string /\
    exists a, toy_decode (a_address r) = Some a /\ (is_Some (ua_orchard a) <-> "orchard"%string ∈ a_receiver_types r).
Proof.
  destruct (get_address_for_account_correct (JString "one") (Some ["p2pkh"; "orchard"]%string) (Some 5)
    example_wallet) as (_ & Hr & _).
  eexists. split; [vm_compute; reflexivity|]. split; [by vm_compute|].
  destruct (Hr (answer example_wallet (JString "one") (1 : @AccountUuid example_params) ["p2pkh"; "orchard"]%string
    toy_p2pkh (5 : @DiversifierIndex example_params)) example_wallet) as (a & Ha & Ho & _); [by vm_compute|].
  exists a. split; [exact Ha|exact Ho].
Defined.
End example.
