(* ===== verification/Keys.v ===== *)
(** What the account and key methods use of the keystore
    (src/zallet-core/src/components/keystore.rs): [KeystoreOps] is the interface,
    with its laws; the keystore of [KeystoreLock] and [KeystoreStore], the state
    of the lock and the tables, implements it. *)

From S2P Require Import Prelude Rpc KeystoreLock KeystoreStore.

(** The operations, by seed fingerprints of type [Fp]; errors are their text. *)
Class KeystoreOps (Fp : Type) := {
  Keystore : Type;
  Seed : Type;
  SpendingKey : Type;
  PaymentAddress : Type;
  ensure_unlocked : Keystore -> RpcResult unit;
  list_seed_fingerprints : Keystore -> outcome string (list Fp);
  decrypt_seed : Keystore -> Fp -> outcome string Seed;
  store_sapling_key : SpendingKey -> M Keystore string unit;
  find_sapling_key : Keystore -> PaymentAddress -> outcome string (option SpendingKey)
}.

(** Its contract, for keystores in [sound]: nothing panics; a seed has the
    fingerprint it is decrypted by; a stored key is found by its addresses, as
    itself if no key of the same addresses was there before. *)
Class KeystoreContract Fp `{KeystoreOps Fp} := {
  sound : Keystore -> Prop;
  seed_fingerprint : Seed -> option Fp;
  (** The addresses of the key, and of keys with the same viewing key only. *)
  address_of : SpendingKey -> PaymentAddress -> Prop;
  same_viewing_key : SpendingKey -> SpendingKey -> Prop;
  holds_key : Keystore -> SpendingKey -> Prop;
  ensure_unlocked_total : forall k, ensure_unlocked k <> Panic;
  list_seed_fingerprints_total : forall k, list_seed_fingerprints k <> Panic;
  decrypt_seed_total : forall k fp, decrypt_seed k fp <> Panic;
  decrypt_seed_fingerprint : forall k fp s, sound k -> decrypt_seed k fp = Ret s -> seed_fingerprint s = Some fp;
  store_sapling_key_total : forall key k, (store_sapling_key key k).1 <> Panic;
  store_sapling_key_failed : forall key k e k', store_sapling_key key k = (Err e, k') -> k' = k;
  stored_sapling_key : forall key k k' a, sound k -> store_sapling_key key k = (Ret tt, k') -> address_of key a ->
    sound k' /\ ensure_unlocked k' = ensure_unlocked k /\
    exists key', find_sapling_key k' a = Ret (Some key') /\ same_viewing_key key' key /\
      (~ holds_key k key -> key' = key)
}.

Section keystore.
Context `{HL : KeyCryptoLaws}.
Context (error_to_string : keystore_error -> string).

(** The state of the lock, and the database. *)
Definition keystore : Type := KeystoreLock.state Identity * database.

(** A database operation run in a keystore. *)
Definition in_database {A} (f : list Identity -> M database keystore_error A) : M keystore string A := fun k =>
  let '(r, db) := f (identities k.1) k.2 in (map_err error_to_string r, (k.1, db)).

#[export] Instance keystore_ops : KeystoreOps Fingerprint := {|
  Keystore := keystore;
  Seed := KeystoreStore.Seed;
  SpendingKey := SaplingKey;
  PaymentAddress := KeystoreStore.PaymentAddress;
  ensure_unlocked k := ensure_wallet_is_unlocked k.1;
  list_seed_fingerprints k := (in_database (fun _ => KeystoreStore.list_seed_fingerprints) k).1;
  decrypt_seed k fp := (in_database (fun ids => KeystoreStore.decrypt_seed ids fp) k).1;
  store_sapling_key key := in_database (fun _ => _ ← encrypt_and_store_standalone_sapling_key key; mret tt);
  find_sapling_key k a := (in_database (fun ids => decrypt_standalone_sapling_key ids a) k).1
|}.

(** [m] does not panic in any database, and leaves it alone when it fails. *)
Definition fails_clean {A} (m : M database keystore_error A) : Prop :=
  forall db, match m db with
             | (Ret _, _) => True
             | (Err _, db') => db' = db
             | (Panic, _) => False
             end.

Lemma fails_clean_bind {A B} (m : M database keystore_error A) (f : A -> M database keystore_error B) :
  (forall db a, (m db).1 = Ret a -> (m db).2 = db) -> fails_clean m -> (forall a, fails_clean (f a)) ->
  fails_clean (m ≫= f).
Proof.
  intros Hr Hm Hf db. specialize (Hm db). specialize (Hr db). unfold mbind, M_bind.
  destruct (m db) as [[a|e|] db']; cbn in *; [|done|done]. rewrite (Hr a eq_refl). apply Hf.
Qed.

Lemma fails_clean_lift {A} (m : outcome keystore_error A) : m <> Panic -> fails_clean (lift m).
Proof. intros Hm db. unfold lift. by destruct m. Qed.

Lemma encryptor_reads db : (encryptor db).2 = db /\ (encryptor db).1 <> Panic.
Proof.
  unfold encryptor, maybe_encryptor, with_db, from_recipient_strings, mbind, M_bind.
  destruct (available db); [|done]. destruct (read_recipients _); [|done]. cbn. by destruct (is_empty _).
Qed.

Lemma store_fails_clean key : fails_clean (encrypt_and_store_standalone_sapling_key key).
Proof.
  unfold encrypt_and_store_standalone_sapling_key. apply fails_clean_bind.
  - intros db a _. apply encryptor_reads.
  - intros db. destruct (encryptor_reads db) as [He Hp]. by destruct (encryptor db) as [[]].
  - intros e. apply fails_clean_bind; [by intros ? ? ?|apply fails_clean_lift|].
    { unfold encrypt. by destruct (age_encrypt _ _). }
    intros c db. unfold mbind, M_bind, with_db_mut. by destruct (available db).
Qed.

Lemma decrypt_seed_not_Panic ids fp db : (KeystoreStore.decrypt_seed ids fp db).1 <> Panic.
Proof.
  unfold KeystoreStore.decrypt_seed, decrypt_mnemonic, check_unlocked, with_db, mbind, M_bind, lift.
  destruct ids as [|i ids]; [done|]. cbn. destruct (available db); [|done].
  destruct (select_row fp (mnemonics db)); [|done]. cbn. destruct (age_decrypt _ _); [|done]. cbn.
  by destruct (from_phrase _).
Qed.

#[export] Instance keystore_contract : KeystoreContract Fingerprint.
Proof.
  refine {|
    sound k := well_formed (identities k.1) k.2;
    seed_fingerprint := fp_from_seed;
    address_of (key : SpendingKey) (a : PaymentAddress) :=
      forall d, decrypt_diversifier d a = true <-> d = extsk_to_dfvk key;
    same_viewing_key key key' := extsk_to_dfvk key = extsk_to_dfvk key';
    holds_key k key := dfvk_to_bytes (extsk_to_dfvk key) ∈ (sapling_keys k.2).*1
  |}.
  - intros k. cbn. unfold ensure_wallet_is_unlocked. by destruct (is_locked _).
  - intros k. cbn. unfold in_database, KeystoreStore.list_seed_fingerprints, with_db. by destruct (available _).
  - intros k fp. cbn. unfold in_database. pose proof (decrypt_seed_not_Panic (identities k.1) fp k.2).
    by destruct (KeystoreStore.decrypt_seed _ _ _) as [[]].
  - intros k fp s Hwf Hs. cbn in *. unfold in_database in Hs.
    destruct (KeystoreStore.decrypt_seed _ _ _) as [[s'| |] db] eqn:Hd; [|done..].
    assert (s' = s) as -> by (by injection Hs).
    assert (exists c, select_row fp (mnemonics k.2) = Some c) as [c Hc].
    { unfold KeystoreStore.decrypt_seed, decrypt_mnemonic, check_unlocked, with_db, mbind, M_bind, lift in Hd.
      destruct (identities k.1); [done|]. cbn in Hd. destruct (available k.2); [|done].
      destruct (select_row fp (mnemonics k.2)) as [c|]; [by exists c|done]. }
    destruct (decrypt_seed_wf _ _ _ _ Hwf Hc) as (m & Hm & _ & Hfp). rewrite Hd in Hm.
    assert (s = to_seed m) as -> by congruence. done.
  - intros key k. cbn. unfold in_database. rewrite run_bind. pose proof (store_fails_clean key k.2).
    by destruct (encrypt_and_store_standalone_sapling_key key k.2) as [[]].
  - intros key k e k'. cbn. unfold in_database. rewrite run_bind. pose proof (store_fails_clean key k.2) as Hc.
    destruct (encrypt_and_store_standalone_sapling_key key k.2) as [[d|e'|] db]; cbn in *; [done| |done].
    rewrite Hc. intros Heq. assert (k' = (k.1, k.2)) as -> by congruence. by destruct k.
  - intros key k k' a Hwf Hst Ha. cbn in *. unfold in_database in Hst. rewrite run_bind in Hst.
    destruct (encrypt_and_store_standalone_sapling_key key k.2) as [[d|e'|] db] eqn:Hs; cbn in Hst; [|done..].
    assert (k' = (k.1, db)) as -> by congruence. cbn.
    destruct (stored_sapling_key_found _ _ _ _ _ _ Hwf Hs Ha) as (Hwf' & -> & key' & Hf & Hd & Hk).
    split; [done|]. split; [done|]. exists key'. unfold in_database. cbn. rewrite Hf. by split_and!.
Defined.
End keystore.
