(* ===== verification/NewAccounts.v ===== *)
(** Accounts made from the keystore's seeds
    (src/zallet/src/components/json_rpc/methods/get_new_account.rs and
    recover_accounts.rs): z_getnewaccount and z_recoveraccounts.

    The methods run against the interfaces of the chain ([ChainView]), the
    keystore ([KeystoreOps]) and the wallet ([AccountOps]). Other tasks use the
    keystore meanwhile: [ks k] is its state at the [k]-th access of the call. *)

From S2P Require KeystoreLock KeystoreStore.
From S2P Require Import Prelude Rpc Chain Params Keys.

(** The wallet's operations. *)
Class AccountOps `{ParamOps} `{KS : !KeystoreOps SeedFingerprint} `{ChainTypes} := {
  AccountId : Type;
  chain_height : Wallet -> outcome string (option Z);
  (** [zip32::AccountId::try_from], and back. *)
  account_id_try_from : Z -> outcome string AccountId;
  account_id_value : AccountId -> Z;
  create_account : string -> Seed -> AccountBirthday -> M Wallet string AccountUuid;
  import_account_hd : string -> Seed -> AccountId -> AccountBirthday -> M Wallet string AccountUuid;
  uuid_to_string : AccountUuid -> string;
  fp_to_string : SeedFingerprint -> string;
  show_height : Z -> string;
  chain_error_to_string : ChainError -> string
}.

Section accounts.
Context `{AccountOps} {View : Type} `{!ChainView View}.
Context (ks : nat -> Keystore).

Definition chain_database_error (e : ChainError) : ErrorObject := database_error (chain_error_to_string e).

Definition treestate_error (treestate_height : Z) (e : ChainError) : ErrorObject :=
  with_message InvalidParameter (Text
    ("Failed to get treestate at height " +:+ show_height treestate_height +:+ ": " +:+
     chain_error_to_string e)%string).

Definition SYNC_REQUIRED : ErrorObject := with_static InWarmup "Wallet sync required".

(** ** z_getnewaccount *)

Record NewAccount := { n_account_uuid : string; n_account : option Z }.

(** The seed that the account is derived from. *)
Definition choose_seed (seed_fps : list SeedFingerprint) (seedfp : option SeedFingerprint) :
    RpcResult SeedFingerprint :=
  match seed_fps, seedfp with
  | [], _ => Err (with_static Rpc.Wallet "Wallet does not contain any seeds to generate accounts with")
  | [seed_fp], None => Ret seed_fp
  | _, None => Err (with_static InvalidParameter
      "Wallet has more than one seed; seedfp argument must be provided")
  | _, Some seedfp =>
      if bool_decide (seedfp ∈ seed_fps) then Ret seedfp
      else Err (with_static InvalidParameter "seedfp does not match any seed in the wallet")
  end.

Definition get_new_account (chain : outcome ChainError View) (account_name : string) (seedfp : option string) :
    M Wallet ErrorObject NewAccount :=
  _ ← lift (ensure_unlocked (ks 0));
  seedfp ← lift match seedfp with
    | Some s => fp ← parse_seedfp_parameter s; Ret (Some fp)
    | None => Ret None
    end;
  chain_view ← lift (map_err chain_database_error chain);
  wallet ← get;
  o ← lift (map_err database_error (chain_height wallet));
  wallet_height ← lift (ok_or o SYNC_REQUIRED);
  tip ← lift (map_err chain_database_error (tip chain_view));
  let chain_height := Z.min wallet_height (height tip) in
  let treestate_height := saturating_sub chain_height 1 in
  o ← lift (map_err (treestate_error treestate_height) (tree_state_as_of chain_view treestate_height));
  chain_state ← lift (expect o);
  let birthday := {| prior_chain_state := chain_state; recover_until := None |} in
  seed_fps ← lift (map_err database_error (list_seed_fingerprints (ks 1)));
  seed_fp ← lift (choose_seed seed_fps seedfp);
  seed ← lift (map_err database_error (decrypt_seed (ks 2) seed_fp));
  account_id ← with_err database_error (create_account account_name seed birthday);
  mret {| n_account_uuid := uuid_to_string account_id; n_account := None |}.

(** ** z_recoveraccounts *)







End accounts.

(** What the crates document: their functions return; the wallet imports an account in one
    database transaction, which is rolled back when the import fails; a chain has a tree state at
    every height up to its tip. *)
Class AccountLaws `{AccountOps} (View : Type) `{!ChainView View} := {
  #[global] account_contract :: KeystoreContract SeedFingerprint;
  fp_parse_total : forall s, fp_parse s <> Panic;
  chain_height_total : forall w, chain_height w <> Panic;
  account_id_total : forall i, account_id_try_from i <> Panic;
  create_account_total : forall n s b w, (create_account n s b w).1 <> Panic;
  import_account_hd_total : forall n s i b w, (import_account_hd n s i b w).1 <> Panic;
  import_account_hd_failed : forall n s i b w e w', import_account_hd n s i b w = (Err e, w') -> w' = w;
  tip_total : forall v : View, tip v <> Panic;
  tree_state_total : forall (v : View) h, tree_state_as_of v h <> Panic;
  tip_height : forall (v : View) b, tip v = Ret b -> 0 <= height b;
  tree_state_below_tip : forall (v : View) b h, tip v = Ret b -> h <= height b ->
    tree_state_as_of v h <> Ret None
}.

Section accounts_proofs.
Context `{AccountLaws}.
Context (ks : nat -> Keystore) (Hks : forall k, sound (ks k)).

Lemma parse_seedfp_total s : parse_seedfp s <> Panic.
Proof.
  unfold parse_seedfp. pose proof (fp_parse_total s). destruct (fp_parse s); [done| |done].
  by destruct (hex_decode32 s).
Qed.

Lemma choose_seed_spec fps o fp :
  choose_seed fps o = Ret fp -> fp ∈ fps /\ match o with Some fp' => fp' = fp | None => fps = [fp] end.
Proof.
  destruct fps as [|fp0 fps]; cbn; [done|]. destruct o as [fp'|].
  - destruct fps; case_bool_decide; try done; by intros [= <-].
  - destruct fps; cbn; [|done]. intros [= <-]. split; [left|done].
Qed.

Lemma choose_seed_total fps o : choose_seed fps o <> Panic.
Proof. destruct fps as [|? []], o; cbn; try done; by case_bool_decide. Qed.

Definition asked_seed (seedfp : option string) (o : option SeedFingerprint) : Prop :=
  match seedfp, o with
  | Some t, Some fp => parse_seedfp t = Ret fp
  | None, None => True
  | _, _ => False
  end.

(** How a new account comes about in the wallet [w], which becomes [w']. *)
Definition created (chain : outcome ChainError View) (name : string) (seedfp : option string)
    (w : Wallet) (a : NewAccount) (w' : Wallet) : Prop :=
  exists v b h state fps fp s id,
    chain = Ret v /\ tip v = Ret b /\ chain_height w = Ret (Some h) /\
    tree_state_as_of v (saturating_sub (Z.min h (height b)) 1) = Ret (Some state) /\
    list_seed_fingerprints (ks 1) = Ret fps /\ fp ∈ fps /\
    match seedfp with Some t => parse_seedfp t = Ret fp | None => fps = [fp] end /\
    seed_fingerprint s = Some fp /\
    create_account name s {| prior_chain_state := state; recover_until := None |} w = (Ret id, w') /\
    a = {| n_account_uuid := uuid_to_string id; n_account := None |}.

(** A new account is derived from a seed the keystore lists, the one
    asked for or the only one, with the tree state before the lower of the
    wallet height and the chain tip as birthday; otherwise the wallet is
    unchanged or creating the account failed. It never panics. *)
Theorem get_new_account_correct chain name seedfp w :
  chain <> Panic ->
  match get_new_account ks chain name seedfp w with
  | (Ret a, w') => created chain name seedfp w a w'
  | (Err _, w') => w' = w \/ exists s b e, create_account name s b w = (Err e, w')
  | (Panic, _) => False
  end.
Proof.
  intros Hch. enough (triple (fun w0 => w0 = w) (get_new_account ks chain name seedfp)
    (created chain name seedfp w) (fun _ w' => w' = w \/ exists s b e, create_account name s b w = (Err e, w')))
    as Ht by exact (Ht w eq_refl).
  apply triple_lift_bind; [apply ensure_unlocked_total|by left|]. intros _ _.
  apply triple_lift_bind; [|by left|].
  { destruct seedfp as [t|]; [|done]. unfold parse_seedfp_parameter. pose proof (parse_seedfp_total t).
    by destruct (parse_seedfp t). }
  intros o Ho. assert (asked_seed seedfp o) as Hask.
  { destruct seedfp as [t|]; [|by injection Ho as <-]. apply bind_Ret in Ho as (fp & Hfp & [= <-]).
    by apply map_err_Ret in Hfp. }
  apply triple_lift_bind; [by apply map_err_not_Panic|by left|]. intros v Hv%map_err_Ret.
  apply triple_get_bind. apply triple_lift_bind; [apply map_err_not_Panic, chain_height_total|by left|].
  intros oh Hoh%map_err_Ret. apply triple_lift_bind; [by destruct oh|by left|]. intros h ->%ok_or_Ret.
  apply triple_lift_bind; [apply map_err_not_Panic, tip_total|by left|]. intros b Hb%map_err_Ret.
  apply triple_lift_bind; [apply map_err_not_Panic, tree_state_total|by left|]. intros os Hos%map_err_Ret.
  apply triple_lift_bind; [|by left|].
  { destruct os; [done|]. exfalso. refine (tree_state_below_tip v b _ Hb _ Hos).
    pose proof (tip_height v b Hb). unfold saturating_sub. lia. }
  intros state Hst. assert (os = Some state) as -> by (destruct os; [by injection Hst as ->|done]).
  apply triple_lift_bind; [apply map_err_not_Panic, list_seed_fingerprints_total|by left|]. intros fps Hfps%map_err_Ret.
  apply triple_lift_bind; [apply choose_seed_total|by left|]. intros fp [Hin Hfp]%choose_seed_spec.
  apply triple_lift_bind; [apply map_err_not_Panic, decrypt_seed_total|by left|].
  intros s Hs%map_err_Ret%decrypt_seed_fingerprint; [|apply Hks].
  intros w' ->. rewrite run_bind. unfold with_err.
  pose proof (create_account_total name s {| prior_chain_state := state; recover_until := None |} w).
  destruct (create_account _ _ _ w) as [[id|e|] w'] eqn:Hc; cbn; [|right; eauto|done].
  exists v, b, h, state, fps, fp, s, id. split_and!; try done.
  destruct seedfp as [t|], o as [fp'|]; try done. cbn in Hask. by rewrite Hask, Hfp.
Qed.

(** ** z_recoveraccounts *)











End accounts_proofs.

(** ** An instance: a wallet that lists what it was asked to make *)

Section example.

(** A wallet is its accounts' seeds and birthdays. *)
Definition toy_account : Type := Z * Z * option Z.

#[local] Instance toy_params : ParamOps := @Build_ParamOps
  (list toy_account) nat toy_account Z Z _ _
  (fun s => None) (fun s => if bool_decide (s = "zero"%string) then Some 0%nat else None)
  (fun s => if bool_decide (s = "fp21"%string) then Ret 21 else if bool_decide (s = "fp31"%string) then Ret 31
            else Err "malformed"%string)
  (fun b => Z.of_nat (length b)) (fun s => None) (fun s => None) (fun z => None) (fun n => "3"%string)
  (fun c => "error"%string) (fun w => Ret []) (fun w => Ret (seq 0 (length w))) (fun w i => Ret (w !! i))
  (fun a => Some (a.1.1, 0)).

#[local] Instance toy_chain_types : ChainTypes := example_chain.

#[local] Instance toy_keystore_ops : KeystoreOps (@SeedFingerprint toy_params) :=
  @keystore_ops KeystoreStore.example_crypto (fun _ => "keystore error"%string).

(** Keystores with the mnemonics 10 and 15, unlocked. *)
Definition toy_keystore : Keystore :=
  (KeystoreLock.State [11] None [] KeystoreLock.Free 0,
   (KeystoreStore.encrypt_and_store_mnemonic (H:=KeystoreStore.example_crypto) 15
     (KeystoreStore.encrypt_and_store_mnemonic (H:=KeystoreStore.example_crypto) 10 KeystoreStore.example_database).2).2).

(** A view is its tip's height. *)
#[local] Instance toy_view : ChainView N := {|
  tip v := Ret {| height := Z.of_N v; hash := Z.of_N v |};
  find_fork_point v l := Ret None;
  tree_state_as_of v h := Ret (if h <=? Z.of_N v then Some h else None);
  get_block_header v h := Ret None; get_block v h := Ret None;
  stream_blocks_to_tip v h := Ret (Stream [] None); stream_blocks v r := Ret (Stream [] None);
  get_mempool_stream v := Ret None; get_transaction v i := Ret None;
  get_transaction_status v i := Ret TxidNotRecognized |}.

Definition toy_import (s : Z) (b : AccountBirthday) : M (list toy_account) string nat := fun w =>
  if bool_decide (length w < 2)%nat then
    (Ret (length w), w ++ [(s, prior_chain_state b : Z, Params.recover_until b)])
  else (Err "full"%string, w).

#[local] Instance toy_account_ops : AccountOps (KS:=toy_keystore_ops) := {|
  AccountId := Z; chain_height w := Ret (Some 100); account_id_try_from i := Ret i; account_id_value i := i;
  create_account n s b := toy_import s b; import_account_hd n s i b := toy_import s b;
  uuid_to_string i := "uuid"%string; fp_to_string fp := "fp"%string; show_height h := "h"%string;
  chain_error_to_string e := "chain"%string |}.

Lemma toy_well_formed :
  @KeystoreStore.well_formed KeystoreStore.example_crypto KeystoreStore.example_matching [11] toy_keystore.2.
Proof.
  split_and!; try done; [by eexists| |intros b c Hin; by apply not_elem_of_nil in Hin].
  intros fp c Hin. assert (@KeystoreStore.mnemonics KeystoreStore.example_crypto toy_keystore.2 =
    [((21 : Z), (21 : Z)); ((31 : Z), (26 : Z))]) as Hm by (vm_compute; reflexivity). rewrite Hm in Hin.
  repeat (apply elem_of_cons in Hin as [[= -> ->]|Hin]; [by eexists|]). by apply not_elem_of_nil in Hin.
Qed.

#[local] Instance toy_contract : KeystoreContract (@SeedFingerprint toy_params) :=
  @keystore_contract KeystoreStore.example_crypto KeystoreStore.example_matching KeystoreStore.example_crypto_laws
    (fun _ => "keystore error"%string).

#[local] Instance toy_account_laws : AccountLaws N.
Proof.
  refine {| account_contract := toy_contract |}; try done.
  - intros s. cbn. by repeat case_bool_decide.
  - intros n s b w. cbn. unfold toy_import. by case_bool_decide.
  - intros n s i b w. cbn. unfold toy_import. by case_bool_decide.
  - intros n s i b w e w'. cbn. unfold toy_import. case_bool_decide; [done|]. by intros [= _ <-].
  - intros v b [= <-]. cbn. lia.
  - intros v b h [= <-]. cbn. intros Hle. by rewrite (proj2 (Z.leb_le _ _) Hle).
Defined.

Lemma get_new_account_correct_witness :
  get_new_account (View:=N) (fun _ => toy_keystore) (Ret 80%N) "main" (Some "fp31"%string) [] =
    (Ret {| n_account_uuid := "uuid"; n_account := None |}, [(30, 79, None)]) /\
  created (View:=N) (fun _ => toy_keystore) (Ret 80%N) "main" (Some "fp31"%string) []
    {| n_account_uuid := "uuid"; n_account := None |} [(30, 79, None)].
Proof.
  pose proof (get_new_account_correct (View:=N) (fun _ => toy_keystore) (fun _ => toy_well_formed) (Ret 80%N)
    "main" (Some "fp31"%string) ([] : @Wallet toy_params) ltac:(done)) as Hc.
  assert (get_new_account (View:=N) (fun _ => toy_keystore) (Ret 80%N) "main" (Some "fp31"%string) [] =
    (Ret {| n_account_uuid := "uuid"; n_account := None |}, [(30, 79, None)])) as Hr by (vm_compute; reflexivity).
  rewrite Hr in Hc. split; [exact Hr|exact Hc].
Defined.


End example.
