(* ===== verification/ImportKeys.v ===== *)
(** Keys and addresses brought from elsewhere
    (src/zallet/src/components/json_rpc/methods/import_key.rs, export_key.rs and
    z_import_address.rs, the last with the feature transparent-key-import):
    z_importkey, z_exportkey and z_importaddress.

    z_importkey changes the keystore and then the wallet: its world is the pair
    of both. *)

From Stdlib Require Import Ascii.
From S2P Require KeystoreLock KeystoreStore Addresses NewAccounts.
From S2P Require Import Prelude Rpc Chain Params Keys.

(** The wallet's operations and the codecs. *)
Class ImportOps `{ParamOps} `{KS : !KeystoreOps SeedFingerprint} `{ChainTypes} `{HeightOps} := {
  Ufvk : Type;
  hrp_sapling_extended_spending_key : Wallet -> string;
  hrp_sapling_payment_address : Wallet -> string;
  decode_extended_spending_key : string -> string -> outcome string SpendingKey;
  encode_extended_spending_key : string -> SpendingKey -> string;
  decode_payment_address : string -> string -> outcome string PaymentAddress;
  encode_payment_address : string -> PaymentAddress -> string;
  default_address : SpendingKey -> PaymentAddress;
  (** Of the full viewing key of a spending key. *)
  ufvk_of : SpendingKey -> outcome string Ufvk;
  chain_height : Wallet -> outcome string (option Z);
  get_account_for_ufvk : Wallet -> Ufvk -> outcome string (option Account);
  import_account_ufvk : string -> Ufvk -> AccountBirthday ->
    Addresses.AccountPurpose (SeedFingerprint * Z) -> M Wallet string Account;
  (** [ChainState::empty], the all-zero hash, and the text of errors. *)
  empty_state : Z -> BlockHash -> ChainState;
  null_hash : BlockHash;
  chain_error_to_string : ChainError -> string;
  show_height : Z -> string;
  (** z_importaddress. *)
  PublicKey : Type;
  Redeem : Type;
  hex_decode : string -> option (list Byte.byte);
  pubkey_from_slice : list Byte.byte -> option PublicKey;
  redeem_parse : list Byte.byte -> option Redeem;
  pubkey_address : Wallet -> PublicKey -> string;
  script_hash_address : Wallet -> list Byte.byte -> string;
  import_standalone_transparent_pubkey : AccountUuid -> PublicKey -> M Wallet string unit;
  import_standalone_transparent_script : AccountUuid -> Redeem -> M Wallet string unit;
  get_account_birthday : Wallet -> AccountUuid -> outcome string Z;
  (** [rewind_to_chain_state] with no account birthday to reset. *)
  rewind_to_chain_state : ChainState -> M Wallet string unit
}.

Section import.
Context `{ImportOps} {View : Type} `{!ChainView View}.

(** ** z_importkey *)

Definition World : Type := Keystore * Wallet.

Definition on_keystore {E A} (m : M Keystore E A) : M World E A := fun s =>
  let '(r, k) := m s.1 in (r, (k, s.2)).

Definition on_wallet {E A} (m : M Wallet E A) : M World E A := fun s =>
  let '(r, w) := m s.2 in (r, (s.1, w)).

Record ImportedKey := { address_type : string; address : string }.

Definition validate_rescan (rescan : option string) : RpcResult string :=
  match rescan with
  | None => Ret "whenkeyisnew"%string
  | Some s =>
      if bool_decide (s = "whenkeyisnew"%string) then Ret "whenkeyisnew"%string
      else if bool_decide (s = "yes"%string) then Ret "yes"%string
      else if bool_decide (s = "no"%string) then Ret "no"%string
      else Err (with_static InvalidParameter
        ("Invalid rescan value. Must be " +:+ dquote +:+ "yes" +:+ dquote +:+ ", " +:+ dquote +:+ "no" +:+
         dquote +:+ ", or " +:+ dquote +:+ "whenkeyisnew" +:+ dquote +:+ ".")%string)
  end.

Definition decode_key_and_address (hrp_spending_key hrp_payment_address key : string) :
    RpcResult (SpendingKey * string) :=
  extsk ← map_err (fun e => with_message InvalidAddressOrKey (Text ("Invalid spending key: " +:+ e)%string))
    (decode_extended_spending_key hrp_spending_key key);
  Ret (extsk, encode_payment_address hrp_payment_address (default_address extsk)).

(** [&s[..n]], which panics inside a character and beyond the end. *)
Definition slice_to {E} (n : nat) (s : string) : outcome E string :=
  if (n <=? String.length s)%nat &&
     match String.get n s with
     | Some c => negb ((128 <=? nat_of_ascii c)%nat && (nat_of_ascii c <? 192)%nat)
     | None => true
     end
  then Ret (String.substring 0 n s) else Panic.

Definition OUT_OF_RANGE : ErrorObject := with_static InvalidParameter "Block height out of range.".

Definition wallet_error (e : string) : ErrorObject := with_message Rpc.Wallet (Text e).

(** The birthday's height. *)
Definition effective_height (rescan : string) (start_height : Z) (chain_tip : option Z) : RpcResult Z :=
  if bool_decide (rescan = "yes"%string) || bool_decide (rescan = "whenkeyisnew"%string) then Ret start_height
  else if bool_decide (rescan = "no"%string) then Ret (default 0 chain_tip)
  else Panic.

(** The branch of a key the wallet does not know. *)
Definition import_new_key (chain : outcome ChainError View) (rescan : string) (start_height : Z)
    (chain_tip : option Z) (address : string) (ufvk : Ufvk) : M World ErrorObject unit :=
  effective_height ← lift (effective_height rescan start_height chain_tip);
  birthday ← lift (fetch_account_birthday empty_state null_hash chain_error_to_string show_height
    chain effective_height);
  prefix ← lift (slice_to 16 address);
  _ ← on_wallet (with_err database_error (import_account_ufvk
    ("Imported Sapling key " +:+ prefix)%string ufvk birthday (Addresses.Spending None)));
  mret tt.

Definition import_key (chain : outcome ChainError View) (key : string) (rescan : option string)
    (start_height : option Z) : M World ErrorObject ImportedKey :=
  rescan ← lift (validate_rescan rescan);
  start_height ← lift (ok_or (let h := default 0 start_height in if h <=? u32_max then Some h else None) OUT_OF_RANGE);
  world ← get;
  chain_tip ← lift (map_err database_error (chain_height world.2));
  _ ← lift (if negb (bool_decide (rescan = "no"%string)) then
              match chain_tip with
              | Some tip => ensure (negb (tip <? start_height)) OUT_OF_RANGE
              | None => Ret tt
              end
            else Ret tt);
  '(extsk, address) ← lift (decode_key_and_address (hrp_sapling_extended_spending_key world.2)
    (hrp_sapling_payment_address world.2) key);
  _ ← on_keystore (with_err wallet_error (store_sapling_key extsk));
  ufvk ← lift (map_err wallet_error (ufvk_of extsk));
  known ← lift (map_err database_error (get_account_for_ufvk world.2 ufvk));
  _ ← match known with
      | Some _ => mret tt
      | None => import_new_key chain rescan start_height chain_tip address ufvk
      end;
  mret {| address_type := "sapling"; address := address |}.

(** ** z_exportkey *)

Definition export_key (wallet : Wallet) (keystore : Keystore) (address : string) : RpcResult string :=
  _ ← ensure_unlocked keystore;
  payment_address ← map_err (fun e =>
    with_message InvalidAddressOrKey (Text ("Invalid Sapling address: " +:+ e)%string))
    (decode_payment_address (hrp_sapling_payment_address wallet) address);
  o ← map_err wallet_error (find_sapling_key keystore payment_address);
  extsk ← ok_or o (with_static InvalidAddressOrKey
    "Wallet does not hold the spending key for this Sapling address");
  Ret (encode_extended_spending_key (hrp_sapling_extended_spending_key wallet) extsk).

(** ** z_importaddress *)

Record ImportedAddress := { kind : string; t_address : string }.

Inductive ParsedImport :=
  | ParsedP2pkh (pubkey : PublicKey) (result : ImportedAddress)
  | ParsedP2sh (script : Redeem) (result : ImportedAddress).

Definition parse_import (params : Wallet) (hex_data : string) : RpcResult ParsedImport :=
  bytes ← ok_or (hex_decode hex_data) (with_static InvalidParameter "Invalid hex encoding");
  match pubkey_from_slice bytes with
  | Some pubkey => Ret (ParsedP2pkh pubkey {| kind := "p2pkh"; t_address := pubkey_address params pubkey |})
  | None =>
      let address := script_hash_address params bytes in
      script ← ok_or (redeem_parse bytes) (with_message InvalidParameter (Text
        ("Unrecognized input (not a valid pubkey or redeem script): " +:+ hex_data)%string));
      Ret (ParsedP2sh script {| kind := "p2sh"; t_address := address |})
  end.

(** The branch that has the wallet scan again from the account's birthday. *)
Definition rescan_from_birthday (chain : outcome ChainError View) (account_id : AccountUuid) :
    M Wallet ErrorObject unit :=
  wallet ← get;
  birthday ← lift (map_err database_error (get_account_birthday wallet account_id));
  chain_view ← lift (map_err (fun e => database_error (chain_error_to_string e)) chain);
  o ← lift (map_err (fun e => database_error (chain_error_to_string e))
    (tree_state_as_of chain_view (height_sub birthday 1)));
  prior_chain_state ← lift (ok_or o (with_static Database "chain state unavailable for rescan"));
  with_err (fun e => with_message Misc (Text ("Rescan failed: " +:+ e)%string))
    (rewind_to_chain_state prior_chain_state).

Definition z_import_address (chain : outcome ChainError View) (account hex_data : string)
    (rescan : option bool) : M Wallet ErrorObject ImportedAddress :=
  wallet ← get;
  account_id ← lift (ok_or (uuid_parse account) (of_code InvalidParams));
  parsed ← lift (parse_import wallet hex_data);
  result ← match parsed with
    | ParsedP2pkh pubkey result =>
        _ ← with_err database_error (import_standalone_transparent_pubkey account_id pubkey); mret result
    | ParsedP2sh script result =>
        _ ← with_err database_error (import_standalone_transparent_script account_id script); mret result
    end;
  _ ← (if default true rescan then rescan_from_birthday chain account_id else mret tt);
  mret result.
End import.

(** What the crates document: their functions return; codecs invert; Sapling
    addresses are Bech32 text of more than 16 bytes; a key's default address is
    one of its addresses; an imported viewing key has an account. *)
Class ImportLaws `{ImportOps} (View : Type) `{!ChainView View} := {
  #[global] import_contract :: KeystoreContract SeedFingerprint;
  chain_height_total : forall w, chain_height w <> Panic;
  decode_key_total : forall hrp s, decode_extended_spending_key hrp s <> Panic;
  ufvk_total : forall k, ufvk_of k <> Panic;
  known_total : forall w u, get_account_for_ufvk w u <> Panic;
  import_account_total : forall n u b p w, (import_account_ufvk n u b p w).1 <> Panic;
  tree_state_total : forall (v : View) h, tree_state_as_of v h <> Panic;
  birthday_total : forall w i, get_account_birthday w i <> Panic;
  rewind_total : forall s w, (rewind_to_chain_state s w).1 <> Panic;
  import_pubkey_total : forall i p w, (import_standalone_transparent_pubkey i p w).1 <> Panic;
  import_script_total : forall i s w, (import_standalone_transparent_script i s w).1 <> Panic;
  decode_encode_address : forall hrp a, decode_payment_address hrp (encode_payment_address hrp a) = Ret a;
  decode_encode_key : forall hrp k, decode_extended_spending_key hrp (encode_extended_spending_key hrp k) = Ret k;
  address_length : forall hrp a, (16 <= String.length (encode_payment_address hrp a))%nat;
  address_ascii : forall hrp a n c, String.get n (encode_payment_address hrp a) = Some c -> (nat_of_ascii c < 128)%nat;
  default_address_of : forall k, address_of k (default_address k);
  import_account_known : forall n u b p w a w', import_account_ufvk n u b p w = (Ret a, w') ->
    get_account_for_ufvk w' u <> Ret None;
  import_account_params : forall n u b p w a w', import_account_ufvk n u b p w = (Ret a, w') ->
    hrp_sapling_payment_address w' = hrp_sapling_payment_address w /\
    hrp_sapling_extended_spending_key w' = hrp_sapling_extended_spending_key w
}.

Section import_proofs.
Context `{ImportLaws}.

Lemma slice_to_address hrp a : exists p, forall E, slice_to (E:=E) 16 (encode_payment_address hrp a) = Ret p.
Proof.
  eexists. intros E. unfold slice_to. rewrite (proj2 (Nat.leb_le _ _) (address_length hrp a)).
  destruct (String.get 16 _) as [c|] eqn:Hc; [|done]. apply address_ascii in Hc.
  by rewrite (proj2 (Nat.leb_gt _ _) Hc).
Qed.

Lemma validate_rescan_spec rescan r :
  validate_rescan rescan = Ret r ->
  r = default "whenkeyisnew"%string rescan /\ (r = "yes" \/ r = "no" \/ r = "whenkeyisnew")%string.
Proof. destruct rescan as [s|]; cbn; [|intros [= <-]; auto]. repeat case_bool_decide; try done; intros [= <-]; subst; auto. Qed.

Lemma fetch_birthday_total (chain : outcome ChainError View) h :
  chain <> Panic -> fetch_account_birthday empty_state null_hash chain_error_to_string show_height chain h <> Panic.
Proof.
  intros Hc. unfold fetch_account_birthday. destruct (h =? 0); [done|].
  apply bind_not_Panic; [by apply map_err_not_Panic|]. intros v _.
  apply bind_not_Panic; [apply map_err_not_Panic, tree_state_total|]. intros o _.
  apply bind_not_Panic; [by destruct o|done].
Qed.

(** The height a new key is watched from. *)
Definition watch_from (rescan : option string) (start_height tip : option Z) : Z :=
  if bool_decide (rescan = Some "no"%string) then default 0 tip else default 0 start_height.

(** How the account of a key with viewing key [u] comes about. *)
Definition tracked (chain : outcome ChainError View) (from : Z) (u : Ufvk) (w : Wallet)
    (r : outcome string Account) (w' : Wallet) : Prop :=
  exists name b,
    fetch_account_birthday empty_state null_hash chain_error_to_string show_height chain from = Ret b /\
    import_account_ufvk name u b (Addresses.Spending None) w = (r, w').

(** The world after the import of [key] into [s], and after one that failed: the
    wallet is as before unless the import of the account failed, and the
    keystore holds the key or is as before. *)
Definition imported_key (chain : outcome ChainError View) (key : string) (rescan : option string)
    (start_height : option Z) (s : World) (r : ImportedKey) (s' : World) : Prop :=
  exists extsk u tip,
    decode_extended_spending_key (hrp_sapling_extended_spending_key s.2) key = Ret extsk /\
    r = {| address_type := "sapling";
           address := encode_payment_address (hrp_sapling_payment_address s.2) (default_address extsk) |} /\
    store_sapling_key extsk s.1 = (Ret tt, s'.1) /\ ufvk_of extsk = Ret u /\ chain_height s.2 = Ret tip /\
    default 0 start_height <= u32_max /\
    (rescan <> Some "no"%string -> forall t, tip = Some t -> default 0 start_height <= t) /\
    match get_account_for_ufvk s.2 u with
    | Ret (Some _) => s'.2 = s.2
    | Ret None => exists a, tracked chain (watch_from rescan start_height tip) u s.2 (Ret a) s'.2
    | _ => False
    end.

Definition key_not_imported (chain : outcome ChainError View) (s s' : World) : Prop :=
  (s'.1 = s.1 \/ exists extsk, store_sapling_key extsk s.1 = (Ret tt, s'.1)) /\
  (s'.2 = s.2 \/ exists from u e, tracked chain from u s.2 (Err e) s'.2).

Lemma import_new_key_spec (chain : outcome ChainError View) r h tip hrp a u from k w :
  chain <> Panic -> effective_height r h tip = Ret from ->
  triple (fun s => s = (k, w)) (import_new_key chain r h tip (encode_payment_address hrp a) u)
    (fun _ s' => s'.1 = k /\ exists a, tracked chain from u w (Ret a) s'.2)
    (fun _ s' => s'.1 = k /\ (s'.2 = w \/ exists e, tracked chain from u w (Err e) s'.2)).
Proof.
  intros Hch Heff. destruct (slice_to_address hrp a) as (p & Hp). unfold import_new_key. rewrite Heff, Hp.
  apply triple_lift_bind; [done|done|]. intros ? [= <-].
  apply triple_lift_bind; [by apply fetch_birthday_total|intros e ? _ ->; auto|]. intros b Hb.
  apply triple_lift_bind; [done|done|]. intros ? [= <-]. intros s ->. rewrite run_bind. unfold on_wallet, with_err. cbn [fst snd].
  match goal with |- context [import_account_ufvk ?n u b ?pp w] => pose proof (import_account_total n u b pp w);
    destruct (import_account_ufvk n u b pp w) as [[acc|e|] w'] eqn:Hi end; cbn; [| |done].
  - split; [done|]. eexists _, _, _. by split.
  - split; [done|]. right. eexists _, _, _. by split.
Qed.

(** What z_importkey does: it stores the key, and imports the account of its
    viewing key from the height asked for if the wallet does not know it; when it
    fails the wallet is as before or the import of the account failed, and the
    keystore may hold the key already. It does not panic. *)
Lemma import_key_spec (chain : outcome ChainError View) key rescan start_height s :
  chain <> Panic ->
  match import_key chain key rescan start_height s with
  | (Ret r, s') => imported_key chain key rescan start_height s r s'
  | (Err _, s') => key_not_imported chain s s'
  | (Panic, _) => False
  end.
Proof.
  intros Hch. enough (triple (fun s0 => s0 = s) (import_key chain key rescan start_height)
    (imported_key chain key rescan start_height s) (fun _ => key_not_imported chain s)) as Ht by exact (Ht s eq_refl).
  assert (forall w0, w0 = s -> key_not_imported chain s w0) as Hsame by (intros ? ->; split; by left).
  apply triple_lift_bind; [|auto|].
  { destruct rescan as [r|]; [|done]. cbn. by repeat case_bool_decide. }
  intros r [Hr Hcases]%validate_rescan_spec. cbn zeta.
  apply triple_lift_bind; [by case_match|auto|]. intros h Hh%ok_or_Ret.
  assert (h = default 0 start_height /\ h <= u32_max) as [-> Hmax].
  { destruct (Z.leb_spec (default 0 start_height) u32_max); [|done]. injection Hh as <-. done. }
  apply triple_get_bind. apply triple_lift_bind; [apply map_err_not_Panic, chain_height_total|auto|].
  intros tip Htip%map_err_Ret. apply triple_lift_bind; [|auto|].
  { destruct (negb (bool_decide _)), tip; try done. unfold ensure. by destruct (negb _). }
  intros [] Hrange. assert (rescan <> Some "no"%string -> forall t, tip = Some t -> default 0 start_height <= t) as Hle.
  { intros Hno t ->. rewrite bool_decide_false in Hrange by (intros ->; destruct rescan; cbn in Hr; congruence).
    cbn in Hrange. apply ensure_Ret in Hrange. destruct (Z.ltb_spec t (default 0 start_height)); [done|lia]. }
  apply triple_lift_bind; [|auto|].
  { unfold decode_key_and_address. apply bind_not_Panic; [apply map_err_not_Panic, decode_key_total|done]. }
  intros [extsk address] (k0 & Hk%map_err_Ret & [= -> <-])%bind_Ret.
  intros s0 ->. rewrite run_bind. unfold on_keystore, with_err.
  pose proof (store_sapling_key_total extsk s.1). pose proof (store_sapling_key_failed extsk s.1) as Hfail.
  destruct (store_sapling_key extsk s.1) as [[[]|e|] k'] eqn:Hst; cbn; [| |done].
  2: { split; [left; by eapply Hfail|by left]. }
  refine ((_ : triple (fun s0 => s0 = (k', s.2)) _ (imported_key chain key rescan start_height s)
    (fun _ => key_not_imported chain s)) _ eq_refl).
  assert (forall w0, w0 = (k', s.2) -> key_not_imported chain s w0) as Hstored
    by (intros ? ->; split; [right; by exists extsk|by left]).
  apply triple_lift_bind; [apply map_err_not_Panic, ufvk_total|auto|]. intros u Hu%map_err_Ret.
  apply triple_lift_bind; [apply map_err_not_Panic, known_total|auto|]. intros known Hknown%map_err_Ret.
  destruct known as [a|].
  { intros s0 ->. cbn. exists extsk, u, tip. split_and!; try done. by rewrite Hknown. }
  assert (effective_height r (default 0 start_height) tip = Ret (watch_from rescan start_height tip)) as Heff.
  { unfold effective_height, watch_from. rewrite Hr. destruct rescan as [t|]; cbn; [|done].
    cbn in Hr. subst r. destruct Hcases as [-> | [-> | ->]]; done. }
  eapply triple_bind; [eapply triple_conseq; [apply (import_new_key_spec chain r (default 0 start_height) tip _ _ u _ k' s.2 Hch Heff)|done| |]|].
  - cbn. intros a s1 Hs1. exact Hs1.
  - cbn. intros e s1 [Hs1 Hw]. split; [right; exists extsk; by rewrite Hs1|].
    destruct Hw as [Hw|(e' & Hw)]; [by left|right; eauto].
  - intros []. apply triple_ret. intros s1 (Hs1 & a & Ha). exists extsk, u, tip. rewrite Hknown, Hs1.
    split_and!; try done. by exists a.
Qed.

(** C17. With a keystore whose entries decrypt and that is not encrypted or is
    unlocked (export requires it unlocked), and unless taking the chain view
    panics: exporting the address that an import returned gives the text of a
    key with the same viewing key, which is the imported key unless one with
    its viewing key was held before; importing the key again, whatever the
    rescan parameters, leaves the wallet as it is. *)
Theorem import_then_export (chain : outcome ChainError View) key rescan start_height k w r k' w' :
  chain <> Panic -> sound k -> ensure_unlocked k = Ret tt ->
  import_key chain key rescan start_height (k, w) = (Ret r, (k', w')) ->
  exists extsk extsk' text,
    decode_extended_spending_key (hrp_sapling_extended_spending_key w) key = Ret extsk /\
    export_key w' k' (address r) = Ret text /\
    decode_extended_spending_key (hrp_sapling_extended_spending_key w) text = Ret extsk' /\
    same_viewing_key extsk' extsk /\ (~ holds_key k extsk -> extsk' = extsk) /\
    (forall chain2 rescan2 start2 r2 s2, chain2 <> Panic ->
       import_key chain2 key rescan2 start2 (k', w') = (Ret r2, s2) -> s2.2 = w').
Proof.
  intros Hch Hs Hun Hi. pose proof (import_key_spec chain key rescan start_height (k, w) Hch) as Hc.
  rewrite Hi in Hc. destruct Hc as (extsk & u & tip & Hdec & -> & Hst & Hu & _ & _ & _ & Hw). cbn [fst snd] in *.
  destruct (stored_sapling_key extsk k k' (default_address extsk)) as (_ & Hun' & extsk' & Hf & Hv & Hsame);
    [done|done|apply default_address_of|].
  assert ((hrp_sapling_payment_address w' = hrp_sapling_payment_address w /\
    hrp_sapling_extended_spending_key w' = hrp_sapling_extended_spending_key w) /\
    get_account_for_ufvk w' u <> Ret None) as [[Hp1 Hp2] Hknown].
  { destruct (get_account_for_ufvk w u) as [[a|]| |] eqn:Hku; [by rewrite Hw, Hku| |done|done].
    destruct Hw as (a & name & b & _ & Hia). split; [by eapply import_account_params|by eapply import_account_known]. }
  exists extsk, extsk', (encode_extended_spending_key (hrp_sapling_extended_spending_key w) extsk').
  split_and!; [done| |apply decode_encode_key|done|done|].
  - unfold export_key. rewrite Hun', Hun, Hp1, Hp2. cbn. by rewrite decode_encode_address; cbn; rewrite Hf.
  - intros chain2 rescan2 start2 r2 s2 Hch2 Hi2.
    pose proof (import_key_spec chain2 key rescan2 start2 (k', w') Hch2) as Hc2. rewrite Hi2 in Hc2.
    destruct Hc2 as (extsk2 & u2 & tip2 & Hdec2 & _ & _ & Hu2 & _ & _ & _ & Hw2). cbn [fst snd] in *.
    rewrite Hp2, Hdec in Hdec2. injection Hdec2 as <-. rewrite Hu in Hu2. injection Hu2 as <-.
    destruct (get_account_for_ufvk w' u) as [[a|]| |]; done.
Qed.

(** How data is imported: as a public key when it is one, else as a script. *)
Definition imported_as (id : AccountUuid) (bytes : list Byte.byte) (w : Wallet) (o : outcome string unit)
    (r : ImportedAddress) (w1 : Wallet) : Prop :=
  match pubkey_from_slice bytes with
  | Some p => import_standalone_transparent_pubkey id p w = (o, w1) /\
      r = {| kind := "p2pkh"; t_address := pubkey_address w p |}
  | None => exists s, redeem_parse bytes = Some s /\ import_standalone_transparent_script id s w = (o, w1) /\
      r = {| kind := "p2sh"; t_address := script_hash_address w bytes |}
  end.

(** The rewinding of the scan queue to the block before the account's birthday. *)
Definition rewound (chain : outcome ChainError View) (id : AccountUuid) (w1 : Wallet) (o : outcome string unit)
    (w' : Wallet) : Prop :=
  exists v h st, chain = Ret v /\ get_account_birthday w1 id = Ret h /\
    tree_state_as_of v (height_sub h 1) = Ret (Some st) /\ rewind_to_chain_state st w1 = (o, w').

Definition address_imported (chain : outcome ChainError View) (account hex_data : string) (rescan : option bool)
    (w : Wallet) (r : ImportedAddress) (w' : Wallet) : Prop :=
  exists id bytes w1, uuid_parse account = Some id /\ hex_decode hex_data = Some bytes /\
    imported_as id bytes w (Ret tt) r w1 /\
    if default true rescan then rewound chain id w1 (Ret tt) w' else w' = w1.

(** A failure before the import changes nothing; the import itself may fail; a
    failure after it leaves the address imported. *)
Definition address_not_imported (chain : outcome ChainError View) (account hex_data : string)
    (rescan : option bool) (w w' : Wallet) : Prop :=
  w' = w \/
  exists id bytes r, uuid_parse account = Some id /\ hex_decode hex_data = Some bytes /\
    ((exists e, imported_as id bytes w (Err e) r w') \/
     exists w1, default true rescan = true /\ imported_as id bytes w (Ret tt) r w1 /\
       (w' = w1 \/ exists e, rewound chain id w1 (Err e) w')).

Lemma rescan_spec (chain : outcome ChainError View) id w :
  chain <> Panic ->
  triple (fun w0 => w0 = w) (rescan_from_birthday chain id) (fun _ => rewound chain id w (Ret tt))
    (fun _ w' => w' = w \/ exists e, rewound chain id w (Err e) w').
Proof.
  intros Hch. apply triple_get_bind.
  apply triple_lift_bind; [apply map_err_not_Panic, birthday_total|by left|]. intros h Hh%map_err_Ret.
  apply triple_lift_bind; [by apply map_err_not_Panic|by left|]. intros v Hv%map_err_Ret.
  apply triple_lift_bind; [apply map_err_not_Panic, tree_state_total|by left|]. intros o Ho%map_err_Ret.
  apply triple_lift_bind; [by destruct o|by left|]. intros st ->%ok_or_Ret. intros w0 ->. unfold with_err.
  pose proof (rewind_total st w). destruct (rewind_to_chain_state st w) as [[[]|e|] w'] eqn:Hr; cbn; [| |done].
  - by exists v, h, st.
  - right. exists e. by exists v, h, st.
Qed.

(** Data is imported as a public key when it is one, else as a script,
    and unless told not to the wallet is rewound to the state before the
    birthday of the account; a failure leaves the wallet unchanged, comes from
    the import itself, or follows it and leaves the address imported. It never
    panics. *)
Theorem z_import_address_correct (chain : outcome ChainError View) account hex_data rescan w :
  chain <> Panic ->
  match z_import_address chain account hex_data rescan w with
  | (Ret r, w') => address_imported chain account hex_data rescan w r w'
  | (Err _, w') => address_not_imported chain account hex_data rescan w w'
  | (Panic, _) => False
  end.
Proof.
  intros Hch. enough (triple (fun w0 => w0 = w) (z_import_address chain account hex_data rescan)
    (address_imported chain account hex_data rescan w)
    (fun _ => address_not_imported chain account hex_data rescan w)) as Ht by exact (Ht w eq_refl).
  apply triple_get_bind. apply triple_lift_bind; [by destruct (uuid_parse account)|by left|]. intros id Hid%ok_or_Ret.
  apply triple_lift_bind; [|by left|].
  { unfold parse_import. apply bind_not_Panic; [by destruct (hex_decode hex_data)|]. intros bytes _.
    destruct (pubkey_from_slice bytes); [done|]. apply bind_not_Panic; [by destruct (redeem_parse bytes)|done]. }
  intros parsed (bytes & Hb%ok_or_Ret & Hparsed)%bind_Ret.
  apply (triple_bind _ _ _ (fun r w1 => imported_as id bytes w (Ret tt) r w1)).
  - destruct (pubkey_from_slice bytes) as [p|] eqn:Hpk.
    + injection Hparsed as <-. intros w0 ->. rewrite run_bind. unfold with_err.
      pose proof (import_pubkey_total id p w). destruct (import_standalone_transparent_pubkey id p w) as [[[]|e|] w1] eqn:Hi;
        cbn; unfold imported_as; [by rewrite Hpk| |done].
      right. eexists id, bytes, _. split_and!; [done..|]. left. exists e. unfold imported_as. rewrite Hpk. by split.
    + apply bind_Ret in Hparsed as (s & Hs%ok_or_Ret & [= <-]). intros w0 ->. rewrite run_bind. unfold with_err.
      pose proof (import_script_total id s w). destruct (import_standalone_transparent_script id s w) as [[[]|e|] w1] eqn:Hi;
        cbn; unfold imported_as; [rewrite Hpk; by exists s| |done].
      right. eexists id, bytes, _. split_and!; [done..|]. left. exists e. unfold imported_as. rewrite Hpk. by exists s.
  - intros r w1 Hw1. rewrite run_bind. destruct (default true rescan) eqn:Hd.
    + pose proof (rescan_spec chain id w1 Hch w1 eq_refl) as Hr.
      destruct (rescan_from_birthday chain id w1) as [[[]|e|] w']; [| |done].
      * exists id, bytes, w1. rewrite Hd. by split_and!.
      * right. exists id, bytes, r. split_and!; [done..|]. right. by exists w1.
    + cbn. exists id, bytes, w1. rewrite Hd. by split_and!.
Qed.
End import_proofs.

(** ** An instance: numbers as keys, over the keystore of [KeystoreStore] *)

Section example.
#[local] Existing Instances NewAccounts.toy_params NewAccounts.toy_chain_types NewAccounts.toy_keystore_ops
  NewAccounts.toy_view.

Fixpoint rep (n : nat) : string :=
  match n with
  | O => EmptyString
  | S n => String "a" (rep n)
  end.

(** The text of a number: sixteen characters, its sign, and its size in unary. *)
Definition toy_text (z : Z) : string := ("zs1-------------" +:+ (if (z <? 0)%Z then "-" else "+") +:+ rep (Z.abs_nat z))%string.

Definition toy_read (s : string) : outcome string Z :=
  let n := Z.of_nat (String.length s) - 17 in
  Ret (if bool_decide (String.get 16 s = Some "-"%char) then - n else n).

Lemma length_rep n : String.length (rep n) = n.
Proof. induction n; cbn; congruence. Qed.

Lemma length_toy_text z : String.length (toy_text z) = (17 + Z.abs_nat z)%nat.
Proof.
  unfold toy_text. destruct (z <? 0);
    (change (17 + String.length (rep (Z.abs_nat z)) = 17 + Z.abs_nat z)%nat; by rewrite length_rep).
Qed.

Lemma toy_read_text z : toy_read (toy_text z) = Ret z.
Proof.
  unfold toy_read. rewrite length_toy_text. unfold toy_text.
  destruct (Z.ltb_spec z 0); [rewrite bool_decide_true by done|rewrite bool_decide_false by done]; f_equal; lia.
Qed.

Definition ascii_only (s : string) : Prop := forall n c, String.get n s = Some c -> (nat_of_ascii c < 128)%nat.

Lemma ascii_String c s : (nat_of_ascii c < 128)%nat -> ascii_only s -> ascii_only (String c s).
Proof. intros Hc Hs [|n] c'; cbn; [by intros [= <-]|apply Hs]. Qed.

Lemma ascii_append s t : Forall (fun c => nat_of_ascii c < 128)%nat (String.list_ascii_of_string s) ->
  ascii_only t -> ascii_only (s +:+ t).
Proof.
  intros Hs Ht. induction s as [|c s IH]; [done|]. apply Forall_cons in Hs as [Hc Hs].
  change (ascii_only (String c (s +:+ t))). by apply ascii_String, IH.
Qed.

Lemma toy_text_ascii z : ascii_only (toy_text z).
Proof.
  unfold toy_text. apply ascii_append; [repeat constructor; by apply Nat.ltb_lt|].
  apply ascii_append; [destruct (z <? 0); repeat constructor; by apply Nat.ltb_lt|].
  induction (Z.abs_nat z) as [|n IH]; [by intros []|]. apply ascii_String; [by apply Nat.ltb_lt|done].
Qed.

Definition toy_add (a : Z * Z * option Z) : M (list (Z * Z * option Z)) string (Z * Z * option Z) := fun w =>
  if bool_decide (length w < 2)%nat then (Ret a, w ++ [a]) else (Err "full"%string, w).

#[local] Instance toy_height_ops : HeightOps := {| height_add a b := a + b; height_sub a b := Z.max 0 (a - b) |}.

#[local] Instance toy_import_ops : ImportOps (KS:=NewAccounts.toy_keystore_ops) := {|
  Ufvk := Z; PublicKey := unit; Redeem := unit;
  hrp_sapling_extended_spending_key w := "secret"%string; hrp_sapling_payment_address w := "zs"%string;
  decode_extended_spending_key hrp := toy_read; encode_extended_spending_key hrp := toy_text;
  decode_payment_address hrp := toy_read; encode_payment_address hrp := toy_text;
  default_address k := k; ufvk_of k := Ret k; chain_height w := Ret (Some 60);
  get_account_for_ufvk w u := Ret (List.find (fun a => a.1.1 =? u) w);
  import_account_ufvk n u b p := toy_add (u, prior_chain_state b : Z, Params.recover_until b);
  empty_state h b := h; null_hash := 0; chain_error_to_string e := "chain"%string; show_height h := "h"%string;
  hex_decode s := Some (String.list_byte_of_string s);
  pubkey_from_slice l := if bool_decide (length l = 33%nat) then Some tt else None;
  redeem_parse l := Some tt; pubkey_address w p := "t1"%string; script_hash_address w l := "t3"%string;
  import_standalone_transparent_pubkey i p := mret tt;
  import_standalone_transparent_script i s w := (Ret tt, w ++ [(0, 0, None)]);
  get_account_birthday w i := Ret 50;
  rewind_to_chain_state s w := (Err "no"%string, w) |}.

#[local] Instance toy_import_laws : ImportLaws N.
Proof.
  refine {| import_contract := NewAccounts.toy_contract |}; try done.
  - intros n u b p w. cbn. unfold toy_add. by case_bool_decide.
  - intros hrp. apply toy_read_text.
  - intros hrp. apply toy_read_text.
  - intros hrp a. cbn. rewrite length_toy_text. lia.
  - intros hrp. apply toy_text_ascii.
  - intros k d. apply bool_decide_eq_true.
  - intros n u b p w a w'. cbn. unfold toy_add. case_bool_decide; intros [= <- <-] [= Hf].
    assert ((u =? u) = false) as Hu; [|rewrite Z.eqb_refl in Hu; discriminate Hu].
    apply (List.find_none _ _ Hf (u, prior_chain_state b : Z, Params.recover_until b)).
    apply List.in_or_app. right. by left.
Defined.

Definition toy_key : string := toy_text 5.

(** The world after the key 5 is imported. *)
Definition toy_imported : outcome ErrorObject ImportedKey * World :=
  import_key (View:=N) (Ret 80%N) toy_key (Some "yes"%string) (Some 20) (NewAccounts.toy_keystore, []).

Lemma import_then_export_witness :
  exists extsk' text, export_key toy_imported.2.2 toy_imported.2.1 toy_key = Ret text /\
    toy_read text = Ret extsk' /\ extsk' = 5.
Proof.
  destruct toy_imported as [[r| |] [k' w']] eqn:Hi;
    try (exfalso; apply (f_equal (fun x => is_ret x.1)) in Hi; vm_compute in Hi; discriminate Hi).
  destruct (import_then_export (View:=N) (Ret 80%N) toy_key (Some "yes"%string) (Some 20) NewAccounts.toy_keystore
    [] r k' w' ltac:(done) NewAccounts.toy_well_formed eq_refl Hi)
    as (extsk & extsk' & text & Hdec & Hex & Hread & _ & Hsame & _).
  exists extsk', text. assert (address r = toy_key) as Ha.
  { apply (f_equal (fun x => match x.1 with Ret r => address r | _ => ""%string end)) in Hi. cbn in Hi. rewrite <- Hi.
    vm_compute. reflexivity. }
  rewrite Ha in Hex. split; [exact Hex|]. split; [exact Hread|].
  assert (extsk = 5) as -> by (by injection Hdec). apply Hsame. by intros Hin%not_elem_of_nil.
Defined.

(** A script: the rewinding fails, and the address stays imported. *)
Lemma z_import_address_correct_witness :
  z_import_address (View:=N) (Ret 80%N) "zero" "script" None [] =
    (Err (with_message Misc (Text "Rescan failed: no")), [(0, 0, None)]) /\
  address_not_imported (View:=N) (Ret 80%N) "zero" "script" None [] [(0, 0, None)].
Proof.
  pose proof (z_import_address_correct (View:=N) (Ret 80%N) "zero" "script" None ([] : @Wallet NewAccounts.toy_params)
    ltac:(done)) as Hc.
  assert (z_import_address (View:=N) (Ret 80%N) "zero" "script" None [] =
    (Err (with_message Misc (Text "Rescan failed: no")), [(0, 0, None)])) as Hr by (vm_compute; reflexivity).
  rewrite Hr in Hc. split; [exact Hr|exact Hc].
Defined.
End example.
