(* ===== verification/AddressTools.v ===== *)
(** Utilities on transparent addresses
    (src/zallet/src/components/json_rpc/methods/convert_tex.rs,
    validate_address.rs and verify_message.rs): z_converttex, validateaddress and
    verifymessage. None of them has state; hashing, codecs and elliptic curves
    are [ToolOps]. *)

From S2P Require Import Prelude Rpc Params Addresses.

Class ToolOps := {
  Params_ : Type;
  Hash : Type;
  PublicKey : Type;
  RecoveryId : Type;
  RecoverableSignature : Type;
  Message : Type;
  #[global] Hash_eq_dec :: EqDecision Hash;
  (** [TransparentAddress::decode] and [encode], [script] with [hex::encode]. *)
  decode : Params_ -> string -> option (TransparentAddress Hash);
  encode : Params_ -> TransparentAddress Hash -> string;
  script_hex : TransparentAddress Hash -> string;
  (** [ZcashAddress::from_tex(..).encode()]. *)
  encode_tex_address : Params_ -> Hash -> string;
  base64_decode : string -> option (list Byte.byte);
  (** [HashWriter]: the hash of what was written to it. *)
  sha256d : list Byte.byte -> list Byte.byte;
  compact_size : Z -> list Byte.byte;
  recovery_id_from_i32 : Z -> option RecoveryId;
  from_compact : list Byte.byte -> RecoveryId -> option RecoverableSignature;
  from_digest_slice : list Byte.byte -> option Message;
  recover_ecdsa : Message -> RecoverableSignature -> option PublicKey;
  from_pubkey : PublicKey -> TransparentAddress Hash
}.

#[export] Instance TransparentAddress_eq_dec {H} `{EqDecision H} : EqDecision (TransparentAddress H).
Proof. solve_decision. Defined.

Section tools.
Context `{ToolOps}.

(** ** z_converttex *)

Definition convert_tex (params : Params_) (transparent_address : string) : RpcResult string :=
  decoded ← ok_or (decode params transparent_address)
    (with_message InvalidAddressOrKey (Fl "err-rpc-convert-tex-invalid-address" []));
  pubkey_hash ← match decoded with
    | PublicKeyHash hash => Ret hash
    | ScriptHash _ => Err (with_message InvalidParameter (Fl "err-rpc-convert-tex-not-p2pkh" []))
    end;
  Ret (encode_tex_address params pubkey_hash).

(** ** validateaddress *)

Record ValidateAddress := {
  isvalid : bool;
  v_address : option string;
  script_pub_key : option string;
  isscript : option bool
}.

Definition is_script_hash (a : TransparentAddress Hash) : bool :=
  match a with
  | ScriptHash _ => true
  | PublicKeyHash _ => false
  end.

Definition validate_address (params : Params_) (address : string) : RpcResult ValidateAddress :=
  match decode params address with
  | None => Ret {| isvalid := false; v_address := None; script_pub_key := None; isscript := None |}
  | Some transparent_addr =>
      Ret {| isvalid := true; v_address := Some (encode params transparent_addr);
             script_pub_key := Some (script_hex transparent_addr);
             isscript := Some (is_script_hash transparent_addr) |}
  end.

(** ** verifymessage *)

Definition MESSAGE_MAGIC : string := "Zcash Signed Message:" +:+ String (Ascii.ascii_of_nat 10) EmptyString.

Definition write_string (s : string) : list Byte.byte :=
  compact_size (Z.of_nat (String.length s)) ++ String.list_byte_of_string s.

Definition message_hash (message : string) : list Byte.byte :=
  sha256d (write_string MESSAGE_MAGIC ++ write_string message).

Definition byte_val (b : Byte.byte) : Z := Z.of_N (Byte.to_N b).

(** The checks on a signature of the right length, after its base64 decoding. *)
Definition verify_signature (transparent_addr : TransparentAddress Hash) (sig_bytes : list Byte.byte)
    (message : string) : RpcResult bool :=
  header ← expect (byte_val <$> head sig_bytes);
  if (27 <=? header) && (header <=? 30) then
    Err (with_static Type_ "Uncompressed key signatures are not supported.")
  else if negb ((31 <=? header) && (header <=? 34)) then Ret false
  else
    let recovery_id := Z.land (header - 27) 3 in
    let hash := message_hash message in
    match recovery_id_from_i32 recovery_id with
    | None => Ret false
    | Some recid =>
        match from_compact (drop 1 sig_bytes) recid with
        | None => Ret false
        | Some recoverable_sig =>
            match from_digest_slice hash with
            | None => Ret false
            | Some msg =>
                match recover_ecdsa msg recoverable_sig with
                | None => Ret false
                | Some recovered_pubkey => Ret (bool_decide (from_pubkey recovered_pubkey = transparent_addr))
                end
            end
        end
    end.

Definition verify_message (params : Params_) (zcashaddress signature message : string) : RpcResult bool :=
  transparent_addr ← ok_or (decode params zcashaddress) (with_static Type_ "Invalid address");
  if is_script_hash transparent_addr then Err (with_static Type_ "Address does not refer to key")
  else
    sig_bytes ← ok_or (base64_decode signature) (with_static InvalidAddressOrKey "Malformed base64 encoding");
    if negb (length sig_bytes =? 65)%nat then Ret false
    else verify_signature transparent_addr sig_bytes message.

(** The message is signed for [addr]: the 65 bytes are a header 31 + i, for a
    recovery id i below 4, and a compact signature from which the public key of
    the address is recovered. *)
Definition signed_by (addr : TransparentAddress Hash) (sig_bytes : list Byte.byte) (message : string) : Prop :=
  exists header compact i recid rs m pk,
    sig_bytes = header :: compact /\ length compact = 64%nat /\ 0 <= i < 4 /\ byte_val header = 31 + i /\
    recovery_id_from_i32 i = Some recid /\ from_compact compact recid = Some rs /\
    from_digest_slice (message_hash message) = Some m /\ recover_ecdsa m rs = Some pk /\ from_pubkey pk = addr.

Lemma recovery_bits h : 31 <= h <= 34 -> Z.land (h - 27) 3 = h - 31.
Proof.
  intros Hh. assert (h = 31 \/ h = 32 \/ h = 33 \/ h = 34) as [-> | [-> | [-> | ->]]] by lia; done.
Qed.

Lemma verify_signature_spec addr header compact message :
  length compact = 64%nat ->
  verify_signature addr (header :: compact) message <> Panic /\
  (verify_signature addr (header :: compact) message = Ret true <-> signed_by addr (header :: compact) message).
Proof.
  intros Hl. unfold verify_signature. cbn [head fmap option_fmap option_map expect mbind outcome_bind].
  change (drop 1 (header :: compact)) with compact.
  set (b := byte_val header).
  assert (signed_by addr (header :: compact) message <->
    (31 <= b <= 34) /\ exists recid rs m pk, recovery_id_from_i32 (Z.land (b - 27) 3) = Some recid /\
      from_compact compact recid = Some rs /\ from_digest_slice (message_hash message) = Some m /\
      recover_ecdsa m rs = Some pk /\ from_pubkey pk = addr) as ->.
  { split.
    - intros (h & c & i & recid & rs & m & pk & [= <- <-] & _ & Hi & Hb & ?). fold b in Hb. split; [lia|].
      rewrite recovery_bits by lia. replace (b - 31) with i by lia. by exists recid, rs, m, pk.
    - intros (Hb & recid & rs & m & pk & Hr & ?). rewrite recovery_bits in Hr by done.
      exists header, compact, (b - 31), recid, rs, m, pk. split_and!; try done; try lia; tauto. }
  destruct (Z.leb_spec 27 b), (Z.leb_spec b 30), (Z.leb_spec 31 b), (Z.leb_spec b 34); cbn [andb negb]; try lia;
    try (split; [done|]; split; [done|intros [? _]; lia]).
  destruct (recovery_id_from_i32 _) as [recid|]; [|split; [done|]; split; [done|by intros (_ & ? & ? & ? & ? & [=] & _)]].
  destruct (from_compact compact recid) as [rs|] eqn:Hrs;
    [|split; [done|]; split; [done|intros (_ & ? & ? & ? & ? & [= <-] & Hrs' & _); congruence]].
  destruct (from_digest_slice _) as [m|]; [|split; [done|]; split; [done|by intros (_ & ? & ? & ? & ? & _ & _ & [=] & _)]].
  destruct (recover_ecdsa m rs) as [pk|] eqn:Hpk;
    [|split; [done|]; split; [done|intros (_ & ? & ? & ? & ? & [= <-] & Hrs' & [= <-] & Hpk' & _); congruence]].
  split; [done|]. case_bool_decide as Ha; (split; [intros [=]|intros (_ & ? & ? & ? & ? & [= <-] & Hrs' & [= <-] & Hpk' & ?)]).
  - split; [lia|]. by exists recid, rs, m, pk.
  - done.
  - congruence.
Qed.

(** A signature is accepted exactly when its 65 bytes are a compressed-
    key header and a compact signature from which, for the hash of the
    message, the public key of the P2PKH address is recovered; verification
    never panics. *)
Theorem verify_message_correct params zcashaddress signature message :
  verify_message params zcashaddress signature message <> Panic /\
  (verify_message params zcashaddress signature message = Ret true <->
   exists h sig_bytes, decode params zcashaddress = Some (PublicKeyHash h) /\
     base64_decode signature = Some sig_bytes /\ signed_by (PublicKeyHash h) sig_bytes message).
Proof.
  unfold verify_message. destruct (decode params zcashaddress) as [[h|h]|]; cbn;
    [|split; [done|]; split; [done|by intros (? & ? & [=] & _)]..].
  destruct (base64_decode signature) as [sig_bytes|]; cbn;
    [|split; [done|]; split; [done|by intros (? & ? & _ & [=] & _)]].
  enough ((if negb (length sig_bytes =? 65)%nat then Ret false else verify_signature (PublicKeyHash h) sig_bytes message)
      <> Panic /\ ((if negb (length sig_bytes =? 65)%nat then Ret false
        else verify_signature (PublicKeyHash h) sig_bytes message) = Ret true <->
      signed_by (PublicKeyHash h) sig_bytes message)) as [Hp Hs].
  { split; [done|]. rewrite Hs. split; [by exists h, sig_bytes|]. by intros (? & ? & [= <-] & [= <-] & ?). }
  destruct (Nat.eqb_spec (length sig_bytes) 65) as [Hl|Hl]; cbn [negb].
  - destruct sig_bytes as [|header compact]; [done|]. apply verify_signature_spec. by injection Hl.
  - split; [done|]. split; [done|]. intros (header & compact & ? & ? & ? & ? & ? & -> & Hc & _). cbn in Hl. congruence.
Qed.
End tools.

(** ** An instance: a curve where the compact signature names the public key *)

#[local] Instance toy_tools : ToolOps := {|
  Params_ := unit; Hash := Z; PublicKey := Z; RecoveryId := Z; RecoverableSignature := Byte.byte * Z; Message := unit;
  decode p s := if bool_decide (s = "t1"%string) then Some (PublicKeyHash 98) else
                if bool_decide (s = "t3"%string) then Some (ScriptHash 98) else None;
  encode p a := "t1"%string; script_hex a := "76a9"%string; encode_tex_address p h := "tex"%string;
  base64_decode s := if bool_decide (s = "sig"%string) then Some (Byte.x20 :: repeat Byte.x61 64) else None;
  sha256d l := l; compact_size n := []; recovery_id_from_i32 i := Some i;
  from_compact l i := (fun b => (b, i)) <$> head l; from_digest_slice l := Some tt;
  recover_ecdsa m s := Some (byte_val s.1 + s.2); from_pubkey k := PublicKeyHash k |}.

Lemma verify_message_correct_witness :
  verify_message tt "t1" "sig" "hello" = Ret true /\
  exists h sig_bytes, decode tt "t1" = Some (PublicKeyHash h) /\ base64_decode "sig" = Some sig_bytes /\
    signed_by (PublicKeyHash h) sig_bytes "hello".
Proof.
  assert (verify_message tt "t1" "sig" "hello" = Ret true) as Hr by (vm_compute; reflexivity).
  split; [exact Hr|]. by apply (@verify_message_correct toy_tools tt "t1" "sig" "hello").
Defined.
