(* ===== verification/WalletStatus.v ===== *)
(** The status of the wallet
    (src/zallet/src/components/json_rpc/methods/get_wallet_status.rs):
    getwalletstatus, which puts the node's tip beside the wallet's and counts
    what is left to scan. *)

From S2P Require Import Prelude Rpc Chain Params.

(** A [BlockMetadata], and the progress of a [WalletSummary]: fractions by their
    numerators and denominators. *)
Record BlockMetadata (Hash : Type) := Metadata { block_height : Z; m_block_hash : Hash }.

Arguments Metadata {Hash} block_height m_block_hash.
Arguments block_height {Hash} b.
Arguments m_block_hash {Hash} b.

Record Progress := Fraction { numerator : Z; denominator : Z }.

Record Summary := { scan : Progress; recovery : option Progress }.

Class StatusOps `{ParamOps} `{ChainTypes} := {
  chain_height : Wallet -> outcome string (option Z);
  block_metadata : Wallet -> Z -> outcome string (option (BlockMetadata BlockHash));
  block_fully_scanned : Wallet -> outcome string (option (BlockMetadata BlockHash));
  (** The ranges of heights to scan, from the first to before the last. *)
  suggest_scan_ranges : Wallet -> outcome string (list (Z * Z));
  (** [get_wallet_summary(ConfirmationsPolicy::MIN)]. *)
  get_wallet_summary : Wallet -> outcome string (option Summary);
  (** [BlockHeight - BlockHeight], a [u32]. *)
  height_diff : Z -> Z -> Z;
  hash_to_string : BlockHash -> string;
  chain_error_to_string : ChainError -> string
}.

Section status.
Context `{StatusOps} {View : Type} `{!ChainView View}.

Record ChainTip := { blockhash : string; tip_height : Z }.

Record SyncWorkRemaining := { unscanned_blocks : Z; progress : Progress }.

Record GetWalletStatus := {
  node_tip : ChainTip;
  wallet_tip : option ChainTip;
  fully_synced_height : option Z;
  sync_work_remaining : option SyncWorkRemaining
}.

Record WalletData := {
  tip_metadata : BlockMetadata BlockHash;
  fully_scanned : option (BlockMetadata BlockHash);
  scan_ranges : list (Z * Z);
  summary : option Summary
}.

Definition status_data (wallet : Wallet) : outcome string (option WalletData) :=
  tip_height ← chain_height wallet;
  tip_metadata ← match tip_height with
    | Some block_height => block_metadata wallet block_height
    | None => Ret None
    end;
  match tip_metadata with
  | Some tip_metadata =>
      block_fully_scanned ← block_fully_scanned wallet;
      scan_ranges ← suggest_scan_ranges wallet;
      summary ← get_wallet_summary wallet;
      Ret (Some {| tip_metadata := tip_metadata; fully_scanned := block_fully_scanned;
                   scan_ranges := scan_ranges; summary := summary |})
  | None => Ret None
  end.

(** [WalletData::chain_tip] and [WalletData::fully_synced_height]. *)
Definition chain_tip (d : WalletData) : ChainTip :=
  {| blockhash := hash_to_string (m_block_hash (tip_metadata d)); tip_height := block_height (tip_metadata d) |}.

Definition data_fully_synced_height (d : WalletData) : option Z := block_height <$> fully_scanned d.

(** [WalletData::sync_work_remaining]; the sums are checked. *)
Definition data_sync_work_remaining {E} (d : WalletData) : outcome E (option SyncWorkRemaining) :=
  match summary d with
  | None => Ret None
  | Some s =>
      unscanned_blocks ← foldM (fun sum r => u32 (sum + height_diff r.2 r.1)) 0 (scan_ranges d);
      '(progress_numerator, progress_denominator) ←
        match recovery s with
        | Some recovery =>
            n ← u64 (numerator (scan s) + numerator recovery);
            d ← u64 (denominator (scan s) + denominator recovery);
            Ret (n, d)
        | None => Ret (numerator (scan s), denominator (scan s))
        end;
      Ret (if (unscanned_blocks =? 0) && (progress_numerator =? progress_denominator) then None
           else Some {| unscanned_blocks := unscanned_blocks;
                        progress := Fraction progress_numerator progress_denominator |})
  end.

Definition get_wallet_status (wallet : Wallet) (chain : outcome ChainError View) : RpcResult GetWalletStatus :=
  let warmup e := with_message InWarmup (Text (chain_error_to_string e)) in
  chain_view ← map_err warmup chain;
  node_tip ← map_err warmup (tip chain_view);
  wallet_data ← map_err database_error (status_data wallet);
  remaining ← match wallet_data with
    | Some d => data_sync_work_remaining d
    | None => Ret None
    end;
  Ret {| node_tip := {| blockhash := hash_to_string (hash node_tip); tip_height := height node_tip |};
         wallet_tip := chain_tip <$> wallet_data;
         fully_synced_height := d ← wallet_data; data_fully_synced_height d;
         sync_work_remaining := remaining |}.
End status.

(** The ranges follow each other, from [from] on. *)
Fixpoint ordered (from : Z) (l : list (Z * Z)) : Prop :=
  match l with
  | [] => from <= u32_max
  | r :: l => from <= r.1 <= r.2 /\ ordered r.2 l
  end.

Definition blocks_in (l : list (Z * Z)) : Z := foldr (fun r n => r.2 - r.1 + n) 0 l.

(** What the wallet documents: its functions return; the ranges to scan do not
    overlap, in whatever order they come; progress counts fit together. *)
Class StatusLaws `{StatusOps} (View : Type) `{!ChainView View} := {
  tip_total : forall v : View, tip v <> Panic;
  chain_height_total : forall w, chain_height w <> Panic;
  block_metadata_total : forall w h, block_metadata w h <> Panic;
  fully_scanned_total : forall w, block_fully_scanned w <> Panic;
  scan_ranges_total : forall w, suggest_scan_ranges w <> Panic;
  summary_total : forall w, get_wallet_summary w <> Panic;
  height_diff_spec : forall a b, 0 <= b <= a -> height_diff a b = a - b;
  ranges_disjoint : forall w l, suggest_scan_ranges w = Ret l -> exists l', l ≡ₚ l' /\ ordered 0 l';
  progress_bounds : forall w s p, get_wallet_summary w = Ret (Some s) -> p = scan s \/ recovery s = Some p ->
    0 <= numerator p <= denominator p /\ 2 * denominator p <= u64_max
}.

Section status_proofs.
Context `{StatusLaws}.

Lemma ordered_blocks from l : ordered from l -> 0 <= blocks_in l <= u32_max - from.
Proof.
  revert from. induction l as [|r l IH]; intros from; cbn; [lia|]. intros [Hr Hl].
  specialize (IH _ Hl). unfold blocks_in in *. lia.
Qed.

Lemma ordered_ranges from l : 0 <= from -> ordered from l -> Forall (fun r => 0 <= r.1 <= r.2) l.
Proof.
  revert from. induction l as [|r l IH]; intros from Hf; cbn; [done|]. intros [Hr Hl].
  constructor; [lia|]. apply (IH r.2); [lia|done].
Qed.

#[export] Instance blocks_in_Permutation : Proper ((≡ₚ) ==> (=)) blocks_in.
Proof. intros l l' Hp. induction Hp; cbn; unfold blocks_in in *; lia. Qed.

Lemma count_blocks {E} l n :
  Forall (fun r => 0 <= r.1 <= r.2) l -> 0 <= n -> n + blocks_in l <= u32_max ->
  foldM (fun sum r => u32 (E:=E) (sum + height_diff r.2 r.1)) n l = Ret (n + blocks_in l).
Proof.
  intros Hl. revert n. induction Hl as [|r l Hr Hl IH]; intros n Hn Hmax; cbn [foldM blocks_in foldr] in *;
    [by rewrite Z.add_0_r|].
  assert (0 <= blocks_in l) as Hpos.
  { clear -Hl. induction Hl; cbn; unfold blocks_in in *; lia. }
  rewrite height_diff_spec by lia. unfold u32, in_u32. fold (blocks_in l) in *.
  rewrite bool_decide_true by lia. cbn [mbind outcome_bind]. rewrite IH by lia. f_equal. lia.
Qed.

Lemma u64_in_range {E} z : 0 <= z <= u64_max -> u64 (E:=E) z = Ret z.
Proof. intros. unfold u64, in_u64. by rewrite bool_decide_true. Qed.

(** The fraction of the scan and the recovery together. *)
Definition total_progress (s : Summary) : Progress :=
  match recovery s with
  | Some r => Fraction (numerator (scan s) + numerator r) (denominator (scan s) + denominator r)
  | None => scan s
  end.

Lemma sync_work_spec {E} (d : WalletData) ls :
  scan_ranges d ≡ₚ ls -> ordered 0 ls ->
  (forall s p, summary d = Some s -> p = scan s \/ recovery s = Some p ->
     0 <= numerator p <= denominator p /\ 2 * denominator p <= u64_max) ->
  data_sync_work_remaining (E:=E) d = Ret
    (s ← summary d;
     if bool_decide (blocks_in (scan_ranges d) = 0 /\ numerator (total_progress s) = denominator (total_progress s))
     then None
     else Some {| unscanned_blocks := blocks_in (scan_ranges d); progress := total_progress s |}).
Proof.
  intros Hp Ho Hb. unfold data_sync_work_remaining. destruct (summary d) as [s|]; [|done].
  pose proof (ordered_blocks 0 ls Ho). rewrite <- Hp in *.
  rewrite count_blocks; [|rewrite Hp; by eapply ordered_ranges|lia|lia]. cbn [mbind outcome_bind option_bind].
  rewrite Z.add_0_l. unfold total_progress.
  pose proof (Hb s (scan s) eq_refl (or_introl eq_refl)).
  assert (forall n m : Z, (blocks_in (scan_ranges d) =? 0) && (n =? m) =
    bool_decide (blocks_in (scan_ranges d) = 0 /\ n = m)) as Heq.
  { intros n m. destruct (Z.eqb_spec (blocks_in (scan_ranges d)) 0), (Z.eqb_spec n m); cbn; symmetry;
      [apply bool_decide_true|apply bool_decide_false..]; tauto. }
  destruct (recovery s) as [r|] eqn:Hr.
  - pose proof (Hb s r eq_refl (or_intror Hr)). rewrite !u64_in_range by lia. cbn [mbind outcome_bind].
    by rewrite Heq.
  - cbn [mbind outcome_bind]. rewrite Heq. by destruct (scan s).
Qed.

Definition complete (p : Progress) : Prop := numerator p = denominator p.

(** What the status says of a wallet with the tip [m]. *)
Definition synced_status (w : Wallet) (m : BlockMetadata BlockHash) (s : GetWalletStatus) : Prop :=
  exists scanned l sum, block_fully_scanned w = Ret scanned /\ suggest_scan_ranges w = Ret l /\
    get_wallet_summary w = Ret sum /\
    wallet_tip s = Some {| blockhash := hash_to_string (m_block_hash m); tip_height := block_height m |} /\
    fully_synced_height s = block_height <$> scanned /\
    (sync_work_remaining s = None <->
       sum = None \/ exists p, sum = Some p /\ blocks_in l = 0 /\ complete (scan p) /\
         forall r, recovery p = Some r -> complete r) /\
    (forall r, sync_work_remaining s = Some r -> unscanned_blocks r = blocks_in l /\
       0 <= blocks_in l <= u32_max /\ exists p, sum = Some p /\ progress r = total_progress p).

(** The status names both tips; the blocks left to scan are the exact sum
    over the ranges, which cannot overflow when they are disjoint, and the
    remaining work is omitted exactly when no summary is known or nothing is
    left and both progress fractions are complete. It never panics. *)
Theorem get_wallet_status_correct (chain : outcome ChainError View) w :
  chain <> Panic ->
  get_wallet_status w chain <> Panic /\
  forall s, get_wallet_status w chain = Ret s ->
    (exists v b, chain = Ret v /\ tip v = Ret b /\
       node_tip s = {| blockhash := hash_to_string (hash b); tip_height := height b |}) /\
    exists o, chain_height w = Ret o /\
      match o with
      | Some h => exists om, block_metadata w h = Ret om /\
          match om with
          | Some m => synced_status w m s
          | None => wallet_tip s = None /\ fully_synced_height s = None /\ sync_work_remaining s = None
          end
      | None => wallet_tip s = None /\ fully_synced_height s = None /\ sync_work_remaining s = None
      end.
Proof.
  intros Hch. unfold get_wallet_status. destruct chain as [v|e|]; [|done..]. cbn [map_err mbind outcome_bind].
  pose proof (tip_total v). destruct (tip v) as [b|e|] eqn:Hb; [|done..]. cbn [map_err mbind outcome_bind].
  unfold status_data. pose proof (chain_height_total w).
  destruct (chain_height w) as [o|e|] eqn:Ho; [|done..]. cbn [map_err mbind outcome_bind].
  destruct o as [h|].
  2: { cbn. split; [done|]. intros s [= <-]. cbn. split; [by exists v, b|]. by exists None. }
  pose proof (block_metadata_total w h). destruct (block_metadata w h) as [om|e|] eqn:Hm; [|done..].
  cbn [map_err mbind outcome_bind]. destruct om as [m|].
  2: { cbn. split; [done|]. intros s [= <-]. cbn. split; [by exists v, b|]. exists (Some h). split; [done|]. by exists None. }
  pose proof (fully_scanned_total w). destruct (block_fully_scanned w) as [scanned|e|] eqn:Hf; [|done..].
  pose proof (scan_ranges_total w). destruct (suggest_scan_ranges w) as [l|e|] eqn:Hl; [|done..].
  pose proof (summary_total w). destruct (get_wallet_summary w) as [sum|e|] eqn:Hs; [|done..].
  cbn [map_err mbind outcome_bind]. destruct (ranges_disjoint w l Hl) as (l' & Hp & Hord).
  rewrite (sync_work_spec _ l') by (cbn; try done; intros ? ? ->; by apply (progress_bounds w)).
  split; [done|]. intros s [= <-]. cbn. split; [by exists v, b|]. exists (Some h). split; [done|].
  exists (Some m). split; [done|]. exists scanned, l, sum. split_and!; try done.
  - destruct sum as [p|]; cbn; [|split; auto].
    pose proof (progress_bounds w p (scan p) Hs (or_introl eq_refl)) as Hsc.
    unfold total_progress, complete. case_bool_decide as Hc; (split; [intros [=]|]).
    + right. exists p. split; [done|]. split; [tauto|]. destruct (recovery p) as [r|] eqn:Hr; cbn in Hc; [|split; [tauto|done]].
      pose proof (progress_bounds w p r Hs (or_intror Hr)) as Hrc. split; [lia|]. intros ? [= <-]. lia.
    + done.
    + intros [[=]|(p' & [= <-] & Hz & Hsn & Hrn)]. destruct Hc. split; [done|].
      destruct (recovery p) as [r|]; cbn; [|done]. specialize (Hrn r eq_refl). lia.
  - intros r. destruct sum as [p|]; cbn; [|done]. case_bool_decide; [done|]. intros [= <-]. cbn.
    split; [done|]. pose proof (ordered_blocks 0 l' Hord). rewrite <- Hp in *. split; [lia|]. by exists p.
Qed.
End status_proofs.

(** ** An instance: a wallet behind its node, with two ranges out of order *)

#[local] Instance toy_chain : ChainTypes := example_chain.

#[local] Instance toy_view : ChainView N := {|
  tip v := Ret {| height := Z.of_N v; hash := Z.of_N v |};
  find_fork_point v l := Ret None; tree_state_as_of v h := Ret None;
  get_block_header v h := Ret None; get_block v h := Ret None;
  stream_blocks_to_tip v h := Ret (Stream [] None); stream_blocks v r := Ret (Stream [] None);
  get_mempool_stream v := Ret None; get_transaction v i := Ret None;
  get_transaction_status v i := Ret TxidNotRecognized |}.

#[local] Instance toy_status : @StatusOps example_params toy_chain := @Build_StatusOps example_params toy_chain
  (fun _ => Ret (Some 20)) (fun _ h => Ret (Some (Metadata h h))) (fun _ => Ret (Some (Metadata 4 4)))
  (fun _ => Ret [(15, 21); (5, 10)])
  (fun _ => Ret (Some {| scan := Fraction 6 10; recovery := Some (Fraction 1 5) |}))
  (fun a b => a - b) (fun h => "hash"%string) (fun e => "error"%string).

#[local] Instance toy_status_laws : @StatusLaws example_params toy_chain toy_status N toy_view.
Proof.
  split; try done.
  - intros w l [= <-]. exists [(5, 10); (15, 21)]. split; [apply Permutation_swap|]. vm_compute. by split_and!.
  - intros w s p [= <-] [-> | [= <-]]; vm_compute; by split_and!.
Qed.

Lemma get_wallet_status_correct_witness :
  @get_wallet_status example_params toy_chain toy_status N toy_view example_wallet (Ret 22%N) = Ret {|
    node_tip := {| blockhash := "hash"; tip_height := 22 |};
    wallet_tip := Some {| blockhash := "hash"; tip_height := 20 |};
    fully_synced_height := Some 4;
    sync_work_remaining := Some {| unscanned_blocks := 11; progress := Fraction 7 15 |} |} /\
  @get_wallet_status example_params toy_chain toy_status N toy_view example_wallet (Ret 22%N) <> Panic.
Proof.
  split; [vm_compute; reflexivity|].
  apply (@get_wallet_status_correct example_params toy_chain toy_status N toy_view toy_status_laws (Ret 22%N)). done.
Defined.
