(* ===== verification/Script.v ===== *)
(** decodescript and the JSON form of an output script
    (src/zallet/src/components/json_rpc/methods/decode_script.rs). Parsing,
    classifying and printing a script is the [zcash_script] crate's, hashing and
    address encoding the [transparent] and [zcash_keys] crates': [ScriptOps]. *)

From S2P Require Import Prelude Rpc Addresses.

(** [zcash_script::solver::ScriptKind]. *)
Inductive ScriptKind (Hash : Type) :=
  | KPubKeyHash (hash : Hash)
  | KScriptHash (hash : Hash)
  | KPubKey (data : list Byte.byte)
  | KMultiSig (required : Z) (pubkeys : list (list Byte.byte))
  | KNullData (data : list (list Byte.byte)).
Arguments KPubKeyHash {Hash} hash.
Arguments KScriptHash {Hash} hash.
Arguments KPubKey {Hash} data.
Arguments KMultiSig {Hash} required pubkeys.
Arguments KNullData {Hash} data.

Class ScriptOps := {
  Network : Type;
  Hash : Type;
  PublicKey : Type;
  Component : Type;
  Refined : Type;
  hex_encode : list Byte.byte -> string;
  hex_decode : string -> option (list Byte.byte);
  (** [Code::to_component], [refine] and [solver::standard], [Code::to_asm]. *)
  to_component : list Byte.byte -> option Component;
  refine : Component -> option Refined;
  standard : Refined -> option (ScriptKind Hash);
  to_asm : list Byte.byte -> bool -> string;
  (** [secp256k1::PublicKey::from_slice], [TransparentAddress::from_pubkey]. *)
  from_slice : list Byte.byte -> option PublicKey;
  from_pubkey : PublicKey -> TransparentAddress Hash;
  hash160 : list Byte.byte -> Hash;
  (** [TransparentAddress::encode] and [TransparentAddress::script]. *)
  encode : Network -> TransparentAddress Hash -> string;
  script_of : TransparentAddress Hash -> list Byte.byte
}.

(** What the crates document: hex round trips; the script of an address is
    classified as paying to that address. *)
Class ScriptLaws `{ScriptOps} := {
  hex_round_trip : forall b, hex_decode (hex_encode b) = Some b;
  script_of_standard : forall a,
    (to_component (script_of a) ≫= refine) ≫= standard =
      Some (match a with PublicKeyHash h => KPubKeyHash h | ScriptHash h => KScriptHash h end)
}.

Section script.
Context `{ScriptOps}.

Record TransparentScript := {
  asm : string;
  req_sigs : option Z;
  kind : string;
  addresses : list string
}.

(** The [ResultType] of decodescript. *)
Record DecodedScript := { script_inner : TransparentScript; p2sh : string }.

Definition pubkey_to_p2pkh_address (pubkey_bytes : list Byte.byte) (params : Network) : option string :=
  pubkey ← from_slice pubkey_bytes;
  Some (encode params (from_pubkey pubkey)).

Definition calculate_p2sh_address (script_bytes : list Byte.byte) (params : Network) : string :=
  let hash := hash160 script_bytes in
  encode params (ScriptHash hash).

Definition is_empty {A} (l : list A) : bool := match l with [] => true | _ => false end.

(** The closure given to [map] in [detect_script_info]. *)
Definition kind_info (params : Network) (script_kind : ScriptKind Hash) : string * option Z * list string :=
  match script_kind with
  | KPubKeyHash hash => ("pubkeyhash"%string, Some 1, [encode params (PublicKeyHash hash)])
  | KScriptHash hash => ("scripthash"%string, Some 1, [encode params (ScriptHash hash)])
  | KPubKey data =>
      let addresses := option_list (pubkey_to_p2pkh_address data params) in
      let req_sigs := if is_empty addresses then None else Some 1 in
      ("pubkey"%string, req_sigs, addresses)
  | KMultiSig required pubkeys =>
      let addresses := omap (fun pk => pubkey_to_p2pkh_address pk params) pubkeys in
      let req_sigs := if is_empty addresses then None else Some required in
      ("multisig"%string, req_sigs, addresses)
  | KNullData _ => ("nulldata"%string, None, [])
  end.

Definition detect_script_info (script_code : list Byte.byte) (params : Network) :
    string * option Z * list string :=
  default ("nonstandard"%string, None, [])
    (kind_info params <$> ((to_component script_code ≫= refine) ≫= standard)).

Definition script_to_json (params : Network) (script_code : list Byte.byte) : TransparentScript :=
  let asm := to_asm script_code false in
  let '(kind, req_sigs, addresses) := detect_script_info script_code params in
  {| asm := asm; req_sigs := req_sigs; kind := kind; addresses := addresses |}.

Definition decode_script (params : Network) (hexstring : string) : RpcResult DecodedScript :=
  script_bytes ← ok_or (hex_decode hexstring) (with_static Deserialization "Hex decoding failed");
  let p2sh := calculate_p2sh_address script_bytes params in
  Ret {| script_inner := script_to_json params script_bytes; p2sh := p2sh |}.

(** ** What a script's description says *)

(** The addresses that a kind of script identifies: those of its hashes and of
    the keys that parse. *)
Definition identified (k : ScriptKind Hash) : list (TransparentAddress Hash) :=
  match k with
  | KPubKeyHash h => [PublicKeyHash h]
  | KScriptHash h => [ScriptHash h]
  | KPubKey data => from_pubkey <$> option_list (from_slice data)
  | KMultiSig _ pubkeys => from_pubkey <$> omap from_slice pubkeys
  | KNullData _ => []
  end.

Definition kind_name (k : option (ScriptKind Hash)) : string :=
  match k with
  | Some (KPubKeyHash _) => "pubkeyhash"
  | Some (KScriptHash _) => "scripthash"
  | Some (KPubKey _) => "pubkey"
  | Some (KMultiSig _ _) => "multisig"
  | Some (KNullData _) => "nulldata"
  | None => "nonstandard"
  end.

Definition kind_signatures (k : ScriptKind Hash) : Z :=
  match k with KMultiSig required _ => required | _ => 1 end.

Definition classified (script_code : list Byte.byte) : option (ScriptKind Hash) :=
  (to_component script_code ≫= refine) ≫= standard.

Lemma omap_p2pkh params (pks : list (list Byte.byte)) :
  omap (fun pk => pubkey_to_p2pkh_address pk params) pks =
  encode params <$> (from_pubkey <$> omap from_slice pks).
Proof.
  induction pks as [|pk pks IH]; [done|]. cbn. unfold pubkey_to_p2pkh_address in *.
  destruct (from_slice pk); cbn; by rewrite IH.
Qed.

Lemma is_empty_fmap {A B} (f : A -> B) l : is_empty (f <$> l) = is_empty l.
Proof. by destruct l. Qed.

Lemma kind_info_spec params k :
  kind_info params k =
    (kind_name (Some k),
     (if is_empty (identified k) then None else Some (kind_signatures k)),
     encode params <$> identified k).
Proof.
  destruct k as [h|h|data|required pks|data]; cbn [kind_info kind_name identified kind_signatures]; try done.
  - unfold pubkey_to_p2pkh_address. by destruct (from_slice data).
  - by rewrite omap_p2pkh, is_empty_fmap.
Qed.

(** A script's description as the documentation of its fields gives it. *)
Lemma script_to_json_spec params code :
  let d := script_to_json params code in
  asm d = to_asm code false /\ kind d = kind_name (classified code) /\
  addresses d = match classified code with Some k => encode params <$> identified k | None => [] end /\
  (addresses d = [] <-> req_sigs d = None) /\
  forall k, classified code = Some k -> addresses d <> [] -> req_sigs d = Some (kind_signatures k).
Proof.
  unfold script_to_json, detect_script_info. fold (classified code).
  destruct (classified code) as [k|]; cbn [fmap option_fmap option_map default]; [|done].
  rewrite kind_info_spec. cbn. do 3 (split; [done|]).
  destruct (identified k); cbn; split; try done; by intros ? [= <-].
Qed.

Context `{!ScriptLaws}.

(** The error and the result of decodescript on every input. *)
Lemma decode_script_cases params s :
  match hex_decode s with
  | Some code => decode_script params s =
      Ret {| script_inner := script_to_json params code; p2sh := calculate_p2sh_address code params |}
  | None => decode_script params s = Err (with_static Deserialization "Hex decoding failed")
  end.
Proof. unfold decode_script. by destruct (hex_decode s). Qed.

Lemma script_of_json params a :
  let d := script_to_json params (script_of a) in
  kind d = match a with PublicKeyHash _ => "pubkeyhash"%string | ScriptHash _ => "scripthash"%string end /\
  req_sigs d = Some 1 /\ addresses d = [encode params a].
Proof.
  unfold script_to_json, detect_script_info. rewrite script_of_standard. by destruct a.
Qed.

(** C34. Decoding the hex form of any script succeeds: its type is that of its
    standard form or nonstandard, its addresses are exactly those of its
    hashes and of its keys that parse, and the required signatures are given
    exactly when an address is. Decoding the script that pays to the reported
    P2SH address reports that address. *)
Theorem decode_script_correct params code :
  exists d, decode_script params (hex_encode code) = Ret d /\
    kind (script_inner d) = kind_name (classified code) /\
    addresses (script_inner d) =
      match classified code with Some k => encode params <$> identified k | None => [] end /\
    (addresses (script_inner d) = [] <-> req_sigs (script_inner d) = None) /\
    (forall k, classified code = Some k -> addresses (script_inner d) <> [] ->
      req_sigs (script_inner d) = Some (kind_signatures k)) /\
    exists paid, decode_script params (hex_encode (script_of (ScriptHash (hash160 code)))) = Ret paid /\
      kind (script_inner paid) = "scripthash"%string /\ addresses (script_inner paid) = [p2sh d].
Proof.
  pose proof (decode_script_cases params (hex_encode code)) as Hd. rewrite hex_round_trip in Hd.
  exists {| script_inner := script_to_json params code; p2sh := calculate_p2sh_address code params |}.
  split; [exact Hd|]. destruct (script_to_json_spec params code) as (_ & Hk & Ha & Hn & Hr).
  do 4 (split; [assumption|]). clear Hd.
  pose proof (decode_script_cases params (hex_encode (script_of (ScriptHash (hash160 code))))) as Hd.
  rewrite hex_round_trip in Hd. eexists. split; [exact Hd|].
  destruct (script_of_json params (ScriptHash (hash160 code))) as (Hkind & _ & Haddr). by split.
Qed.

(** The number of required signatures of a multisig script is the script's,
    also when fewer addresses are listed because some of its keys do not parse. *)
Lemma multisig_requires_more_than_listed params code required pks :
  classified code = Some (KMultiSig required pks) ->
  Z.of_nat (length (omap from_slice pks)) < required -> omap from_slice pks <> [] ->
  let d := script_to_json params code in
  exists n, req_sigs d = Some n /\ Z.of_nat (length (addresses d)) < n.
Proof.
  intros Hc Hlt Hne d. destruct (script_to_json_spec params code) as (_ & _ & Ha & _ & Hr).
  fold d in Ha, Hr. rewrite Hc in Ha. cbn [identified] in Ha. exists required. split.
  - apply (Hr _ Hc). rewrite Ha. by destruct (omap from_slice pks).
  - rewrite Ha, !length_fmap. exact Hlt.
Qed.
End script.

(** ** An example: hashes are reversed bytes, a script starts with a tag *)
Section example.
Definition toy_standard (c : list Byte.byte) : option (ScriptKind (list Byte.byte)) :=
  match c with
  | Byte.x00 :: h => Some (KPubKeyHash h)
  | Byte.x01 :: h => Some (KScriptHash h)
  | Byte.x02 :: k => Some (KPubKey k)
  | Byte.x03 :: n :: ks => Some (KMultiSig (Z.of_N (Byte.to_N n)) ((fun k => [k]) <$> ks))
  | Byte.x6a :: d => Some (KNullData [d])
  | _ => None
  end.

#[local] Instance toy_script : ScriptOps := {|
  Network := unit; Hash := list Byte.byte; PublicKey := Byte.byte;
  Component := list Byte.byte; Refined := list Byte.byte;
  hex_encode := String.string_of_list_byte; hex_decode s := Some (String.list_byte_of_string s);
  to_component := Some; refine := Some; standard := toy_standard;
  to_asm c _ := String.string_of_list_byte c;
  from_slice k := match k with [Byte.xff] | [] => None | b :: _ => Some b end;
  from_pubkey b := PublicKeyHash [b]; hash160 := @rev Byte.byte;
  encode _ a := match a with
    | PublicKeyHash h => String "t" (String.string_of_list_byte h)
    | ScriptHash h => String "s" (String.string_of_list_byte h) end;
  script_of a := match a with PublicKeyHash h => Byte.x00 :: h | ScriptHash h => Byte.x01 :: h end
|}.

#[local] Instance toy_script_laws : ScriptLaws.
Proof.
  split.
  - intros b. exact (f_equal Some (String.list_byte_of_string_of_list_byte b)).
  - by intros [h|h].
Qed.

(** A 2-of-3 script one key of which does not parse, and its P2SH address. *)
Definition toy_multisig : list Byte.byte := [Byte.x03; Byte.x02; Byte.x61; Byte.xff; Byte.x62].

Lemma decode_script_correct_witness :
  classified toy_multisig = Some (KMultiSig 2 [[Byte.x61]; [Byte.xff]; [Byte.x62]]) /\
  exists d, decode_script tt (hex_encode toy_multisig) = Ret d /\
    addresses (script_inner d) = ["ta"; "tb"]%string /\
    exists paid, decode_script tt (hex_encode (script_of (ScriptHash (rev toy_multisig)))) = Ret paid /\
      addresses (script_inner paid) = [p2sh d].
Proof.
  split; [reflexivity|].
  destruct (@decode_script_correct toy_script toy_script_laws tt toy_multisig)
    as (d & Hd & _ & Ha & _ & _ & paid & Hp & _ & Hpa).
  exists d. split; [exact Hd|]. split; [rewrite Ha; reflexivity|]. exists paid. by split.
Defined.
End example.
