(* ===== verification/RawTx.v ===== *)
(** getrawtransaction and decoderawtransaction
    (src/zallet/src/components/json_rpc/methods/get_raw_transaction.rs and
    decode_raw_transaction.rs): the lookup of a transaction in a chain view, and
    the JSON form of a transaction.

    The parts of a parsed transaction that the JSON form shows are records of
    what the crates' accessors return; parsing and the rest of a transaction are
    [RawTxOps]. *)

From S2P Require Import Prelude Rpc Chain Amount Params Text Addresses.
From S2P Require ViewTx ZebraView.
From S2P Require Import Script.

Definition i32_max : Z := 2147483647.

(** [TxVersion]; the versions the source does not name are [VLater]. *)
Inductive TxVersion := VSprout (version : Z) | V3 | VLater (version : Z).

Record TxIn := {
  in_script_sig : list Byte.byte;
  prevout_hash : list Byte.byte;
  prevout_n : Z;
  in_sequence : Z
}.

Record TxOut := { out_value : Z; out_script_pubkey : list Byte.byte }.

Record TransparentBundle := { b_vin : list TxIn; b_vout : list TxOut; is_coinbase : bool }.

Record SpendDescription := {
  spend_cv : list Byte.byte; spend_anchor : list Byte.byte; spend_nullifier : list Byte.byte;
  spend_rk : list Byte.byte; spend_zkproof : list Byte.byte; spend_sig : list Byte.byte
}.

Record OutputDescription := {
  out_cv : list Byte.byte; out_cmu : list Byte.byte; out_ephemeral_key : list Byte.byte;
  out_enc : list Byte.byte; out_out : list Byte.byte; out_zkproof : list Byte.byte
}.

Record SaplingBundle := {
  sapling_value_balance : Z;
  shielded_spends : list SpendDescription;
  shielded_outputs : list OutputDescription;
  sapling_binding_sig : list Byte.byte
}.

Record ActionDescription := {
  act_cv_net : list Byte.byte; act_nullifier : list Byte.byte; act_rk : list Byte.byte;
  act_cmx : list Byte.byte; act_epk : list Byte.byte; act_enc : list Byte.byte;
  act_out : list Byte.byte; act_sig : list Byte.byte
}.

Record OrchardBundle := {
  b_actions : list ActionDescription;
  orchard_value_balance : Z;
  spends_enabled : bool;
  outputs_enabled : bool;
  orchard_anchor : list Byte.byte;
  orchard_proof : list Byte.byte;
  orchard_binding_sig : list Byte.byte
}.

Class RawTxOps `{ChainTypes} `{ParamOps} := {
  #[global] raw_decimals :: DecimalOps;
  #[global] raw_script :: ScriptOps;
  params_of : Wallet -> Network;
  (** [Transaction::read], to the end of the transaction; its accessors. *)
  read_transaction : list Byte.byte -> option Transaction;
  version_of : Transaction -> TxVersion;
  has_overwinter : TxVersion -> bool;
  has_orchard : TxVersion -> bool;
  header : TxVersion -> Z;
  version_group_id : TxVersion -> Z;
  lock_time : Transaction -> Z;
  expiry_height_of : Transaction -> Z;
  tx_id : Transaction -> TxId;
  auth_commitment : Transaction -> list Byte.byte;
  transparent_part : Transaction -> option TransparentBundle;
  sapling_part : Transaction -> option SaplingBundle;
  orchard_part : Transaction -> option OrchardBundle;
  (** [TxId::from_bytes], and the byte-reversed hex of the three kinds of hash. *)
  txid_of_bytes : list Byte.byte -> TxId;
  block_hash_of_bytes : list Byte.byte -> BlockHash;
  txid_display : TxId -> string;
  block_hash_display : BlockHash -> string;
  reverse_hex_encode : list Byte.byte -> string;
  (** [BlockHeight - BlockHeight]. *)
  height_diff : Z -> Z -> Z
}.

(** A commitment is a 32-byte hash; the old formats have no Orchard actions;
    headers are 32 bits wide; bundles are not empty. *)
Class RawTxLaws `{RawTxOps} := {
  auth_commitment_32 : forall tx, length (auth_commitment tx) = 32%nat;
  has_orchard_later : forall v, has_orchard v = true -> exists n, v = VLater n;
  header_u32 : forall v, 0 <= header v <= u32_max;
  sapling_nonempty : forall tx b, sapling_part tx = Some b ->
    ~ (shielded_spends b = [] /\ shielded_outputs b = []);
  orchard_nonempty : forall tx b, orchard_part tx = Some b -> b_actions b <> [];
  raw_height_diff_spec : forall a b, 0 <= b <= a -> height_diff a b = a - b
}.

Section raw_tx.
Context `{RawTxOps}.

Record TransparentScriptSig := { sig_asm : string; sig_hex : string }.

Record TransparentInput := {
  coinbase : option string;
  in_txid : option string;
  in_vout : option Z;
  script_sig : option TransparentScriptSig;
  sequence : Z
}.

Record TransparentScriptPubKey := { pk_hex : string; pk_inner : TransparentScript }.

Record TransparentOutput := {
  value : JsonZec;
  value_zat : Z;
  value_sat : Z;
  n : Z;
  script_pub_key : TransparentScriptPubKey
}.

Record SaplingSpend := {
  s_cv : string; s_anchor : string; s_nullifier : string; s_rk : string; s_proof : string; spend_auth_sig : string
}.

Record SaplingOutput := {
  o_cv : string; o_cmu : string; o_ephemeral_key : string; o_enc_ciphertext : string;
  o_out_ciphertext : string; o_proof : string
}.

Record OrchardFlags := { enable_spends : bool; enable_outputs : bool }.

Record OrchardAction := {
  a_cv : string; a_nullifier : string; a_rk : string; a_cmx : string; a_ephemeral_key : string;
  a_enc_ciphertext : string; a_out_ciphertext : string; a_spend_auth_sig : string
}.

Record Orchard := {
  actions : list OrchardAction;
  orchard_balance : JsonZec;
  orchard_balance_zat : Z;
  flags : option OrchardFlags;
  anchor : option string;
  proof : option string;
  orchard_sig : option string
}.

Record TransactionDetails := {
  txid : string;
  authdigest : string;
  size : Z;
  overwintered : bool;
  version : Z;
  versiongroupid : option string;
  locktime : Z;
  expiryheight : option Z;
  vin : list TransparentInput;
  vout : list TransparentOutput;
  value_balance : option JsonZec;
  value_balance_zat : option Z;
  v_shielded_spend : option (list SaplingSpend);
  v_shielded_output : option (list SaplingOutput);
  binding_sig : option string;
  orchard : option Orchard
}.

(** The [Transaction] of the response, and its two forms. *)
Record VerboseTransaction := {
  in_active_chain : option bool;
  hex : string;
  tx_inner : TransactionDetails;
  blockhash : option string;
  tx_height : option Z;
  confirmations : option Z;
  time : option Z;
  blocktime : option Z
}.

Inductive RawResult := Concise (hex : string) | Verbose (t : VerboseTransaction).

(** ** The JSON form *)

Definition encode_input (tx_in : TxIn) (is_coinbase : bool) : TransparentInput :=
  let script_hex := hex_encode (in_script_sig tx_in) in
  if is_coinbase then
    {| coinbase := Some script_hex; in_txid := None; in_vout := None; script_sig := None;
       sequence := in_sequence tx_in |}
  else
    let asm := to_asm (in_script_sig tx_in) true in
    {| coinbase := None; in_txid := Some (txid_display (txid_of_bytes (prevout_hash tx_in)));
       in_vout := Some (prevout_n tx_in); script_sig := Some {| sig_asm := asm; sig_hex := script_hex |};
       sequence := in_sequence tx_in |}.

Definition encode_output (params : Network) (txout : TxOut * Z) : TransparentOutput :=
  let '(tx_out, n) := txout in
  let script_pub_key :=
    {| pk_hex := hex_encode (out_script_pubkey tx_out);
       pk_inner := script_to_json params (out_script_pubkey tx_out) |} in
  {| value := value_from_zatoshis (out_value tx_out); value_zat := out_value tx_out;
     value_sat := out_value tx_out; n := n; script_pub_key := script_pub_key |}.

Definition encode_sapling_spend (spend : SpendDescription) : SaplingSpend :=
  {| s_cv := reverse_hex_encode (spend_cv spend); s_anchor := reverse_hex_encode (spend_anchor spend);
     s_nullifier := reverse_hex_encode (spend_nullifier spend); s_rk := reverse_hex_encode (spend_rk spend);
     s_proof := hex_encode (spend_zkproof spend); spend_auth_sig := hex_encode (spend_sig spend) |}.

Definition encode_sapling_output (output : OutputDescription) : SaplingOutput :=
  {| o_cv := reverse_hex_encode (out_cv output); o_cmu := reverse_hex_encode (out_cmu output);
     o_ephemeral_key := reverse_hex_encode (out_ephemeral_key output);
     o_enc_ciphertext := hex_encode (out_enc output); o_out_ciphertext := hex_encode (out_out output);
     o_proof := hex_encode (out_zkproof output) |}.

Definition encode_action (action : ActionDescription) : OrchardAction :=
  {| a_cv := hex_encode (act_cv_net action); a_nullifier := hex_encode (act_nullifier action);
     a_rk := hex_encode (act_rk action); a_cmx := hex_encode (act_cmx action);
     a_ephemeral_key := hex_encode (act_epk action); a_enc_ciphertext := hex_encode (act_enc action);
     a_out_ciphertext := hex_encode (act_out action); a_spend_auth_sig := hex_encode (act_sig action) |}.

Definition encode_orchard (bundle : option OrchardBundle) : Orchard :=
  match bundle with
  | None =>
      {| actions := []; orchard_balance := value_from_zat_balance 0; orchard_balance_zat := 0;
         flags := None; anchor := None; proof := None; orchard_sig := None |}
  | Some bundle =>
      {| actions := encode_action <$> b_actions bundle;
         orchard_balance := value_from_zat_balance (orchard_value_balance bundle);
         orchard_balance_zat := orchard_value_balance bundle;
         flags := Some {| enable_spends := spends_enabled bundle; enable_outputs := outputs_enabled bundle |};
         anchor := Some (hex_encode (orchard_anchor bundle)); proof := Some (hex_encode (orchard_proof bundle));
         orchard_sig := Some (hex_encode (orchard_binding_sig bundle)) |}
  end.

(** [iter().zip(0..)] with indices of type [u16]: yielding an index computes the
    next one, which must fit. *)
Fixpoint zip_u16 {E A} (start : Z) (l : list A) : outcome E (list (A * Z)) :=
  match l with
  | [] => Ret []
  | x :: l => _ ← assert (start <? u16_max); rest ← zip_u16 (start + 1) l; Ret ((x, start) :: rest)
  end.

(** [<[u8; 32]>::try_from(bytes).unwrap()]. *)
Definition array32 {E} (bytes : list Byte.byte) : outcome E (list Byte.byte) :=
  _ ← assert (Nat.eqb (length bytes) 32); Ret bytes.

(** [matches!(tx.version(), TxVersion::Sprout(_) | TxVersion::V3)]. *)
Definition before_sapling (v : TxVersion) : bool := match v with VSprout _ | V3 => true | VLater _ => false end.

Definition sapling_fields (tx : Transaction) :
    option JsonZec * option Z * option (list SaplingSpend) * option (list SaplingOutput) * option string :=
  match sapling_part tx with
  | Some bundle =>
      (Some (value_from_zat_balance (sapling_value_balance bundle)), Some (sapling_value_balance bundle),
       Some (encode_sapling_spend <$> shielded_spends bundle),
       Some (encode_sapling_output <$> shielded_outputs bundle),
       Some (hex_encode (sapling_binding_sig bundle)))
  | None =>
      if before_sapling (version_of tx) then (None, None, None, None, None)
      else (Some (value_from_zat_balance 0), Some 0, Some [], Some [], None)
  end.

Definition transparent_fields {E} (params : Network) (tx : Transaction) :
    outcome E (list TransparentInput * list TransparentOutput) :=
  match transparent_part tx with
  | Some bundle =>
      let vin : list TransparentInput := (fun tx_in => encode_input tx_in (is_coinbase bundle)) <$> b_vin bundle in
      (fun outs : list (TxOut * Z) => (vin, encode_output params <$> outs)) <$> zip_u16 (E := E) 0 (b_vout bundle)
  | None => Ret ([], [])
  end.

(** [condition.then(|| value)]. *)
Definition then_some {A} (condition : bool) (value : A) : option A := if condition then Some value else None.

Definition tx_to_json {E} (params : Network) (tx : Transaction) (size : Z) : outcome E TransactionDetails :=
  let overwintered := has_overwinter (version_of tx) in
  '(vin, vout) ← transparent_fields params tx;
  let '(value_balance, value_balance_zat, v_shielded_spend, v_shielded_output, binding_sig) := sapling_fields tx in
  let orchard := then_some (has_orchard (version_of tx)) (encode_orchard (orchard_part tx)) in
  commitment ← array32 (auth_commitment tx);
  Ret {| txid := txid_display (tx_id tx);
         authdigest := reverse_hex_encode commitment;
         size := size;
         overwintered := overwintered;
         version := Z.land (header (version_of tx)) 0x7FFFFFFF;
         versiongroupid := then_some overwintered (hex_fixed 8 (version_group_id (version_of tx)));
         locktime := lock_time tx;
         expiryheight := then_some overwintered (expiry_height_of tx);
         vin := vin; vout := vout;
         value_balance := value_balance; value_balance_zat := value_balance_zat;
         v_shielded_spend := v_shielded_spend; v_shielded_output := v_shielded_output;
         binding_sig := binding_sig; orchard := orchard |}.

(** ** The methods *)

Definition decode_raw_transaction (params : Network) (hexstring : string) : RpcResult TransactionDetails :=
  tx_bytes ← ok_or (hex_decode hexstring) (with_static Deserialization "TX decode failed");
  tx ← ok_or (read_transaction tx_bytes) (with_static Deserialization "TX decode failed");
  let size := Z.of_nat (length tx_bytes) in
  tx_to_json params tx size.

Section lookup.
Context `{HeightOps} `{!ChainView V}.

Definition chain_failure (e : ChainError) : ErrorObject := database_error (ViewTx.chain_error_to_string e).

Definition requested_block_of (blockhash : option string) : RpcResult (option BlockHash) :=
  match blockhash with
  | None => Ret None
  | Some s =>
      bytes ← ok_or (reverse_hex_decode32 s) (with_static InvalidParameter "invalid blockhash");
      Ret (Some (block_hash_of_bytes bytes))
  end.

Definition active_chain_of (chain_view : V) (tx : ChainTx) (requested_block : option BlockHash) :
    RpcResult (option bool) :=
  match requested_block with
  | None => Ret None
  | Some requested =>
      _ ← ensure (bool_decide (block_hash tx = Some requested))
            (with_static InvalidAddressOrKey "No such transaction found in the provided block");
      mined_height ← expect (mined_height tx);
      o ← map_err chain_failure (get_block_header chain_view mined_height);
      let canonical := header_hash <$> o in
      Ret (Some (bool_decide (canonical = Some requested)))
  end.

(** The response, once the transaction is known. *)
Definition respond (wallet : Wallet) (chain_view : V) (tx : ChainTx) (requested_block : option BlockHash)
    (verbose : bool) : RpcResult RawResult :=
  in_active_chain ← active_chain_of chain_view tx requested_block;
  let blockhash := block_hash_display <$> block_hash tx in
  let height_ := h ← mined_height tx; if h <=? i32_max then Some h else None in
  chain_tip ← map_err chain_failure (tip chain_view);
  let confirmations := (fun h => height_diff (height_add (height chain_tip) 1) h) <$> mined_height tx in
  let blocktime := block_time tx in
  let tx_hex := hex_encode (raw tx) in
  if negb verbose then Ret (Concise tx_hex)
  else
    let size := Z.of_nat (length (raw tx)) in
    inner ← tx_to_json (params_of wallet) (inner tx) size;
    Ret (Verbose {| in_active_chain := in_active_chain; hex := tx_hex; tx_inner := inner;
                    blockhash := blockhash; tx_height := height_; confirmations := confirmations;
                    time := blocktime; blocktime := blocktime |}).

Definition get_raw_transaction (wallet : Wallet) (snapshot : outcome ChainError V) (txid_str : string)
    (verbose : option Z) (blockhash : option string) : RpcResult RawResult :=
  bytes ← parse_txid txid_str;
  let verbose := match verbose with Some v => negb (v =? 0) | None => false end in
  requested_block ← requested_block_of blockhash;
  chain_view ← map_err chain_failure snapshot;
  o ← map_err chain_failure (get_transaction chain_view (txid_of_bytes bytes));
  tx ← ok_or o (with_static InvalidAddressOrKey "No such mempool or blockchain transaction");
  respond wallet chain_view tx requested_block verbose.
End lookup.

(** ** The JSON form describes the transaction *)

Definition outputs_of (tx : Transaction) : list TxOut :=
  match transparent_part tx with Some b => b_vout b | None => [] end.

Lemma zip_u16_spec {E A} start (l : list A) :
  0 <= start ->
  zip_u16 (E := E) start l =
    if bool_decide (l <> [] /\ u16_max < start + Z.of_nat (length l)) then Panic
    else Ret (imap (fun i x => (x, start + Z.of_nat i)) l).
Proof.
  revert start. induction l as [|x l IH]; intros start Hs; [by case_bool_decide as Hd; [destruct Hd|]|].
  cbn [zip_u16 imap length]. unfold assert. destruct (Z.ltb_spec start u16_max) as [Hlt|Hge].
  - cbn [mbind outcome_bind]. rewrite IH by lia.
    rewrite (bool_decide_ext (l <> [] /\ u16_max < start + 1 + Z.of_nat (length l))
      (x :: l <> [] /\ u16_max < start + Z.of_nat (S (length l)))).
    2: { destruct l; cbn; split; intros [_ ?]; split; (done || lia). }
    case_bool_decide; [done|]. cbn. f_equal. f_equal; [f_equal; lia|].
    apply imap_ext. intros i y _. cbn. f_equal. lia.
  - cbn [mbind outcome_bind]. case_bool_decide as Hd; [done|]. exfalso. apply Hd. split; [done|lia].
Qed.

Lemma transparent_fields_spec {E} params tx :
  match transparent_fields (E := E) params tx with
  | Ret (vin, vout) =>
      Z.of_nat (length (outputs_of tx)) <= u16_max /\
      vin = match transparent_part tx with
            | Some b => (fun i => encode_input i (is_coinbase b)) <$> b_vin b
            | None => []
            end /\
      vout = imap (fun i o => encode_output params (o, Z.of_nat i)) (outputs_of tx)
  | Err _ => False
  | Panic => u16_max < Z.of_nat (length (outputs_of tx))
  end.
Proof.
  unfold transparent_fields, outputs_of. destruct (transparent_part tx) as [b|]; [|done].
  rewrite zip_u16_spec by done. case_bool_decide as Hd; cbn.
  - lia.
  - split; [|split; [done|]].
    + destruct (b_vout b) eqn:Hb; [done|]. apply Z.nlt_ge. intros Hlt. apply Hd. split; [done|lia].
    + rewrite fmap_imap. by apply imap_ext.
Qed.

(** What each group of fields of the JSON form says of the transaction. *)
Definition inputs_described (tx : Transaction) (d : TransactionDetails) : Prop :=
  forall i t, vin d !! i = Some t <->
    exists b tx_in, transparent_part tx = Some b /\ b_vin b !! i = Some tx_in /\
      t = encode_input tx_in (is_coinbase b).

Definition outputs_described (params : Network) (tx : Transaction) (d : TransactionDetails) : Prop :=
  forall i, vout d !! i = (fun o => encode_output params (o, Z.of_nat i)) <$> (outputs_of tx !! i).

Definition header_described (tx : Transaction) (d : TransactionDetails) : Prop :=
  overwintered d = has_overwinter (version_of tx) /\
  (is_Some (versiongroupid d) <-> overwintered d = true) /\
  (is_Some (expiryheight d) <-> overwintered d = true) /\
  version d = header (version_of tx) mod 2 ^ 31.

Definition sapling_described (tx : Transaction) (d : TransactionDetails) : Prop :=
  (binding_sig d = None <-> default [] (v_shielded_spend d) = [] /\ default [] (v_shielded_output d) = []) /\
  value_balance d = value_from_zat_balance <$> value_balance_zat d /\
  (value_balance_zat d = None <-> sapling_part tx = None /\ before_sapling (version_of tx) = true) /\
  (is_Some (v_shielded_spend d) <-> is_Some (value_balance_zat d)) /\
  (is_Some (v_shielded_output d) <-> is_Some (value_balance_zat d)) /\
  default [] (v_shielded_spend d) =
    (match sapling_part tx with Some b => encode_sapling_spend <$> shielded_spends b | None => [] end) /\
  default [] (v_shielded_output d) =
    (match sapling_part tx with Some b => encode_sapling_output <$> shielded_outputs b | None => [] end).

Definition orchard_described (tx : Transaction) (d : TransactionDetails) : Prop :=
  (is_Some (orchard d) <-> has_orchard (version_of tx) = true) /\
  (is_Some (orchard d) -> is_Some (value_balance d)) /\
  forall o, orchard d = Some o ->
    orchard_balance o = value_from_zat_balance (orchard_balance_zat o) /\
    actions o = (match orchard_part tx with Some b => encode_action <$> b_actions b | None => [] end) /\
    (flags o = None <-> actions o = []) /\ (anchor o = None <-> actions o = []) /\
    (proof o = None <-> actions o = []) /\ (orchard_sig o = None <-> actions o = []).

Lemma then_some_is_Some {A} b (x : A) : is_Some (then_some b x) <-> b = true.
Proof. destruct b; cbn; split; try done; by intros []. Qed.

Lemma fmap_nil_iff {A B} (f : A -> B) l : f <$> l = [] <-> l = [].
Proof. by destruct l. Qed.

Section laws.
Context `{!RawTxLaws}.

Lemma array32_commitment {E} tx : array32 (E := E) (auth_commitment tx) = Ret (auth_commitment tx).
Proof. unfold array32. by rewrite auth_commitment_32. Qed.

Lemma version_mask h : Z.land h 0x7FFFFFFF = h mod 2 ^ 31.
Proof. change 0x7FFFFFFF with (Z.ones 31). by apply Z.land_ones. Qed.

(** The result of [tx_to_json], its fields by name. *)
Lemma tx_to_json_Ret {E} params tx size_ d :
  tx_to_json (E := E) params tx size_ = Ret d ->
  transparent_fields (E := E) params tx = Ret (vin d, vout d) /\
  (value_balance d, value_balance_zat d, v_shielded_spend d, v_shielded_output d, binding_sig d) = sapling_fields tx /\
  orchard d = then_some (has_orchard (version_of tx)) (encode_orchard (orchard_part tx)) /\
  header_described tx d /\ txid d = txid_display (tx_id tx) /\
  authdigest d = reverse_hex_encode (auth_commitment tx) /\ size d = size_ /\ locktime d = lock_time tx.
Proof.
  unfold tx_to_json. destruct (transparent_fields params tx) as [[i o]| |]; cbn; [|done..].
  destruct (sapling_fields tx) as [[[[vb vbz] ss] so] bs].
  rewrite array32_commitment. cbn. intros [= <-]. cbn. unfold header_described. cbn.
  rewrite version_mask. split_and!; done || apply then_some_is_Some.
Qed.

Lemma sapling_fields_described tx d :
  (value_balance d, value_balance_zat d, v_shielded_spend d, v_shielded_output d, binding_sig d) = sapling_fields tx ->
  sapling_described tx d.
Proof.
  unfold sapling_fields, sapling_described. pose proof (sapling_nonempty tx) as Hne.
  destruct (sapling_part tx) as [b|].
  - intros [= -> -> -> -> ->]. cbn. rewrite !fmap_nil_iff. specialize (Hne b eq_refl).
    by split_and!; try done; split; try done; intros [].
  - destruct (before_sapling (version_of tx)); intros [= -> -> -> -> ->]; cbn; split_and!;
      first [done | by split; intros [] | by split; [|intros []]].
Qed.

Lemma orchard_fields_described tx d :
  orchard d = then_some (has_orchard (version_of tx)) (encode_orchard (orchard_part tx)) ->
  sapling_described tx d -> orchard_described tx d.
Proof.
  intros Ho (_ & Hb & Hz & _). unfold orchard_described. rewrite Ho, then_some_is_Some. split_and!.
  - done.
  - intros [n Hn]%has_orchard_later. rewrite Hb. destruct (value_balance_zat d) eqn:E; [done|].
    destruct Hz as [Hz _]. destruct (Hz eq_refl) as [_ Hv]. by rewrite Hn in Hv.
  - intros o. destruct (has_orchard _); [|done]. cbn [then_some]. intros [= <-].
    destruct (orchard_part tx) as [b|] eqn:Hp; cbn; rewrite ?fmap_nil_iff; [|done].
    by apply orchard_nonempty in Hp.
Qed.

(** C35. The JSON form lists the inputs and outputs in order with their
    indices, has the overwinter, Sapling and Orchard fields exactly for the
    versions that carry them, with the zatoshi and decimal balances equal, and
    keeps the fields of a bundle present or absent together. It panics exactly
    when the outputs outnumber 16-bit indices. *)
Theorem tx_to_json_correct params tx size_ :
  match tx_to_json (E := Empty_set) params tx size_ with
  | Ret d =>
      Z.of_nat (length (outputs_of tx)) <= u16_max /\
      txid d = txid_display (tx_id tx) /\ size d = size_ /\ header_described tx d /\
      inputs_described tx d /\ outputs_described params tx d /\
      sapling_described tx d /\ orchard_described tx d
  | Err _ => False
  | Panic => u16_max < Z.of_nat (length (outputs_of tx))
  end.
Proof.
  pose proof (transparent_fields_spec (E := Empty_set) params tx) as Ht.
  destruct (tx_to_json params tx size_) as [d|[]|] eqn:Hd.
  - apply tx_to_json_Ret in Hd as (Htr & Hs & Ho & Hh & Hid & _ & Hsz & _). rewrite Htr in Ht.
    destruct Ht as (Hlen & Hin & Hout). pose proof (sapling_fields_described tx d Hs) as Hsap.
    split_and!; try done; [| |by apply orchard_fields_described].
    + intros i t. rewrite Hin. destruct (transparent_part tx) as [b|]; [|by split; [|intros (? & ? & ? & ?)]].
      rewrite list_lookup_fmap_Some. split.
      * intros (x & -> & Hx). by exists b, x.
      * intros (b' & x & [= <-] & Hx & ->). by exists x.
    + intros i. by rewrite Hout, list_lookup_imap.
  - unfold tx_to_json in Hd. destruct (transparent_fields params tx) as [[i o]| |]; [|done..].
    cbn in Hd. destruct (sapling_fields tx) as [[[[vb vbz] ss] so] bs].
    by rewrite array32_commitment in Hd.
Qed.
End laws.

(** ** The lookup *)

Section lookup_laws.
Context `{HeightOps} `{!ChainView V}.
Context `{!RawTxLaws} `{!ScriptLaws} `{!HeightLaws} `{!ChainViewLaws V}.

(** The transaction named is one the view has. *)
Definition found (snapshot : outcome ChainError V) (txid_str : string) (v : V) (tx : ChainTx) : Prop :=
  exists bytes, parse_txid txid_str = Ret bytes /\ snapshot = Ret v /\
    get_transaction v (txid_of_bytes bytes) = Ret (Some tx).

(** It is in the block asked for, if one was. *)
Definition in_requested_block (tx : ChainTx) (blockhash : option string) : Prop :=
  forall s, blockhash = Some s -> exists bytes, reverse_hex_decode32 s = Some bytes /\
    block_hash tx = Some (block_hash_of_bytes bytes).

Definition asked_verbose (verbose : option Z) : Prop := exists v, verbose = Some v /\ v <> 0.

Definition verbose_response (wallet : Wallet) (v : V) (t : ChainBlock) (tx : ChainTx) (blockhash_arg : option string)
    (x : VerboseTransaction) : Prop :=
  hex_decode (hex x) = Some (raw tx) /\
  tx_to_json (E := ErrorObject) (params_of wallet) (inner tx) (Z.of_nat (length (raw tx))) = Ret (tx_inner x) /\
  blockhash x = block_hash_display <$> block_hash tx /\ time x = block_time tx /\ blocktime x = block_time tx /\
  (in_active_chain x = None <-> blockhash_arg = None) /\
  (forall b, in_active_chain x = Some b -> exists h bh, mined_height tx = Some h /\ block_hash tx = Some bh /\
     (b = true <-> at_height v h = Some bh)) /\
  (mined_height tx = None -> tx_height x = None /\ confirmations x = None) /\
  (forall h, mined_height tx = Some h -> 0 <= h <= height t + 1 ->
     confirmations x = Some (height t + 1 - h) /\ (h <= i32_max -> tx_height x = Some h)).

(** The error of a read of the chain that failed with [c]. *)
Definition chain_error (c : ChainError) : ErrorObject :=
  with_message Database (Text (ViewTx.chain_error_to_string c)).

(** Why the answer for a transaction fails, with its error: it is not in the block
    asked for, or the header at its height, asked for with a block, or the tip cannot
    be read. *)
Definition answer_failed (v : V) (tx : ChainTx) (blockhash : option string) (e : ErrorObject) : Prop :=
  (e = with_static InvalidAddressOrKey "No such transaction found in the provided block" /\
     ~ in_requested_block tx blockhash) \/
  (in_requested_block tx blockhash /\ exists c, e = chain_error c /\
     ((is_Some blockhash /\ exists h, mined_height tx = Some h /\ get_block_header v h = Err c) \/ tip v = Err c)).

(** Why a lookup fails, with its error. *)
Definition lookup_failed (snapshot : outcome ChainError V) (txid_str : string) (blockhash : option string)
    (e : ErrorObject) : Prop :=
  match reverse_hex_decode32 txid_str, s ← blockhash; Some (reverse_hex_decode32 s) with
  | None, _ => e = with_static InvalidParameter "invalid txid"
  | Some _, Some None => e = with_static InvalidParameter "invalid blockhash"
  | Some bytes, _ =>
      (exists c, e = chain_error c /\
         (snapshot = Err c \/ exists v, snapshot = Ret v /\ get_transaction v (txid_of_bytes bytes) = Err c)) \/
      (e = with_static InvalidAddressOrKey "No such mempool or blockchain transaction" /\
         exists v, snapshot = Ret v /\ get_transaction v (txid_of_bytes bytes) = Ret None) \/
      exists v tx, found snapshot txid_str v tx /\ answer_failed v tx blockhash e
  end.

(** The chain's own reads do not panic. *)
Definition reads_return (snapshot : outcome ChainError V) : Prop :=
  snapshot <> Panic /\ forall v, tip v <> Panic /\ (forall id, get_transaction v id <> Panic) /\
    forall h, get_block_header v h <> Panic.

Lemma active_chain_of_spec v tx blockhash requested :
  requested_block_of blockhash = Ret requested -> (forall h, get_block_header v h <> Panic) ->
  match active_chain_of v tx requested with
  | Ret a => in_requested_block tx blockhash /\ (a = None <-> blockhash = None) /\
      forall b, a = Some b -> exists h bh, mined_height tx = Some h /\ block_hash tx = Some bh /\
        (b = true <-> at_height v h = Some bh)
  | Err e => answer_failed v tx blockhash e
  | Panic => in_requested_block tx blockhash /\ is_Some blockhash /\ mined_height tx = None
  end.
Proof.
  intros Hr Hh. destruct blockhash as [s|]; cbn in Hr.
  2: { injection Hr as <-. cbn. split; [done|]. by split. }
  destruct (reverse_hex_decode32 s) as [bytes|] eqn:Hs; [|done]. injection Hr as <-. cbn.
  case_bool_decide as Hb; cbn.
  2: { left. split; [done|]. intros Hin. destruct (Hin s eq_refl) as (bytes' & ? & ?).
       apply Hb. congruence. }
  assert (in_requested_block tx (Some s)) as Hin by (intros ? [= <-]; eauto).
  destruct (mined_height tx) as [h|] eqn:Hm; cbn; [|by eauto].
  destruct (get_block_header v h) as [o|c|] eqn:Hg; cbn; [| |by destruct (Hh h)].
  2: { right. split; [done|]. exists c. split; [done|]. left. eauto. }
  split; [done|]. split; [done|]. intros b [= <-]. exists h, (block_hash_of_bytes bytes).
  split_and!; [done..|]. rewrite bool_decide_eq_true. apply get_block_header_spec in Hg.
  rewrite <- Hg. done.
Qed.

Lemma is_verbose_spec (verbose : option Z) :
  match verbose with Some v => negb (v =? 0) | None => false end = true <-> asked_verbose verbose.
Proof.
  unfold asked_verbose. destruct verbose as [v|]; [|by split; [|intros (? & ? & ?)]].
  rewrite negb_true_iff, Z.eqb_neq. split; [by exists v|by intros (? & [= <-] & ?)].
Qed.

Lemma verbose_response_intro wallet v t tx blockhash a d :
  tip v = Ret t -> (a = None <-> blockhash = None) ->
  (forall b, a = Some b -> exists h bh, mined_height tx = Some h /\ block_hash tx = Some bh /\
     (b = true <-> at_height v h = Some bh)) ->
  tx_to_json (E := ErrorObject) (params_of wallet) (inner tx) (Z.of_nat (length (raw tx))) = Ret d ->
  verbose_response wallet v t tx blockhash
    {| in_active_chain := a; hex := hex_encode (raw tx); tx_inner := d;
       blockhash := block_hash_display <$> block_hash tx;
       tx_height := h ← mined_height tx; if h <=? i32_max then Some h else None;
       confirmations := (fun h => height_diff (height_add (height t) 1) h) <$> mined_height tx;
       time := block_time tx; blocktime := block_time tx |}.
Proof.
  intros Ht Hn Ha Hd. destruct (tip_spec v t Ht) as [Hrange _].
  unfold verbose_response. cbn. split_and!; try done.
  - apply hex_round_trip.
  - intros ->. done.
  - intros h -> Hh. cbn. rewrite height_add_spec by lia. rewrite raw_height_diff_spec by lia.
    split; [done|]. intros Hle. by destruct (Z.leb_spec h i32_max); [|lia].
Qed.

Lemma tx_to_json_no_Err {E} params tx size_ e : tx_to_json (E := E) params tx size_ <> Err e.
Proof.
  pose proof (transparent_fields_spec (E := E) params tx) as Ht. unfold tx_to_json.
  destruct (transparent_fields params tx) as [[i o]| |]; cbn; [|done..].
  destruct (sapling_fields tx) as [[[[vb vbz] ss] so] bs]. by rewrite array32_commitment.
Qed.

Lemma tx_to_json_Panic {E} params tx size_ :
  tx_to_json (E := E) params tx size_ = Panic -> u16_max < Z.of_nat (length (outputs_of tx)).
Proof.
  pose proof (transparent_fields_spec (E := E) params tx) as Ht. unfold tx_to_json.
  destruct (transparent_fields params tx) as [[i o]| |]; cbn; [|done..].
  destruct (sapling_fields tx) as [[[[vb vbz] ss] so] bs]. by rewrite array32_commitment.
Qed.

Lemma respond_spec wallet v tx blockhash requested verbose :
  requested_block_of blockhash = Ret requested ->
  tip v <> Panic -> (forall h, get_block_header v h <> Panic) ->
  match respond wallet v tx requested verbose with
  | Ret r => exists t, in_requested_block tx blockhash /\ tip v = Ret t /\
      match r with
      | Concise h => verbose = false /\ hex_decode h = Some (raw tx)
      | Verbose x => verbose = true /\ verbose_response wallet v t tx blockhash x
      end
  | Err e => answer_failed v tx blockhash e
  | Panic => in_requested_block tx blockhash /\
      ((is_Some blockhash /\ mined_height tx = None) \/
       (verbose = true /\ u16_max < Z.of_nat (length (outputs_of (inner tx)))))
  end.
Proof.
  intros Hr Htip Hh. unfold respond.
  pose proof (active_chain_of_spec v tx blockhash requested Hr Hh) as Ha.
  destruct (active_chain_of v tx requested) as [a|e|]; cbn [mbind outcome_bind]; [|done|tauto].
  destruct Ha as (Hin & Hn & Ha).
  destruct (tip v) as [t|c|] eqn:Ht; cbn [map_err mbind outcome_bind]; [|by right; eauto|done].
  destruct verbose; cbn [negb].
  2: { exists t. by rewrite hex_round_trip. }
  destruct (tx_to_json (params_of wallet) (inner tx) (Z.of_nat (length (raw tx)))) as [d|e|] eqn:Hd;
    cbn [mbind outcome_bind].
  - exists t. split_and!; [done..|]. by apply verbose_response_intro.
  - by apply tx_to_json_no_Err in Hd.
  - split; [done|]. right. split; [done|]. by eapply tx_to_json_Panic.
Qed.

Lemma parse_txid_Ret txid_str bytes : reverse_hex_decode32 txid_str = Some bytes -> parse_txid txid_str = Ret bytes.
Proof. unfold parse_txid. by intros ->. Qed.

(** C33. The answer describes the transaction the view has under the id, in
    the block asked for: its bytes, block, height, confirmations counted from
    the tip and whether that block is on the chain. Each error has its stated
    cause, and the call panics only for a transaction with a block but no
    height, or with more outputs than 16-bit indices. *)
Theorem get_raw_transaction_correct wallet snapshot txid_str verbose blockhash :
  reads_return snapshot ->
  match get_raw_transaction wallet snapshot txid_str verbose blockhash with
  | Ret r => exists v t tx, found snapshot txid_str v tx /\ in_requested_block tx blockhash /\ tip v = Ret t /\
      match r with
      | Concise h => ~ asked_verbose verbose /\ hex_decode h = Some (raw tx)
      | Verbose x => asked_verbose verbose /\ verbose_response wallet v t tx blockhash x
      end
  | Err e => lookup_failed snapshot txid_str blockhash e
  | Panic => exists v tx, found snapshot txid_str v tx /\ in_requested_block tx blockhash /\
      ((is_Some blockhash /\ mined_height tx = None) \/
       (asked_verbose verbose /\ u16_max < Z.of_nat (length (outputs_of (inner tx)))))
  end.
Proof.
  intros [Hsnap Hreads]. unfold get_raw_transaction, lookup_failed, parse_txid.
  destruct (reverse_hex_decode32 txid_str) as [bytes|] eqn:Hp; cbn [ok_or mbind outcome_bind option_bind]; [|done].
  apply parse_txid_Ret in Hp. destruct (requested_block_of blockhash) as [req|e|] eqn:Hr; cbn [mbind outcome_bind].
  2,3: destruct blockhash as [s|]; [|done]; cbn in Hr |- *; destruct (reverse_hex_decode32 s); [done|]; first [done|by injection Hr as <-].
  assert (forall P e, P -> match (s ← blockhash; Some (reverse_hex_decode32 s)) with
    | Some None => e = with_static InvalidParameter "invalid blockhash" | _ => P end) as Hok.
  { intros P e HP. destruct blockhash as [s|]; cbn in Hr |- *; [|done]. by destruct (reverse_hex_decode32 s). }
  destruct snapshot as [v|c|] eqn:Hsn; [|by apply Hok; eauto|done]. cbn [map_err mbind outcome_bind].
  destruct (Hreads v) as (Htip & Hget & Hhead).
  destruct (get_transaction v (txid_of_bytes bytes)) as [[tx|]|c|] eqn:Hg; cbn [map_err mbind outcome_bind ok_or];
    [|by apply Hok; eauto 6|by apply Hok; eauto 10|by destruct (Hget (txid_of_bytes bytes))].
  assert (found (Ret v) txid_str v tx) as Hf by (by exists bytes).
  pose proof (respond_spec wallet v tx blockhash req
    (match verbose with Some v => negb (v =? 0) | None => false end) Hr Htip Hhead) as Hs.
  pose proof (is_verbose_spec verbose) as Hverb.
  destruct (respond _ _ _ _ _) as [r|e|].
  - destruct Hs as (t & Hin & Ht & Hs). exists v, t, tx. split_and!; [done..|].
    destruct r; rewrite <- Hverb; [|done]. by destruct Hs as [-> ?].
  - apply Hok. eauto 6.
  - exists v, tx. rewrite <- Hverb. by destruct Hs.
Qed.

(** Two parsed transactions that agree on everything the JSON form shows: the
    branch a transaction is parsed with does not matter for it. *)
Definition shown_alike (a b : Transaction) : Prop :=
  version_of a = version_of b /\ lock_time a = lock_time b /\ expiry_height_of a = expiry_height_of b /\
  tx_id a = tx_id b /\ auth_commitment a = auth_commitment b /\ transparent_part a = transparent_part b /\
  sapling_part a = sapling_part b /\ orchard_part a = orchard_part b.

Lemma tx_to_json_alike {E} params a b size_ :
  shown_alike a b -> tx_to_json (E := E) params a size_ = tx_to_json params b size_.
Proof.
  intros (Hv & Hl & He & Hi & Hc & Ht & Hs & Ho).
  unfold tx_to_json, transparent_fields, sapling_fields. by rewrite Hv, Hl, He, Hi, Hc, Ht, Hs, Ho.
Qed.

(** Decoding the hex of a verbose answer with decoderawtransaction gives
    the same details, and the call that is not verbose answers that hex. *)
Theorem verbose_decodes_again wallet v txid_str blockhash x :
  (forall id tx, get_transaction v id = Ret (Some tx) ->
    exists tx', read_transaction (raw tx) = Some tx' /\ shown_alike tx' (inner tx)) ->
  get_raw_transaction wallet (Ret v) txid_str (Some 1) blockhash = Ret (Verbose x) ->
  decode_raw_transaction (params_of wallet) (hex x) = Ret (tx_inner x) /\
  (forall verbose, ~ asked_verbose verbose ->
    get_raw_transaction wallet (Ret v) txid_str verbose blockhash = Ret (Concise (hex x))).
Proof.
  intros Hread. unfold get_raw_transaction. intros (bytes & -> & Hr)%bind_Ret.
  apply bind_Ret in Hr as (req & -> & Hr). cbn [map_err mbind outcome_bind] in Hr |- *.
  apply bind_Ret in Hr as (o & Ho & Hr). apply bind_Ret in Hr as (tx & Htx & Hr).
  rewrite Ho. cbn [mbind outcome_bind]. rewrite Htx. cbn [mbind outcome_bind].
  apply ok_or_Ret in Htx as ->.
  destruct (get_transaction v (txid_of_bytes bytes)) as [o'| |] eqn:Hg; [|done..]. injection Ho as ->.
  destruct (Hread _ _ Hg) as (tx' & Hparse & Halike).
  unfold respond in Hr |- *. apply bind_Ret in Hr as (a & -> & Hr). cbn [mbind outcome_bind].
  apply bind_Ret in Hr as (t & -> & Hr). cbn [mbind outcome_bind negb Z.eqb] in Hr |- *.
  apply bind_Ret in Hr as (d & Hd & [= <-]). cbn [hex tx_inner]. split.
  - unfold decode_raw_transaction. rewrite hex_round_trip. cbn [ok_or mbind outcome_bind].
    rewrite Hparse. cbn [ok_or mbind outcome_bind]. by rewrite (tx_to_json_alike _ _ _ _ Halike).
  - intros verbose Hn. pose proof (is_verbose_spec verbose) as Hverb.
    destruct (match verbose with Some v => negb (v =? 0) | None => false end); [|done].
    by destruct Hn; apply Hverb.
Qed.

(** The view of the zebra-state backend reports a transaction of a side chain
    with its block and without a height; asked for it in that block,
    getrawtransaction panics. *)
Theorem side_chain_lookup_panics {N : ZebraView.NodeOps}
    (env : nat -> ZebraView.NodeState) (interfere : nat -> gmap Z BlockHash -> gmap Z BlockHash)
    (zebra : ZebraView.ZebraChainView) (w : ZebraView.world) wallet v txid_str bytes s block side parsed verbose :
  parse_txid txid_str = Ret bytes -> reverse_hex_decode32 s = Some block ->
  ZebraView.node_transaction (env (ZebraView.clock w)) (txid_of_bytes bytes) = Ret None ->
  ZebraView.side_chain_transaction (env (S (ZebraView.clock w))) (txid_of_bytes bytes) = Ret (Some side) ->
  ZebraView.read_transaction (ZebraView.side_raw side) (height_add (height (ZebraView.view_tip zebra)) 1) = Ret parsed ->
  ZebraView.side_block_hash side = block_hash_of_bytes block ->
  get_transaction v (txid_of_bytes bytes) =
    fst (ZebraView.get_transaction env interfere zebra (txid_of_bytes bytes) w) ->
  get_raw_transaction wallet (Ret v) txid_str verbose (Some s) = Panic.
Proof.
  intros Hp Hs Hbest Hside Hread Hblock Hg. unfold get_raw_transaction. rewrite Hp.
  cbn [mbind outcome_bind requested_block_of ok_or map_err]. rewrite Hs. cbn [mbind outcome_bind ok_or].
  rewrite Hg. unfold ZebraView.get_transaction, ZebraView.rd, mbind, M_bind.
  rewrite Hbest. cbn. rewrite Hside. cbn. rewrite Hread. cbn. rewrite bool_decide_true by by rewrite Hblock.
  done.
Qed.
End lookup_laws.
End raw_tx.

(** ** An example: hashes are numbers, written as a character *)
Section example.
#[local] Instance toy_chain : ChainTypes.
Proof.
  refine {| BlockHash := Z; BlockHeader := Z; Block := Z; Transaction := list Byte.byte; TxId := Z;
    ChainState := Z; header_hash h := h; claimed_height h := h; block_header h := h |}.
Defined.

Definition toy_number (b : list Byte.byte) : Z :=
  match b with x :: _ => Z.of_N (Byte.to_N x) | [] => 0 end.

#[local] Instance toy_params : ParamOps := @Build_ParamOps
  unit Z Z Z Z _ _ (fun _ => None) (fun _ => None) (fun s => Err "malformed"%string) (fun b => 0) (fun s => None)
  (fun s => if String.eqb s "" then None else Some (String.list_byte_of_string s))
  (fun z => None) (fun n => "3"%string) (fun c => "error"%string)
  (fun w => Ret []) (fun w => Ret [1]) (fun w i => Ret (Some i)) (fun a => None).

#[local] Instance toy_heights : HeightOps :=
  {| height_add a b := Z.min u32_max (a + b); height_sub a b := Z.max 0 (a - b) |}.

#[local] Instance toy_heights_laws : HeightLaws.
Proof. split; unfold height_add, height_sub; cbn; intros; lia. Qed.

(** One coinbase input and one output; the first byte is the version. *)
#[local] Instance toy_raw : RawTxOps.
Proof.
  refine {|
    raw_decimals := {| JsonZec := Z; decimal_of z := z; decimal_div := Z.div; trunc_with_scale z _ := z |};
    raw_script := toy_script; params_of _ := tt;
    read_transaction b := match b with [] => None | _ => Some b end;
    version_of tx := if 4 <=? toy_number tx then VLater (toy_number tx) else VSprout (toy_number tx);
    has_overwinter v := match v with VLater _ => true | _ => false end;
    has_orchard v := match v with VLater n => 5 <=? n | _ => false end;
    header v := match v with VLater n => 2 ^ 31 + n mod 256 | VSprout n => n mod 256 | V3 => 2 ^ 31 + 3 end;
    version_group_id _ := 0x26A7270A; lock_time _ := 0; expiry_height_of _ := 120; tx_id := toy_number;
    auth_commitment _ := replicate 32 Byte.xff;
    transparent_part tx := Some {|
      b_vin := [{| in_script_sig := tx; prevout_hash := []; prevout_n := 0; in_sequence := 7 |}];
      b_vout := [{| out_value := 90; out_script_pubkey := Byte.x00 :: tx |}]; is_coinbase := true |};
    sapling_part _ := None; orchard_part _ := None;
    txid_of_bytes := toy_number; block_hash_of_bytes := toy_number;
    txid_display _ := "txid"%string; block_hash_display _ := "hash"%string;
    reverse_hex_encode b := String.string_of_list_byte (rev b); height_diff a b := Z.max 0 (a - b) |}.
Defined.

#[local] Instance toy_raw_laws : RawTxLaws.
Proof.
  split.
  - done.
  - intros [n| |n]; cbn; try done. by exists n.
  - intros [n| |n]; cbn; unfold u32_max; Z.div_mod_to_equations; lia.
  - done.
  - done.
  - cbn. intros. lia.
Qed.

#[local] Instance toy_raw_script_laws : @ScriptLaws (@raw_script _ _ toy_raw) := toy_script_laws.

Definition toy_tx : ChainTx :=
  {| inner := [Byte.x05]; raw := [Byte.x05]; block_hash := Some 97; mined_height := Some 97; block_time := Some 12 |}.

(** The chain has the blocks up to 118, the wallet's transaction is in block 97. *)
#[local] Instance toy_view : ChainView unit := {|
  tip _ := Ret {| height := 118; hash := 118 |};
  find_fork_point _ _ := Err (backend "unused"); tree_state_as_of _ _ := Ret None;
  get_block_header _ h := Ret (if (0 <=? h) && (h <=? 118) then Some h else None);
  get_block _ _ := Ret None;
  stream_blocks_to_tip _ _ := Ret (Stream [] (Some (backend "unused"))); stream_blocks _ _ := Ret (Stream [] None);
  get_mempool_stream _ := Ret None;
  get_transaction _ t := Ret (if t =? 97 then Some toy_tx else None);
  get_transaction_status _ _ := Ret TxidNotRecognized |}.

#[local] Instance toy_view_laws : ChainViewLaws unit.
Proof.
  refine {| at_height (_ : unit) h := if (0 <=? h) && (h <=? 118) then Some h else None |}; cbn; try done.
  - intros _ b [= <-]. cbn. split; [unfold u32_max; lia|]. split; [done|].
    intros h Hh. by rewrite (proj2 (Z.leb_gt _ _) Hh), andb_false_r.
  - intros _ h o [= <-]. by destruct (_ && _).
  - by intros _ s st [= <-].
  - by intros _ s b st _ _ [= <-].
  - intros _ [a b] st Hlt [= <-]. cbn in *. split; [done|lia].
Qed.

Definition toy_lookup (verbose : option Z) (blockhash : option string) : RpcResult RawResult :=
  get_raw_transaction (tt : @Wallet toy_params) (Ret tt) "a" verbose blockhash.

(** The confirmations and [in_active_chain] of a verbose response. *)
Definition toy_summary (r : RpcResult RawResult) : option (option Z * option bool) :=
  match r with Ret (Verbose x) => Some (confirmations x, in_active_chain x) | _ => None end.

Lemma toy_reads : reads_return (Ret tt).
Proof. by split. Qed.

Lemma get_raw_transaction_correct_witness :
  toy_summary (toy_lookup (Some 1) (Some "a"%string)) = Some (Some 22, Some true) /\
  match toy_lookup (Some 1) (Some "a"%string) with
  | Ret (Verbose x) => exists tx, found (Ret tt) "a" tt tx /\ hex_decode (hex x) = Some (raw tx)
  | _ => False
  end /\
  lookup_failed (Ret tt) "a" (Some "b"%string)
    (with_static InvalidAddressOrKey "No such transaction found in the provided block").
Proof.
  assert (toy_summary (toy_lookup (Some 1) (Some "a"%string)) = Some (Some 22, Some true)) as Hs
    by (vm_compute; reflexivity).
  split; [exact Hs|]. split.
  - pose proof (get_raw_transaction_correct (tt : @Wallet toy_params) (Ret tt) "a" (Some 1) (Some "a"%string) toy_reads) as Hc.
    unfold toy_lookup in Hs |- *. destruct (get_raw_transaction _ _ _ _ _) as [[h|x]|e|]; [discriminate Hs| |discriminate Hs..].
    destruct Hc as ([] & t & tx & Hf & _ & _ & _ & Hhex & _). exists tx. split; [exact Hf|exact Hhex].
  - exact (get_raw_transaction_correct (tt : @Wallet toy_params) (Ret tt) "a" None (Some "b"%string) toy_reads).
Defined.

Lemma verbose_decodes_again_witness :
  toy_summary (toy_lookup (Some 1) None) = Some (Some 22, None) /\
  match toy_lookup (Some 1) None with
  | Ret (Verbose x) => decode_raw_transaction tt (hex x) = Ret (tx_inner x) /\
      toy_lookup None None = Ret (Concise (hex x))
  | _ => False
  end.
Proof.
  assert (toy_summary (toy_lookup (Some 1) None) = Some (Some 22, None)) as Hs by (vm_compute; reflexivity).
  split; [exact Hs|]. pose proof (fun x => verbose_decodes_again (tt : @Wallet toy_params) tt "a" None x) as Hd.
  unfold toy_lookup in Hs |- *.
  destruct (get_raw_transaction _ _ _ (Some 1) _) as [[h|x]|e|]; [discriminate Hs| |discriminate Hs..].
  destruct (Hd x) as [Hx Hc]; [|reflexivity|].
  - cbn. intros id tx. destruct (id =? 97); [|discriminate]. intros [= <-]. exists [Byte.x05]. by split.
  - split; [exact Hx|]. apply Hc. by intros (? & ? & _).
Defined.

Lemma tx_to_json_correct_witness :
  match tx_to_json (E := Empty_set) tt [Byte.x05] 1 with
  | Ret d => version d = 5 /\ header_described [Byte.x05] d /\
      outputs_described tt [Byte.x05] d /\ orchard_described [Byte.x05] d
  | _ => False
  end.
Proof.
  pose proof (tx_to_json_correct (tt : @Network (@raw_script _ _ toy_raw)) [Byte.x05] 1) as Hd.
  destruct (tx_to_json _ _ _) as [d|[]|] eqn:E.
  - destruct Hd as (_ & _ & _ & Hh & _ & Ho & _ & Hor). split; [|by split_and!].
    destruct Hh as (_ & _ & _ & ->). reflexivity.
  - vm_compute in Hd. discriminate Hd.
Defined.
End example.
