(* ===== verification/WalletDb.v ===== *)
(** Opening the wallet database (src/zallet/src/components/database.rs and
    database/ext/migrations/initial_setup.rs): the checks made of an existing
    database, the migrations, and the record of the versions that opened it.

    The file is the world of the computation: its two Zallet tables, and the rest
    as the migrations of the crates leave it. SQL statements are what they do to
    the rows; the migrator of [zcash_client_sqlite] and the [semver] crate are
    [DbOps]. Every call to the operating system may fail ([Io]). *)

From S2P Require Import Prelude Rpc Network.

Record VersionRow := {
  row_version : string;
  row_git_revision : option string;
  row_clean : option bool;
  migrated : Z
}.

(** [ext_zallet_db_wallet_metadata] and [ext_zallet_db_version_metadata], the
    latter by ascending [rowid]. *)
Record Tables := { network_types : list NetworkType; versions : list VersionRow }.

Record WalletFile (Rest : Type) := { tables : option Tables; rest : Rest }.
Arguments tables {Rest}.
Arguments rest {Rest}.

Inductive MigrationError := SeedRequired | OtherMigration (e : string).

Class DbOps := {
  Rest : Type;
  (** The file a first connection creates. *)
  new_file : Rest;
  Version : Type;
  version_parse : string -> outcome string Version;
  version_ge : Version -> Version -> bool;
  (** [WalletMigrator::init_or_migrate] with the external migrations of a
      network type. *)
  init_or_migrate : NetworkType -> WalletFile Rest -> outcome MigrationError unit * WalletFile Rest
}.

(** The constants of [crate::build]. *)
Record Build := { PKG_VERSION : string; COMMIT_HASH : string; GIT_CLEAN : bool }.

(** What [Database::open] reads of the configuration. *)
Record DbConfig := { wallet_db_path : string; network : NetworkType }.

(** The failures of the calls to the operating system in one run. *)
Record Io := {
  exists_io : option string;
  pool_io : option string;
  handle_io : option string;
  version_io : option string;
  network_io : option string;
  last_io : option string;
  insert_io : option string
}.

Inductive open_error := InitError (m : message) | GenericError (m : message).

Definition MIN_COMPATIBLE_ZALLET_VERSION : string := "0.1.0-alpha.4".

(** What running the migration [initial_setup] adds. *)
Definition initial_setup (network_type : NetworkType) : Tables :=
  {| network_types := [network_type]; versions := [] |}.

(** [map_err(|e| ErrorKind::Init.context(e))]. *)
Definition io {E} (f : message -> E) (fault : option string) : outcome E unit :=
  match fault with Some e => Err (f (Text e)) | None => Ret tt end.

Definition incompatible_alpha_database_error : open_error := InitError (Fl "err-init-db-incompatible-alpha" []).

Definition invalid_zallet_version_error (version e : string) : open_error :=
  InitError (Fl "err-init-db-invalid-zallet-version" [("version", Text version); ("err", Text e)]%string).

Section open.
Context `{DbOps}.

#[local] Abbreviation file := (WalletFile Rest).
#[local] Abbreviation World := (option (WalletFile Rest)).

Definition latest_recorded_zallet_version (i : Io) (f : file) : outcome open_error string :=
  _ ← io (fun _ => incompatible_alpha_database_error) (version_io i);
  t ← ok_or (tables f) incompatible_alpha_database_error;
  row ← ok_or (last (versions t)) incompatible_alpha_database_error;
  Ret (row_version row).

Definition verify_alpha_db_compatibility (i : Io) (f : file) : outcome open_error unit :=
  text ← latest_recorded_zallet_version i f;
  latest_version ← map_err (invalid_zallet_version_error text) (version_parse text);
  minimum_version ← expect (ok (version_parse MIN_COMPATIBLE_ZALLET_VERSION));
  if version_ge latest_version minimum_version then Ret tt else Err incompatible_alpha_database_error.

(** [query_row] fails without a table or a row. *)
Definition query_network_type (i : Io) (f : file) : outcome open_error NetworkType :=
  _ ← io InitError (network_io i);
  t ← ok_or (tables f) (InitError (Text "no such table"));
  ok_or (head (network_types t)) (InitError (Text "Query returned no rows")).

Definition verify_wallet_network_type (cfg : DbConfig) (i : Io) (f : file) : outcome open_error unit :=
  wallet_network_type ← query_network_type i f;
  if bool_decide (wallet_network_type = network cfg) then Ret tt
  else Err (InitError (Fl "err-init-config-db-mismatch"
    [("db_path", Text (wallet_db_path cfg)); ("db_network_type", Text (type_to_str wallet_network_type));
     ("config_network_type", Text (type_to_str (network cfg)))]%string)).

Definition verify_existing_database (cfg : DbConfig) (i : Io) (f : file) : outcome open_error unit :=
  _ ← verify_alpha_db_compatibility i f;
  verify_wallet_network_type cfg i f.

#[local] Abbreviation Db := (M World open_error).

(** [Database::handle]: a connection, which creates the file if there is none. *)
Definition handle (i : Io) : Db unit := fun w =>
  match io GenericError (handle_io i) with
  | Ret _ => (Ret tt, Some (default {| tables := None; rest := new_file |} w))
  | Err e => (Err e, w)
  | Panic => (Panic, w)
  end.

(** [with_raw] and [with_mut] on an open connection. *)
Definition with_raw {A} (q : file -> outcome open_error A) : Db A := fun w =>
  match w with Some f => (q f, w) | None => (Panic, w) end.

Definition with_mut {A} (q : file -> outcome open_error A * file) : Db A := fun w =>
  match w with Some f => let '(r, f') := q f in (r, Some f') | None => (Panic, w) end.

Definition migration_error (e : MigrationError) : open_error :=
  match e with
  | SeedRequired => InitError (Text "TODO: Support seed-required migrations")
  | OtherMigration e => InitError (Text e)
  end.

Definition migrate (cfg : DbConfig) : Db unit :=
  with_mut (fun f => let '(r, f') := init_or_migrate (network cfg) f in (map_err migration_error r, f')).

(** The revision of the build and whether its tree was clean, by [unzip]. *)
Definition build_revision (b : Build) : option string * option bool :=
  if String.eqb (COMMIT_HASH b) "" then (None, None) else (Some (COMMIT_HASH b), Some (GIT_CLEAN b)).

Definition version_row (b : Build) (now : Z) : VersionRow :=
  let '(git_revision, clean) := build_revision b in
  {| row_version := PKG_VERSION b; row_git_revision := git_revision; row_clean := clean; migrated := now |}.

(** The most recent entry is of this build. *)
Definition same_build (b : Build) (row : VersionRow) : bool :=
  let '(git_revision, clean) := build_revision b in
  String.eqb (row_version row) (PKG_VERSION b) && bool_decide (row_git_revision row = git_revision) &&
  bool_decide (row_clean row = clean).

Definition record_version (b : Build) (now : Z) (i : Io) : Db unit :=
  with_mut (fun f =>
    match (_ ← io InitError (last_io i); ok_or (tables f) (InitError (Text "no such table"))) with
    | Ret t =>
        if match last (versions t) with Some row => same_build b row | None => false end then (Ret tt, f)
        else
          match io InitError (insert_io i) with
          | Ret _ => (Ret tt, {| tables := Some {| network_types := network_types t;
                                                  versions := versions t ++ [version_row b now] |};
                                 rest := rest f |})
          | Err e => (Err e, f)
          | Panic => (Panic, f)
          end
    | Err e => (Err e, f)
    | Panic => (Panic, f)
    end).

(** [Database::open] up to the migrations, all of which it has when it goes on
    to record the version. *)
Definition open_and_migrate (cfg : DbConfig) (i : Io) : Db unit :=
  _ ← lift (io InitError (exists_io i));
  db_exists ← gets (fun w => match w with Some _ => true | None => false end);
  _ ← lift (io GenericError (pool_io i));
  _ ← handle i;
  _ ← if (db_exists : bool) then with_raw (verify_existing_database cfg i) else mret tt;
  migrate cfg.

Definition open (cfg : DbConfig) (b : Build) (now : Z) (i : Io) : Db unit :=
  _ ← open_and_migrate cfg i;
  record_version b now i.

(** ** What the crates promise *)

(** The migrator runs [initial_setup] once, with the other migrations, each in a
    transaction of its own; it touches the rows of the two tables in no other
    way, and has nothing to do on a migrated database. *)
Class DbLaws := {
  minimum_valid : exists v, version_parse MIN_COMPATIBLE_ZALLET_VERSION = Ret v;
  version_parse_total : forall s, version_parse s <> Panic;
  migrate_total : forall nt f, (init_or_migrate nt f).1 <> Panic;
  migrate_done : forall nt f f', init_or_migrate nt f = (Ret tt, f') ->
    tables f' = Some (default (initial_setup nt) (tables f));
  migrate_failed : forall nt f e f', init_or_migrate nt f = (Err e, f') ->
    tables f' = tables f \/ (tables f = None /\ tables f' = Some (initial_setup nt));
  migrate_again : forall nt f f' t, init_or_migrate nt f = (Ret tt, f') ->
    init_or_migrate nt {| tables := Some t; rest := rest f' |} = (Ret tt, {| tables := Some t; rest := rest f' |})
}.

Context `{!DbLaws}.

(** A database that this configuration may open: last opened by a compatible
    version, for the same network. *)
Definition compatible (version : string) : Prop :=
  exists v m, version_parse version = Ret v /\ version_parse MIN_COMPATIBLE_ZALLET_VERSION = Ret m /\
    version_ge v m = true.

Definition acceptable (cfg : DbConfig) (t : Tables) : Prop :=
  head (network_types t) = Some (network cfg) /\
  exists row, last (versions t) = Some row /\ compatible (row_version row).

Definition no_faults : Io :=
  {| exists_io := None; pool_io := None; handle_io := None; version_io := None; network_io := None;
     last_io := None; insert_io := None |}.

Lemma io_cases {E} (g : message -> E) fault :
  io g fault = Ret tt \/ exists e, io g fault = Err (g (Text e)).
Proof. destruct fault; cbn; eauto. Qed.

Lemma version_row_same b now : same_build b (version_row b now) = true.
Proof.
  unfold same_build, version_row. destruct (build_revision b) as [g c]. cbn.
  by rewrite String.eqb_refl, !bool_decide_true.
Qed.

Lemma verify_alpha_spec i f :
  match verify_alpha_db_compatibility i f with
  | Ret _ => exists t row, tables f = Some t /\ last (versions t) = Some row /\ compatible (row_version row)
  | Err _ => True
  | Panic => False
  end.
Proof.
  unfold verify_alpha_db_compatibility, latest_recorded_zallet_version, compatible.
  destruct minimum_valid as [m Hm]. rewrite Hm. destruct (version_io i); cbn; [done|].
  destruct (tables f) as [t|]; cbn; [|done]. destruct (last (versions t)) as [row|] eqn:Hl; cbn; [|done].
  pose proof (version_parse_total (row_version row)) as Hp.
  destruct (version_parse (row_version row)) as [v|e|] eqn:Hv; cbn; [|done|done].
  destruct (version_ge v m) eqn:Hge; [|done]. exists t, row. eauto 10.
Qed.

(** Verification succeeds only on acceptable databases, and on all of them when
    the reads succeed; it never panics. *)
Lemma verify_spec cfg i f :
  match verify_existing_database cfg i f with
  | Ret _ => exists t, tables f = Some t /\ acceptable cfg t
  | Err _ => i = no_faults -> forall t, tables f = Some t -> ~ acceptable cfg t
  | Panic => False
  end.
Proof.
  unfold verify_existing_database. pose proof (verify_alpha_spec i f) as Ha.
  destruct (verify_alpha_db_compatibility i f) as [[]|e|] eqn:Hv; cbn [mbind outcome_bind]; [| |done].
  - destruct Ha as (t & row & Ht & Hl & Hc). unfold verify_wallet_network_type, query_network_type.
    destruct (network_io i) as [s|] eqn:Hn; cbn; [by intros ->|]. rewrite Ht. cbn.
    destruct (head (network_types t)) as [n|] eqn:Hh; cbn.
    + case_bool_decide as Heq.
      * exists t. split; [done|]. split; [by rewrite Hh, Heq|by exists row].
      * intros _ t' [= <-] [Hn' _]. congruence.
    + intros _ t' [= <-] [Hn' _]. congruence.
  - clear Ha. intros -> t Ht (_ & row & Hl & (v & m & Hp & Hm & Hge)). revert Hv.
    unfold verify_alpha_db_compatibility, latest_recorded_zallet_version. cbn.
    rewrite Ht. cbn. rewrite Hl. cbn. rewrite Hp. cbn. rewrite Hm. cbn. by rewrite Hge.
Qed.

(** What [open_and_migrate] can leave behind: the file as it was; a verified
    file, migrated; or a new file, with or without its tables. *)
Definition fresh (cfg : DbConfig) (f : file) : Prop :=
  tables f = None \/ tables f = Some (initial_setup (network cfg)).

Definition blank : file := {| tables := None; rest := new_file |}.

Lemma migrate_spec cfg f :
  match migrate cfg (Some f) with
  | (Ret _, w') => exists f', w' = Some f' /\ init_or_migrate (network cfg) f = (Ret tt, f') /\
      tables f' = Some (default (initial_setup (network cfg)) (tables f))
  | (Err _, w') => exists f', w' = Some f' /\
      (tables f' = tables f \/ (tables f = None /\ tables f' = Some (initial_setup (network cfg))))
  | (Panic, _) => False
  end.
Proof.
  unfold migrate, with_mut. pose proof (migrate_total (network cfg) f) as Ht.
  destruct (init_or_migrate (network cfg) f) as [[[]|e|] f'] eqn:Hm; cbn in *; [| |done].
  - exists f'. split_and!; [done..|]. by eapply migrate_done.
  - exists f'. split; [done|]. by eapply migrate_failed.
Qed.

Lemma open_and_migrate_spec cfg i w :
  match open_and_migrate cfg i w with
  | (Ret _, w') => exists f f', w' = Some f' /\ init_or_migrate (network cfg) f = (Ret tt, f') /\
      ((exists t, w = Some f /\ tables f = Some t /\ acceptable cfg t /\ tables f' = Some t) \/
       (w = None /\ f = blank /\ tables f' = Some (initial_setup (network cfg))))
  | (Err _, w') => w' = w \/
      (exists f f' t, w = Some f /\ w' = Some f' /\ tables f = Some t /\ acceptable cfg t /\ tables f' = Some t) \/
      (w = None /\ exists f', w' = Some f' /\ fresh cfg f')
  | (Panic, _) => False
  end.
Proof.
  unfold open_and_migrate, handle, with_raw, mbind, M_bind, mret, M_ret, lift, gets.
  destruct (io_cases InitError (exists_io i)) as [-> |[? ->]]; [|by left].
  destruct (io_cases GenericError (pool_io i)) as [-> |[? ->]]; [|by left].
  destruct (io_cases GenericError (handle_io i)) as [-> |[? ->]]; [|by left].
  destruct w as [f|]; cbn [default from_option]; unfold Datatypes.id.
  - pose proof (verify_spec cfg i f) as Hv.
    destruct (verify_existing_database cfg i f) as [[]|e|]; [|by left|done].
    destruct Hv as (t & Ht & Ha). pose proof (migrate_spec cfg f) as Hm.
    destruct (migrate cfg (Some f)) as [[[]|e|] w']; [| |done].
    + destruct Hm as (f' & -> & Hi & Hf'). rewrite Ht in Hf'. exists f, f'. eauto 10.
    + destruct Hm as (f' & -> & [Hf'|[Hn _]]); [|congruence]. right; left. exists f, f', t. by rewrite Hf'.
  - pose proof (migrate_spec cfg blank) as Hm. unfold blank in *.
    destruct (migrate cfg (Some _)) as [[[]|e|] w']; [| |done].
    + destruct Hm as (f' & -> & Hi & Hf'). exists blank, f'. eauto 10.
    + destruct Hm as (f' & -> & Hf'). right; right. split; [done|]. exists f'. split; [done|].
      unfold fresh. cbn in Hf'. naive_solver.
Qed.

(** The version record leaves the rest of the file alone, and ends with an entry
    of this build when it succeeds. *)
Definition recorded (b : Build) (now : Z) (vs : list VersionRow) : list VersionRow :=
  if match last vs with Some row => same_build b row | None => false end then vs
  else vs ++ [version_row b now].

Lemma record_version_spec b now i f t :
  tables f = Some t ->
  match record_version b now i (Some f) with
  | (Ret _, w') => w' = Some {| tables := Some {| network_types := network_types t;
                                                  versions := recorded b now (versions t) |}; rest := rest f |}
  | (Err _, w') => w' = Some f /\ i <> no_faults
  | (Panic, _) => False
  end.
Proof.
  intros Ht. unfold record_version, with_mut, recorded.
  destruct (last_io i) eqn:Hl; cbn; [split; [done|by intros ->]|]. rewrite Ht. cbn.
  destruct (match last (versions t) with Some row => same_build b row | None => false end).
  - by destruct f as [o r], t; cbn in *; subst.
  - destruct (insert_io i) eqn:Hi; cbn; [split; [done|by intros ->]|done].
Qed.

Lemma recorded_last b now vs : exists row, last (recorded b now vs) = Some row /\ same_build b row = true.
Proof.
  unfold recorded. destruct (last vs) as [row|] eqn:Hl.
  - destruct (same_build b row) eqn:Hs; [by exists row|]. rewrite last_snoc. eauto using version_row_same.
  - rewrite last_snoc. eauto using version_row_same.
Qed.

Lemma recorded_again b now now' vs : recorded b now' (recorded b now vs) = recorded b now vs.
Proof.
  destruct (recorded_last b now vs) as (row & Hl & Hs). unfold recorded at 1. by rewrite Hl, Hs.
Qed.

Lemma same_build_version b row : same_build b row = true -> row_version row = PKG_VERSION b.
Proof.
  unfold same_build. destruct (build_revision b). rewrite !andb_true_iff. intros [[Hv _] _]. by apply String.eqb_eq.
Qed.

(** Opening a file that this build has opened changes nothing. *)
Lemma open_again cfg b now now' f f' t :
  compatible (PKG_VERSION b) -> init_or_migrate (network cfg) f = (Ret tt, f') ->
  head (network_types t) = Some (network cfg) ->
  let w := Some {| tables := Some {| network_types := network_types t; versions := recorded b now (versions t) |};
                   rest := rest f' |} in
  open cfg b now' no_faults w = (Ret tt, w).
Proof.
  intros Hc Hm Hh. cbn zeta. set (t' := {| network_types := _; versions := _ |}).
  destruct (recorded_last b now (versions t)) as (row & Hl & Hs).
  assert (verify_existing_database cfg no_faults {| tables := Some t'; rest := rest f' |} = Ret tt) as Hv.
  { pose proof (verify_spec cfg no_faults {| tables := Some t'; rest := rest f' |}) as Hv.
    destruct (verify_existing_database _ _ _) as [[]|e|]; [done| |done]. exfalso.
    apply (Hv eq_refl t' eq_refl). split; [done|]. exists row. split; [done|].
    by rewrite (same_build_version _ _ Hs). }
  unfold open, open_and_migrate, handle, with_raw, migrate, with_mut, mbind, M_bind, lift, gets. cbn [default from_option Datatypes.id no_faults
    exists_io pool_io handle_io io]. rewrite Hv. rewrite (migrate_again _ _ _ _ Hm). cbn [map_err].
  pose proof (record_version_spec b now' no_faults {| tables := Some t'; rest := rest f' |} t' eq_refl) as Hr.
  destruct (record_version _ _ _ _) as [[[]|e|] w']; [|by destruct Hr|done].
  rewrite Hr. cbn. by rewrite recorded_again.
Qed.

(** C16. Opening never panics. It succeeds only on a new database, or on one
    last recorded by a compatible version for the configured network, which it
    leaves with a record of this build, so that the same build opens it again
    and changes nothing. A failure leaves an existing database that is not
    acceptable exactly as it was, and the metadata of any other as it was. *)
Theorem open_correct cfg b now i w :
  match open cfg b now i w with
  | (Ret _, w') =>
      (exists t t', option_map tables w' = Some (Some t') /\
         (w = None /\ t = initial_setup (network cfg) \/ option_map tables w = Some (Some t) /\ acceptable cfg t) /\
         network_types t' = network_types t /\ head (network_types t') = Some (network cfg) /\
         versions t' = recorded b now (versions t)) /\
      (compatible (PKG_VERSION b) -> forall now', open cfg b now' no_faults w' = (Ret tt, w'))
  | (Err _, w') =>
      match w with
      | Some f => option_map tables w' = Some (tables f) /\
          ((forall t, tables f = Some t -> ~ acceptable cfg t) -> w' = w)
      | None => w' = None \/ exists f, w' = Some f /\ fresh cfg f
      end
  | (Panic, _) => False
  end.
Proof.
  unfold open. rewrite run_bind. pose proof (open_and_migrate_spec cfg i w) as Ho.
  destruct (open_and_migrate cfg i w) as [[[]|e|] w']; [| |done].
  - destruct Ho as (f & f' & -> & Hm & Hcase).
    assert (exists t, tables f' = Some t /\ head (network_types t) = Some (network cfg) /\
      (w = None /\ t = initial_setup (network cfg) \/ option_map tables w = Some (Some t) /\ acceptable cfg t))
      as (t & Ht & Hh & Hw).
    { destruct Hcase as [(t & -> & Ht & Ha & Ht')|(-> & -> & Ht')].
      - exists t. split; [done|]. split; [apply Ha|]. right. cbn. by rewrite Ht.
      - eexists. split; [done|]. split; [done|]. by left. }
    pose proof (record_version_spec b now i f' t Ht) as Hr.
    destruct (record_version b now i (Some f')) as [[[]|e|] w'']; [| |done].
    + subst w''. split.
      * exists t. eexists. split; [done|]. by split_and!.
      * intros Hc now'. by eapply open_again.
    + destruct Hr as [-> _]. destruct Hcase as [(t' & -> & Htf & Ha & Ht')|(-> & -> & Ht')].
      * cbn. split; [congruence|]. intros Hn. by destruct (Hn t' Htf).
      * right. exists f'. split; [done|]. by right.
  - destruct Ho as [-> |[(f & f' & t & -> & -> & Ht & Ha & Ht')|(-> & f' & -> & Hf)]].
    + destruct w as [f|]; [by split|by left].
    + cbn. split; [congruence|]. intros Hn. by destruct (Hn t Ht).
    + right. by exists f'.
Qed.

(** C27. When the creation of a database stops before its version is recorded
    (after the migrations, or inside them), no later run of any build, with
    any configuration, opens it: it fails and leaves the file as it is. *)
Theorem interrupted_creation_is_final cfg i r f :
  open_and_migrate cfg i None = (r, Some f) ->
  forall cfg' b now i', exists e, open cfg' b now i' (Some f) = (Err e, Some f).
Proof.
  intros Ho cfg' b now i'. assert (fresh cfg f) as Hf.
  { pose proof (open_and_migrate_spec cfg i None) as Hs. rewrite Ho in Hs. destruct r as [[]|e|]; [| |done].
    - destruct Hs as (f0 & f' & [= <-] & _ & [(t & ? & _)|(_ & _ & Ht)]); [done|by right].
    - destruct Hs as [|[(? & ? & ? & ? & _)|(_ & f' & [= <-] & Hf)]]; done. }
  unfold open. rewrite run_bind. unfold open_and_migrate, handle, with_raw, mbind, M_bind, lift, gets.
  destruct (io_cases InitError (exists_io i')) as [-> |[? ->]]; [|by eexists].
  destruct (io_cases GenericError (pool_io i')) as [-> |[? ->]]; [|by eexists].
  destruct (io_cases GenericError (handle_io i')) as [-> |[? ->]]; [|by eexists]. cbn [default from_option]; unfold Datatypes.id.
  pose proof (verify_spec cfg' i' f) as Hv.
  destruct (verify_existing_database cfg' i' f) as [[]|e|]; [|by eexists|done]. exfalso.
  destruct Hv as (t & Ht & _ & row & Hl & _). destruct Hf as [Hf|Hf]; [congruence|].
  assert (t = initial_setup (network cfg)) as -> by congruence. done.
Qed.
End open.

(** ** An example: two releases, and a migrator that always succeeds *)
Section example.
#[local] Instance toy_db : DbOps := {|
  Rest := bool; new_file := false; Version := Z;
  version_parse s := if String.eqb s "0.1.0-alpha.3" then Ret 3
                     else if String.eqb s "0.1.0-alpha.4" then Ret 4 else Err "malformed"%string;
  version_ge := Z.geb;
  init_or_migrate nt f := (Ret tt, {| tables := Some (default (initial_setup nt) (tables f)); rest := true |})
|}.

#[local] Instance toy_db_laws : DbLaws.
Proof.
  split; cbn.
  - by exists 4.
  - intros s. by repeat destruct (String.eqb _ _).
  - done.
  - by intros nt f f' [= <-].
  - done.
  - by intros nt f f' t [= <-].
Qed.

Definition toy_config (nt : NetworkType) : DbConfig := {| wallet_db_path := "wallet.db"; network := nt |}.

Definition toy_build : Build := {| PKG_VERSION := "0.1.0-alpha.4"; COMMIT_HASH := ""; GIT_CLEAN := true |}.

Definition toy_opened : option (WalletFile bool) :=
  Some {| tables := Some {| network_types := [Test];
            versions := [{| row_version := "0.1.0-alpha.4"; row_git_revision := None; row_clean := None;
                            migrated := 7 |}] |};
          rest := true |}.

(** A database is created, opened again, and refused for another network. *)
Lemma open_correct_witness :
  open (toy_config Test) toy_build 7 no_faults None = (Ret tt, toy_opened) /\
  open (toy_config Test) toy_build 8 no_faults toy_opened = (Ret tt, toy_opened) /\
  (open (toy_config Main) toy_build 8 no_faults toy_opened).2 = toy_opened.
Proof.
  assert (open (toy_config Test) toy_build 7 no_faults None = (Ret tt, toy_opened)) as Ho by (vm_compute; reflexivity).
  split; [exact Ho|]. split.
  - pose proof (open_correct (toy_config Test) toy_build 7 no_faults None) as Hc. rewrite Ho in Hc.
    apply Hc. exists 4, 4. repeat split; reflexivity.
  - vm_compute. reflexivity.
Defined.

Lemma interrupted_creation_is_final_witness :
  open_and_migrate (toy_config Test) no_faults None =
    (Ret tt, Some {| tables := Some (initial_setup Test); rest := true |}) /\
  exists e, open (toy_config Test) toy_build 8 no_faults (Some {| tables := Some (initial_setup Test); rest := true |}) =
    (Err e, Some {| tables := Some (initial_setup Test); rest := true |}).
Proof.
  assert (open_and_migrate (toy_config Test) no_faults None =
    (Ret tt, Some {| tables := Some (initial_setup Test); rest := true |})) as Ho by (vm_compute; reflexivity).
  split; [exact Ho|]. exact (interrupted_creation_is_final _ _ _ _ Ho _ _ _ _).
Defined.
End example.
