(* ===== verification/Zewif.v ===== *)
(** The sink that stores the secrets of a ZeWIF document in the keystore
    (src/zallet-core/src/components/keystore/zewif.rs), over the database of
    [KeystoreStore].

    The entries of a document's secret store are records of what the [zewif]
    crate's accessors return; the encodings are [ZewifOps]. *)

From S2P Require Import Prelude Rpc KeystoreStore.

Class ZewifOps `{KeyCrypto} := {
  Net : Type;
  Language : Type;
  #[global] Language_eq_dec :: EqDecision Language;
  EnglishWords : Language;
  Extfvk : Type;
  (** Entries of the kinds of keys that are only counted. *)
  SproutKeyEntry : Type;
  UnifiedKeyEntry : Type;
  (** [CheckedHrpstring::new::<Bech32m>]: the human-readable part and the bytes. *)
  bech32m_decode : string -> option (string * list Byte.byte);
  fp_from_bytes : list Byte.byte -> Fingerprint;
  fp_to_bytes : Fingerprint -> list Byte.byte;
  (** [transparent::Key::decode_base58]: the key pair, and [compressed]. *)
  decode_base58 : Net -> string -> option (PublicKey * SecretKey * bool);
  serialize_uncompressed : PublicKey -> Bytes;
  decode_extended_spending_key : Net -> string -> outcome string SaplingKey;
  to_extended_full_viewing_key : SaplingKey -> Extfvk;
  encode_extended_full_viewing_key : Net -> Extfvk -> string
}.

#[export] Instance Byte_eq_dec : EqDecision Byte.byte := Byte.byte_eq_dec.

Section entries.
Context `{KeyCrypto}.

Inductive SeedMaterial {Language : Type} :=
  | Bip39Mnemonic (phrase : Bytes) (language : option Language)
  | LegacySeed (seed : Seed).

(** A recorded fingerprint is its encoding. *)
Record SeedEntry {Language : Type} := { fingerprint : string; material : @SeedMaterial Language }.

Record TransparentKeyEntry := { t_spending_key : string; t_pubkey : Bytes }.

Record SaplingKeyEntry := { s_spending_key : string; s_fvk : string }.
End entries.

Inductive sink_error :=
  | UnsupportedMnemonicLanguage
  | SinkInvalidMnemonic
  | SeedFingerprintEncoding (encoding : string)
  | SeedFingerprintMismatch (recorded : string)
  | TransparentKeyDecoding
  | TransparentKeyMismatch
  | SaplingKeyDecoding (e : string)
  | SaplingKeyMismatch
  | SinkKeystore (e : keystore_error).

(** [Display for SecretSinkError]; an error of the keystore is shown by its own. *)
Definition sink_error_message (show_mnemonic_error : message) (show : keystore_error -> message) (e : sink_error) : message :=
  match e with
  | UnsupportedMnemonicLanguage => Fl "err-migrate-secret-non-english-mnemonic" []
  | SinkInvalidMnemonic => Fl "err-migrate-wallet-invalid-mnemonic" [("err", show_mnemonic_error)]%string
  | SeedFingerprintEncoding encoding =>
      Fl "err-migrate-secret-fingerprint-encoding" [("fingerprint", Text encoding)]%string
  | SeedFingerprintMismatch recorded =>
      Fl "err-migrate-secret-fingerprint-mismatch" [("fingerprint", Text recorded)]%string
  | TransparentKeyDecoding => Fl "err-migrate-secret-transparent-key-decoding" []
  | TransparentKeyMismatch => Fl "err-migrate-secret-transparent-key-mismatch" []
  | SaplingKeyDecoding e => Fl "err-migrate-secret-sapling-key-decoding" [("err", Text e)]%string
  | SaplingKeyMismatch => Fl "err-migrate-secret-sapling-key-mismatch" []
  | SinkKeystore e => show e
  end.

Definition SEED_FINGERPRINT_HRP : string := "zip32seedfp".

Section sink.
Context `{ZewifOps}.

Definition decode_seed_fingerprint (encoding : string) : option Fingerprint :=
  '(hrp, bytes) ← bech32m_decode encoding;
  if String.eqb hrp SEED_FINGERPRINT_HRP then
    if Nat.eqb (length bytes) 32 then Some (fp_from_bytes bytes) else None
  else None.

(** A [KeyStoreSecretSink]: its encryptor does not change; the keystore's
    database and the two counters are the state. *)
Record SecretSink := {
  sink_db : database;
  sprout_keys_ignored : Z;
  unified_keys_ignored : Z
}.

#[local] Abbreviation Sink := (M SecretSink sink_error).

(** [block_on] of an operation of the keystore. *)
Definition block_on {A} (m : M database keystore_error A) : Sink A := fun s =>
  let '(r, db) := m (sink_db s) in
  (map_err SinkKeystore r,
   {| sink_db := db; sprout_keys_ignored := sprout_keys_ignored s; unified_keys_ignored := unified_keys_ignored s |}).

Definition check_fingerprint (recorded : string) (computed : Fingerprint) : outcome sink_error unit :=
  decoded ← ok_or (decode_seed_fingerprint recorded) (SeedFingerprintEncoding recorded);
  if bool_decide (fp_to_bytes decoded = fp_to_bytes computed) then Ret tt
  else Err (SeedFingerprintMismatch recorded).

Definition store_seed (entry : SeedEntry (Language := Language)) : Sink unit :=
  computed ← match material entry with
    | Bip39Mnemonic phrase language =>
        _ ← lift (ensure (match language with Some l => bool_decide (l = EnglishWords) | None => true end)
                    UnsupportedMnemonicLanguage);
        mnemonic ← lift (ok_or (from_phrase phrase) SinkInvalidMnemonic);
        block_on (encrypt_and_store_mnemonic mnemonic)
    | LegacySeed seed => block_on (encrypt_and_store_legacy_seed seed)
    end;
  lift (check_fingerprint (fingerprint entry) computed).

Definition store_transparent_key (network : Net) (e : Encryptor) (entry : TransparentKeyEntry) : Sink unit :=
  '(pubkey, secret, compressed) ← lift (ok_or (decode_base58 network (t_spending_key entry)) TransparentKeyDecoding);
  let matches :=
    if compressed : bool then bool_decide (serialize_pubkey pubkey = t_pubkey entry)
    else bool_decide (serialize_uncompressed pubkey = t_pubkey entry) in
  _ ← lift (ensure matches TransparentKeyMismatch);
  encrypted ← lift (map_err SinkKeystore (encrypt_standalone_transparent_key e (pubkey, secret)));
  block_on (store_encrypted_standalone_transparent_keys [encrypted]).

Definition store_sapling_key (network : Net) (entry : SaplingKeyEntry) : Sink unit :=
  extsk ← lift (map_err SaplingKeyDecoding (decode_extended_spending_key network (s_spending_key entry)));
  let encoded_fvk := encode_extended_full_viewing_key network (to_extended_full_viewing_key extsk) in
  _ ← lift (ensure (String.eqb encoded_fvk (s_fvk entry)) SaplingKeyMismatch);
  _ ← block_on (encrypt_and_store_standalone_sapling_key extsk);
  mret tt.

Definition store_sprout_key (_entry : SproutKeyEntry) : Sink unit :=
  modify (fun s => {| sink_db := sink_db s; sprout_keys_ignored := sprout_keys_ignored s + 1;
                      unified_keys_ignored := unified_keys_ignored s |}).

Definition store_unified_key (_entry : UnifiedKeyEntry) : Sink unit :=
  modify (fun s => {| sink_db := sink_db s; sprout_keys_ignored := sprout_keys_ignored s;
                      unified_keys_ignored := unified_keys_ignored s + 1 |}).
End sink.

(** ** What is stored stays, and decrypts *)

Lemma ensure_cases {E} b (e : E) : ensure b e = Ret tt \/ ensure b e = Err e.
Proof. destruct b; auto. Qed.

(** The crates: a fingerprint is its 32 bytes; decoding reports its failures. *)
Class ZewifLaws `{ZewifOps} := {
  fp_to_bytes_inj : forall a b, fp_to_bytes a = fp_to_bytes b -> a = b;
  decode_sapling_total : forall n s, decode_extended_spending_key n s <> Panic
}.

Section held.
Context `{HL : KeyCryptoLaws} {ZO : ZewifOps} {ZL : ZewifLaws}.

(** Tables only gain rows. *)
Definition grows (db db' : database) : Prop :=
  available db' = available db /\ age_recipients db' = age_recipients db /\
  mnemonics db `prefix_of` mnemonics db' /\ legacy_seeds db `prefix_of` legacy_seeds db' /\
  sapling_keys db `prefix_of` sapling_keys db' /\ transparent_keys db `prefix_of` transparent_keys db'.

#[export] Instance grows_preorder : PreOrder grows.
Proof.
  split; [by intros db; split_and!|].
  intros a b c (? & ? & ? & ? & ? & ?) (? & ? & ? & ? & ? & ?).
  split_and!; first [congruence | by etrans].
Qed.

(** The rows of every table decrypt to the secrets their keys name. *)
Definition sealed (ids : list Identity) (db : database) : Prop :=
  well_formed (matching := matching) ids db /\
  (forall fp c, (fp, c) ∈ legacy_seeds db ->
     exists s, age_decrypt ids c = Some (seed_bytes s) /\ fp_from_seed s = Some fp) /\
  (forall b c, (b, c) ∈ transparent_keys db -> exists sk, age_decrypt ids c = Some (sk_to_bytes sk)).

Lemma select_row_prefix {K V} `{EqDecision K} (k : K) (rows rows' : list (K * V)) c :
  rows `prefix_of` rows' -> select_row k rows = Some c -> select_row k rows' = Some c.
Proof. intros [l ->] Hs. by rewrite select_row_app, Hs. Qed.

Lemma insert_or_ignore_prefix {K V} `{EqDecision K} (k : K) (v : V) rows :
  rows `prefix_of` insert_or_ignore k v rows.
Proof. unfold insert_or_ignore. case_bool_decide; [done|by eexists]. Qed.

Lemma insert_or_ignore_select {K V} `{EqDecision K} (k : K) (v : V) rows :
  is_Some (select_row k (insert_or_ignore k v rows)).
Proof. rewrite select_insert. destruct (select_row k rows); [done|]. by rewrite bool_decide_true. Qed.

(** The secret of an entry is in the keystore and can be read back. *)
Definition seed_held (ids : list Identity) (entry : SeedEntry (Language := Language)) (db : database) : Prop :=
  exists fp, decode_seed_fingerprint (fingerprint entry) = Some fp /\
    match material entry with
    | Bip39Mnemonic _ _ => is_Some (select_row fp (mnemonics db))
    | LegacySeed _ => is_Some (select_row fp (legacy_seeds db))
    end.

Definition transparent_key_held (network : Net) (entry : TransparentKeyEntry) (db : database) : Prop :=
  exists pk sk b, decode_base58 network (t_spending_key entry) = Some (pk, sk, b) /\
    is_Some (select_row (serialize_pubkey pk) (transparent_keys db)).

Definition sapling_key_held (network : Net) (entry : SaplingKeyEntry) (db : database) : Prop :=
  exists k, decode_extended_spending_key network (s_spending_key entry) = Ret k /\
    encode_extended_full_viewing_key network (to_extended_full_viewing_key k) = s_fvk entry /\
    is_Some (select_row (dfvk_to_bytes (extsk_to_dfvk k)) (sapling_keys db)).

Lemma select_is_Some_prefix {K V} `{EqDecision K} (k : K) (rows rows' : list (K * V)) :
  rows `prefix_of` rows' -> is_Some (select_row k rows) -> is_Some (select_row k rows').
Proof. intros Hp [c Hc]. exists c. by eapply select_row_prefix. Qed.

Lemma seed_held_grows ids entry db db' : grows db db' -> seed_held ids entry db -> seed_held ids entry db'.
Proof.
  intros (_ & _ & ? & ? & _) (fp & Hf & Hs). exists fp. split; [done|].
  destruct (material entry); by eapply select_is_Some_prefix.
Qed.

Lemma transparent_key_held_grows network entry db db' :
  grows db db' -> transparent_key_held network entry db -> transparent_key_held network entry db'.
Proof.
  intros (_ & _ & _ & _ & _ & ?) (pk & sk & b & Hd & Hs). exists pk, sk, b. split; [done|].
  by eapply select_is_Some_prefix.
Qed.

Lemma sapling_key_held_grows network entry db db' :
  grows db db' -> sapling_key_held network entry db -> sapling_key_held network entry db'.
Proof.
  intros (_ & _ & _ & _ & ? & _) (k & ? & ? & Hs). exists k. split_and!; [done..|].
  by eapply select_is_Some_prefix.
Qed.

(** An operation of the keystore started in [db0]: it only adds rows, keeps them
    sealed, and achieves [Q] when it succeeds. *)
Definition stores {A} (ids : list Identity) (m : M database keystore_error A) (Q : A -> database -> Prop) : Prop :=
  forall db0, sealed ids db0 ->
    match m db0 with
    | (Ret a, db') => sealed ids db' /\ grows db0 db' /\ Q a db'
    | (Err _, db') => db' = db0
    | (Panic, _) => False
    end.

Lemma encryptor_sealed ids db : sealed ids db -> exists e, encryptor db = (Ret e, db) /\ matching ids (recipients e).
Proof. intros [Hwf _]. by apply encryptor_wf. Qed.

Lemma stores_mnemonic ids m :
  stores ids (encrypt_and_store_mnemonic m) (fun fp db => is_Some (select_row fp (mnemonics db))).
Proof.
  intros db Hs. destruct (encryptor_sealed ids db Hs) as (e & He & Hm).
  destruct Hs as [(Hav & Hids & Hne & Hrs & Hmn & Hsk) Hrest].
  unfold encrypt_and_store_mnemonic, mbind, M_bind, lift, encrypt, with_db_mut. rewrite He.
  destruct (fp_from_seed (to_seed m)) as [fp|] eqn:Hfp; [|by destruct (seed_fingerprint m)]. cbn.
  destruct (age_encrypt (recipients e) (into_phrase m)) as [c|] eqn:Hc; [|done]. cbn. rewrite Hav.
  cbn. pose proof (age_round_trip ids _ _ _ Hm Hc) as Hdec. split; [|split].
  - split; [|done]. split_and!; try done.
    intros fp' c' [Hin|[= -> ->]]%insert_or_ignore_elem; [by apply Hmn|eauto].
  - by split_and!; [..|apply insert_or_ignore_prefix| | |].
  - apply insert_or_ignore_select.
Qed.

Lemma stores_legacy_seed ids s :
  stores ids (encrypt_and_store_legacy_seed s) (fun fp db => is_Some (select_row fp (legacy_seeds db))).
Proof.
  intros db Hs. destruct (encryptor_sealed ids db Hs) as (e & He & Hm). destruct Hs as (Hwf & Hleg & Htr).
  unfold encrypt_and_store_legacy_seed, mbind, M_bind, lift, encrypt, with_db_mut. rewrite He.
  destruct (fp_from_seed s) as [fp|] eqn:Hfp; [|done]. cbn.
  destruct (age_encrypt (recipients e) (seed_bytes s)) as [c|] eqn:Hc; [|done]. cbn.
  rewrite (proj1 Hwf). cbn. pose proof (age_round_trip ids _ _ _ Hm Hc) as Hdec. split; [|split].
  - split; [by rewrite <- (proj1 Hwf)|]. split; [|done].
    intros fp' c' [Hin|[= -> ->]]%insert_or_ignore_elem; [by apply Hleg|eauto].
  - split_and!; cbn; try done; [by rewrite (proj1 Hwf)|apply insert_or_ignore_prefix].
  - apply insert_or_ignore_select.
Qed.

Lemma stores_sapling_key ids k :
  stores ids (encrypt_and_store_standalone_sapling_key k)
    (fun d db => is_Some (select_row (dfvk_to_bytes (extsk_to_dfvk k)) (sapling_keys db))).
Proof.
  intros db Hs. destruct (encryptor_sealed ids db Hs) as (e & He & Hm).
  destruct Hs as [(Hav & Hids & Hne & Hrs & Hmn & Hsk) Hrest].
  unfold encrypt_and_store_standalone_sapling_key, mbind, M_bind, lift, encrypt, with_db_mut. rewrite He. cbn.
  destruct (age_encrypt (recipients e) (extsk_to_bytes k)) as [c|] eqn:Hc; [|done]. cbn. rewrite Hav.
  cbn. pose proof (age_round_trip ids _ _ _ Hm Hc) as Hdec. split; [|split].
  - split; [|done]. split_and!; try done.
    intros b c' [Hin|[= -> ->]]%insert_or_ignore_elem; [by apply Hsk|eauto].
  - by split_and!; [..|apply insert_or_ignore_prefix|].
  - apply insert_or_ignore_select.
Qed.

Lemma stores_transparent_key ids e pk sk c :
  matching ids (recipients e) -> encrypt_standalone_transparent_key e (pk, sk) = Ret c ->
  stores ids (store_encrypted_standalone_transparent_keys [c])
    (fun _ db => is_Some (select_row (serialize_pubkey pk) (transparent_keys db))).
Proof.
  intros Hm He db (Hwf & Hleg & Htr). unfold encrypt_standalone_transparent_key, encrypt in He.
  apply bind_Ret in He as (c' & Hc%ok_or_Ret & [= <-]). cbn in Hc.
  pose proof (age_round_trip ids _ _ _ Hm Hc) as Hdec.
  unfold store_encrypted_standalone_transparent_keys, with_db_mut. rewrite (proj1 Hwf). cbn. split; [|split].
  - split; [by rewrite <- (proj1 Hwf)|]. split; [done|].
    intros b d [Hin|[= -> ->]]%insert_or_ignore_elem; [by eapply Htr|eauto].
  - split_and!; cbn; try done; [by rewrite (proj1 Hwf)|apply insert_or_ignore_prefix].
  - apply insert_or_ignore_select.
Qed.

(** The sink's version: a failure may come after the secret was stored. *)
Definition sink_stores {A} (ids : list Identity) (m : M SecretSink sink_error A) (Q : database -> Prop)
    (sprout unified : Z) : Prop :=
  forall s0, sealed ids (sink_db s0) ->
    match m s0 with
    | (Ret _, s') => sealed ids (sink_db s') /\ grows (sink_db s0) (sink_db s') /\ Q (sink_db s') /\
        sprout_keys_ignored s' = sprout_keys_ignored s0 + sprout /\
        unified_keys_ignored s' = unified_keys_ignored s0 + unified
    | (Err _, s') => sealed ids (sink_db s') /\ grows (sink_db s0) (sink_db s')
    | (Panic, _) => False
    end.

Lemma sink_stores_block_on {A} ids (m : M database keystore_error A) (Q : A -> database -> Prop)
    (f : A -> M SecretSink sink_error unit) (Q' : database -> Prop) :
  stores ids m Q ->
  (forall a s, (f a s).2 = s) -> (forall a s, (f a s).1 <> Panic) ->
  (forall a s db u, Q a db -> (f a s).1 = Ret u -> Q' db) ->
  sink_stores ids (block_on m ≫= f) Q' 0 0.
Proof.
  intros Hm Hs Hp Hq s0 Hsealed. rewrite run_bind. unfold block_on.
  pose proof (Hm (sink_db s0) Hsealed) as Ho. destruct (m (sink_db s0)) as [[a|e|] db]; cbn.
  - destruct Ho as (Hsl & Hg & Ha). set (s1 := {| sink_db := db |}). specialize (Hs a s1) as Hs1.
    specialize (Hp a s1) as Hp1. pose proof (fun u => Hq a s1 db u Ha) as Hq1.
    destruct (f a s1) as [[u|e|] s'] eqn:Hf; cbn in *; subst s'; [|done|done].
    split_and!; [done|done|by apply (Hq1 u)|cbn; lia|cbn; lia].
  - subst db. done.
  - done.
Qed.

Lemma check_fingerprint_Ret recorded computed u :
  check_fingerprint recorded computed = Ret u -> decode_seed_fingerprint recorded = Some computed.
Proof.
  unfold check_fingerprint. destruct (decode_seed_fingerprint recorded) as [d|]; cbn; [|done].
  case_bool_decide as Heq; [|done]. by apply fp_to_bytes_inj in Heq as ->.
Qed.

Lemma check_fingerprint_total recorded computed : check_fingerprint recorded computed <> Panic.
Proof.
  unfold check_fingerprint. destruct (decode_seed_fingerprint recorded); cbn; [|done]. by case_bool_decide.
Qed.

(** A guard before a storing step. *)
Lemma sink_stores_lift {A B} ids (m : outcome sink_error A) (f : A -> M SecretSink sink_error B) Q n k :
  m <> Panic -> (forall a, m = Ret a -> sink_stores ids (f a) Q n k) -> sink_stores ids (lift m ≫= f) Q n k.
Proof.
  intros Hp Hf s0 Hs. rewrite run_bind. unfold lift. destruct m as [a|e|]; [by apply (Hf a)| |done]. done.
Qed.

Lemma store_seed_stores ids entry : sink_stores ids (store_seed entry) (seed_held ids entry) 0 0.
Proof.
  unfold store_seed, seed_held. destruct entry as [fp [phrase language|seed]]; cbn.
  - assert (forall m, sink_stores ids
      (computed ← block_on (encrypt_and_store_mnemonic m); lift (check_fingerprint fp computed))
      (fun db => exists f, decode_seed_fingerprint fp = Some f /\ is_Some (select_row f (mnemonics db))) 0 0) as Hst.
    { intros m. eapply sink_stores_block_on; [apply stores_mnemonic|done| |].
      - intros a s. apply check_fingerprint_total.
      - intros a s db u Ha Hc. exists a. split; [by eapply check_fingerprint_Ret|done]. }
    intros s0 Hs. rewrite !run_bind. unfold lift at 1.
    match goal with |- context [ensure ?b ?e] => destruct (ensure_cases b e) as [-> | ->] end; [|by split].
    rewrite run_bind. unfold lift at 1. destruct (from_phrase phrase) as [m|]; cbn [ok_or]; [|by split].
    specialize (Hst m s0 Hs). by rewrite run_bind in Hst.
  - eapply sink_stores_block_on; [apply stores_legacy_seed|done| |].
    + intros a s. apply check_fingerprint_total.
    + intros a s db u Ha Hc. exists a. split; [by eapply check_fingerprint_Ret|done].
Qed.

Lemma store_transparent_key_stores ids network e entry :
  matching ids (recipients e) ->
  sink_stores ids (store_transparent_key network e entry) (transparent_key_held network entry) 0 0.
Proof.
  intros Hm. unfold store_transparent_key.
  apply sink_stores_lift; [by destruct (decode_base58 _ _)|]. intros [[pk sk] b] Hd%ok_or_Ret.
  apply sink_stores_lift; [by destruct b; cbn; case_bool_decide|]. intros [] _.
  apply sink_stores_lift; [apply map_err_not_Panic; unfold encrypt_standalone_transparent_key, encrypt; by destruct (age_encrypt _ _)|].
  intros c Hc%map_err_Ret.
  assert (sink_stores ids (block_on (store_encrypted_standalone_transparent_keys [c]) ≫= mret)
    (transparent_key_held network entry) 0 0) as Hst.
  { eapply sink_stores_block_on; [by eapply stores_transparent_key|done|done|].
    intros a s db u Ha _. by exists pk, sk, b. }
  intros s0 Hs. specialize (Hst s0 Hs). rewrite run_bind in Hst.
  by destruct (block_on _ s0) as [[]].
Qed.

Lemma store_sapling_key_stores ids network entry :
  sink_stores ids (store_sapling_key network entry) (sapling_key_held network entry) 0 0.
Proof.
  unfold store_sapling_key.
  apply sink_stores_lift; [apply map_err_not_Panic, decode_sapling_total|]. intros k Hk%map_err_Ret.
  apply sink_stores_lift; [by destruct (String.eqb _ _)|]. intros [] Hf%ensure_Ret%String.eqb_eq.
  eapply sink_stores_block_on; [apply stores_sapling_key|done|done|].
  intros a s db u Ha _. by exists k.
Qed.

(** A loop over entries: all of them are held at the end. *)
Lemma for_each_stores {X} ids (f : X -> M SecretSink sink_error unit) (Q : X -> database -> Prop) n k (l : list X) :
  (forall x, sink_stores ids (f x) (Q x) n k) ->
  (forall x db db', grows db db' -> Q x db -> Q x db') ->
  sink_stores ids (for_each f l) (fun db => Forall (fun x => Q x db) l)
    (n * Z.of_nat (length l)) (k * Z.of_nat (length l)).
Proof.
  intros Hf Hmono. induction l as [|x l IH]; intros s0 Hs; cbn [for_each].
  - cbn. split_and!; try done; lia.
  - rewrite run_bind. pose proof (Hf x s0 Hs) as Hx. destruct (f x s0) as [[[]|e|] s1]; [|done|done].
    destruct Hx as (Hs1 & Hg1 & Hq & Hn1 & Hk1). specialize (IH s1 Hs1).
    destruct (for_each f l s1) as [[[]|e|] s2]; [| |done].
    + destruct IH as (Hs2 & Hg2 & Hall & Hn2 & Hk2). split_and!; [done|by etrans| |cbn [length]; lia|cbn [length]; lia].
      constructor; [by eapply Hmono|done].
    + destruct IH as [Hs2 Hg2]. split; [done|by etrans].
Qed.

(** Two storing steps, one after the other. *)
Lemma sink_stores_seq ids (a b : M SecretSink sink_error unit) (P Q : database -> Prop) n k n' k' :
  sink_stores ids a P n k -> sink_stores ids b Q n' k' -> (forall db db', grows db db' -> P db -> P db') ->
  sink_stores ids (_ ← a; b) (fun db => P db /\ Q db) (n + n') (k + k').
Proof.
  intros Ha Hb Hmono s0 Hs. rewrite run_bind. specialize (Ha s0 Hs). destruct (a s0) as [[[]|e|] s1]; [|done|done].
  destruct Ha as (Hs1 & Hg1 & Hp & Hn1 & Hk1). specialize (Hb s1 Hs1). destruct (b s1) as [[u|e|] s2]; [| |done].
  - destruct Hb as (Hs2 & Hg2 & Hq & Hn2 & Hk2). split_and!; [done|by etrans|by eapply Hmono|done|lia|lia].
  - destruct Hb as [Hs2 Hg2]. split; [done|by etrans].
Qed.

(** Ignoring a key only counts it. *)
Lemma store_sprout_key_stores ids entry : sink_stores ids (store_sprout_key entry) (fun _ => True) 1 0.
Proof. intros s0 Hs. cbn. split_and!; try done; lia. Qed.

Lemma store_unified_key_stores ids entry : sink_stores ids (store_unified_key entry) (fun _ => True) 0 1.
Proof. intros s0 Hs. cbn. split_and!; try done; lia. Qed.

(** A seed recorded under the wrong fingerprint is refused after it was stored. *)
Lemma mismatched_seed_is_kept ids s0 phrase m fp wrong :
  sealed ids (sink_db s0) -> from_phrase phrase = Some m -> fp_from_seed (to_seed m) = Some fp ->
  (forall e, encrypt e (into_phrase m) <> Err AgeError) ->
  decode_seed_fingerprint wrong <> Some fp ->
  exists e s', store_seed {| fingerprint := wrong; material := Bip39Mnemonic phrase None |} s0 = (Err e, s') /\
    is_Some (select_row fp (mnemonics (sink_db s'))).
Proof.
  intros Hs Hp Hfp Henc Hw. unfold store_seed. cbn. rewrite !run_bind. unfold lift at 1. cbn.
  rewrite run_bind. unfold lift at 1. rewrite Hp. cbn. unfold block_on.
  pose proof (stores_mnemonic ids m (sink_db s0) Hs) as Ho.
  destruct (encryptor_sealed ids _ Hs) as (e & He & Hm).
  destruct (encrypt_and_store_mnemonic m (sink_db s0)) as [[fp'|er|] db] eqn:Hst; [| |done].
  - assert (fp' = fp) as ->.
    { revert Hst. unfold encrypt_and_store_mnemonic, mbind, M_bind, lift. rewrite He, Hfp. cbn.
      destruct (encrypt e (into_phrase m)); cbn; [|done|done]. unfold with_db_mut.
      destruct (available _); [|done]. by intros [= -> _]. }
    destruct Ho as (_ & _ & Ho). cbn. unfold lift.
    destruct (check_fingerprint wrong fp) as [u|er|] eqn:Hc; [| |by apply check_fingerprint_total in Hc].
    + by apply check_fingerprint_Ret in Hc.
    + eexists _, _. split; [reflexivity|exact Ho].
  - exfalso. revert Hst. unfold encrypt_and_store_mnemonic, mbind, M_bind, lift. rewrite He, Hfp. cbn.
    specialize (Henc e). unfold encrypt in *. destruct (age_encrypt _ _); cbn in *; [|done].
    unfold with_db_mut. by rewrite (proj1 (proj1 Hs)).
Qed.
End held.
