(* ===== verification/MigrateWallet.v ===== *)
(** migrate-zcashd-wallet
    (src/zallet-core/src/commands/migrate_zcashd_wallet.rs): a zcashd wallet,
    parsed by the [zewif_zcashd] crate, becomes a ZeWIF document; its secrets go to
    the keystore through the sink of [Zewif], then the document is imported into
    the wallet database.

    The parts of a document that the command reads or sets are records; the
    crates and the wallet database are [MigrateWalletOps]. The state is the
    keystore's database and the wallet's. *)

From S2P Require Import Prelude Rpc Text Chain Network KeystoreStore Zewif.

Definition ZCASHD_LEGACY_ACCOUNT_INDEX : Z := 0x7FFFFFFF.
Definition ZCASHD_LEGACY_SOURCE : string := "zcashd_legacy".
Definition ZCASHD_MNEMONIC_SOURCE : string := "zcashd_mnemonic".

(** [zewif::Network]; the parameters of a regtest network do not matter. *)
Inductive ZewifNetwork := ZMainnet | ZTestnet | ZRegtest.

Record DerivedKeySource := {
  seed_fingerprint : string;
  account_index : Z;
  legacy_address_index : option Z
}.

Inductive KeySource := Derived (d : DerivedKeySource) | OtherKeySource.

Inductive Frontier :=
  | EmptyFrontier
  | NonEmpty (position : Z) (leaf : list Byte.byte) (ommers : list (list Byte.byte)).

Record ZewifChainState := {
  zcs_height : Z;
  zcs_block_hash : list Byte.byte;
  sapling_tree : Frontier;
  orchard_tree : Frontier;
  ironwood_tree : Frontier
}.

(** A transparent address: whether it has a spend authority, and its public key;
    or another kind of address. *)
Inductive ZewifAddress :=
  | TransparentAddr (spend_authority : bool) (pubkey : option (list Byte.byte))
  | OtherAddr.

Record ZewifAccount (Rest : Type) := {
  name : string;
  key_source : option KeySource;
  birthday_height : option Z;
  birthday_chain_state : option ZewifChainState;
  recover_until_height : option Z;
  account_addresses : list ZewifAddress;
  account_rest : Rest
}.
Arguments name {Rest}.
Arguments key_source {Rest}.
Arguments birthday_height {Rest}.
Arguments birthday_chain_state {Rest}.
Arguments recover_until_height {Rest}.
Arguments account_addresses {Rest}.
Arguments account_rest {Rest}.

(** The hash of the block of a transaction, and its expiry height. *)
Record ZewifTransaction := { block_position : option (list Byte.byte); expiry_height : option Z }.

(** The derivation of an account of the wallet: its seed, and its key source. *)
Definition AccountSource (Fp : Type) : Type := option (Fp * option string).

Inductive ZewifErrorType := BdbDump | ZcashdDumpError.

Section types.
Context `{ZewifOps}.

Record SecretStore := {
  seeds : list (SeedEntry (Language := Language));
  transparent_key_entries : list TransparentKeyEntry;
  sapling_key_entries : list SaplingKeyEntry;
  sprout_keys : list SproutKeyEntry;
  unified_keys : list UnifiedKeyEntry
}.

Inductive Secrets := Plain (store : SecretStore) | Encrypted.
End types.

Record ZewifWallet (Rest Extensions : Type) := {
  wallet_network : ZewifNetwork;
  wallet_accounts : list (ZewifAccount Rest);
  address_book : list Rest;
  wallet_extensions : Extensions
}.
Arguments wallet_network {Rest Extensions}.
Arguments wallet_accounts {Rest Extensions}.
Arguments address_book {Rest Extensions}.
Arguments wallet_extensions {Rest Extensions}.

Class MigrateWalletOps `{ZewifOps} `{ChainTypes} := {
  (** The rest of an account, an address book entry; extensions. *)
  Rest : Type;
  Extensions : Type;
  ZTxId : Type;
  ZcashdWallet : Type;
  Wallet : Type;
  AccountId : Type;
  Uuid : Type;
  WatchKey : Type;
  TAddress : Type;
  wallet_zewif_network : ZcashdWallet -> ZewifNetwork;
  (** The expiry heights of the wallet's transactions. *)
  wallet_expiry_heights : ZcashdWallet -> list Z;
  (** [derive_mnemonic], [encode_seed_fingerprint]. *)
  derive_mnemonic : Seed -> option Mnemonic;
  encode_seed_fingerprint : Fingerprint -> string;
  block_hash_from_bytes : list Byte.byte -> BlockHash;
  block_hash_to_bytes : BlockHash -> list Byte.byte;
  (** The non-empty frontiers of a chain state, the nodes as bytes. *)
  chain_state_height : ChainState -> Z;
  chain_state_hash : ChainState -> BlockHash;
  final_sapling_tree : ChainState -> option (Z * list Byte.byte * list (list Byte.byte));
  final_orchard_tree : ChainState -> option (Z * list Byte.byte * list (list Byte.byte));
  final_ironwood_tree : ChainState -> option (Z * list Byte.byte * list (list Byte.byte));
  show_height : Z -> string;
  watch_key_from_slice : list Byte.byte -> option WatchKey;
  watch_address : WatchKey -> TAddress;
  (** The wallet database. *)
  get_account_ids : Wallet -> outcome string (list AccountId);
  get_account_source : Wallet -> AccountId -> outcome string (option (AccountSource Fingerprint));
  import_standalone_transparent_pubkeys : Uuid -> list WatchKey -> M Wallet string unit;
  mark_transparent_addresses_exposed : list (TAddress * Z) -> M Wallet string unit
}.

Section document.
Context `{MigrateWalletOps}.

(** [zewif::Zewif]. *)
Record Document := {
  export_height : Z;
  export_height_block_hash : list Byte.byte;
  wallets : list (ZewifWallet Rest Extensions);
  transactions : list (ZTxId * ZewifTransaction);
  secrets : option Secrets;
  extensions : Extensions
}.
End document.

Inductive migrate_error (Fp : Type) :=
  | Wrapped (m : message)
  | WrappedChain (e : ChainError)
  | WrappedKeystore (e : keystore_error)
  | ZewifFailed (error_type : ZewifErrorType) (wallet_path : string) (error : string)
  | ExportFailed (e : string)
  | ImportFailed (e : string)
  | SecretSinkFailed (e : sink_error)
  | EncryptedSecrets
  | NetworkMismatch (wallet_network : ZewifNetwork) (db_network : NetworkType)
  | NetworkNotSupported
  | DatabaseFailed (e : string)
  | MultiImportDisabled
  | DuplicateImport (fp : Fp).
Arguments Wrapped {Fp}.
Arguments WrappedChain {Fp}.
Arguments WrappedKeystore {Fp}.
Arguments ZewifFailed {Fp}.
Arguments ExportFailed {Fp}.
Arguments ImportFailed {Fp}.
Arguments SecretSinkFailed {Fp}.
Arguments EncryptedSecrets {Fp}.
Arguments NetworkMismatch {Fp}.
Arguments NetworkNotSupported {Fp}.
Arguments DatabaseFailed {Fp}.
Arguments MultiImportDisabled {Fp}.
Arguments DuplicateImport {Fp}.

Definition zewif_network_str (n : ZewifNetwork) : string :=
  match n with ZMainnet => "main" | ZTestnet => "test" | ZRegtest => "regtest" end.

(** [From<MigrateError> for Error]: the message of the error. *)
Definition migrate_error_message {Fp} (show_fp : Fp -> string) (chain : ChainError -> message)
    (keystore : keystore_error -> message) (sink : sink_error -> message) (e : migrate_error Fp) : message :=
  match e with
  | Wrapped m => m
  | WrappedChain e => chain e
  | WrappedKeystore e => keystore e
  | ZewifFailed BdbDump path e =>
      Fl "err-migrate-wallet-bdb-parse" [("path", Text path); ("err", Text e)]%string
  | ZewifFailed ZcashdDumpError path e =>
      Fl "err-migrate-wallet-db-dump" [("path", Text path); ("err", Text e)]%string
  | ExportFailed e => Fl "err-migrate-wallet-export" [("err", Text e)]%string
  | ImportFailed e => Fl "err-migrate-wallet-import" [("err", Text e)]%string
  | SecretSinkFailed e => Fl "err-migrate-wallet-secret-store" [("err", sink e)]%string
  | EncryptedSecrets => Fl "err-migrate-wallet-encrypted-secrets" []
  | NetworkMismatch w d =>
      Fl "err-migrate-wallet-network-mismatch"
        [("wallet_network", Text (zewif_network_str w)); ("zallet_network", Text (type_to_str d))]%string
  | NetworkNotSupported => Fl "err-migrate-wallet-regtest" []
  | DatabaseFailed e => Fl "err-migrate-wallet-storage" [("err", Text e)]%string
  | MultiImportDisabled => Fl "err-migrate-wallet-multi-import-disabled" []
  | DuplicateImport fp => Fl "err-migrate-wallet-duplicate-import" [("seed_fp", Text (show_fp fp))]%string
  end.

(** ** Reading the wallet file *)

(** The options of the command that say where the wallet and [db_dump] are. *)
Record DumpCmd := {
  path : string;
  zcashd_datadir : option string;
  zcashd_install_dir : option string;
  allow_warnings : bool
}.

(** The file system, the [which] crate, and the parsers of [zewif_zcashd]. *)
Class DumpOps := {
  BDBDump : Type;
  Parsed : Type;
  ZcashdDump : Type;
  is_file : string -> bool;
  zcashd_default_data_dir : option string;
  db_dump_on_path : bool;
  from_file_with_path : string -> string -> outcome string BDBDump;
  from_file : string -> outcome string BDBDump;
  from_bdb_dump : BDBDump -> bool -> outcome string ZcashdDump;
  parse_dump : ZcashdDump -> bool -> outcome string Parsed
}.

Section dump.
Context `{DumpOps} {Fp : Type}.

Definition dump_path (cmd : DumpCmd) : outcome (migrate_error Fp) string :=
  if is_relative (path cmd) then
    match zcashd_datadir cmd with
    | Some datadir => Ret (path_join datadir (path cmd))
    | None =>
        dir ← ok_or zcashd_default_data_dir (Wrapped (Fl "err-kind-generic" []));
        Ret (path_join dir (path cmd))
    end
  else Ret (path cmd).

Definition db_dump_unavailable : migrate_error Fp := Wrapped (Fl "err-migrate-wallet-db-dump-not-found" []).

Definition dump_wallet (cmd : DumpCmd) : outcome (migrate_error Fp) Parsed :=
  wallet_path ← dump_path cmd;
  dumped ← match zcashd_install_dir cmd with
    | Some dir =>
        let db_dump_path := path_join (path_join (path_join dir "zcutil") "bin") "db_dump" in
        _ ← ensure (is_file db_dump_path) db_dump_unavailable;
        Ret (from_file_with_path db_dump_path wallet_path)
    | None =>
        let dumped := from_file wallet_path in
        if negb (is_ret dumped) && negb db_dump_on_path then Err db_dump_unavailable else Ret dumped
    end;
  db_dump ← map_err (ZewifFailed BdbDump wallet_path) dumped;
  zcashd_dump ← map_err (ZewifFailed ZcashdDumpError wallet_path) (from_bdb_dump db_dump (allow_warnings cmd));
  map_err (ZewifFailed ZcashdDumpError wallet_path) (parse_dump zcashd_dump (negb (allow_warnings cmd))).
End dump.

Section migrate.
Context `{MigrateWalletOps}.

Definition check_network (zewif_network : ZewifNetwork) (network_type : NetworkType) :
    outcome (migrate_error Fingerprint) unit :=
  match zewif_network, network_type with
  | ZMainnet, Main => Ret tt
  | ZTestnet, Test => Ret tt
  | ZRegtest, Regtest => Err NetworkNotSupported
  | wallet_network, db_network => Err (NetworkMismatch wallet_network db_network)
  end.

(** ** The document *)

Definition to_zewif_frontier (frontier : option (Z * list Byte.byte * list (list Byte.byte))) : Frontier :=
  match frontier with
  | None => EmptyFrontier
  | Some (position, leaf, ommers) => NonEmpty position leaf ommers
  end.

Definition to_zewif_chain_state (c : ChainState) : ZewifChainState :=
  {| zcs_height := chain_state_height c; zcs_block_hash := block_hash_to_bytes (chain_state_hash c);
     sapling_tree := to_zewif_frontier (final_sapling_tree c);
     orchard_tree := to_zewif_frontier (final_orchard_tree c);
     ironwood_tree := to_zewif_frontier (final_ironwood_tree c) |}.

Definition set_key_source (a : ZewifAccount Rest) (s : KeySource) : ZewifAccount Rest :=
  {| name := name a; key_source := Some s; birthday_height := birthday_height a;
     birthday_chain_state := birthday_chain_state a; recover_until_height := recover_until_height a;
     account_addresses := account_addresses a; account_rest := account_rest a |}.

Definition set_birthday_chain_state (a : ZewifAccount Rest) (c : ZewifChainState) : ZewifAccount Rest :=
  {| name := name a; key_source := key_source a; birthday_height := birthday_height a;
     birthday_chain_state := Some c; recover_until_height := recover_until_height a;
     account_addresses := account_addresses a; account_rest := account_rest a |}.

Definition set_recover_until_height (a : ZewifAccount Rest) (h : Z) : ZewifAccount Rest :=
  {| name := name a; key_source := key_source a; birthday_height := birthday_height a;
     birthday_chain_state := birthday_chain_state a; recover_until_height := Some h;
     account_addresses := account_addresses a; account_rest := account_rest a |}.

Definition set_birthday_height (a : ZewifAccount Rest) (h : Z) : ZewifAccount Rest :=
  {| name := name a; key_source := key_source a; birthday_height := Some h;
     birthday_chain_state := birthday_chain_state a; recover_until_height := recover_until_height a;
     account_addresses := account_addresses a; account_rest := account_rest a |}.

(** The key source of the legacy account moves to the mnemonic's seed. *)
Definition normalize_account (mnemonic_fp : option string) (account : ZewifAccount Rest) : ZewifAccount Rest :=
  match mnemonic_fp, key_source account with
  | Some mnemonic_fp, Some (Derived derived) =>
      if (account_index derived =? ZCASHD_LEGACY_ACCOUNT_INDEX) &&
         negb (String.eqb (seed_fingerprint derived) mnemonic_fp)
      then set_key_source account
        (Derived {| seed_fingerprint := mnemonic_fp; account_index := ZCASHD_LEGACY_ACCOUNT_INDEX;
                    legacy_address_index := legacy_address_index derived |})
      else account
  | _, _ => account
  end.

Definition set_birthday (state : option ZewifChainState) (recover_until estimate : option Z)
    (account : ZewifAccount Rest) : ZewifAccount Rest :=
  match state with
  | Some chain_state =>
      let account := set_birthday_chain_state account chain_state in
      match recover_until with Some height => set_recover_until_height account height | None => account end
  | None =>
      match birthday_height account, birthday_chain_state account, estimate with
      | None, None, Some estimate => set_birthday_height account estimate
      | _, _, _ => account
      end
  end.

Definition enriched_document (document : Document) (secret_store : option SecretStore)
    (mnemonic_fp : option string) (state : option ZewifChainState)
    (recover_until no_scan_birthday_estimate : option Z) (buffer_wallet_transactions : bool) : Document :=
  {| export_height := export_height document;
     export_height_block_hash := export_height_block_hash document;
     wallets := (fun wallet =>
       {| wallet_network := wallet_network wallet;
          wallet_accounts := (fun account =>
            set_birthday state recover_until no_scan_birthday_estimate (normalize_account mnemonic_fp account))
            <$> wallet_accounts wallet;
          address_book := address_book wallet;
          wallet_extensions := wallet_extensions wallet |}) <$> wallets document;
     transactions := if buffer_wallet_transactions then transactions document else [];
     secrets := Plain <$> secret_store;
     extensions := extensions document |}.

(** ** The secrets *)

Definition add_seed (store : SecretStore) (entry : SeedEntry (Language := Language)) : SecretStore :=
  {| seeds := seeds store ++ [entry]; transparent_key_entries := transparent_key_entries store;
     sapling_key_entries := sapling_key_entries store; sprout_keys := sprout_keys store;
     unified_keys := unified_keys store |}.

Definition find_mnemonic_fp (store : SecretStore) : option string :=
  head (omap (fun entry => match material entry with
                           | Bip39Mnemonic _ _ => Some (fingerprint entry)
                           | LegacySeed _ => None
                           end) (seeds store)).

Definition find_legacy_seed (store : SecretStore) : option Seed :=
  head (omap (fun entry => match material entry with
                           | LegacySeed seed => Some seed
                           | Bip39Mnemonic _ _ => None
                           end) (seeds store)).

(** A mnemonic is derived from the legacy seed of a wallet that has none. *)
Definition normalize_store (store : SecretStore) :
    outcome (migrate_error Fingerprint) (SecretStore * option string) :=
  match find_mnemonic_fp store, find_legacy_seed store with
  | Some fp, _ => Ret (store, Some fp)
  | None, Some seed =>
      mnemonic ← ok_or (derive_mnemonic seed) (Wrapped (Fl "err-failed-seed-fingerprinting" []));
      fp ← expect (fp_from_seed (to_seed mnemonic));
      let fp := encode_seed_fingerprint fp in
      Ret (add_seed store {| fingerprint := fp;
                             material := Bip39Mnemonic (into_phrase mnemonic) (Some EnglishWords) |},
           Some fp)
  | None, None => Ret (store, None)
  end.

Definition document_secrets (document : Document) :
    outcome (migrate_error Fingerprint) (option SecretStore * option string) :=
  match secrets document with
  | Some (Plain store) => '(store, fp) ← normalize_store store; Ret (Some store, fp)
  | Some Encrypted => Err EncryptedSecrets
  | None => Ret (None, None)
  end.

(** ** Earlier imports *)

Definition zcashd_sourced (source : AccountSource Fingerprint) : option Fingerprint :=
  match source with
  | Some (fp, Some s) =>
      if String.eqb s ZCASHD_MNEMONIC_SOURCE || String.eqb s ZCASHD_LEGACY_SOURCE then Some fp else None
  | _ => None
  end.

Definition collect_account (wallet : Wallet) (found : list Fingerprint) (account_id : AccountId) :
    outcome (migrate_error Fingerprint) (list Fingerprint) :=
  o ← map_err DatabaseFailed (get_account_source wallet account_id);
  account ← expect o;
  Ret (found ++ option_list (zcashd_sourced account)).

Definition existing_zcashd_sourced_accounts (wallet : Wallet) :
    outcome (migrate_error Fingerprint) (list Fingerprint) :=
  ids ← map_err DatabaseFailed (get_account_ids wallet);
  foldM (collect_account wallet) [] ids.

Definition check_imports (existing : list Fingerprint) (allow_multiple_wallet_imports : bool)
    (mnemonic_fp : option string) : outcome (migrate_error Fingerprint) unit :=
  match existing with
  | [] => Ret tt
  | _ =>
      if allow_multiple_wallet_imports then
        match mnemonic_fp ≫= decode_seed_fingerprint with
        | Some fp => if bool_decide (fp ∈ existing) then Err (DuplicateImport fp) else Ret tt
        | None => Ret tt
        end
      else Err MultiImportDisabled
  end.

(** ** The birthday *)

Section birthday.
Context {View : Type} `{!ChainView View} (chain_block_height : View -> BlockHash -> outcome ChainError (option Z)).

(** The view and the height of its tip, unless that is the genesis block. *)
Definition observe_chain (chain : option (outcome ChainError View)) :
    outcome (migrate_error Fingerprint) (option View * option Z) :=
  match chain with
  | Some snapshot =>
      chain_view ← map_err WrappedChain snapshot;
      tip ← map_err WrappedChain (tip chain_view);
      let tip_height := if 0 <? height tip then Some (height tip) else None in
      Ret (Some chain_view, tip_height)
  | None => Ret (None, None)
  end.

Fixpoint max_of (l : list Z) : option Z :=
  match l with
  | [] => None
  | x :: l => Some (match max_of l with Some y => Z.max x y | None => x end)
  end.

Fixpoint min_of (l : list Z) : option Z :=
  match l with
  | [] => None
  | x :: l => Some (match min_of l with Some y => Z.min x y | None => x end)
  end.

Definition export_height_of (chain_tip : option Z) (wallet : ZcashdWallet) (sapling_activation : Z) : Z :=
  default sapling_activation
    (or_ chain_tip (max_of (base.filter (fun h => 0 < h) (wallet_expiry_heights wallet)))).

(** The heights of the blocks of the document's transactions that are on the
    main chain, one lookup for each block found. *)
Definition block_heights_step (chain_view : View) (block_heights : list (BlockHash * Z)) (tx : ZewifTransaction) :
    outcome (migrate_error Fingerprint) (list (BlockHash * Z)) :=
  match block_position tx with
  | None => Ret block_heights
  | Some position =>
      let block_hash := block_hash_from_bytes position in
      if bool_decide (block_hash ∈ block_heights.*1) then Ret block_heights
      else
        o ← map_err WrappedChain (chain_block_height chain_view block_hash);
        Ret (match o with Some height => block_heights ++ [(block_hash, height)] | None => block_heights end)
  end.

Definition birthday_height_of (heights : list Z) (chain_tip : option Z) (sapling_activation : Z) : Z :=
  match or_ (min_of heights) chain_tip with
  | Some h => Z.max h sapling_activation
  | None => sapling_activation
  end.

(** The chain state before the birthday. *)
Definition birthday_of (chain_view : View) (document : Document) (chain_tip : option Z) (sapling_activation : Z) :
    outcome (migrate_error Fingerprint) ZewifChainState :=
  block_heights ← foldM (block_heights_step chain_view) [] (transactions document).*2;
  let birthday_height := birthday_height_of block_heights.*2 chain_tip sapling_activation in
  let treestate_height := saturating_sub birthday_height 1 in
  o ← map_err WrappedChain (tree_state_as_of chain_view treestate_height);
  chain_state ← ok_or o (Wrapped (Fl "err-migrate-wallet-invalid-chain-data"
    [("err", Text ("missing tree state for height " +:+ show_height treestate_height))]%string));
  Ret (to_zewif_chain_state chain_state).

(** Without a chain, 1000 blocks before the first expiry. *)
Definition no_scan_birthday (document : Document) (sapling_activation : Z) : Z :=
  match min_of (base.filter (fun h => 0 < h) (omap expiry_height (transactions document).*2)) with
  | Some h => Z.max (saturating_sub h 1000) sapling_activation
  | None => sapling_activation
  end.

(** ** Watch-only keys *)

Definition watch_pubkeys (account : ZewifAccount Rest) : list WatchKey :=
  omap (fun address =>
    match address with
    | TransparentAddr false (Some pubkey) =>
        match watch_key_from_slice pubkey with
        | Some pk => if Nat.eqb (length pubkey) 33 then Some pk else None
        | None => None
        end
    | _ => None
    end) (account_addresses account).

(** ** The migration *)

Record World := { keystore_db : database; wallet_db : Wallet }.

#[local] Abbreviation Mig := (M World (migrate_error Fingerprint)).

Definition on_wallet {A} (f : string -> migrate_error Fingerprint) (m : M Wallet string A) : Mig A := fun w =>
  let '(r, wallet) := m (wallet_db w) in (map_err f r, {| keystore_db := keystore_db w; wallet_db := wallet |}).

(** A [KeyStoreSecretSink] over the keystore. *)
Definition with_sink {A} (m : M SecretSink sink_error A) : Mig A := fun w =>
  let '(r, s) := m {| sink_db := keystore_db w; sprout_keys_ignored := 0; unified_keys_ignored := 0 |} in
  (map_err SecretSinkFailed r, {| keystore_db := sink_db s; wallet_db := wallet_db w |}).

(** Every entry of the store, by kind. *)
Definition store_secrets (network : Net) (e : Encryptor) (store : SecretStore) : M SecretSink sink_error unit :=
  _ ← for_each store_seed (seeds store);
  _ ← for_each (store_transparent_key network e) (transparent_key_entries store);
  _ ← for_each (store_sapling_key network) (sapling_key_entries store);
  _ ← for_each store_sprout_key (sprout_keys store);
  for_each store_unified_key (unified_keys store).

(** The registration of the watch-only keys of one account. *)
Definition register_watch_keys (accounts_by_name : gmap string Uuid) (exposure_height : Z)
    (account : ZewifAccount Rest) : Mig unit :=
  match accounts_by_name !! name account with
  | None => mret tt
  | Some account_uuid =>
      match watch_pubkeys account with
      | [] => mret tt
      | keys =>
          let to_expose := (fun pk => (watch_address pk, exposure_height)) <$> keys in
          _ ← on_wallet DatabaseFailed (import_standalone_transparent_pubkeys account_uuid keys);
          on_wallet DatabaseFailed (mark_transparent_addresses_exposed to_expose)
      end
  end.

(** The document, the crates' exporter and importer, the network. *)
Context (export : ZcashdWallet -> Z -> outcome string Document)
        (import_wallet : Document -> M Wallet string (list (string * Uuid)))
        (network_type : NetworkType) (net : Net) (sapling_activation_height : option Z).

(** Everything up to the first write: the document to import. *)
Definition prepare (chain : option (outcome ChainError View)) (wallet : ZcashdWallet)
    (buffer_wallet_transactions allow_multiple_wallet_imports : bool) (db_data : Wallet) :
    outcome (migrate_error Fingerprint) (Document * (option ZewifChainState * option Z * Z)) :=
  _ ← check_network (wallet_zewif_network wallet) network_type;
  '(chain_view, chain_tip) ← observe_chain chain;
  sapling_activation ← expect sapling_activation_height;
  document ← map_err ExportFailed (export wallet (export_height_of chain_tip wallet sapling_activation));
  '(secret_store, mnemonic_fp) ← document_secrets document;
  existing ← existing_zcashd_sourced_accounts db_data;
  _ ← check_imports existing allow_multiple_wallet_imports mnemonic_fp;
  '(birthday_chain_state, recover_until) ← match chain_view with
    | Some chain_view =>
        state ← birthday_of chain_view document chain_tip sapling_activation;
        Ret (Some state, chain_tip)
    | None => Ret (None, None)
    end;
  let no_scan_birthday_estimate :=
    match chain_view with Some _ => None | None => Some (no_scan_birthday document sapling_activation) end in
  Ret (enriched_document document secret_store mnemonic_fp birthday_chain_state recover_until
         no_scan_birthday_estimate buffer_wallet_transactions,
       (birthday_chain_state, no_scan_birthday_estimate, sapling_activation)).

Definition store_document_secrets (network : Net) (e : Encryptor) (document : Document) : Mig unit :=
  match secrets document with
  | Some (Plain store) => with_sink (store_secrets network e store)
  | _ => mret tt
  end.

(** The height from which watch-only addresses count as exposed. *)
Definition exposure_height_of (state : option ZewifChainState) (estimate : option Z) (sapling_activation : Z) :
    outcome (migrate_error Fingerprint) Z :=
  match state with
  | Some cs => u32 (zcs_height cs + 1)
  | None => Ret (default sapling_activation estimate)
  end.

(** The secrets, then the import, then the watch-only keys. *)
Definition carry_out (document : Document) (state : option ZewifChainState) (estimate : option Z)
    (sapling_activation : Z) : Mig unit :=
  e ← (fun w => let '(r, db) := encryptor (keystore_db w) in
         (map_err WrappedKeystore r, {| keystore_db := db; wallet_db := wallet_db w |}));
  _ ← store_document_secrets net e document;
  imported_accounts ← on_wallet ImportFailed (import_wallet document);
  let accounts_by_name := foldl (fun m a => <[a.1 := a.2]> m) (∅ : gmap string Uuid) imported_accounts in
  exposure_height ← lift (exposure_height_of state estimate sapling_activation);
  for_each (register_watch_keys accounts_by_name exposure_height) (mjoin (wallet_accounts <$> wallets document)).

Definition migrate_zcashd_wallet (db_handle : outcome message unit) (chain : option (outcome ChainError View))
    (wallet : ZcashdWallet) (buffer_wallet_transactions allow_multiple_wallet_imports : bool) : Mig unit :=
  _ ← lift (map_err Wrapped db_handle);
  w ← get;
  '(document, (state, estimate, sapling_activation)) ← lift (prepare chain wallet buffer_wallet_transactions
    allow_multiple_wallet_imports (wallet_db w));
  carry_out document state estimate sapling_activation.
End birthday.
End migrate.

(** ** Theorems *)

Section dump_proofs.
Context `{DumpOps} {Fp : Type}.

(** The wallet comes from the file the options name, by the dump utility of the
    given installation and no other one; without warnings allowed the parsers are
    strict. *)
Lemma dump_wallet_Ret cmd w :
  dump_wallet (Fp := Fp) cmd = Ret w ->
  exists wallet_path dump z,
    dump_path (Fp := Fp) cmd = Ret wallet_path /\ (is_relative (path cmd) = false -> wallet_path = path cmd) /\
    match zcashd_install_dir cmd with
    | Some dir =>
        let db_dump := path_join (path_join (path_join dir "zcutil") "bin") "db_dump" in
        is_file db_dump = true /\ from_file_with_path db_dump wallet_path = Ret dump
    | None => from_file wallet_path = Ret dump
    end /\
    from_bdb_dump dump (allow_warnings cmd) = Ret z /\ parse_dump z (negb (allow_warnings cmd)) = Ret w.
Proof.
  unfold dump_wallet. intros (p & Hp & Hr)%bind_Ret. apply bind_Ret in Hr as (dumped & Hd & Hr).
  apply bind_Ret in Hr as (dump & Hdump%map_err_Ret & Hr). apply bind_Ret in Hr as (z & Hz%map_err_Ret & Hw%map_err_Ret).
  subst dumped. exists p, dump, z. split; [done|]. split; [|split; [|done]].
  - unfold dump_path in Hp. intros Hrel. rewrite Hrel in Hp. by injection Hp.
  - destruct (zcashd_install_dir cmd) as [dir|].
    + apply bind_Ret in Hd as (u & Hf%ensure_Ret & [= ->]). by split.
    + destruct (negb (is_ret (from_file p)) && negb db_dump_on_path); [done|]. by injection Hd.
Qed.
End dump_proofs.

Section migrate_proofs.
Context `{HL : KeyCryptoLaws} {ZO : ZewifOps} {ZL : ZewifLaws} {CT : ChainTypes} {MO : MigrateWalletOps}.

(** *** The document *)

(** What the enrichment may change in an account. *)
Definition account_enriched (mnemonic_fp : option string) (state : option ZewifChainState)
    (recover_until estimate : option Z) (a a' : ZewifAccount Rest) : Prop :=
  name a' = name a /\ account_addresses a' = account_addresses a /\ account_rest a' = account_rest a /\
  (* Only the seed of the legacy account changes, to the mnemonic's. *)
  (forall d', key_source a' = Some (Derived d') ->
     exists d, key_source a = Some (Derived d) /\ account_index d' = account_index d /\
       legacy_address_index d' = legacy_address_index d /\
       seed_fingerprint d' =
         match mnemonic_fp with
         | Some fp => if account_index d =? ZCASHD_LEGACY_ACCOUNT_INDEX then fp else seed_fingerprint d
         | None => seed_fingerprint d
         end) /\
  (forall d, key_source a = Some (Derived d) -> exists d', key_source a' = Some (Derived d')) /\
  ((forall d, key_source a <> Some (Derived d)) -> key_source a' = key_source a) /\
  match state with
  | Some cs =>
      birthday_chain_state a' = Some cs /\ birthday_height a' = birthday_height a /\
      recover_until_height a' = or_ recover_until (recover_until_height a)
  | None =>
      birthday_chain_state a' = birthday_chain_state a /\ recover_until_height a' = recover_until_height a /\
      birthday_height a' =
        match birthday_chain_state a with
        | Some _ => birthday_height a
        | None => or_ (birthday_height a) estimate
        end
  end.

Lemma set_birthday_key_source state r e a : key_source (set_birthday state r e a) = key_source a.
Proof.
  unfold set_birthday. destruct state; [by destruct r|].
  by destruct (birthday_height a), (birthday_chain_state a), e.
Qed.

Lemma normalize_account_rest fp a :
  name (normalize_account fp a) = name a /\ account_addresses (normalize_account fp a) = account_addresses a /\
  account_rest (normalize_account fp a) = account_rest a /\
  birthday_height (normalize_account fp a) = birthday_height a /\
  birthday_chain_state (normalize_account fp a) = birthday_chain_state a /\
  recover_until_height (normalize_account fp a) = recover_until_height a.
Proof.
  unfold normalize_account. destruct fp as [fp|]; [|done].
  destruct (key_source a) as [[d|]|]; [|done..]. by destruct (_ && _).
Qed.

Lemma normalize_account_derived fp a d :
  key_source a = Some (Derived d) ->
  exists d', key_source (normalize_account fp a) = Some (Derived d') /\ account_index d' = account_index d /\
    legacy_address_index d' = legacy_address_index d /\
    seed_fingerprint d' =
      match fp with
      | Some fp => if account_index d =? ZCASHD_LEGACY_ACCOUNT_INDEX then fp else seed_fingerprint d
      | None => seed_fingerprint d
      end.
Proof.
  intros Hk. unfold normalize_account. destruct fp as [fp|]; [|by exists d]. rewrite Hk.
  destruct (Z.eqb_spec (account_index d) ZCASHD_LEGACY_ACCOUNT_INDEX) as [He|]; cbn [andb]; [|by exists d].
  destruct (String.eqb_spec (seed_fingerprint d) fp); cbn [negb]; [by exists d|].
  eexists. split; [done|]. by rewrite He.
Qed.

Lemma normalize_account_other fp a :
  (forall d, key_source a <> Some (Derived d)) -> normalize_account fp a = a.
Proof.
  intros Hk. unfold normalize_account. destruct fp; [|done]. destruct (key_source a) as [[d|]|] eqn:E; [|done..].
  by destruct (Hk d).
Qed.

Lemma account_enriched_spec fp state r e a :
  account_enriched fp state r e a (set_birthday state r e (normalize_account fp a)).
Proof.
  destruct (normalize_account_rest fp a) as (Hn & Ha & Hr & Hb & Hc & Hu).
  unfold account_enriched. rewrite set_birthday_key_source. split_and!.
  1-3: unfold set_birthday; destruct state; [by destruct r|];
    by destruct (birthday_height _), (birthday_chain_state _), e.
  - intros d' Hd'. destruct (key_source a) as [[d|]|] eqn:Hk.
    + destruct (normalize_account_derived fp a d Hk) as (d'' & Hk' & ? & ? & ?).
      assert (d'' = d') as -> by congruence. by exists d.
    + rewrite normalize_account_other in Hd' by (by intros d; rewrite Hk). congruence.
    + rewrite normalize_account_other in Hd' by (by intros d; rewrite Hk). congruence.
  - intros d Hk. destruct (normalize_account_derived fp a d Hk) as (d' & ? & _). by exists d'.
  - intros Hk. by rewrite normalize_account_other.
  - rewrite <- Hb, <- Hc, <- Hu. unfold set_birthday. destruct state as [cs|]; [by destruct r|].
    destruct (birthday_height (normalize_account fp a)) eqn:?, (birthday_chain_state (normalize_account fp a)) eqn:?, e;
      cbn; split_and!; congruence.
Qed.

Lemma enriched_document_accounts document store fp state r e buffer :
  Forall2 (fun w w' =>
    wallet_network w' = wallet_network w /\ address_book w' = address_book w /\
    wallet_extensions w' = wallet_extensions w /\
    Forall2 (account_enriched fp state r e) (wallet_accounts w) (wallet_accounts w'))
    (wallets document) (wallets (enriched_document document store fp state r e buffer)).
Proof.
  unfold enriched_document. cbn. apply Forall2_fmap_r, Forall_Forall2_diag, Forall_forall. intros w _. cbn.
  split_and!; [done..|]. apply Forall2_fmap_r, Forall_Forall2_diag, Forall_forall. intros a _.
  apply account_enriched_spec.
Qed.

(** *** The secrets come first *)

#[local] Abbreviation sealed_by := (sealed (matching := matching)).
#[local] Abbreviation stores_in_sink := (sink_stores (matching := matching)).

Definition secrets_held (ids : list Identity) (net : Net) (store : SecretStore) (db : database) : Prop :=
  Forall (fun entry => seed_held ids entry db) (seeds store) /\
  Forall (fun entry => transparent_key_held net entry db) (transparent_key_entries store) /\
  Forall (fun entry => sapling_key_held net entry db) (sapling_key_entries store).

Lemma sink_stores_conseq {A} ids (m : M SecretSink sink_error A) (P Q : database -> Prop) n k n' k' :
  stores_in_sink ids m P n k -> (forall db, P db -> Q db) -> n = n' -> k = k' -> stores_in_sink ids m Q n' k'.
Proof.
  intros Hm HPQ -> -> s0 Hs. specialize (Hm s0 Hs). destruct (m s0) as [[a|e|] s']; naive_solver.
Qed.

Lemma Forall_grows {X} (Q : X -> database -> Prop) (l : list X) :
  (forall x db db', grows db db' -> Q x db -> Q x db') ->
  forall db db', grows db db' -> Forall (fun x => Q x db) l -> Forall (fun x => Q x db') l.
Proof. intros Hm db db' Hg Hl. by eapply Forall_impl; [exact Hl|]; intros; eapply Hm. Qed.

Lemma store_secrets_stores ids net e store :
  matching ids (recipients e) ->
  stores_in_sink ids (store_secrets net e store) (secrets_held ids net store)
    (Z.of_nat (length (sprout_keys store))) (Z.of_nat (length (unified_keys store))).
Proof.
  intros Hm. unfold store_secrets. eapply sink_stores_conseq.
  - repeat eapply sink_stores_seq.
    + apply for_each_stores; [apply store_seed_stores|apply seed_held_grows].
    + apply for_each_stores; [by intros; apply store_transparent_key_stores|apply transparent_key_held_grows].
    + apply for_each_stores; [apply store_sapling_key_stores|apply sapling_key_held_grows].
    + apply for_each_stores; [apply store_sprout_key_stores|done].
    + apply for_each_stores; [apply store_unified_key_stores|done].
    + by apply Forall_grows.
    + apply Forall_grows, sapling_key_held_grows.
    + apply Forall_grows, transparent_key_held_grows.
    + apply Forall_grows. intros x. apply seed_held_grows.
  - intros db (? & ? & ? & _). by split_and!.
  - lia.
  - lia.
Qed.

(** The mnemonics among them can be decrypted. *)
Lemma mnemonic_readable ids entry db phrase language :
  sealed_by ids db -> seed_held ids entry db -> material entry = Bip39Mnemonic phrase language ->
  exists fp seed, decode_seed_fingerprint (fingerprint entry) = Some fp /\
    decrypt_seed ids fp db = (Ret seed, db) /\ fp_from_seed seed = Some fp.
Proof.
  intros [Hwf _] (fp & Hfp & Hh) Hmat. rewrite Hmat in Hh. destruct Hh as [c Hc].
  destruct (decrypt_seed_wf ids db fp c Hwf Hc) as (m & Hd & _ & Hf). by exists fp, (to_seed m).
Qed.

(** Computations that leave the keystore alone. *)
Definition keeps_keystore {A} (m : M World (migrate_error Fingerprint) A) : Prop :=
  forall w, keystore_db (m w).2 = keystore_db w.

Lemma keeps_keystore_bind {A B} (m : M World (migrate_error Fingerprint) A) (f : A -> M World (migrate_error Fingerprint) B) :
  keeps_keystore m -> (forall a, keeps_keystore (f a)) -> keeps_keystore (m ≫= f).
Proof.
  intros Hm Hf w. rewrite run_bind. specialize (Hm w). destruct (m w) as [[a|e|] w1]; cbn in *; [|done|done].
  by rewrite Hf.
Qed.

Lemma keeps_keystore_lift {A} (m : outcome (migrate_error Fingerprint) A) : keeps_keystore (lift m).
Proof. by intros w. Qed.

Lemma keeps_keystore_on_wallet {A} f (m : M Wallet string A) : keeps_keystore (on_wallet f m).
Proof. intros w. unfold on_wallet. by destruct (m (wallet_db w)). Qed.

Lemma keeps_keystore_for_each {X} (f : X -> M World (migrate_error Fingerprint) unit) l :
  (forall x, keeps_keystore (f x)) -> keeps_keystore (for_each f l).
Proof.
  intros Hf. induction l as [|x l IH]; [by intros w|]. cbn [for_each]. by apply keeps_keystore_bind.
Qed.

Lemma register_watch_keys_keystore accounts h account : keeps_keystore (register_watch_keys accounts h account).
Proof.
  unfold register_watch_keys. destruct (accounts !! name account); [|by intros w].
  destruct (watch_pubkeys account); [by intros w|].
  apply keeps_keystore_bind; [|intros _]; apply keeps_keystore_on_wallet.
Qed.

Definition document_secrets_held (ids : list Identity) (net : Net) (document : Document) (db : database) : Prop :=
  forall store, secrets document = Some (Plain store) -> secrets_held ids net store db.

Section run.
Context {View : Type} `{!ChainView View} (chain_block_height : View -> BlockHash -> outcome ChainError (option Z)).
Context (export : ZcashdWallet -> Z -> outcome string Document)
        (import_wallet : Document -> M Wallet string (list (string * Uuid)))
        (network_type : NetworkType) (net : Net) (sapling_activation_height : option Z).

Lemma store_document_secrets_spec ids e document w :
  matching ids (recipients e) -> sealed_by ids (keystore_db w) ->
  let '(r, w1) := store_document_secrets net e document w in
  sealed_by ids (keystore_db w1) /\ grows (keystore_db w) (keystore_db w1) /\ wallet_db w1 = wallet_db w /\
  (r = Ret tt -> document_secrets_held ids net document (keystore_db w1)).
Proof.
  intros Hm Hs. unfold document_secrets_held, store_document_secrets.
  destruct (secrets document) as [[store|]|]; [|by split_and!..]. unfold with_sink.
  pose proof (store_secrets_stores ids net e store Hm
    {| sink_db := keystore_db w; sprout_keys_ignored := 0; unified_keys_ignored := 0 |} Hs) as Hst.
  destruct (store_secrets net e store _) as [[[]|er|] s]; cbn; [| |done].
  - destruct Hst as (? & ? & ? & _). split_and!; [done..|]. by intros _ ? [= <-].
  - destruct Hst as [? ?]. by split_and!.
Qed.

Lemma carry_out_secrets ids document state estimate act w :
  sealed_by ids (keystore_db w) ->
  let '(r, w') := carry_out import_wallet net document state estimate act w in
  sealed_by ids (keystore_db w') /\ grows (keystore_db w) (keystore_db w') /\
  (document_secrets_held ids net document (keystore_db w') \/ (wallet_db w' = wallet_db w /\ r <> Ret tt)).
Proof.
  intros Hs. unfold carry_out. rewrite run_bind.
  destruct (encryptor_sealed ids (keystore_db w) Hs) as (e & He & Hm). rewrite He. cbn [map_err].
  replace {| keystore_db := keystore_db w; wallet_db := wallet_db w |} with w by (by destruct w).
  rewrite run_bind.
  pose proof (store_document_secrets_spec ids e document w Hm Hs) as Hst.
  destruct (store_document_secrets net e document w) as [[[]|er|] w1];
    destruct Hst as (Hs1 & Hg1 & Hw1 & Hh1); [|split_and!; [done..|by right]|split_and!; [done..|by right]].
  specialize (Hh1 eq_refl).
  match goal with |- context [?m w1] => assert (keeps_keystore m) as Hk end.
  { apply keeps_keystore_bind; [apply keeps_keystore_on_wallet|intros imported].
    apply keeps_keystore_bind; [apply keeps_keystore_lift|intros h].
    apply keeps_keystore_for_each. intros a. apply register_watch_keys_keystore. }
  specialize (Hk w1). match goal with |- context [?m w1] => destruct (m w1) as [r w'] end. cbn in Hk. rewrite Hk. split_and!; [done..|by left].
Qed.

(** C13. Whatever the outcome of a migration, the keystore only gains entries
    and stays one the user can decrypt. If it succeeds, or changed the wallet
    database in any way, every seed, transparent and Sapling key of the
    document had been stored, and every mnemonic decrypts to a seed of the
    fingerprint that the document records. *)
Theorem secrets_stored_before_accounts ids db_handle chain wallet buffer allow w :
  sealed_by ids (keystore_db w) ->
  let '(r, w') := migrate_zcashd_wallet chain_block_height export import_wallet network_type net
                    sapling_activation_height db_handle chain wallet buffer allow w in
  sealed_by ids (keystore_db w') /\ grows (keystore_db w) (keystore_db w') /\
  (r = Ret tt \/ wallet_db w' <> wallet_db w ->
   exists document rest, prepare chain_block_height export network_type sapling_activation_height
       chain wallet buffer allow (wallet_db w) = Ret (document, rest) /\
     forall store, secrets document = Some (Plain store) ->
       secrets_held ids net store (keystore_db w') /\
       forall entry phrase language, entry ∈ seeds store -> material entry = Bip39Mnemonic phrase language ->
         exists fp seed, decode_seed_fingerprint (fingerprint entry) = Some fp /\
           decrypt_seed ids fp (keystore_db w') = (Ret seed, keystore_db w') /\ fp_from_seed seed = Some fp).
Proof.
  intros Hs. unfold migrate_zcashd_wallet. rewrite run_bind. unfold lift at 1.
  destruct (map_err Wrapped db_handle); [|split_and!; [done..|by intros []]|split_and!; [done..|by intros []]].
  rewrite run_bind. unfold get. rewrite run_bind. unfold lift.
  destruct (prepare _ _ _ _ _ _ _ _ _) as [[document [[state estimate] act]]|e|] eqn:Hp;
    [|split_and!; [done..|by intros []]|split_and!; [done..|by intros []]].
  pose proof (carry_out_secrets ids document state estimate act w Hs) as Hc.
  destruct (carry_out _ _ _ _ _ _ w) as [r w']. destruct Hc as (Hs' & Hg & Hh).
  split_and!; [done..|]. intros Hrw. exists document, (state, estimate, act). split; [done|]. intros store Hst.
  assert (secrets_held ids net store (keystore_db w')) as Hheld by (destruct Hh as [Hh|[? ?]]; [by apply Hh|naive_solver]).
  split; [done|]. intros entry phrase language Hin Hmat.
  destruct Hheld as [Hseeds _]. rewrite Forall_forall in Hseeds. by eapply mnemonic_readable; [|apply Hseeds|].
Qed.

(** *** What is imported *)

Lemma min_of_None l : min_of l = None <-> l = [].
Proof. destruct l as [|x l]; cbn; [done|]. by destruct (min_of l). Qed.

Lemma min_of_Some l m : min_of l = Some m -> m ∈ l /\ forall x, x ∈ l -> m <= x.
Proof.
  revert m. induction l as [|y l IH]; intros m; cbn; [done|]. destruct (min_of l) as [m'|] eqn:Hl.
  - intros [= <-]. destruct (IH m' eq_refl) as [Hin Hle]. split.
    + destruct (Z.min_spec y m') as [[_ ->]|[_ ->]]; set_solver.
    + intros x [-> |Hx]%elem_of_cons; [lia|]. specialize (Hle x Hx). lia.
  - apply min_of_None in Hl as ->. intros [= <-]. set_solver by lia.
Qed.

(** The earliest of some values is some bound on all of them. *)
Lemma min_of_bound l m x : min_of l = Some m -> x ∈ l -> m <= x.
Proof. intros Hm Hx. by apply (min_of_Some l m Hm). Qed.

(** The accounts of an earlier import, with the seeds they derive from. *)
Definition imported_before (w : Wallet) (fp : Fingerprint) : Prop :=
  exists ids id source, get_account_ids w = Ret ids /\ id ∈ ids /\
    get_account_source w id = Ret (Some source) /\ zcashd_sourced source = Some fp.

Lemma existing_spec w existing fp :
  existing_zcashd_sourced_accounts w = Ret existing -> fp ∈ existing <-> imported_before w fp.
Proof.
  unfold existing_zcashd_sourced_accounts, imported_before. intros (ids & Hids%map_err_Ret & Hf)%bind_Ret.
  enough (forall acc, foldM (collect_account w) acc ids = Ret existing ->
    fp ∈ existing <-> fp ∈ acc \/ exists id source, id ∈ ids /\ get_account_source w id = Ret (Some source) /\
      zcashd_sourced source = Some fp) as Hall.
  { rewrite (Hall [] Hf), Hids. set_solver. }
  clear Hf Hids. induction ids as [|id ids IH]; intros acc; cbn [foldM].
  - intros [= ->]. set_solver.
  - intros (found & Hfound & Hf)%bind_Ret. apply bind_Ret in Hfound as (o & Ho%map_err_Ret & Hfound).
    destruct o as [source|]; [|done]. cbn in Hfound. injection Hfound as <-.
    assert (forall x, x ∈ option_list (zcashd_sourced source) <-> zcashd_sourced source = Some x) as Hopt.
    { intros x. destruct (zcashd_sourced source); cbn; set_solver. }
    rewrite (IH _ Hf), elem_of_app, Hopt. split.
    + intros [[?|?]|(i & s & ? & ? & ?)]; [by left|right; exists id, source; set_solver|].
      right. exists i, s. set_solver.
    + intros [?|(i & s & [-> |Hi]%elem_of_cons & Hs & Hz)]; [by left; left| |right; by exists i, s].
      left; right. congruence.
Qed.

(** The blocks of the document's transactions on the view's chain. *)
Definition mined_at (v : View) (document : Document) (h : Z) : Prop :=
  exists tx b, tx ∈ (transactions document).*2 /\ block_position tx = Some b /\
    chain_block_height v (block_hash_from_bytes b) = Ret (Some h).

Lemma block_heights_spec v txs hs :
  foldM (block_heights_step chain_block_height v) [] txs = Ret hs ->
  forall h, h ∈ hs.*2 <-> exists tx b, tx ∈ txs /\ block_position tx = Some b /\
    chain_block_height v (block_hash_from_bytes b) = Ret (Some h).
Proof.
  intros Hf. enough (forall acc, foldM (block_heights_step chain_block_height v) acc txs = Ret hs ->
    (forall b h, (b, h) ∈ acc -> chain_block_height v b = Ret (Some h)) ->
    forall h, h ∈ hs.*2 <-> h ∈ acc.*2 \/ exists tx b, tx ∈ txs /\ block_position tx = Some b /\
      chain_block_height v (block_hash_from_bytes b) = Ret (Some h)) as Hall.
  { intros h. rewrite (Hall [] Hf) by set_solver. set_solver. }
  clear Hf. induction txs as [|tx txs IH]; intros acc; cbn [foldM].
  - intros [= ->] _ h. set_solver.
  - intros (acc' & Hstep & Hf)%bind_Ret Hacc h. unfold block_heights_step in Hstep.
    destruct (block_position tx) as [b|] eqn:Hb.
    2: { injection Hstep as <-. rewrite (IH _ Hf Hacc). set_solver. }
    case_bool_decide as Hin.
    + injection Hstep as <-. rewrite (IH _ Hf Hacc). apply list_elem_of_fmap in Hin as ([b' h'] & Heq & Hin).
      cbn in Heq. pose proof (Hacc _ _ Hin) as Hh'. split; [set_solver|].
      intros [?|(tx' & b'' & [-> |?]%elem_of_cons & Hb'' & Hh'')]; [by left| |right; by exists tx', b''].
      left. rewrite Hb in Hb''. injection Hb'' as <-. rewrite Heq, Hh' in Hh''. injection Hh'' as ->.
      apply list_elem_of_fmap. by exists (b', h).
    + apply bind_Ret in Hstep as (o & Ho%map_err_Ret & [= <-]). destruct o as [k|].
      * assert (forall b' h', (b', h') ∈ acc ++ [(block_hash_from_bytes b, k)] ->
          chain_block_height v b' = Ret (Some h')) as Hacc'.
        { intros b' h' [?|Heq]%elem_of_app; [by apply Hacc|]. apply list_elem_of_singleton in Heq.
          by injection Heq as -> ->. }
        rewrite (IH _ Hf Hacc'), fmap_app, elem_of_app. cbn. rewrite list_elem_of_singleton. split.
        -- intros [[?| ->]|(tx' & b' & ? & ?)]; [by left|right; exists tx, b; set_solver|].
           right. exists tx', b'. set_solver.
        -- intros [?|(tx' & b' & [-> |?]%elem_of_cons & Hb' & Hh')]; [by left; left| |right; by exists tx', b'].
           left; right. congruence.
      * rewrite (IH _ Hf Hacc). split; [set_solver|].
        intros [?|(tx' & b' & [-> |?]%elem_of_cons & Hb' & Hh')]; [by left|congruence|right; by exists tx', b'].
Qed.

(** The mnemonic named by the fingerprint is in the store. *)
Definition mnemonic_in (store : option SecretStore) (fp : string) : Prop :=
  exists st entry phrase language, store = Some st /\ entry ∈ seeds st /\ fingerprint entry = fp /\
    material entry = Bip39Mnemonic phrase language.

Lemma find_mnemonic_fp_Some st fp : find_mnemonic_fp st = Some fp -> mnemonic_in (Some st) fp.
Proof.
  unfold find_mnemonic_fp. intros Hh%head_Some_elem_of. apply list_elem_of_omap in Hh as (entry & Hin & Hm).
  destruct (material entry) as [phrase language|] eqn:E; [|done]. injection Hm as <-.
  by exists st, entry, phrase, language.
Qed.

Lemma document_secrets_spec document store fp :
  document_secrets document = Ret (store, fp) ->
  secrets document <> Some Encrypted /\ (is_Some store <-> is_Some (secrets document)) /\
  forall s, fp = Some s -> mnemonic_in store s.
Proof.
  unfold document_secrets. destruct (secrets document) as [[st|]|]; [|done|by intros [= <- <-]].
  intros ([store' fp'] & Hn & [= <- <-])%bind_Ret. split; [done|]. split; [done|]. intros s ->.
  unfold normalize_store in Hn. destruct (find_mnemonic_fp st) as [fp|] eqn:Hf.
  - injection Hn as <- <-. by apply find_mnemonic_fp_Some.
  - destruct (find_legacy_seed st) as [seed|]; [|done]. apply bind_Ret in Hn as (m & _ & Hn).
    apply bind_Ret in Hn as (f & _ & [= <- <-]). unfold mnemonic_in. cbn. do 4 eexists. split; [done|].
    split; [by apply elem_of_app; right; apply list_elem_of_singleton|done].
Qed.

Lemma check_network_Ret z nt u :
  check_network z nt = Ret u -> (z = ZMainnet /\ nt = Main) \/ (z = ZTestnet /\ nt = Test).
Proof. destruct z, nt; cbn; naive_solver. Qed.

Lemma check_imports_spec db existing allow fp u :
  (forall f, f ∈ existing <-> imported_before db f) -> check_imports existing allow fp = Ret u ->
  forall f, imported_before db f ->
    allow = true /\ forall s f', fp = Some s -> decode_seed_fingerprint s = Some f' -> ~ imported_before db f'.
Proof.
  intros He Hc f Hf. unfold check_imports in Hc. destruct existing as [|x l]; [by apply He, not_elem_of_nil in Hf|].
  destruct allow; [|done]. split; [done|]. intros s f' -> Hd Hi. cbn in Hc. rewrite Hd in Hc.
  by rewrite bool_decide_true in Hc by (by apply He).
Qed.

(** The birthday is a height from which no transaction of the wallet is missed,
    given what the chain knows of their blocks. *)
Lemma birthday_of_spec v document chain_tip act state :
  birthday_of chain_block_height v document chain_tip act = Ret state ->
  exists h cs, tree_state_as_of v (saturating_sub h 1) = Ret (Some cs) /\ state = to_zewif_chain_state cs /\
    act <= h /\ (forall k, mined_at v document k -> h <= Z.max k act) /\
    ((forall k, ~ mined_at v document k) -> h = Z.max (default act chain_tip) act).
Proof.
  unfold birthday_of. intros (hs & Hhs & Hr)%bind_Ret. apply bind_Ret in Hr as (o & Ho%map_err_Ret & Hr).
  apply bind_Ret in Hr as (cs & Hcs%ok_or_Ret & [= <-]). subst o.
  pose proof (block_heights_spec v _ hs Hhs) as Hspec.
  exists (birthday_height_of hs.*2 chain_tip act), cs. split; [done|]. split; [done|].
  unfold birthday_height_of. destruct (min_of hs.*2) as [m|] eqn:Hm; cbn [or_].
  - split; [lia|]. split.
    + intros k Hk%Hspec. pose proof (min_of_bound _ _ _ Hm Hk). lia.
    + intros Hno. apply min_of_Some in Hm as [Hm _]. by apply Hspec, Hno in Hm.
  - apply min_of_None in Hm. split; [by destruct chain_tip; lia|]. split.
    + intros k Hk%Hspec. rewrite Hm in Hk. by apply not_elem_of_nil in Hk.
    + intros _. destruct chain_tip; cbn; lia.
Qed.

Lemma no_scan_birthday_spec document act :
  act <= no_scan_birthday document act /\
  forall tx k, tx ∈ (transactions document).*2 -> expiry_height tx = Some k -> 0 < k ->
    no_scan_birthday document act <= Z.max (saturating_sub k 1000) act.
Proof.
  unfold no_scan_birthday. destruct (min_of _) as [m|] eqn:Hm.
  - split; [lia|]. intros tx k Htx Hk Hpos.
    assert (m <= k); [|unfold saturating_sub; lia]. eapply min_of_bound; [exact Hm|].
    apply list_elem_of_filter. split; [done|]. apply list_elem_of_omap. by exists tx.
  - split; [lia|]. intros. lia.
Qed.
(** The wallet of the command line. *)
Definition observed (chain : option (outcome ChainError View)) (v : option View) (chain_tip : option Z) : Prop :=
  match chain with
  | Some snapshot => exists u t, snapshot = Ret u /\ v = Some u /\ tip u = Ret t /\
      chain_tip = if 0 <? height t then Some (height t) else None
  | None => v = None /\ chain_tip = None
  end.

Lemma observe_chain_spec chain v chain_tip :
  observe_chain chain = Ret (v, chain_tip) -> observed chain v chain_tip.
Proof.
  unfold observe_chain, observed. destruct chain as [snapshot|]; [|by intros [= <- <-]].
  intros (u & Hu%map_err_Ret & Hr)%bind_Ret. apply bind_Ret in Hr as (t & Ht%map_err_Ret & [= <- <-]).
  by exists u, t.
Qed.

(** The birthday the document carries: with a chain, a height after the first
    block of the wallet's transactions and the chain state before it; without
    one, an estimate. *)
Definition birthday_ok (v : option View) (source : Document) (chain_tip : option Z) (act : Z)
    (state : option ZewifChainState) (recover_until estimate : option Z) : Prop :=
  match v with
  | Some u =>
      estimate = None /\ recover_until = chain_tip /\
      exists h cs, tree_state_as_of u (saturating_sub h 1) = Ret (Some cs) /\ state = Some (to_zewif_chain_state cs) /\
        act <= h /\ (forall k, mined_at u source k -> h <= Z.max k act) /\
        ((forall k, ~ mined_at u source k) -> h = Z.max (default act chain_tip) act)
  | None =>
      state = None /\ recover_until = None /\
      exists k, estimate = Some k /\ act <= k /\
        forall tx x, tx ∈ (transactions source).*2 -> expiry_height tx = Some x -> 0 < x ->
          k <= Z.max (saturating_sub x 1000) act
  end.

(** A migration goes ahead only on the matching network, with readable
    secrets, and for a second wallet only if that is allowed and its mnemonic
    is new. Its document is the export with the legacy account moved to a
    mnemonic in the store, and with a birthday no later than any transaction
    on the chain, from the chain state before it, or without a chain an
    estimate 1000 blocks before every expiry. *)
Theorem prepare_correct chain wallet buffer allow db document state estimate act :
  prepare chain_block_height export network_type sapling_activation_height chain wallet buffer allow db =
    Ret (document, (state, estimate, act)) ->
  (wallet_zewif_network wallet = ZMainnet /\ network_type = Main \/
   wallet_zewif_network wallet = ZTestnet /\ network_type = Test) /\
  sapling_activation_height = Some act /\
  exists v chain_tip source store mnemonic_fp recover_until,
    observed chain v chain_tip /\
    export wallet (export_height_of chain_tip wallet act) = Ret source /\
    secrets source <> Some Encrypted /\ (is_Some store <-> is_Some (secrets source)) /\
    (forall s, mnemonic_fp = Some s -> mnemonic_in store s) /\
    (forall f, imported_before db f ->
       allow = true /\ forall s f', mnemonic_fp = Some s -> decode_seed_fingerprint s = Some f' -> ~ imported_before db f') /\
    birthday_ok v source chain_tip act state recover_until estimate /\
    secrets document = Plain <$> store /\
    transactions document = (if buffer then transactions source else []) /\
    Forall2 (fun w w' => wallet_network w' = wallet_network w /\ address_book w' = address_book w /\
        wallet_extensions w' = wallet_extensions w /\
        Forall2 (account_enriched mnemonic_fp state recover_until estimate) (wallet_accounts w) (wallet_accounts w'))
      (wallets source) (wallets document).
Proof.
  unfold prepare. intros (u & Hnet%check_network_Ret & Hp)%bind_Ret. apply bind_Ret in Hp as ([v ct] & Hobs & Hp).
  apply bind_Ret in Hp as (a & Ha & Hp). apply bind_Ret in Hp as (source & Hexp%map_err_Ret & Hp).
  apply bind_Ret in Hp as ([store fp] & Hsec & Hp). apply bind_Ret in Hp as (existing & Hex & Hp).
  apply bind_Ret in Hp as (u' & Hci & Hp). apply bind_Ret in Hp as ([bs ru] & Hb & Hp).
  injection Hp as <- <- <- <-. apply observe_chain_spec in Hobs.
  split; [done|]. split; [by destruct sapling_activation_height; [injection Ha as ->|]|].
  exists v, ct, source, store, fp, ru. destruct (document_secrets_spec _ _ _ Hsec) as (? & ? & ?).
  split_and!; try done; [|by destruct v as [w|];
    [apply bind_Ret in Hb as (st & (h & cs & ? & -> & ? & ? & ?)%birthday_of_spec & [= <- <-]);
       split_and!; [..|exists h, cs]|injection Hb as <- <-; split_and!;
       [..|eexists; split; [done|apply no_scan_birthday_spec]]]|apply enriched_document_accounts].
  eapply check_imports_spec; [|done]. intros f. by apply existing_spec.
Qed.
End run.
End migrate_proofs.

(** ** An example: a wallet with one mnemonic, over the example keystore *)
Section example.
#[local] Instance toy_crypto : KeyCrypto := example_crypto.

#[local] Instance toy_crypto_laws : KeyCryptoLaws example_matching := example_crypto_laws.

#[local] Instance toy_zewif : ZewifOps := {|
  Net := unit; Language := bool; EnglishWords := true; Extfvk := Z; SproutKeyEntry := unit; UnifiedKeyEntry := unit;
  bech32m_decode s :=
    if String.eqb s "fp21" then Some (SEED_FINGERPRINT_HRP, Byte.x15 :: replicate 31 Byte.x00) else None;
  fp_from_bytes bs := match bs with b :: _ => Z.of_N (Byte.to_N b) | [] => 0 end;
  fp_to_bytes z := replicate (Pos.to_nat (encode (z : Z))) Byte.x00;
  decode_base58 _ _ := None; serialize_uncompressed p := p;
  decode_extended_spending_key _ _ := Err ""%string; to_extended_full_viewing_key k := k;
  encode_extended_full_viewing_key _ _ := ""%string |}.

#[local] Instance toy_zewif_laws : ZewifLaws.
Proof.
  split; [|done]. cbn. intros a b Hab. apply (f_equal length) in Hab. rewrite !length_replicate in Hab.
  apply Pos2Nat.inj in Hab. by apply (inj encode).
Qed.

#[local] Instance toy_types : ChainTypes := {|
  BlockHash := list Byte.byte; BlockHeader := list Byte.byte; Block := Z * list Byte.byte; Transaction := Z;
  TxId := Z; ChainState := Z; header_hash h := h; claimed_height := fst; block_header := snd |}.

#[local] Instance toy_tip_view : ChainView unit := {|
  tip _ := Ret {| height := 1000; hash := [] |}; find_fork_point _ _ := Ret None; tree_state_as_of _ h := Ret (Some h);
  get_block_header _ _ := Ret None; get_block _ _ := Ret None;
  stream_blocks_to_tip _ _ := Ret (Stream [] None); stream_blocks _ _ := Ret (Stream [] None);
  get_mempool_stream _ := Ret None; get_transaction _ _ := Ret None; get_transaction_status _ _ := Ret TxidNotRecognized |}.

#[local] Instance toy_migrate : MigrateWalletOps := {|
  Rest := unit; Extensions := unit; ZTxId := Z; ZcashdWallet := ZewifNetwork; Wallet := list Z; AccountId := Z;
  Uuid := Z; WatchKey := Z; TAddress := Z; wallet_zewif_network n := n; wallet_expiry_heights _ := [];
  derive_mnemonic s := Some s; encode_seed_fingerprint _ := "fp21"%string;
  block_hash_from_bytes b := b; block_hash_to_bytes b := b; chain_state_height c := c; chain_state_hash _ := [];
  final_sapling_tree _ := None; final_orchard_tree _ := None; final_ironwood_tree _ := None;
  show_height _ := "?"%string; watch_key_from_slice b := Some (Z.of_nat (length b)); watch_address k := k;
  get_account_ids w := Ret w; get_account_source _ id := Ret (Some (Some (id, Some ZCASHD_MNEMONIC_SOURCE)));
  import_standalone_transparent_pubkeys _ keys w := (Ret tt, w ++ keys);
  mark_transparent_addresses_exposed l w := (Ret tt, w) |}.

Definition toy_account : ZewifAccount unit :=
  {| name := "legacy"; key_source := Some (Derived {| seed_fingerprint := "raw"; account_index := ZCASHD_LEGACY_ACCOUNT_INDEX;
       legacy_address_index := None |}); birthday_height := None; birthday_chain_state := None;
     recover_until_height := None; account_addresses := [TransparentAddr false (Some (replicate 33 Byte.x02))];
     account_rest := tt |}.

Definition toy_document : Document :=
  {| export_height := 1000; export_height_block_hash := [];
     wallets := [{| wallet_network := ZTestnet; wallet_accounts := [toy_account]; address_book := [];
                    wallet_extensions := tt |}];
     transactions := [(1, {| block_position := Some [Byte.x01]; expiry_height := None |});
                      (2, {| block_position := Some [Byte.x02]; expiry_height := None |})];
     secrets := Some (Plain {| seeds := [{| fingerprint := "fp21"; material := Bip39Mnemonic 10 None |}];
       transparent_key_entries := []; sapling_key_entries := []; sprout_keys := [tt]; unified_keys := [] |});
     extensions := tt |}.

Definition toy_block_height (_ : unit) (b : @BlockHash toy_types) : outcome ChainError (option Z) :=
  Ret (if bool_decide (b = ([Byte.x01] : list Byte.byte)) then Some 700 else None).

Definition toy_prepare (db : list Z) :=
  prepare toy_block_height (fun _ _ => Ret toy_document) Test (Some 500) (Some (Ret tt)) ZTestnet false false db.

Definition toy_run :=
  migrate_zcashd_wallet toy_block_height (fun _ _ => Ret toy_document) (fun _ w => (Ret [("legacy"%string, 21)], w ++ [21]))
    Test tt (Some 500) (Ret tt) (Some (Ret tt)) ZTestnet false false
    {| keystore_db := example_database; wallet_db := [] |}.

Lemma toy_sealed : sealed (matching := example_matching) [11] example_database.
Proof. split_and!; [exact example_well_formed|..]; intros ? ? Hin; by apply not_elem_of_nil in Hin. Defined.

(** The migration stores the mnemonic and imports the account and its watch-only key. *)
Lemma secrets_stored_before_accounts_witness :
  toy_run.1 = Ret tt /\ wallet_db toy_run.2 = [21; 33] /\
  exists seed, decrypt_seed [11] 21 (keystore_db toy_run.2) = (Ret seed, keystore_db toy_run.2).
Proof.
  assert (toy_run.1 = Ret tt) as Hr by (vm_compute; reflexivity). split; [exact Hr|].
  split; [vm_compute; reflexivity|].
  pose proof (secrets_stored_before_accounts toy_block_height (fun _ _ => Ret toy_document)
    (fun _ w => (Ret [("legacy"%string, 21)], w ++ [21])) Test tt (Some 500) [11] (Ret tt) (Some (Ret tt)) ZTestnet false false
    {| keystore_db := example_database; wallet_db := [] |} toy_sealed) as Hs.
  fold toy_run in Hs. destruct toy_run as [r w']. destruct Hs as (_ & _ & Hs).
  destruct (Hs (or_introl Hr)) as (document & rest & Hp & Hstore). 
  assert (toy_prepare [] = Ret (document, rest)) as Hp' by exact Hp.
  assert (match toy_prepare [] with Ret (d, _) => secrets d = secrets toy_document | _ => False end) as Hd
    by (vm_compute; reflexivity).
  rewrite Hp' in Hd. destruct (Hstore _ Hd) as [_ Hread].
  destruct (Hread _ 10 None (list_elem_of_here _ _) eq_refl) as (fp & seed & Hfp & Hdec & _).
  injection Hfp as <-. by exists seed.
Defined.

(** The birthday is the block of the transaction on the chain, not that of the
    other one, and not the tip; an earlier import refuses the wallet. *)
Lemma prepare_correct_witness :
  (exists p, toy_prepare [] = Ret p /\ option_map zcs_height p.2.1.1 = Some 699 /\ 500 <= 700) /\
  toy_prepare [21] = Err MultiImportDisabled.
Proof.
  split; [|vm_compute; reflexivity].
  assert (match toy_prepare [] with
          | Ret (_, (state, _, act)) => option_map zcs_height state = Some 699 /\ act = 500
          | _ => False
          end) as Hv by (vm_compute; split; reflexivity).
  destruct (toy_prepare []) as [[document [[state estimate] act]]|e|] eqn:Hp; [|destruct Hv..].
  destruct (prepare_correct (CT := toy_types) toy_block_height (fun _ _ => Ret toy_document) Test (Some 500)
    _ _ _ _ _ _ _ _ _ Hp) as (_ & Hact & v & ct & source & store & fp & ru & _).
  destruct Hv as [Hh ->]. eexists. split; [reflexivity|]. split; [exact Hh|lia].
Defined.
End example.
