(* ===== verification/Zaino.v ===== *)
(** The zaino backend's view of the chain
    (src/zallet/src/components/chain/zaino.rs).

    A view holds a snapshot of zaino's index, from which every read is made; the
    index and the decoders of the crates are [ZainoOps], and [ZainoLaws] is what
    zaino documents. A [Result] of a crate is a sum. The theorems show that the
    reads are those of one chain, as [ChainView] documents, and where they are
    not: the fork point need not be an entry of the locator, and a transaction of
    an orphaned block has a height. *)

From S2P Require Import Prelude Rpc Network Chain.

#[local] Abbreviation bytes := (list Byte.byte).

(** [zaino_state::chain_index::types]. *)
Inductive BestChainLocation `{ChainTypes} := BestBlock (hash : BlockHash) (height : Z) | BestMempool (height : Z).
Inductive NonBestChainLocation `{ChainTypes} := OrphanBlock (hash : BlockHash) (height : Z) | OrphanMempool (height : Z).

Inductive StatusType := Offline | CriticalError | Closing | OtherStatus.

Class ZainoOps `{ChainTypes} := {
  (** The subscriber, the snapshot and the parameters of a view. *)
  Snapshot : Type;
  Branch : Type;
  SaplingTree : Type;
  OrchardTree : Type;
  TAddr : Type;
  (** The height a [zaino_state::Height] can hold at most. *)
  ZAINO_HEIGHT_MAX : Z;
  best_chaintip : Snapshot -> string + BlockHash * Z;
  fork_point : Snapshot -> BlockHash -> string + option (BlockHash * Z);
  get_block_hash : Snapshot -> Z -> string + option BlockHash;
  get_block_height : Snapshot -> BlockHash -> string + option Z;
  get_treestate : Snapshot -> BlockHash -> string + option bytes * option bytes;
  (** The blocks between two heights, both included. *)
  get_block_range : Snapshot -> Z -> option Z -> option (list (string + bytes));
  mempool_stream : Snapshot -> option (list (string + bytes));
  raw_transaction : Snapshot -> TxId -> string + option (bytes * option Z);
  transaction_status : Snapshot -> TxId -> string + option BestChainLocation * list NonBestChainLocation;
  address_utxos : Snapshot -> list string -> string + list (TxId * Z);
  address_txids : Snapshot -> list string -> Z -> Z -> string + list TxId;
  encode_address : Snapshot -> TAddr -> string;
  read_sapling_tree : bytes -> string + SaplingTree;
  read_orchard_tree : bytes -> string + OrchardTree;
  empty_sapling_tree : SaplingTree;
  empty_orchard_tree : OrchardTree;
  new_chain_state : Z -> BlockHash -> SaplingTree -> OrchardTree -> ChainState;
  header_read : bytes -> string + BlockHeader;
  block_read : Snapshot -> bytes -> string + Block;
  header_time : BlockHeader -> Z;
  branch_try_from : Z -> string + Branch;
  branch_for_height : Snapshot -> Z -> Branch;
  transaction_read : bytes -> Branch -> string + Transaction;
  (** The validator's connection and the shielded pools' subtree roots. *)
  transaction_write : Transaction -> string + bytes;
  send_raw_transaction : string -> string + unit;
  hex_encode : bytes -> string;
  get_subtree_roots : Snapshot -> string + list (bytes * Z)
}.

(** [result.map_err(f)?]. *)
Definition try_ {E F A} (f : E -> F) (r : E + A) : outcome F A :=
  match r with inl e => Err (f e) | inr a => Ret a end.

(** [str::contains]. *)
Definition contains (pattern s : string) : bool :=
  match String.index 0 pattern s with Some _ => true | None => false end.

Definition block_fetch_error (e : string) : ChainError :=
  if contains "block height not in best chain" e then Unavailable e else Backend e.

Section zaino.
Context `{ZainoOps} `{HeightOps}.

Definition to_zaino_height {E} (h : Z) : outcome E Z :=
  if (0 <=? h) && (h <=? ZAINO_HEIGHT_MAX) then Ret h else Panic.

Definition from_zaino (b : BlockHash * Z) : ChainBlock := {| height := b.2; hash := b.1 |}.

Definition zaino_tip (v : Snapshot) : outcome ChainError ChainBlock :=
  best_tip ← try_ backend (best_chaintip v);
  Ret (from_zaino best_tip).

Fixpoint zaino_find_fork_point (v : Snapshot) (locator : BlockLocator) : outcome ChainError (option ChainBlock) :=
  match locator with
  | [] => Ret None
  | known_tip :: locator =>
      fork ← try_ backend (fork_point v known_tip);
      match fork with
      | Some fork => Ret (Some (from_zaino fork))
      | None => zaino_find_fork_point v locator
      end
  end.

Definition tree_or_empty {T} (empty : T) (read : bytes -> string + T) (treestate : option bytes) : outcome ChainError T :=
  match treestate with
  | None => Ret empty
  | Some tree_bytes => try_ backend (read tree_bytes)
  end.

Definition zaino_tree_state_as_of (v : Snapshot) (height : Z) : outcome ChainError (option ChainState) :=
  zaino_height ← to_zaino_height height;
  block_hash ← try_ backend (get_block_hash v zaino_height);
  match block_hash with
  | Some hash =>
      '(sapling_treestate, orchard_treestate) ← try_ backend (get_treestate v hash);
      final_sapling_tree ← tree_or_empty empty_sapling_tree read_sapling_tree sapling_treestate;
      final_orchard_tree ← tree_or_empty empty_orchard_tree read_orchard_tree orchard_treestate;
      Ret (Some (new_chain_state height hash final_sapling_tree final_orchard_tree))
  | None => Ret None
  end.

Definition get_block_inner {T} (v : Snapshot) (height : Z) (f : bytes -> outcome ChainError T) :
    outcome ChainError (option T) :=
  height ← to_zaino_height height;
  match get_block_range v height (Some height) with
  | Some [] | None => Ret None
  | Some (ret :: _) =>
      block_bytes ← try_ block_fetch_error ret;
      Some <$> f block_bytes
  end.

Definition zaino_get_block_header (v : Snapshot) (height : Z) : outcome ChainError (option BlockHeader) :=
  get_block_inner v height (fun block_bytes => try_ backend (header_read block_bytes)).

Definition zaino_get_block (v : Snapshot) (height : Z) : outcome ChainError (option Block) :=
  get_block_inner v height (fun block_bytes => try_ backend (block_read v block_bytes)).

Definition read_item (v : Snapshot) (res : string + bytes) : ChainError + Block :=
  match res with
  | inl e => inl (block_fetch_error e)
  | inr block_bytes => match block_read v block_bytes with inl e => inl (invalid_data e) | inr b => inr b end
  end.

(** What a reader that stops at an error sees of a stream of results. *)
Fixpoint read_stream (l : list (ChainError + Block)) : stream :=
  match l with
  | [] => {| items := []; failure := None |}
  | inl e :: _ => {| items := []; failure := Some e |}
  | inr b :: l => let s := read_stream l in {| items := b :: items s; failure := failure s |}
  end.

Definition stream_blocks_inner (v : Snapshot) (start : Z) (end_ : option Z) : outcome ChainError stream :=
  start ← to_zaino_height start;
  end_ ← match end_ with Some e => Some <$> to_zaino_height e | None => Ret None end;
  Ret (match get_block_range v start end_ with
       | Some blocks => read_stream (read_item v <$> blocks)
       | None => {| items := []; failure := None |}
       end).

Definition zaino_stream_blocks_to_tip (v : Snapshot) (start : Z) : outcome ChainError stream :=
  stream_blocks_inner v start None.

Definition zaino_stream_blocks (v : Snapshot) (range : Z * Z) : outcome ChainError stream :=
  stream_blocks_inner v range.1 (Some (height_sub range.2 1)).

(** The transactions that arrive and can be read. *)
Definition zaino_get_mempool_stream (v : Snapshot) : outcome ChainError (option (list Transaction)) :=
  t ← zaino_tip v;
  let mempool_height := height_add (height t) 1 in
  let consensus_branch_id := branch_for_height v mempool_height in
  Ret (option_map
    (omap (fun result : string + bytes =>
       match result with
       | inl _ => None
       | inr raw_tx => match transaction_read raw_tx consensus_branch_id with inl _ => None | inr tx => Some tx end
       end))
    (mempool_stream v)).

Definition consensus_branch (v : Snapshot) (branch_id : option Z) : outcome ChainError Branch :=
  match branch_id with
  | Some id => try_ backend (branch_try_from id)
  | None =>
      t ← zaino_tip v;
      Ret (branch_for_height v (height_add (height t) 1))
  end.

(** The block, the height, and whether the block is in the best chain. *)
Definition transaction_location (status : option BestChainLocation * list NonBestChainLocation) :
    option BlockHash * option Z * bool :=
  match status with
  | (Some (BestBlock hash height), _) => (Some hash, Some height, true)
  | (Some (BestMempool _), _) => (None, None, false)
  | (None, orphans) =>
      match orphans with
      | OrphanBlock hash height :: _ => (Some hash, Some height, false)
      | OrphanMempool _ :: _ | [] => (None, None, false)
      end
  end.

Definition zaino_get_transaction (v : Snapshot) (txid : TxId) : outcome ChainError (option ChainTx) :=
  found ← try_ backend (raw_transaction v txid);
  match found with
  | None => Ret None
  | Some (raw_tx, branch_id) =>
      consensus_branch_id ← consensus_branch v branch_id;
      tx ← try_ backend (transaction_read raw_tx consensus_branch_id);
      status ← try_ backend (transaction_status v txid);
      let '(block_hash, mined_height, in_best_chain) := transaction_location status in
      block_time ← match in_best_chain, mined_height with
        | true, Some height =>
            header ← zaino_get_block_header v height;
            Ret (option_map header_time header)
        | _, _ => Ret None
        end;
      Ret (Some {| inner := tx; raw := raw_tx; block_hash := block_hash; mined_height := mined_height;
                   block_time := block_time |})
  end.

Definition zaino_get_transaction_status (v : Snapshot) (txid : TxId) : outcome ChainError TransactionStatus :=
  status ← try_ backend (transaction_status v txid);
  Ret (match status with
       | (Some (BestBlock _ height), _) => Mined height
       | (Some (BestMempool _), _) => NotInMainChain
       | (None, []) => TxidNotRecognized
       | (None, _) => NotInMainChain
       end).

Definition get_address_unspent_outpoints (v : Snapshot) (address : TAddr) : outcome ChainError (list (TxId * Z)) :=
  try_ backend (address_utxos v [encode_address v address]).

Definition get_address_tx_ids (v : Snapshot) (address : TAddr) (range : Z * Z) : outcome ChainError (list TxId) :=
  if negb (range.1 <? range.2) then Ret []
  else
    end_inclusive ← u32 (range.2 - 1);
    try_ backend (address_txids v [encode_address v address] range.1 end_inclusive).

Definition zaino_block_height (v : Snapshot) (hash : BlockHash) : outcome ChainError (option Z) :=
  try_ backend (get_block_height v hash).
End zaino.

(** ** The chain *)

Section chain.
Context `{ZainoOps}.

Definition broadcast_transaction (tx : Transaction) : outcome ChainError unit :=
  tx_bytes ← try_ backend (transaction_write tx);
  try_ backend (send_raw_transaction (hex_encode tx_bytes)).

(** The roots of the subtrees of a pool; [from_bytes] decodes its nodes. *)
Definition get_pool_subtree_roots {Node} (from_bytes : bytes -> option Node) (v : Snapshot) :
    outcome ChainError (list (Z * Node)) :=
  roots ← try_ backend (get_subtree_roots v);
  traverse (fun '(root_hash, end_height) =>
    node ← expect (from_bytes root_hash);
    Ret (end_height, node)) roots.

(** The address of the validator in [ZainoChain::new], with [lookup_host] and
    the parser of socket addresses. *)
Definition resolve_validator_address {SocketAddr} (lookup_host : string -> string + list SocketAddr)
    (parse : string -> string + SocketAddr) (network : NetworkType) (validator_address : option string) :
    outcome message SocketAddr :=
  match validator_address with
  | Some addr_str =>
      match lookup_host addr_str with
      | inr (socket_addr :: _) => Ret socket_addr
      | inr [] => Err (Text ("validator_address '" +:+ addr_str +:+ "' resolved to no IP addresses"))
      | inl e => Err (Text ("Failed to resolve validator_address '" +:+ addr_str +:+ "': " +:+ e))
      end
  | None =>
      let default_port := match network with Main => "8232" | _ => "18232" end in
      let default_addr_str := "127.0.0.1:" +:+ default_port in
      try_ (fun e => Text ("Failed to parse default validator_address '" +:+ default_addr_str +:+ "': " +:+ e))
        (parse default_addr_str)
  end.

(** One tick of the task that ends with the indexer: its result, if it ends. *)
Definition indexer_tick (shutdown : string + unit) (status : StatusType) : option (outcome message unit) :=
  match status with
  | Offline | CriticalError =>
      Some (_ ← try_ Text shutdown; Err (Fl "err-kind-generic" []))
  | Closing => Some (Ret tt)
  | OtherStatus => None
  end.
End chain.

(** ** What zaino promises *)

Class ZainoLaws `{ZainoOps} := {
  (** The hashes of a snapshot's best chain, its height; the parents of blocks;
      the encoding of a block. *)
  best : Snapshot -> Z -> option BlockHash;
  tip_height : Snapshot -> Z;
  parent : BlockHash -> BlockHash;
  encodes : bytes -> BlockHash -> Prop;
  (** The note commitment trees after a block of a best chain. *)
  sapling_tree : BlockHash -> SaplingTree;
  orchard_tree : BlockHash -> OrchardTree;
  max_in_range : 0 <= ZAINO_HEIGHT_MAX < u32_max;
  tip_in_range : forall v, 0 <= tip_height v <= ZAINO_HEIGHT_MAX;
  best_spec : forall v h, is_Some (best v h) <-> 0 <= h <= tip_height v;
  best_chaintip_spec : forall v b, best_chaintip v = inr b -> b.2 = tip_height v /\ best v b.2 = Some b.1;
  get_block_hash_spec : forall v h o, get_block_hash v h = inr o -> o = best v h;
  get_block_height_spec : forall v x o, get_block_height v x = inr o ->
    match o with Some h => best v h = Some x | None => forall h, best v h <> Some x end;
  (** The serialized trees of a block; none for a pool that is not active there,
      whose tree is empty. *)
  treestate_spec : forall v h x s o, best v h = Some x -> get_treestate v x = inr (s, o) ->
    match s with Some raw => forall t, read_sapling_tree raw = inr t -> t = sapling_tree x
               | None => sapling_tree x = empty_sapling_tree end /\
    match o with Some raw => forall t, read_orchard_tree raw = inr t -> t = orchard_tree x
               | None => orchard_tree x = empty_orchard_tree end;
  (** The newest ancestor of a block on the best chain, or the block itself. *)
  fork_point_Some : forall v x b, fork_point v x = inr (Some b) -> best v b.2 = Some b.1 /\
    exists n, b.1 = Nat.iter n parent x /\ forall m h, (m < n)%nat -> best v h <> Some (Nat.iter m parent x);
  fork_point_None : forall v x h, fork_point v x = inr None -> best v h <> Some x;
  (** The blocks from the first height to the last, or to the tip; [None] when
      the first is above the tip. *)
  range_items : forall v s e l i raw, get_block_range v s e = Some l -> l !! i = Some (inr raw) ->
    exists x, best v (s + Z.of_nat i) = Some x /\ encodes raw x;
  range_complete : forall v s e l, get_block_range v s e = Some l -> Forall (fun r => exists raw, r = inr raw) l ->
    Z.of_nat (length l) = Z.max 0 (Z.min (default (tip_height v) e) (tip_height v) + 1 - s);
  range_bound : forall v s e l, get_block_range v s (Some e) = Some l -> Z.of_nat (length l) <= Z.max 0 (e + 1 - s);
  range_None : forall v s e, get_block_range v s e = None -> tip_height v < s;
  header_read_spec : forall raw x hd, encodes raw x -> header_read raw = inr hd -> header_hash hd = x;
  block_read_spec : forall v raw x h b, encodes raw x -> best v h = Some x -> block_read v raw = inr b ->
    header_hash (block_header b) = x /\ claimed_height b = h;
  status_best : forall v t x h l, transaction_status v t = inr (Some (BestBlock x h), l) -> best v h = Some x;
  status_orphan : forall v t o l x h, transaction_status v t = inr (o, l) -> OrphanBlock x h ∈ l -> best v h <> Some x
}.

(** ** Theorems *)

Section zaino_proofs.
Context `{ZL : ZainoLaws} `{HL : HeightLaws}.

Definition on_chain (v : Snapshot) (x : BlockHash) : Prop := exists h, best v h = Some x.

(** The first of a block and its ancestors that is on the chain. *)
Definition newest_ancestor (v : Snapshot) (x y : BlockHash) : Prop :=
  exists n, y = Nat.iter n parent x /\ on_chain v y /\ forall m, (m < n)%nat -> ~ on_chain v (Nat.iter m parent x).

Lemma try_Ret {E F A} (f : E -> F) (r : E + A) a : try_ f r = Ret a <-> r = inr a.
Proof. destruct r; cbn; naive_solver. Qed.

Lemma try_not_Panic {E F A} (f : E -> F) (r : E + A) : try_ f r <> Panic.
Proof. by destruct r. Qed.

Lemma to_zaino_height_Ret {E} h h' : to_zaino_height (E := E) h = Ret h' <-> h' = h /\ 0 <= h <= ZAINO_HEIGHT_MAX.
Proof.
  unfold to_zaino_height. destruct (Z.leb_spec 0 h), (Z.leb_spec h ZAINO_HEIGHT_MAX); cbn [andb];
    split; try done; try lia; [by intros [= <-]|by intros [-> _]].
Qed.

Lemma to_zaino_height_in {E} h : 0 <= h <= ZAINO_HEIGHT_MAX -> to_zaino_height (E := E) h = Ret h.
Proof. intros Hh. by apply to_zaino_height_Ret. Qed.

Lemma best_None v h : 0 <= h -> best v h = None <-> tip_height v < h.
Proof.
  intros Hh. rewrite eq_None_not_Some, best_spec. lia.
Qed.

Lemma newest_ancestor_self v x y : newest_ancestor v x y -> on_chain v x -> y = x.
Proof. intros ([|n] & -> & _ & Hn) Hx; [done|]. by destruct (Hn 0%nat ltac:(lia)). Qed.

Lemma find_fork_point_spec v l o :
  zaino_find_fork_point v l = Ret o ->
  match o with
  | Some b => best v (height b) = Some (hash b) /\
      exists l1 e l2, l = l1 ++ e :: l2 /\ (forall x, x ∈ l1 -> ~ on_chain v x) /\ newest_ancestor v e (hash b)
  | None => forall x, x ∈ l -> ~ on_chain v x
  end.
Proof.
  induction l as [|e l IH]; cbn [zaino_find_fork_point].
  - intros [= <-] x Hx. by apply not_elem_of_nil in Hx.
  - intros (fork & Hf%try_Ret & Hr)%bind_Ret. destruct fork as [b|].
    + injection Hr as <-. apply fork_point_Some in Hf as (Hb & n & Hn & Hmin). cbn. split; [done|].
      exists [], e, l. split; [done|]. split; [by intros x Hx; apply not_elem_of_nil in Hx|].
      exists n. split; [done|]. split; [by exists b.2|]. intros m Hm [h Hh]. by eapply Hmin.
    + assert (~ on_chain v e) as He by (intros [h Hh]; by eapply fork_point_None in Hf).
      specialize (IH Hr). destruct o as [b|].
      * destruct IH as (Hb & l1 & e' & l2 & -> & Hl1 & Hnew). split; [done|]. exists (e :: l1), e', l2.
        split; [done|]. split; [|done]. by intros x [-> |Hx]%elem_of_cons; [|apply Hl1].
      * by intros x [-> |Hx]%elem_of_cons; [|apply IH].
Qed.

Lemma tree_or_empty_spec {T} (empty t' : T) read o t :
  match o with Some raw => forall t, read raw = inr t -> t = t' | None => t' = empty end ->
  tree_or_empty empty read o = Ret t -> t = t'.
Proof. destruct o as [raw|]; cbn; [intros Hr Ht%try_Ret; by apply Hr|by intros -> [= <-]]. Qed.

Lemma tree_state_spec v h o :
  zaino_tree_state_as_of v h = Ret o ->
  match o with
  | Some c => exists x, best v h = Some x /\ c = new_chain_state h x (sapling_tree x) (orchard_tree x)
  | None => tip_height v < h
  end.
Proof.
  unfold zaino_tree_state_as_of. intros (k & [-> Hh]%to_zaino_height_Ret & Hr)%bind_Ret.
  apply bind_Ret in Hr as (x & Hx%try_Ret%get_block_hash_spec & Hr). destruct x as [x|].
  - apply bind_Ret in Hr as ([s ot] & Ht%try_Ret & Hr). apply bind_Ret in Hr as (st & Hst & Hr).
    apply bind_Ret in Hr as (ot' & Hot & [= <-]). destruct (treestate_spec v h x s ot (eq_sym Hx) Ht) as [Hs Ho].
    exists x. split; [done|]. f_equal; by eapply tree_or_empty_spec.
  - injection Hr as <-. apply best_None; [lia|done].
Qed.

(** A single block is read from the encoding of the block at its height. *)
Lemma get_block_inner_spec {T} v h (f : bytes -> outcome ChainError T) o :
  get_block_inner v h f = Ret o ->
  0 <= h /\
  match o with
  | Some t => exists x raw, best v h = Some x /\ encodes raw x /\ f raw = Ret t
  | None => best v h = None
  end.
Proof.
  unfold get_block_inner. intros (k & [-> Hh]%to_zaino_height_Ret & Hr)%bind_Ret. split; [lia|].
  destruct (get_block_range v h (Some h)) as [[|item l]|] eqn:Hg.
  - injection Hr as <-. apply best_None; [lia|]. apply range_complete in Hg; [|done]. cbn in Hg. lia.
  - apply bind_Ret in Hr as (raw & Hraw%try_Ret & Hr). subst item. apply fmap_Ret in Hr as (t & Hf & Ho). subst o.
    destruct (range_items v h (Some h) _ 0 raw Hg eq_refl) as (x & Hx & He). rewrite Z.add_0_r in Hx. by exists x, raw.
  - injection Hr as <-. apply best_None; [lia|]. by eapply range_None.
Qed.

Lemma get_block_header_spec v h o :
  zaino_get_block_header v h = Ret o -> option_map header_hash o = best v h.
Proof.
  intros [_ Ho]%get_block_inner_spec. destruct o as [hd|]; cbn; [|done]. destruct Ho as (x & raw & -> & He & Hf%try_Ret).
  by rewrite (header_read_spec raw x hd).
Qed.

Lemma get_block_spec v h o :
  zaino_get_block v h = Ret o ->
  match o with
  | Some b => claimed_height b = h /\ best v h = Some (header_hash (block_header b))
  | None => tip_height v < h
  end.
Proof.
  intros [Hh Ho]%get_block_inner_spec. destruct o as [b|]; [|by apply best_None].
  destruct Ho as (x & raw & Hx & He & Hf%try_Ret). by destruct (block_read_spec v raw x h b He Hx Hf) as [<- ?].
Qed.

(** The blocks of a stream follow the chain; if nothing fails, all are read. *)
Lemma read_stream_spec v s (l : list (string + bytes)) :
  (forall i raw, l !! i = Some (inr raw) -> exists x, best v (s + Z.of_nat i) = Some x /\ encodes raw x) ->
  let st := read_stream (read_item v <$> l) in
  follows (best v) s (items st) /\ (length (items st) <= length l)%nat /\
  (failure st = None -> length (items st) = length l /\ Forall (fun r => exists raw, r = inr raw) l).
Proof.
  cbn zeta. revert s. induction l as [|r l IH]; intros s Hl; cbn [fmap list_fmap read_stream]; [by split_and!|].
  destruct r as [e|raw]; cbn [read_item]; [split_and!; [done|cbn; lia|done]|].
  destruct (block_read v raw) as [e|b] eqn:Hb; cbn [read_stream]; [split_and!; [done|cbn; lia|done]|].
  destruct (IH (s + 1)) as (Hf & Hlen & Hc).
  { intros i raw' Hi. destruct (Hl (S i) raw' Hi) as (x & Hx & He). exists x. split; [|done].
    by replace (s + 1 + Z.of_nat i) with (s + Z.of_nat (S i)) by lia. }
  destruct (Hl 0%nat raw eq_refl) as (x & Hx & He). rewrite Z.add_0_r in Hx.
  destruct (block_read_spec v raw x s b He Hx Hb) as [Hhash Hheight]. cbn [items failure follows length]. split_and!.
  - done.
  - by rewrite Hhash.
  - done.
  - cbn. lia.
  - intros Hfail. destruct (Hc Hfail) as [-> Hall]. split; [done|]. constructor; [by exists raw|done].
Qed.

Lemma stream_spec v s e st :
  stream_blocks_inner v s e = Ret st ->
  follows (best v) s (items st) /\
  (forall e', e = Some e' -> Z.of_nat (length (items st)) <= Z.max 0 (e' + 1 - s)) /\
  (failure st = None ->
     Z.of_nat (length (items st)) = Z.max 0 (Z.min (default (tip_height v) e) (tip_height v) + 1 - s)).
Proof.
  unfold stream_blocks_inner. intros (k & [-> Hs]%to_zaino_height_Ret & Hr)%bind_Ret.
  apply bind_Ret in Hr as (e1 & He & [= <-]).
  assert (e1 = e) as ->.
  { destruct e; [|by injection He]. apply fmap_Ret in He as (k & [-> _]%to_zaino_height_Ret & ->). done. }
  destruct (get_block_range v s e) as [l|] eqn:Hg.
  - destruct (read_stream_spec v s l) as (Hf & Hlen & Hc); [intros i raw; by eapply range_items|].
    split; [done|]. split.
    + intros e' ->. pose proof (range_bound v s e' l Hg). lia.
    + intros Hfail. destruct (Hc Hfail) as [-> Hall]. by apply range_complete.
  - apply range_None in Hg. cbn. split_and!; [done|lia|]. intros _. lia.
Qed.

(** *** Transactions *)

Lemma transaction_status_spec v t s :
  zaino_get_transaction_status v t = Ret s ->
  exists status, transaction_status v t = inr status /\
    match s with
    | Mined h => exists x, best v h = Some x /\ transaction_location status = (Some x, Some h, true)
    | NotInMainChain => (transaction_location status).2 = false
    | TxidNotRecognized => status = (None, [])
    end.
Proof.
  intros (status & Hs%try_Ret & Hr)%bind_Ret. exists status. split; [done|]. injection Hr as <-.
  destruct status as [[[x h|h]|] l] eqn:E.
  - exists x. split; [|done]. by eapply status_best.
  - done.
  - destruct l as [|[x h|h] l]; done.
Qed.

Lemma transaction_location_spec v t status x h in_best_chain :
  transaction_status v t = inr status -> transaction_location status = (Some x, Some h, in_best_chain) ->
  if in_best_chain then best v h = Some x else best v h <> Some x.
Proof.
  destruct status as [[[y k|k]|] l]; cbn.
  - intros Hs [= <- <- <-]. by eapply status_best.
  - done.
  - destruct l as [|[y k|k] l]; [done| |done]. intros Hs [= <- <- <-]. eapply status_orphan; [exact Hs|left].
Qed.

(** What a transaction says of its block: of a block on the chain, the hash, the
    height and the time; of an orphaned one, its hash and its height only. *)
Lemma get_transaction_spec v t tx :
  zaino_get_transaction v t = Ret (Some tx) ->
  exists status in_best_chain, transaction_status v t = inr status /\
    transaction_location status = (block_hash tx, mined_height tx, in_best_chain) /\
    (block_time tx = None \/ in_best_chain = true) /\
    forall x h, block_hash tx = Some x -> mined_height tx = Some h ->
      if in_best_chain : bool
      then best v h = Some x /\ exists hd, header_hash hd = x /\ block_time tx = Some (header_time hd)
      else best v h <> Some x.
Proof.
  unfold zaino_get_transaction. intros (found & _ & Hr)%bind_Ret. destruct found as [[raw_tx branch_id]|]; [|done].
  apply bind_Ret in Hr as (br & _ & Hr). apply bind_Ret in Hr as (itx & _ & Hr).
  apply bind_Ret in Hr as (status & Hs%try_Ret & Hr).
  destruct (transaction_location status) as [[bh mh] inb] eqn:Hl. apply bind_Ret in Hr as (time & Ht & [= <-]).
  exists status, inb. cbn. split; [done|]. split; [done|]. split.
  { destruct inb; [by right|]. left. by injection Ht. }
  intros x h -> ->. pose proof (transaction_location_spec v t status x h inb Hs Hl) as Hb.
  destruct inb; [|done]. split; [done|]. apply bind_Ret in Ht as (hd & Hhd%get_block_header_spec & [= <-]).
  rewrite Hb in Hhd. destruct hd as [hd|]; [|done]. exists hd. split; [by injection Hhd|done].
Qed.

(** *** No panics *)

Lemma get_block_inner_not_Panic {T} v h (f : bytes -> outcome ChainError T) :
  0 <= h <= ZAINO_HEIGHT_MAX -> (forall raw, f raw <> Panic) -> get_block_inner v h f <> Panic.
Proof.
  intros Hh Hf. unfold get_block_inner. rewrite to_zaino_height_in by done. cbn.
  destruct (get_block_range v h (Some h)) as [[|[e|raw] l]|]; cbn; [done..| |done].
  specialize (Hf raw). by destruct (f raw).
Qed.

Lemma find_fork_point_not_Panic v l : zaino_find_fork_point v l <> Panic.
Proof.
  induction l as [|x l IH]; [done|]. cbn [zaino_find_fork_point]. destruct (fork_point v x) as [e|[b|]]; [done..|exact IH].
Qed.

Lemma tree_state_not_Panic v h : 0 <= h <= ZAINO_HEIGHT_MAX -> zaino_tree_state_as_of v h <> Panic.
Proof.
  intros Hh. unfold zaino_tree_state_as_of. rewrite to_zaino_height_in by done. cbn.
  destruct (get_block_hash v h) as [|[x|]]; [done| |done]. cbn. destruct (get_treestate v x) as [|[s o]]; [done|].
  cbn. unfold tree_or_empty. destruct s as [b|]; [destruct (read_sapling_tree b); [done|]|];
    (destruct o as [b'|]; [by destruct (read_orchard_tree b')|done]).
Qed.

Lemma stream_not_Panic v s e :
  0 <= s <= ZAINO_HEIGHT_MAX -> (forall e', e = Some e' -> 0 <= e' <= ZAINO_HEIGHT_MAX) ->
  stream_blocks_inner v s e <> Panic.
Proof.
  intros Hs He. unfold stream_blocks_inner. rewrite to_zaino_height_in by done. cbn. destruct e as [e|]; [|done].
  by rewrite to_zaino_height_in by (by apply He).
Qed.

Lemma get_transaction_not_Panic v t : zaino_get_transaction v t <> Panic.
Proof.
  unfold zaino_get_transaction. destruct (raw_transaction v t) as [|[[raw b]|]]; [done| |done]. cbn.
  apply bind_not_Panic.
  { unfold consensus_branch. destruct b as [b|]; [apply try_not_Panic|].
    apply bind_not_Panic; [|done]. apply bind_not_Panic; [apply try_not_Panic|done]. }
  intros br _. apply bind_not_Panic; [apply try_not_Panic|]. intros tx _.
  destruct (transaction_status v t) as [|status] eqn:Hs; [done|]. cbn [try_ mbind outcome_bind].
  destruct (transaction_location status) as [[bh mh] inb] eqn:Hl. apply bind_not_Panic; [|done].
  destruct inb, mh as [h|]; try done. apply bind_not_Panic; [|done].
  assert (exists x, bh = Some x) as [x ->].
  { destruct status as [[[y k|k]|] [|[y' k'|k'] l]]; cbn in Hl; try done; injection Hl as <- <-; by eexists. }
  pose proof (transaction_location_spec v t status x h true Hs Hl) as Hb. cbn in Hb.
  apply get_block_inner_not_Panic; [|intros raw'; apply try_not_Panic].
  pose proof (proj1 (best_spec v h) (ex_intro _ x Hb)). pose proof (tip_in_range v). lia.
Qed.

(** C20. Reads of a view are those of one chain: the tip, headers, blocks,
    tree states (a block's height, hash, and the Sapling and Orchard note
    commitment trees after it) and streams, complete when nothing fails, and
    nothing above the tip. The fork point is on the chain, the newest ancestor
    of the first locator entry that has one, and that entry when it is on the
    chain. Heights that zaino can hold never panic. *)
Theorem zaino_reads_one_chain v :
  (forall b, zaino_tip v = Ret b -> height b = tip_height v /\ best v (height b) = Some (hash b)) /\
  (forall l o, zaino_find_fork_point v l = Ret o ->
     match o with
     | Some b => best v (height b) = Some (hash b) /\
         exists l1 e l2, l = l1 ++ e :: l2 /\ (forall x, x ∈ l1 -> ~ on_chain v x) /\
           newest_ancestor v e (hash b) /\ (on_chain v e -> hash b = e)
     | None => forall x, x ∈ l -> ~ on_chain v x
     end) /\
  (forall h o, zaino_tree_state_as_of v h = Ret o ->
     match o with
     | Some c => exists x, best v h = Some x /\ c = new_chain_state h x (sapling_tree x) (orchard_tree x)
     | None => tip_height v < h
     end) /\
  (forall h o, zaino_get_block_header v h = Ret o -> option_map header_hash o = best v h) /\
  (forall h o, zaino_get_block v h = Ret o ->
     match o with
     | Some b => claimed_height b = h /\ best v h = Some (header_hash (block_header b))
     | None => tip_height v < h
     end) /\
  (forall s st, zaino_stream_blocks_to_tip v s = Ret st ->
     follows (best v) s (items st) /\
     (failure st = None -> Z.of_nat (length (items st)) = Z.max 0 (tip_height v + 1 - s))) /\
  (forall s e st, 0 <= s < e -> zaino_stream_blocks v (s, e) = Ret st ->
     follows (best v) s (items st) /\ s + Z.of_nat (length (items st)) <= e /\
     (failure st = None -> Z.of_nat (length (items st)) = Z.max 0 (Z.min e (tip_height v + 1) - s))) /\
  (* Heights that zaino can hold never panic. *)
  (forall h, 0 <= h <= ZAINO_HEIGHT_MAX ->
     zaino_tree_state_as_of v h <> Panic /\ zaino_get_block_header v h <> Panic /\ zaino_get_block v h <> Panic /\
     zaino_stream_blocks_to_tip v h <> Panic /\ forall e, h < e <= ZAINO_HEIGHT_MAX + 1 -> zaino_stream_blocks v (h, e) <> Panic).
Proof.
  split_and!.
  - intros b (b' & Hb%try_Ret%best_chaintip_spec & [= <-])%bind_Ret. exact Hb.
  - intros l o Ho%find_fork_point_spec. destruct o as [b|]; [|done]. destruct Ho as (Hb & l1 & e & l2 & ? & ? & Hn).
    split; [done|]. exists l1, e, l2. split_and!; [done..|]. by apply (newest_ancestor_self v).
  - apply tree_state_spec.
  - apply get_block_header_spec.
  - apply get_block_spec.
  - intros s st (Hf & _ & Hc)%stream_spec. split; [done|]. intros Hfail. specialize (Hc Hfail). cbn in Hc. lia.
  - intros s e st Hse (Hf & Hb & Hc)%stream_spec. cbn [fst snd default from_option] in *.
    rewrite height_sub_spec in * by lia. split; [done|]. split.
    + specialize (Hb (e - 1) eq_refl). lia.
    + intros Hfail. specialize (Hc Hfail). unfold Datatypes.id in Hc. lia.
  - intros h Hh. split_and!.
    + by apply tree_state_not_Panic.
    + apply get_block_inner_not_Panic; [done|]. intros raw. apply try_not_Panic.
    + apply get_block_inner_not_Panic; [done|]. intros raw. apply try_not_Panic.
    + by apply stream_not_Panic.
    + intros e He. apply stream_not_Panic; [done|]. intros e'. cbn. rewrite height_sub_spec by lia. intros [= <-]. lia.
Qed.

(** Reading a transaction never panics and agrees with its status: a
    mined one has the hash, height and time of its block on the chain, one
    that is not in the main chain no time and no block of the chain, an
    unknown one none of them. *)
Theorem zaino_transaction_reads_agree v t :
  zaino_get_transaction v t <> Panic /\
  forall tx s, zaino_get_transaction v t = Ret (Some tx) -> zaino_get_transaction_status v t = Ret s ->
    match s with
    | Mined h => exists hd, mined_height tx = Some h /\ block_hash tx = Some (header_hash hd) /\
        best v h = Some (header_hash hd) /\ block_time tx = Some (header_time hd)
    | NotInMainChain => block_time tx = None /\
        forall x h, block_hash tx = Some x -> mined_height tx = Some h -> best v h <> Some x
    | TxidNotRecognized => block_time tx = None /\ block_hash tx = None /\ mined_height tx = None
    end.
Proof.
  split; [apply get_transaction_not_Panic|].
  intros tx s (status & inb & Hs & Hl & Ht & Hx)%get_transaction_spec (status' & Hs' & Hstat)%transaction_status_spec.
  assert (status' = status) as -> by congruence. destruct s as [| |h].
  - subst status. injection Hl as Hb Hm <-. destruct Ht; [|done]. done.
  - rewrite Hl in Hstat. cbn in Hstat. subst inb. split; [by destruct Ht|]. exact Hx.
  - destruct Hstat as (x & Hb & Hl'). rewrite Hl' in Hl. injection Hl as Hbh Hmh <-.
    destruct (Hx x h) as [_ (hd & Hhd & Ht')]; [done..|]. exists hd. by rewrite Hhd, <- Hbh.
Qed.

(** A range that is empty and ends at zero gives the genesis block. *)
Lemma empty_range_yields_genesis v st :
  zaino_stream_blocks v (0, 0) = Ret st -> failure st = None -> length (items st) = 1%nat.
Proof.
  intros (_ & _ & Hc)%stream_spec Hfail. specialize (Hc Hfail). cbn [fst snd default from_option] in Hc.
  pose proof (height_sub_range 0 1 ltac:(lia) ltac:(lia)) as Hr. pose proof (tip_in_range v).
  unfold Datatypes.id in Hc. lia.
Qed.
End zaino_proofs.

(** ** An example: a chain, and another one that leaves it at height 5 *)
Section example.
#[local] Instance toy_types : ChainTypes := {|
  BlockHash := Z * Z; BlockHeader := Z * Z; Block := Z * (Z * Z); Transaction := bytes; TxId := Z; ChainState := Z * (Z * Z) * (Z * Z);
  header_hash h := h; claimed_height := fst; block_header := snd |}.

#[local] Instance toy_heights : HeightOps :=
  {| height_add a b := Z.min u32_max (a + b); height_sub a b := Z.max 0 (a - b) |}.

#[local] Instance toy_heights_laws : HeightLaws.
Proof. split; unfold height_add, height_sub; cbn; intros; lia. Qed.

Definition toy_tip (v : Z) : Z := Z.max 0 (Z.min v 1000).
Definition toy_best (v h : Z) : option (Z * Z) := if (0 <=? h) && (h <=? toy_tip v) then Some (h, 0) else None.
Definition toy_parent (x : Z * Z) : Z * Z := (x.1 - 1, if x.1 - 1 <? 5 then 0 else x.2).
(** The trees of a block are as large as its height says; Sapling is active from 2, Orchard
    from 5. *)
Definition toy_raw (h : Z) : bytes := replicate (Z.to_nat h) Byte.x00.
Definition toy_sapling (x : Z * Z) : Z := if x.1 <? 2 then 0 else x.1.
Definition toy_orchard (x : Z * Z) : Z := if x.1 <? 5 then 0 else 2 * x.1.
Definition toy_tree (size : Z) : option bytes := if size <=? 0 then None else Some (toy_raw size).
Definition toy_read (raw : bytes) : Z * Z := (Z.of_nat (length raw), 0).

Fixpoint toy_fork (v : Z) (fuel : nat) (x : Z * Z) : option ((Z * Z) * Z) :=
  match fuel with
  | O => None
  | S fuel => if bool_decide (toy_best v x.1 = Some x) then Some (x, x.1) else toy_fork v fuel (toy_parent x)
  end.

Definition toy_range (v s : Z) (e : option Z) : option (list (string + bytes)) :=
  if toy_tip v <? s then None
  else if s <? 0 then Some (if default (toy_tip v) e <? s then [] else [inl "negative"%string])
  else Some ((fun h => inr (toy_raw h)) <$> seqZ s (Z.min (default (toy_tip v) e) (toy_tip v) + 1 - s)).

(** Transaction 1 is in the block at height 3, 2 in an orphaned block at height 7. *)
Definition toy_status (v t : Z) : option BestChainLocation * list NonBestChainLocation :=
  if t =? 1 then match toy_best v 3 with Some x => (Some (BestBlock x 3), []) | None => (None, []) end
  else if t =? 2 then (None, [OrphanBlock (7, 1) 7])
  else (None, []).

(** The fork point is looked for among so many ancestors; 1 is an index that retains no
    side chain. *)
Section index.
Context (depth : nat).

#[local] Instance toy_zaino : ZainoOps := {|
  Snapshot := Z; Branch := unit; SaplingTree := Z; OrchardTree := Z; TAddr := Z; ZAINO_HEIGHT_MAX := 1001;
  best_chaintip v := inr ((toy_tip v, 0), toy_tip v);
  fork_point v x := inr (toy_fork v depth x); get_block_hash v h := inr (toy_best v h);
  get_block_height v x := inr (if bool_decide (toy_best v x.1 = Some x) then Some x.1 else None);
  get_treestate v x := inr (toy_tree (toy_sapling x), toy_tree (toy_orchard x)); get_block_range := toy_range; mempool_stream v := None;
  raw_transaction v t := inr (if t <=? 2 then Some ([Byte.x01], None) else None);
  transaction_status v t := inr (toy_status v t);
  address_utxos v l := inr []; address_txids v l a b := inr []; encode_address v a := ""%string;
  read_sapling_tree b := inr (Z.of_nat (length b)); read_orchard_tree b := inr (Z.of_nat (length b)); empty_sapling_tree := 0; empty_orchard_tree := 0;
  new_chain_state h x s o := (h, x, (s, o)); header_read raw := inr (toy_read raw);
  block_read v raw := inr (Z.of_nat (length raw), toy_read raw); header_time x := 100 * x.1;
  branch_try_from z := inr tt; branch_for_height v h := tt; transaction_read raw _ := inr raw;
  transaction_write tx := inr tx; send_raw_transaction s := inr tt; hex_encode b := ""%string;
  get_subtree_roots v := inr [] |}.

Lemma toy_best_Some v h x : toy_best v h = Some x <-> 0 <= h <= toy_tip v /\ x = (h, 0).
Proof.
  unfold toy_best. destruct (Z.leb_spec 0 h), (Z.leb_spec h (toy_tip v)); cbn [andb]; split;
    try done; try lia; [by intros [= <-]|by intros [_ ->]].
Qed.

Lemma toy_tree_spec n : 0 <= n ->
  match toy_tree n with
  | Some raw => forall t, (inr (Z.of_nat (length raw)) : string + Z) = inr t -> t = n
  | None => n = 0
  end.
Proof.
  intros Hn. unfold toy_tree. destruct (Z.leb_spec n 0); [lia|]. intros t [= <-]. unfold toy_raw. rewrite length_replicate. lia.
Qed.

Lemma toy_fork_Some v fuel x b :
  toy_fork v fuel x = Some b -> toy_best v b.2 = Some b.1 /\
  exists n, b.1 = Nat.iter n toy_parent x /\ forall m h, (m < n)%nat -> toy_best v h <> Some (Nat.iter m toy_parent x).
Proof.
  revert x. induction fuel as [|fuel IH]; intros x; cbn [toy_fork]; [done|]. case_bool_decide as Hx.
  - intros [= <-]. split; [done|]. exists 0%nat. split; [done|]. intros; lia.
  - intros Hf. destruct (IH _ Hf) as (Hb & n & Hn & Hmin). split; [done|]. exists (S n).
    split; [by rewrite Nat.iter_succ_r|]. intros [|m] h Hm.
    + intros Heq. apply Hx. cbn in Heq. apply toy_best_Some in Heq as Hs. destruct Hs as [_ ->]. exact Heq.
    + rewrite Nat.iter_succ_r. apply Hmin. lia.
Qed.

Lemma toy_range_items v s e l i raw :
  toy_range v s e = Some l -> l !! i = Some (inr raw) ->
  exists x, toy_best v (s + Z.of_nat i) = Some x /\ raw = toy_raw x.1 /\ x.2 = 0.
Proof.
  unfold toy_range. destruct (Z.ltb_spec (toy_tip v) s); [done|]. destruct (Z.ltb_spec s 0).
  - intros [= <-]. destruct (_ <? s); [done|]. by destruct i as [|[|]].
  - intros [= <-]. rewrite list_lookup_fmap, fmap_Some. intros (h & Hh%lookup_seqZ & [= ->]). destruct Hh as [-> Hi].
    exists (s + Z.of_nat i, 0). split; [|done]. apply toy_best_Some. split; [lia|done].
Qed.

Context (Hdepth : depth <> 0%nat).

#[local] Instance toy_zaino_laws : ZainoLaws.
Proof.
  refine {| best := toy_best; tip_height := toy_tip; parent := toy_parent;
            sapling_tree := toy_sapling; orchard_tree := toy_orchard;
            encodes raw (x : @BlockHash toy_types) := raw = toy_raw x.1 /\ 0 <= x.1 /\ x.2 = 0 |}; cbn -[toy_fork].
  - unfold u32_max. lia.
  - intros v. unfold toy_tip. lia.
  - intros v h. split; [intros [x ?%toy_best_Some]; lia|]. intros Hh. exists (h, 0). by apply toy_best_Some.
  - intros v b [= <-]. cbn. split; [done|]. apply toy_best_Some. split; [|done]. unfold toy_tip. lia.
  - by intros v h o [= <-].
  - intros v x o [= <-]. case_bool_decide as Hx; [done|]. intros h Hh. apply Hx. apply toy_best_Some in Hh as Hs.
    destruct Hs as [_ ->]. exact Hh.
  - intros v h x s o Hx%toy_best_Some [= <- <-]. destruct Hx as [Hh ->].
    split; apply toy_tree_spec; unfold toy_sapling, toy_orchard; cbn; repeat case_match; lia.
  - intros v x b Hf. apply (inj inr) in Hf. by apply toy_fork_Some in Hf.
  - intros v x h Hf Hx. apply (inj inr) in Hf. apply toy_best_Some in Hx as Hs. destruct Hs as [_ ->].
    destruct depth as [|n]; [done|].
    change (toy_fork v (S n) (h, 0)) with (if bool_decide (toy_best v h = Some (h, 0)) then Some ((h, 0), h)
      else toy_fork v n (toy_parent (h, 0))) in Hf. by rewrite bool_decide_true in Hf.
  - intros v s e l i raw Hr Hi. destruct (toy_range_items v s e l i raw Hr Hi) as (x & Hx & -> & H0).
    exists x. apply toy_best_Some in Hx as Hx'. split; [done|]. split; [done|]. destruct Hx' as [? ->]. cbn. lia.
  - intros v s e l. unfold toy_range. destruct (Z.ltb_spec (toy_tip v) s); [done|]. destruct (Z.ltb_spec s 0).
    + intros [= <-]. destruct (Z.ltb_spec (default (toy_tip v) e) s); cbn; [lia|].
      intros Hall%Forall_inv. by destruct Hall.
    + intros [= <-] _. rewrite length_fmap, length_seqZ. lia.
  - intros v s e l. unfold toy_range. destruct (Z.ltb_spec (toy_tip v) s); [done|]. destruct (Z.ltb_spec s 0).
    + intros [= <-]. cbn. destruct (Z.ltb_spec e s); cbn; lia.
    + intros [= <-]. rewrite length_fmap, length_seqZ. cbn. lia.
  - intros v s e. unfold toy_range. destruct (Z.ltb_spec (toy_tip v) s); [done|]. by destruct (s <? 0).
  - intros raw [h b] hd (-> & Hh & Hb) [= <-]. unfold toy_read, toy_raw. cbn in *. subst b. rewrite length_replicate. f_equal. lia.
  - intros v raw x h b (-> & _ & _) Hx%toy_best_Some [= <-]. destruct Hx as [Hh ->]. cbn. unfold toy_read, toy_raw. cbn.
    rewrite length_replicate. split; [f_equal|]; lia.
  - intros v t x h l. unfold toy_status. destruct (t =? 1).
    + destruct (toy_best v 3) as [y|] eqn:Hy; [|done]. by intros [= <- <- <-].
    + by destruct (t =? 2).
  - intros v t o l x h. unfold toy_status. destruct (t =? 1).
    + destruct (toy_best v 3) as [y|]; intros [= <- <-] Hin; by apply not_elem_of_nil in Hin.
    + destruct (t =? 2); intros [= <- <-] Hin; [|by apply not_elem_of_nil in Hin].
      apply list_elem_of_singleton in Hin. injection Hin as -> ->. intros Hb%toy_best_Some. naive_solver.
Defined.

End index.

#[local] Instance toy_index : ZainoOps := toy_zaino 20.
#[local] Instance toy_index_laws : ZainoLaws := toy_zaino_laws 20 (Nat.neq_succ_0 19).

(** The fork point of a locator whose first entry is off the chain is an
    ancestor of that entry, which is not in the locator. *)
Lemma zaino_reads_one_chain_witness :
  zaino_find_fork_point 20 [(9, 1); (3, 0)] = Ret (Some {| height := 4; hash := (4, 0) |}) /\
  ~ (4, 0) ∈ [(9, 1); (3, 0)] /\
  (exists l1 e l2, [(9, 1); (3, 0)] = l1 ++ e :: l2 /\ newest_ancestor 20 e (4, 0)) /\
  zaino_tree_state_as_of 20 4 = Ret (Some (4, (4, 0), (4, 0))) /\
  zaino_tree_state_as_of 20 6 = Ret (Some (6, (6, 0), (6, 12))).
Proof.
  assert (zaino_find_fork_point 20 [(9, 1); (3, 0)] = Ret (Some {| height := 4; hash := (4, 0) |})) as Hf
    by (vm_compute; reflexivity).
  split; [exact Hf|]. split; [apply (bool_decide_unpack _); vm_compute; exact I|].
  split; [|split; vm_compute; reflexivity].
  destruct (zaino_reads_one_chain (ZL := toy_index_laws) 20) as (_ & Hfork & _).
  destruct (Hfork _ _ Hf) as (_ & l1 & e & l2 & Hl & _ & Hn & _). exists l1, e, l2. split; [exact Hl|exact Hn].
Defined.

(** A mined transaction has its block's time; an orphaned one the height of its
    block, and no time. *)
Lemma zaino_transaction_reads_agree_witness :
  (exists hd, toy_best 20 3 = Some hd /\ zaino_get_transaction 20 1 =
     Ret (Some {| inner := [Byte.x01]; raw := [Byte.x01]; block_hash := Some hd; mined_height := Some 3;
                  block_time := Some 300 |})) /\
  zaino_get_transaction 20 2 =
    Ret (Some {| inner := [Byte.x01]; raw := [Byte.x01]; block_hash := Some (7, 1); mined_height := Some 7; block_time := None |}) /\
  toy_best 20 7 <> Some (7, 1).
Proof.
  assert (zaino_get_transaction 20 1 =
     Ret (Some {| inner := [Byte.x01]; raw := [Byte.x01]; block_hash := Some (3, 0); mined_height := Some 3;
                  block_time := Some 300 |})) as H1 by (vm_compute; reflexivity).
  assert (zaino_get_transaction 20 2 =
    Ret (Some {| inner := [Byte.x01]; raw := [Byte.x01]; block_hash := Some (7, 1); mined_height := Some 7;
                 block_time := None |})) as H2 by (vm_compute; reflexivity).
  split; [|split; [exact H2|]].
  - exists (3, 0). split; [reflexivity|exact H1].
  - destruct (zaino_transaction_reads_agree (ZL := toy_index_laws) 20 2) as [_ Ha].
    pose proof (Ha _ NotInMainChain H2 eq_refl) as Hn. cbn in Hn. destruct Hn as [_ Hb]. by apply (Hb (7, 1) 7).
Defined.
End example.
