(* ===== verification/ZainoView.v ===== *)
(** The zaino backend behind the engine's interface: a snapshot of zaino's index is a
    [ChainView], and meets [ChainViewLaws]; it meets [ForkPointLaws] when the index
    retains no side chain. *)

From S2P Require Import Prelude Rpc Network Chain Zaino Sync SyncProps SyncExample.

Section view.
Context `{ZainoOps} `{HeightOps}.

(** [ZainoChainView] as the trait's implementation. *)
#[export] Instance zaino_view : ChainView Snapshot := {|
  tip := zaino_tip;
  find_fork_point := zaino_find_fork_point;
  tree_state_as_of := zaino_tree_state_as_of;
  get_block_header := zaino_get_block_header;
  get_block := zaino_get_block;
  stream_blocks_to_tip := zaino_stream_blocks_to_tip;
  stream_blocks := zaino_stream_blocks;
  get_mempool_stream := zaino_get_mempool_stream;
  get_transaction := zaino_get_transaction;
  get_transaction_status := zaino_get_transaction_status
|}.

(** The engine's environment over zaino: its chain source gives snapshots, its views
    answer from them, and its wallet and scanner are those of [E]. *)
Context (E : SyncEnv) (Src : Type) (take : Src -> outcome ChainError Snapshot * Src).
Context (sapling_roots orchard_roots : Src -> outcome ChainError (@SubtreeRoots _ E)).
Context (taddr : string -> TAddr).

Definition zaino_env : SyncEnv := {|
  Wallet := @Wallet _ E;
  Source := Src;
  View := Snapshot;
  Queued := @Queued _ E;
  Keys := @Keys _ E;
  Vtx := @Vtx _ E;
  Nullifiers := @Nullifiers _ E;
  BlockMetadata := @BlockMetadata _ E;
  ScannedBlock := @ScannedBlock _ E;
  Account := @Account _ E;
  Address := @Address _ E;
  KeyScope := @KeyScope _ E;
  SubtreeRoots := @SubtreeRoots _ E;
  view_ops := zaino_view;
  snapshot := take;
  get_sapling_subtree_roots := sapling_roots;
  get_orchard_subtree_roots := orchard_roots;
  Sync.get_address_unspent_outpoints v address := Zaino.get_address_unspent_outpoints v (taddr address);
  Sync.get_address_tx_ids v address range := Zaino.get_address_tx_ids v (taddr address) range;
  txid_is_null := @txid_is_null _ E;
  get_wallet_birthday := @get_wallet_birthday _ E;
  Sync.get_block_hash := @Sync.get_block_hash _ E;
  block_metadata := @block_metadata _ E;
  suggest_scan_ranges := @suggest_scan_ranges _ E;
  get_account_ids := @get_account_ids _ E;
  get_transparent_receivers := @get_transparent_receivers _ E;
  nullifiers_unspent := @nullifiers_unspent _ E;
  transaction_data_requests := @transaction_data_requests _ E;
  get_spendable_transparent_outputs := @get_spendable_transparent_outputs _ E;
  truncate_to_height := @truncate_to_height _ E;
  update_chain_tip := @update_chain_tip _ E;
  put_sapling_subtree_roots := @put_sapling_subtree_roots _ E;
  put_orchard_subtree_roots := @put_orchard_subtree_roots _ E;
  put_blocks := @put_blocks _ E;
  decrypt_and_store_transaction := @decrypt_and_store_transaction _ E;
  set_transaction_status := @set_transaction_status _ E;
  notify_address_checked := @notify_address_checked _ E;
  queue_block := @queue_block _ E;
  await_result := @await_result _ E;
  state_metadata := @state_metadata _ E;
  full_scan_block := @full_scan_block _ E;
  update_with := @update_with _ E;
  to_block_metadata := @to_block_metadata _ E;
  scanned_height := @scanned_height _ E;
  PRIORITY_HISTORIC := @PRIORITY_HISTORIC _ E;
  PRIORITY_VERIFY := @PRIORITY_VERIFY _ E;
  truncate_start := @truncate_start _ E;
  truncate_end := @truncate_end _ E;
  split_at := @split_at _ E
|}.
End view.

Section laws.
Context `{ZL : ZainoLaws} `{HL : HeightLaws}.

(** The index knows no block off its best chain: the fork point of a block is the block
    itself. *)
Definition no_side_chains : Prop := forall v x b, fork_point v x = inr (Some b) -> b.1 = x.

Lemma zaino_tip_spec v b : zaino_tip v = Ret b ->
  height b = tip_height v /\ best v (height b) = Some (hash b).
Proof. intros (b' & Hb%try_Ret%best_chaintip_spec & [= <-])%bind_Ret. exact Hb. Qed.

#[export] Instance zaino_view_laws : ChainViewLaws Snapshot.
Proof.
  refine {| at_height := best |}; cbn.
  - intros v b [Hh Hb]%zaino_tip_spec. pose proof (tip_in_range v). pose proof max_in_range.
    split_and!; [lia|lia|done|]. intros h Hlt. apply best_None; lia.
  - apply Zaino.get_block_header_spec.
  - intros v h b Hb%Zaino.get_block_spec. exact Hb.
  - intros v s st [Hf _]%stream_spec. exact Hf.
  - intros v s b st [Hh _]%zaino_tip_spec Hs (_ & _ & Hc)%stream_spec Hfail.
    specialize (Hc Hfail). cbn in Hc. lia.
  - intros v [s e] st Hse Hst. cbn in *. pose proof Hst as Hst'.
    apply bind_Ret in Hst' as (k & [-> Hs]%to_zaino_height_Ret & _).
    apply stream_spec in Hst as (Hf & Hb & _). cbn in Hb. split; [done|].
    specialize (Hb _ eq_refl). cbn in Hs. rewrite height_sub_spec in Hb by lia. lia.
Defined.

Lemma zaino_fork_laws : no_side_chains -> ForkPointLaws Snapshot.
Proof.
  intros Hno. split; cbn.
  - intros v l b Hf. revert Hf. induction l as [|x l IH]; cbn [zaino_find_fork_point]; [done|].
    intros (fork & Hf%try_Ret & Hr)%bind_Ret. destruct fork as [b'|].
    + injection Hr as <-. pose proof (Hno _ _ _ Hf) as Hx. apply fork_point_Some in Hf as [Hb _].
      cbn. rewrite Hx in *. split; [left|done].
    + destruct (IH Hr) as [? ?]. split; [by right|done].
  - intros v l b Hf%find_fork_point_spec Hin Hat. by apply (Hf _ Hin); exists (height b).
Qed.

(** *** The engine over zaino *)

Context (E : SyncEnv) (Src : Type) (take : Src -> outcome ChainError Snapshot * Src).
Context (sapling_roots orchard_roots : Src -> outcome ChainError (@SubtreeRoots _ E)).
Context (taddr : string -> TAddr).

#[local] Abbreviation Env := (zaino_env E Src take sapling_roots orchard_roots taddr).

(** The wallet's promises are those of [E]; a hash determines its block's height. *)
Lemma zaino_sync_laws (LE : @SyncLaws _ E) :
  (forall v h hs, best v h = Some hs -> @hash_height _ E LE hs = h) -> @SyncLaws _ Env.
Proof.
  intros Hhash. refine (@Build_SyncLaws _ Env zaino_view_laws (@hash_height _ E LE) (@scanned_hash _ E LE)
    Hhash _ _ _ _ _ _ _ _ _ _ _ _); cbn; apply LE.
Defined.

(** Nothing panics while zaino's tip is below the height it can hold. *)
Lemma zaino_sync_no_panic (NE : @SyncNoPanic _ E) :
  (forall v, tip_height v < ZAINO_HEIGHT_MAX) -> (forall src, (take src).1 <> Panic) -> @SyncNoPanic _ Env.
Proof.
  intros Hmax Htake. refine (@Build_SyncNoPanic _ Env ZAINO_HEIGHT_MAX _ _ Htake _ _ _ _ _ _ _ _ _ _ _ _ _ _ _ _); cbn;
    try apply NE.
  - pose proof max_in_range. lia.
  - intros v b [-> _]%zaino_tip_spec. apply Hmax.
  - intros v. apply bind_not_Panic; [apply try_not_Panic|done].
  - intros v l. apply find_fork_point_not_Panic.
  - intros v h Hh. apply get_block_inner_not_Panic; [done|]. intros raw. apply try_not_Panic.
  - intros v h Hh. by apply tree_state_not_Panic.
  - intros v h Hh. by apply stream_not_Panic.
  - intros v. apply bind_not_Panic; [|done]. apply bind_not_Panic; [apply try_not_Panic|done].
Defined.

(** C21. The sync engine over the zaino backend: whatever the turns of its
    tasks, no block at or above the divergence height enters a wallet that had
    none; and on an index without side chains, for a wallet that has no block
    at the height steady_state is at other than that one, has some block at a
    height that the locator samples and has its birthday, if known, no higher,
    an iteration of steady_state never panics, keeps that there is no other
    block at its height, keeps the block it is at if the wallet had it, unless
    rewinding reached a lower height than the fork point, and on success has
    brought it to zaino's tip, its blocks from some fork point up being those
    of zaino's best chain, and of those below exactly the ones at or below the
    height that rewinding reached being left. *)
Theorem zaino_engine_correct (LE : @SyncLaws _ E) (NE : @SyncNoPanic _ E)
  (Hhash : forall v h hs, best v h = Some hs -> @hash_height _ E LE hs = h)
  (Hmax : forall v, tip_height v < ZAINO_HEIGHT_MAX) (Htake : forall src, (take src).1 <> Panic) :
  (* No block at or above the divergence height enters the wallet. *)
  (forall batch_size s (w w' : @Sync.world _ Env),
     rtc (engine_step batch_size (Some s)) w w' -> below s w -> below s w') /\
  (* Following the tip, on an index without side chains. *)
  (no_side_chains -> forall shutdown_height (w : @Sync.world _ Env),
     @tracks _ Env (zaino_sync_laws LE Hhash) (zaino_sync_no_panic NE Hmax Htake) w ->
     anchored (wallet w) (prev_tip w) -> birthday_known_below (wallet w) (prev_tip w) ->
     let '(r, w') := steady_state_iteration shutdown_height w in
     r <> Panic /\ @tracks _ Env (zaino_sync_laws LE Hhash) (zaino_sync_no_panic NE Hmax Htake) w' /\
     (holds w -> settled w w') /\
     (r = Ret (Continue tt) -> exists v f n, (take (source w)).1 = Ret v /\ height (prev_tip w') = tip_height v /\
        best v (tip_height v) = Some (hash (prev_tip w')) /\
        height f <= height (prev_tip w) /\ best v (height f) = Some (hash f) /\ rewound w f n /\
        (forall h, height f < h <= tip_height v -> exists hs, best v h = Some hs /\ knows (wallet w') h hs) /\
        forall h hs, h <= height f -> knows (wallet w') h hs <-> h <= n /\ knows (wallet w) h hs)).
Proof.
  split.
  - intros batch_size s w w'. exact (@engine_run_below _ Env (zaino_sync_laws LE Hhash) _ _ batch_size s w w').
  - intros Hno shutdown_height w Htr Ha Hb.
    pose proof (@steady_state_iteration_spec _ Env (zaino_sync_laws LE Hhash) (zaino_fork_laws Hno)
      (zaino_sync_no_panic NE Hmax Htake) _ _ shutdown_height w Htr (fun _ => Hb)) as Hspec.
    destruct (steady_state_iteration shutdown_height w) as [r w']. destruct Hspec as (Hp & Hk & Hc).
    assert (r <> Panic) as Hnp by (intros Hr; destruct (Hp Hr) as [Hna _]; exact (Hna Ha)).
    destruct (Hk Hnp) as [Htr' Hset]. split_and!; [done..|]. intros Hr.
    destruct (Hc Hr Ha) as (v & Hv & Ht & (f & n & Hf & Hft & Hn & Hat & _ & Hag & Hbelow) & _).
    exists v, f, n. apply zaino_tip_spec in Ht as [Hht Htip]. rewrite Hht in Htip. split_and!; [done..| |done].
    intros h Hh. apply Hag. rewrite Hht. exact Hh.
Qed.
End laws.

(** ** An example: the index of [Zaino] without side chains, the wallet of [SyncExample] *)
Section example.
#[local] Existing Instance toy_types.
#[local] Existing Instance toy_heights.
#[local] Existing Instance toy_heights_laws.
#[local] Instance plain_index : ZainoOps := toy_zaino 1.
#[local] Instance plain_index_laws : ZainoLaws := toy_zaino_laws 1 (Nat.neq_succ_0 0).

Lemma plain_no_side_chains : no_side_chains.
Proof.
  intros v x b [= Hf]. cbn [toy_fork] in Hf. case_bool_decide; [|done]. by injection Hf as <-.
Qed.

(** The index's tip is at the height of the source. *)
#[local] Instance plain_env : @SyncEnv toy_types :=
  zaino_env sim_env Z (fun src => (Ret src, src)) (fun _ => Ret tt) (fun _ => Ret tt) (fun _ => 0).

Definition plain_tip : @ChainBlock toy_types := {| height := 7; hash := (7, 0) |}.

(** A wallet with the blocks up to height 7, when zaino has those up to height 9. *)
Definition plain_world : @Sync.world toy_types plain_env :=
  @Sync.World toy_types plain_env (list_to_map (sim_block (7, 0) <$> seqZ 0 8)) 9 0 0 plain_tip.

Lemma plain_blocks h hs : knows (wallet plain_world) h hs -> hs.1 = h.
Proof.
  intros Hk.
  apply (sim_knows (list_to_map (sim_block (7, 0) <$> seqZ 0 8))) in Hk as [_ Hk].
  change ((list_to_map (sim_block (7, 0) <$> seqZ 0 8) : gmap Z (Z * Z)) !! h = Some hs) in Hk.
  apply elem_of_list_to_map_2, list_elem_of_fmap in Hk as (k & [= -> ->] & _). done.
Qed.

Lemma plain_hash : forall (v : @Snapshot _ plain_index) h hs, best v h = Some hs -> @hash_height _ sim_env sim_laws hs = h.
Proof. intros v h hs Hb. change (toy_best v h = Some hs) in Hb. by apply toy_best_Some in Hb as [_ ->]. Qed.

Lemma zaino_engine_correct_witness :
  prev_tip (steady_state_iteration None plain_world).2 = {| height := 9; hash := (9, 0) |} /\
  (steady_state_iteration None plain_world).1 <> Panic.
Proof.
  split; [by vm_compute|].
  assert (forall v : @Snapshot _ plain_index, tip_height v < ZAINO_HEIGHT_MAX) as Hmax
    by (intros v; change (toy_tip v < 1001); unfold toy_tip; lia).
  destruct (@zaino_engine_correct toy_types plain_index plain_index_laws toy_heights toy_heights_laws sim_env Z
    (fun src => (Ret src, src)) (fun _ => Ret tt) (fun _ => Ret tt) (fun _ => 0)
    sim_laws sim_no_panic plain_hash Hmax ltac:(done)) as [_ Hfollow].
  specialize (Hfollow plain_no_side_chains None plain_world). unshelve epose proof (Hfollow _ _ _) as Hf.
  - split_and!; [exact plain_blocks|vm_compute; done..|]. intros hs Hk. vm_compute in Hk. by injection Hk as <-.
  - exists 7, (7, 0). split; [by apply (bool_decide_unpack _); vm_compute|vm_compute; reflexivity].
  - intros b. cbn. intros [= <-]. cbn. lia.
  - lazymatch type of Hf with (let '(_, _) := ?p in _) => change (p.1 <> Panic); destruct p as [r w'] end.
    exact (proj1 Hf).
Defined.
End example.
