(* ===== verification/Config.v ===== *)
(** The configuration (src/zallet/src/config.rs): its sections, the values they
    give when a field is unset, the paths below the data directory
    (src/zallet/src/commands.rs), and the example file.

    The text of the documentation comments, which the [documented] crate puts in
    the example, and the TOML writer are parameters. The build is that of the
    wallet ([zallet_build = "wallet"]). *)

From S2P Require Import Prelude Rpc Amount Text Network Params Auth.

(** [toml::Value]; floats and dates by their text. *)
Inductive Value :=
  | VString (s : string)
  | VInteger (n : Z)
  | VFloat (text : string)
  | VBoolean (b : bool)
  | VDatetime (text : string)
  | VArray (l : list Value)
  | VTable (l : list (string * Value)).

Record BuilderLimitsSection := { orchard_actions_opt : option Z }.

Record BuilderSection := {
  spend_zeroconf_change_opt : option bool;
  trusted_confirmations_opt : option Z;
  tx_expiry_delta_opt : option Z;
  untrusted_confirmations_opt : option Z;
  limits : BuilderLimitsSection
}.

Record ConsensusSection `{BranchOps} := {
  network_type : NetworkType;
  regtest_nuparams : list RegTestNuParam
}.

Record DatabaseSection := { wallet : option string }.

Record ExternalSection := {
  broadcast_opt : option bool;
  export_dir : option string;
  notify : option string
}.

(** [DeprecatedFeaturesSection], [ExperimentalFeaturesSection]: a map of
    features of other versions. *)
Record FlattenedSection := { other : list (string * Value) }.

Record FeaturesSection (Fp : Type) := {
  as_of_version : string;
  legacy_pool_seed_fingerprint : option Fp;
  deprecated : FlattenedSection;
  experimental : FlattenedSection
}.
Arguments as_of_version {Fp}.
Arguments legacy_pool_seed_fingerprint {Fp}.
Arguments deprecated {Fp}.
Arguments experimental {Fp}.

Record ReadStateServiceSection := { grpc_address : string; zebra_state_path : string }.

Record IndexerSection := {
  validator_address : option string;
  validator_cookie_path : option string;
  validator_user : option string;
  validator_password : option string;
  db_path_opt : option string;
  read_state_service : option ReadStateServiceSection
}.

Record KeyStoreSection := { encryption_identity_opt : option string; require_backup_opt : option bool }.

(** [target_note_count] and [recover_batch_size] are not zero. *)
Record NoteManagementSection := { min_note_value_opt : option Z; target_note_count_opt : option Z }.

Record SyncSection := { recover_batch_size_opt : option Z }.

Record ZalletConfig `{BranchOps} (Fp : Type) := {
  datadir_opt : option string;
  builder : BuilderSection;
  consensus : ConsensusSection;
  database : DatabaseSection;
  external : ExternalSection;
  features : FeaturesSection Fp;
  indexer : IndexerSection;
  keystore : KeyStoreSection;
  note_management : NoteManagementSection;
  rpc : RpcSection;
  sync : SyncSection
}.
Arguments datadir_opt {_ Fp}.
Arguments builder {_ Fp}.
Arguments consensus {_ Fp}.
Arguments database {_ Fp}.
Arguments external {_ Fp}.
Arguments features {_ Fp}.
Arguments indexer {_ Fp}.
Arguments keystore {_ Fp}.
Arguments note_management {_ Fp}.
Arguments rpc {_ Fp}.
Arguments sync {_ Fp}.

(** ** The values of the fields *)

Definition spend_zeroconf_change (c : BuilderSection) : bool := default true (spend_zeroconf_change_opt c).
Definition trusted_confirmations (c : BuilderSection) : Z := default 3 (trusted_confirmations_opt c).
Definition tx_expiry_delta (c : BuilderSection) : Z := default 40 (tx_expiry_delta_opt c).
Definition untrusted_confirmations (c : BuilderSection) : Z := default 10 (untrusted_confirmations_opt c).
Definition orchard_actions (c : BuilderLimitsSection) : Z := default 50 (orchard_actions_opt c).
Definition wallet_path (c : DatabaseSection) : string := default "wallet.db"%string (wallet c).
Definition broadcast (c : ExternalSection) : bool := default true (broadcast_opt c).
Definition db_path (c : IndexerSection) : string := default "zaino"%string (db_path_opt c).
Definition encryption_identity_path (c : KeyStoreSection) : string :=
  default "encryption-identity.txt"%string (encryption_identity_opt c).
Definition require_backup (c : KeyStoreSection) : bool := default true (require_backup_opt c).
Definition target_note_count (c : NoteManagementSection) : Z := default 4 (target_note_count_opt c).
Definition recover_batch_size (c : SyncSection) : Z := default 1000 (recover_batch_size_opt c).

(** [Zatoshis::const_from_u64] panics above the maximum. *)
Definition min_note_value {E} (c : NoteManagementSection) : outcome E Z :=
  let value := default 1000000 (min_note_value_opt c) in
  _ ← assert (value <=? MAX_MONEY);
  Ret value.

(** [NonZeroU32::new(n).unwrap_or(NonZeroU32::MIN)]. *)
Definition non_zero_or_min (n : Z) : Z := if n =? 0 then 1 else n.

(** [policy_new] is [ConfirmationsPolicy::new]. *)
Definition confirmations_policy {Policy} (policy_new : Z -> Z -> bool -> option Policy) (c : BuilderSection) :
    outcome unit Policy :=
  let allow_zero_conf_shielding := untrusted_confirmations c =? 0 in
  ok_or (policy_new (non_zero_or_min (trusted_confirmations c)) (non_zero_or_min (untrusted_confirmations c))
           allow_zero_conf_shielding) tt.

(** [with_min_output_value] is the constructor of [SplitPolicy]. *)
Definition split_policy {E Policy} (with_min_output_value : Z -> Z -> Policy) (c : NoteManagementSection) :
    outcome E Policy :=
  value ← min_note_value c;
  Ret (with_min_output_value (target_note_count c) value).

Definition consensus_network `{BranchOps} (c : ConsensusSection) : Network :=
  from_type (network_type c) (regtest_nuparams c).

(** ** Paths *)

Definition CONFIG_FILE : string := "zallet.toml".

Definition resolve_datadir_path (datadir path : string) : string := path_join datadir path.

Definition resolve_config_path (datadir : string) (config_override : option string) : string :=
  let config_buf := default CONFIG_FILE config_override in
  if is_absolute config_buf then config_buf else resolve_datadir_path datadir config_buf.

(** [EntryPoint::datadir], [config_path]: [home] is the home directory. *)
Definition entry_datadir (home option_datadir : option string) : outcome message string :=
  match option_datadir with
  | Some datadir => Ret datadir
  | None => base ← ok_or home (Fl "err-init-cannot-find-home-dir" []); Ret (path_join base ".zallet")
  end.

Definition config_path (exists_ : string -> bool) (home option_datadir config : option string) : option string :=
  datadir ← ok (entry_datadir home option_datadir);
  let filename := resolve_config_path datadir config in
  if (match config with Some _ => true | None => exists_ filename end) then Some filename else None.

(** [create] and [try_lock] are the calls to the file system. *)
Definition lock_datadir {Guard} (create : string -> string + unit) (try_lock : string -> string + option Guard)
    (datadir : string) : outcome message Guard :=
  let lockfile_path := resolve_datadir_path datadir ".lock" in
  _ ← match create lockfile_path with
      | inl e => Err (Fl "err-init-failed-to-create-lockfile" [("path", Text lockfile_path); ("error", Text e)]%string)
      | inr u => Ret u
      end;
  guard ← match try_lock lockfile_path with
      | inl e => Err (Fl "err-init-failed-to-read-lockfile" [("path", Text lockfile_path); ("error", Text e)]%string)
      | inr guard => Ret guard
      end;
  ok_or guard (Fl "err-init-zallet-already-running" [("datadir", Text datadir)]%string).

Section paths.
Context `{BranchOps} {Fp : Type}.

Definition datadir {E} (c : ZalletConfig Fp) : outcome E string := expect (datadir_opt c).

Definition encryption_identity {E} (c : ZalletConfig Fp) : outcome E string :=
  d ← datadir c; Ret (resolve_datadir_path d (encryption_identity_path (keystore c))).

Definition indexer_db_path {E} (c : ZalletConfig Fp) : outcome E string :=
  d ← datadir c; Ret (resolve_datadir_path d (db_path (indexer c))).

Definition wallet_db_path {E} (c : ZalletConfig Fp) : outcome E string :=
  d ← datadir c; Ret (resolve_datadir_path d (wallet_path (database c))).
End paths.

(** [ZalletConfig::default]. *)
Definition default_config `{BranchOps} {Fp} (PKG_VERSION : string) : ZalletConfig Fp := {|
  datadir_opt := None;
  builder := {| spend_zeroconf_change_opt := None; trusted_confirmations_opt := None; tx_expiry_delta_opt := None;
                untrusted_confirmations_opt := None; limits := {| orchard_actions_opt := None |} |};
  consensus := {| network_type := Main; regtest_nuparams := [] |};
  database := {| wallet := None |};
  external := {| broadcast_opt := None; export_dir := None; notify := None |};
  features := {| as_of_version := PKG_VERSION; legacy_pool_seed_fingerprint := None;
                 deprecated := {| other := [] |}; experimental := {| other := [] |} |};
  indexer := {| validator_address := None; validator_cookie_path := None; validator_user := None;
                validator_password := None; db_path_opt := None; read_state_service := None |};
  keystore := {| encryption_identity_opt := None; require_backup_opt := None |};
  note_management := {| min_note_value_opt := None; target_note_count_opt := None |};
  rpc := {| bind := []; timeout := None; auth := [] |};
  sync := {| recover_batch_size_opt := None |} |}.

(** The fingerprint of the legacy pool, read from its text. *)
Definition seedfp_deserialize `{ParamOps} (v : option string) : outcome string (option SeedFingerprint) :=
  match v with
  | Some s => fp ← parse_seedfp s; Ret (Some fp)
  | None => Ret None
  end.

(** ** The example file *)

(** A line feed, and a carriage return. *)
Definition LF : Ascii.ascii := Ascii.ascii_of_nat 10.
Definition CR : Ascii.ascii := Ascii.ascii_of_nat 13.

(** [writeln!]. *)
Definition writeln (s : string) : string := s +:+ String LF EmptyString.

Definition concat_text (l : list string) : string := foldr String.append EmptyString l.

(** The pieces between line feeds. *)
Fixpoint split_lf (s : string) : list string :=
  match s with
  | EmptyString => [EmptyString]
  | String c s =>
      if Ascii.eqb c LF then EmptyString :: split_lf s
      else match split_lf s with l :: ls => String c l :: ls | [] => [String c EmptyString] end
  end.

Fixpoint strip_cr (s : string) : string :=
  match s with
  | EmptyString => EmptyString
  | String c EmptyString => if Ascii.eqb c CR then EmptyString else s
  | String c s => String c (strip_cr s)
  end.

(** [str::lines]: the ending of a line is a line feed, or that after a carriage
    return; an empty last line does not count. *)
Definition lines (s : string) : list string :=
  let pieces := split_lf s in
  (strip_cr <$> removelast pieces) ++ match last pieces with Some EmptyString | None => [] | Some l => [l] end.

(** The sections as Rust types, with the names of their fields. *)
Inductive SectionType :=
  | BuilderT | BuilderLimitsT | ConsensusT | DatabaseT | ExternalT | FeaturesT | DeprecatedFeaturesT
  | ExperimentalFeaturesT | IndexerT | ReadStateServiceT | KeyStoreT | NoteManagementT | RpcT | RpcAuthT | SyncT.

Definition FIELD_NAMES (t : SectionType) : list string :=
  match t with
  | BuilderT => ["spend_zeroconf_change"; "trusted_confirmations"; "tx_expiry_delta"; "untrusted_confirmations"; "limits"]
  | BuilderLimitsT => ["orchard_actions"]
  | ConsensusT => ["network"; "regtest_nuparams"]
  | DatabaseT => ["wallet"]
  | ExternalT => ["broadcast"; "export_dir"; "notify"]
  | FeaturesT => ["as_of_version"; "legacy_pool_seed_fingerprint"; "deprecated"; "experimental"]
  | DeprecatedFeaturesT | ExperimentalFeaturesT => ["other"]
  | IndexerT => ["validator_address"; "validator_cookie_path"; "validator_user"; "validator_password"; "db_path";
                 "read_state_service"]
  | ReadStateServiceT => ["grpc_address"; "zebra_state_path"]
  | KeyStoreT => ["encryption_identity"; "require_backup"]
  | NoteManagementT => ["min_note_value"; "target_note_count"]
  | RpcT => ["bind"; "timeout"; "auth"]
  | RpcAuthT => ["user"; "password"; "pwhash"]
  | SyncT => ["recover_batch_size"]
  end%string.

Definition CONFIG_FIELD_NAMES : list string :=
  ["datadir"; "builder"; "consensus"; "database"; "external"; "features"; "indexer"; "keystore"; "note_management";
   "rpc"; "sync"]%string.

(** How a field of a section is written. *)
Inductive rendering :=
  | Nested (t : SectionType) (name : string)
  | NestedList (t : SectionType) (name : string)
  | NestedOptional (t : SectionType) (name : string)
  | Flattened
  | Field.

Definition field_rendering (section_name field_name : string) : rendering :=
  let at_ s f := String.eqb section_name s && String.eqb field_name f in
  if at_ "builder" "limits" then Nested BuilderLimitsT "builder.limits"
  else if at_ "features" "deprecated" then Nested DeprecatedFeaturesT "features.deprecated"
  else if at_ "features" "experimental" then Nested ExperimentalFeaturesT "features.experimental"
  else if at_ "rpc" "auth" then NestedList RpcAuthT "rpc.auth"
  else if at_ "indexer" "read_state_service" then NestedOptional ReadStateServiceT "indexer.read_state_service"
  else if at_ "features.deprecated" "other" || at_ "features.experimental" "other" then Flattened
  else Field.

Definition required (section_name field_name : string) : bool :=
  String.eqb section_name "consensus" && String.eqb field_name "network" ||
  String.eqb section_name "features" && String.eqb field_name "as_of_version".

(** The type of a section at the top level; other fields are not written. *)
Definition section_of (field_name : string) : option SectionType :=
  if String.eqb field_name "builder" then Some BuilderT
  else if String.eqb field_name "consensus" then Some ConsensusT
  else if String.eqb field_name "database" then Some DatabaseT
  else if String.eqb field_name "external" then Some ExternalT
  else if String.eqb field_name "features" then Some FeaturesT
  else if String.eqb field_name "indexer" then Some IndexerT
  else if String.eqb field_name "keystore" then Some KeyStoreT
  else if String.eqb field_name "note_management" then Some NoteManagementT
  else if String.eqb field_name "rpc" then Some RpcT
  else if String.eqb field_name "sync" then Some SyncT
  else None.

Section example.
Context `{BranchOps} {Fp : Type}.

(** The documentation of a section and of its fields; the writer of a value. *)
Context (DOCS : SectionType -> string) (FIELD_DOCS : SectionType -> string -> string) (serialize : Value -> string).

Definition field (s f : string) (d : option Value) : (string * string) * option Value := ((s, f), d).

(** A field without a default is [None]: its value cannot be written. *)
Definition field_defaults (conf : ZalletConfig Fp) : outcome Empty_set (list ((string * string) * option Value)) :=
  note_value ← min_note_value (note_management conf);
  Ret ([
    field "builder" "spend_zeroconf_change" (Some (VBoolean (spend_zeroconf_change (builder conf))));
    field "builder" "trusted_confirmations" (Some (VInteger (trusted_confirmations (builder conf))));
    field "builder" "tx_expiry_delta" (Some (VInteger (tx_expiry_delta (builder conf))));
    field "builder" "untrusted_confirmations" (Some (VInteger (untrusted_confirmations (builder conf))));
    field "builder.limits" "orchard_actions" (Some (VInteger (orchard_actions (limits (builder conf)))));
    field "consensus" "network" (Some (VString (type_to_str (network_type (consensus conf)))));
    field "consensus" "regtest_nuparams"
      (Some (VArray ((fun p => VString (nuparam_to_string p)) <$> regtest_nuparams (consensus conf))));
    field "database" "wallet" (Some (VString (wallet_path (database conf))));
    field "external" "broadcast" (Some (VBoolean (broadcast (external conf))));
    field "external" "export_dir" (VString <$> export_dir (external conf));
    field "external" "notify" (VString <$> notify (external conf));
    field "features" "as_of_version" (Some (VString (as_of_version (features conf))));
    field "features" "legacy_pool_seed_fingerprint" None;
    field "indexer" "validator_address" (VString <$> validator_address (indexer conf));
    field "indexer" "validator_cookie_path" (VString <$> validator_cookie_path (indexer conf));
    field "indexer" "validator_user" (VString <$> validator_user (indexer conf));
    field "indexer" "validator_password" (VString <$> validator_password (indexer conf));
    field "indexer" "db_path" (Some (VString (db_path (indexer conf))));
    field "indexer.read_state_service" "grpc_address" (Some (VString "127.0.0.1:8230"));
    field "indexer.read_state_service" "zebra_state_path" (Some (VString "/home/<username>/.cache/zebra"));
    field "keystore" "encryption_identity" (Some (VString (encryption_identity_path (keystore conf))));
    field "keystore" "require_backup" (Some (VBoolean (require_backup (keystore conf))));
    field "note_management" "min_note_value" (Some (VInteger note_value));
    field "note_management" "target_note_count" (Some (VInteger (target_note_count (note_management conf))));
    field "rpc" "bind" (Some (VArray (VString <$> bind (rpc conf))));
    field "rpc" "timeout" (Some (VInteger (rpc_timeout (rpc conf))));
    field "sync" "recover_batch_size" (Some (VInteger (recover_batch_size (sync conf))))
  ]%string).

(** [HashMap::get] after [collect]: a later entry replaces an earlier one. *)
Fixpoint get_default (key : string * string) (l : list ((string * string) * option Value)) : option (option Value) :=
  match l with
  | [] => None
  | (k, v) :: l => or_ (get_default key l) (if bool_decide (k = key) then Some v else None)
  end.

Definition sec_def (defaults : list ((string * string) * option Value)) (section_name field_name : string) :
    outcome Empty_set (option Value) :=
  expect (get_default (section_name, field_name) defaults).

Definition write_doc_line (line : string) : string :=
  if String.eqb line "" then writeln "#" else writeln ("# " +:+ line).

Definition strip_space_prefix (line : string) : string :=
  match line with String c s => if Ascii.eqb c " " then s else line | EmptyString => EmptyString end.

Definition get_field_docs (t : SectionType) (field_name : string) : option string :=
  if bool_decide (field_name ∈ FIELD_NAMES t) then Some (FIELD_DOCS t field_name) else None.

Definition write_field (t : SectionType) (field_name : string) (required : bool) (field_default : option Value) :
    outcome Empty_set string :=
  field_doc ← expect (get_field_docs t field_name);
  Ret (concat_text ((fun line => write_doc_line (strip_space_prefix line)) <$> lines field_doc) +:+
       writeln ((if required then "" else "#") +:+ field_name +:+ " = " +:+
                match field_default with Some present => serialize present | None => "UNSET" end) +:+
       writeln "").

Definition write_section_docs (t : SectionType) : string :=
  writeln "" +:+ writeln "#" +:+ concat_text (write_doc_line <$> lines (DOCS t)) +:+ writeln "#".

Section write.
Context (defaults : list ((string * string) * option Value)).

Definition write_optional_section (t : SectionType) (section_name : string) : outcome Empty_set string :=
  fields ← traverse (fun field_name =>
    d ← sec_def defaults section_name field_name;
    write_field t field_name false d) (FIELD_NAMES t);
  Ret (write_section_docs t +:+
       writeln "# This section is optional. Uncomment the header and fields below to enable it." +:+
       writeln "#" +:+ writeln ("#[" +:+ section_name +:+ "]") +:+ writeln "" +:+ concat_text fields).

(** Sections nest to a depth that [fuel] bounds. *)
Fixpoint write_section_inner (fuel : nat) (t : SectionType) (section_name : string) (is_list : bool) :
    outcome Empty_set string :=
  match fuel with
  | O => Panic
  | S fuel =>
      fields ← traverse (fun field_name =>
        match field_rendering section_name field_name with
        | Nested t name => write_section_inner fuel t name false
        | NestedList t name => write_section_inner fuel t name true
        | NestedOptional t name => write_optional_section t name
        | Flattened => Ret ""%string
        | Field =>
            d ← (if is_list then Ret None else sec_def defaults section_name field_name);
            write_field t field_name (required section_name field_name) d
        end) (FIELD_NAMES t);
      Ret (write_section_docs t +:+
           (if is_list
            then writeln "# Repeat this section to add more entries to the list." +:+ writeln "#" +:+
                 writeln ("#[[" +:+ section_name +:+ "]]")
            else writeln ("[" +:+ section_name +:+ "]")) +:+
           writeln "" +:+ concat_text fields)
  end.
End write.

Definition PREAMBLE : list string :=
  ["# Default configuration for Zallet.";
   "#";
   "# This file is generated as an example using Zallet's current defaults. It can";
   "# be used as a skeleton for custom configs.";
   "#";
   "# Fields that are required to be set are uncommented, and set to an example";
   "# value. Every other field is commented out, and set to the current default";
   "# value that Zallet will use for it (or `UNSET` if the field has no default).";
   "#";
   "# Leaving a field commented out means that Zallet will always use the latest";
   "# default value, even if it changes in future. Uncommenting a field but keeping";
   "# it set to the current default value means that Zallet will treat it as a";
   "# user-configured value going forward.";
   ""]%string.

Definition generate_example (PKG_VERSION : string) : outcome Empty_set string :=
  defaults ← field_defaults (default_config PKG_VERSION);
  sections ← traverse (fun field_name =>
    match section_of field_name with
    | Some t => write_section_inner defaults 2 t field_name false
    | None => Ret ""%string
    end) CONFIG_FIELD_NAMES;
  Ret (concat_text (writeln <$> PREAMBLE) +:+ concat_text sections).
End example.

(** ** Theorems *)

(** *** Lines *)

Fixpoint no_lf (s : string) : bool :=
  match s with EmptyString => true | String c s => negb (Ascii.eqb c LF) && no_lf s end.

(** Lines that are not blank and not comments: the settings and headers, those
    that are commented out included. *)
Definition significant (line : string) : bool :=
  negb (String.eqb line "" || String.eqb line "#" || String.prefix "# " line).

Definition unlines (ls : list string) : string := concat_text (writeln <$> ls).

Lemma no_lf_app a b : no_lf (a +:+ b) = no_lf a && no_lf b.
Proof. induction a as [|c a IH]; [done|]. rewrite append_cons. cbn. by rewrite IH, andb_assoc. Qed.

Lemma concat_text_app l k : concat_text (l ++ k) = (concat_text l +:+ concat_text k)%string.
Proof.
  induction l as [|x l IH]; [done|]. change (concat_text ((x :: l) ++ k)) with (x +:+ concat_text (l ++ k))%string.
  by rewrite IH, <- append_assoc_text.
Qed.

Lemma unlines_app l k : unlines (l ++ k) = (unlines l +:+ unlines k)%string.
Proof. unfold unlines. by rewrite fmap_app, concat_text_app. Qed.

Lemma split_lf_line l s : no_lf l = true -> split_lf (writeln l +:+ s) = l :: split_lf s.
Proof.
  unfold writeln. rewrite append_assoc_text, append_cons. induction l as [|c l IH]; cbn [no_lf]; [done|].
  intros [Hc Hl]%andb_true_iff. apply negb_true_iff in Hc. rewrite append_cons. cbn. by rewrite Hc, IH.
Qed.

(** Lines without line feeds are read back. *)
Lemma split_lf_unlines ls : Forall (fun l => no_lf l = true) ls -> split_lf (unlines ls) = ls ++ [""%string].
Proof.
  induction 1 as [|l ls Hl _ IH]; [done|]. change (unlines (l :: ls)) with (writeln l +:+ unlines ls)%string.
  by rewrite split_lf_line, IH.
Qed.

Lemma split_lf_no_lf s : Forall (fun l => no_lf l = true) (split_lf s).
Proof.
  induction s as [|c s IH]; cbn; [by constructor|]. destruct (Ascii.eqb c LF) eqn:Hc; [by constructor|].
  destruct (split_lf s) as [|l ls]; [by constructor; [cbn; rewrite Hc|]|].
  inversion IH; subst. constructor; [|done]. cbn. by rewrite Hc.
Qed.

Lemma strip_cr_no_lf s : no_lf s = true -> no_lf (strip_cr s) = true.
Proof.
  induction s as [|c [|d s] IH]; [done| |].
  - intros Hs. cbn [strip_cr]. by destruct (Ascii.eqb c CR).
  - intros Hs. change (no_lf (String c (strip_cr (String d s))) = true). cbn [no_lf] in *.
    apply andb_true_iff in Hs as [Hc Hs]. rewrite Hc. by apply IH.
Qed.

Lemma lines_no_lf s : Forall (fun l => no_lf l = true) (lines s).
Proof.
  unfold lines. pose proof (split_lf_no_lf s) as Hs. apply Forall_app. split.
  - apply Forall_fmap. rewrite Forall_forall in *. intros l Hl. apply strip_cr_no_lf, Hs.
    destruct (split_lf s) as [|x ls] eqn:E; [done|]. rewrite <- E in *.
    assert (split_lf s <> []) as Hne by (rewrite E; done). rewrite (app_removelast_last "" Hne).
    apply elem_of_app. by left.
  - destruct (last (split_lf s)) as [[|c l]|] eqn:Hl; [done| |done]. constructor; [|done].
    rewrite Forall_forall in Hs. by apply Hs, last_Some_elem_of.
Qed.

(** *** What a text sets *)

(** The text is made of lines; the significant ones are those of [rows]. *)
Definition emits (s : string) (rows : list string) : Prop :=
  exists ls, s = unlines ls /\ Forall (fun l => no_lf l = true) ls /\
    List.filter significant ls = List.filter significant rows.

Lemma emits_nil : emits "" [].
Proof. by exists []. Qed.

Lemma emits_app s t rows rows' : emits s rows -> emits t rows' -> emits (s +:+ t) (rows ++ rows').
Proof.
  intros (l & -> & Hl & Hs) (k & -> & Hk & Ht). exists (l ++ k). rewrite unlines_app, !List.filter_app.
  split_and!; [done|by apply Forall_app|congruence].
Qed.

Lemma emits_line l : no_lf l = true -> emits (writeln l) [l].
Proof. intros Hl. exists [l]. split; [symmetry; apply append_nil_r|]. split; [by constructor|done]. Qed.

Lemma emits_insignificant l : no_lf l = true -> significant l = false -> emits (writeln l) [].
Proof. intros Hl Hs. exists [l]. split; [symmetry; apply append_nil_r|]. split; [by constructor|]. cbn. by rewrite Hs. Qed.

Lemma emits_concat ss rss : Forall2 emits ss rss -> emits (concat_text ss) (mjoin rss).
Proof. induction 1 as [|s rows ss rss Hs _ IH]; [apply emits_nil|]. by apply (emits_app s _ rows). Qed.

Lemma emits_doc_line line : no_lf line = true -> emits (write_doc_line line) [].
Proof.
  intros Hl. unfold write_doc_line. destruct (String.eqb line ""); [by apply emits_insignificant|].
  apply emits_insignificant; [by rewrite no_lf_app, Hl|]. unfold significant. rewrite !append_cons. by destruct line.
Qed.

Lemma emits_docs (f : string -> string) ls :
  (forall l, no_lf l = true -> no_lf (f l) = true) -> Forall (fun l => no_lf l = true) ls ->
  emits (concat_text ((fun line => write_doc_line (f line)) <$> ls)) [].
Proof.
  intros Hf. induction 1 as [|l ls Hl _ IH]; [apply emits_nil|]. cbn. apply (emits_app _ _ [] []); [|exact IH].
  by apply emits_doc_line, Hf.
Qed.

Lemma traverse_emits {X} (w : X -> outcome Empty_set string) (r : X -> outcome Empty_set (list string)) l rss :
  (forall x rows, x ∈ l -> r x = Ret rows -> Forall (fun l => no_lf l = true) rows -> exists s, w x = Ret s /\ emits s rows) ->
  traverse r l = Ret rss -> Forall (fun l => no_lf l = true) (mjoin rss) ->
  exists ss, traverse w l = Ret ss /\ emits (concat_text ss) (mjoin rss).
Proof.
  intros Hw Hr%traverse_Ret Hlf. enough (exists ss, traverse w l = Ret ss /\ Forall2 emits ss rss) as (ss & ? & ?).
  { exists ss. split; [done|]. by apply emits_concat. }
  induction Hr as [|x rows l rss Hx _ IH]; [exists []; by split|]. cbn in Hlf. apply Forall_app in Hlf as [Hrows Hlf].
  destruct (Hw x rows) as (s & Hs & He); [left|done..|]. destruct IH as (ss & Hss & Hall); [|done|].
  { intros y ys Hy. apply Hw. by right. }
  exists (s :: ss). split; [cbn; by rewrite Hs; cbn; rewrite Hss|by constructor].
Qed.

Section example_proofs.
Context `{BranchOps} {Fp : Type}.
Context (DOCS : SectionType -> string) (FIELD_DOCS : SectionType -> string -> string) (serialize : Value -> string).
Context (defaults : list ((string * string) * option Value)).

Definition field_row (required : bool) (field_name : string) (d : option Value) : string :=
  (if required then "" else "#") +:+ field_name +:+ " = " +:+
  match d with Some present => serialize present | None => "UNSET" end.

Definition optional_rows (t : SectionType) (section_name : string) : outcome Empty_set (list string) :=
  fields ← traverse (fun field_name =>
    d ← sec_def defaults section_name field_name; Ret [field_row false field_name d]) (FIELD_NAMES t);
  Ret (("#[" +:+ section_name +:+ "]") :: mjoin fields)%string.

(** The significant lines of a section, without the documentation. *)
Fixpoint section_rows (fuel : nat) (t : SectionType) (section_name : string) (is_list : bool) :
    outcome Empty_set (list string) :=
  match fuel with
  | O => Panic
  | S fuel =>
      fields ← traverse (fun field_name =>
        match field_rendering section_name field_name with
        | Nested t name => section_rows fuel t name false
        | NestedList t name => section_rows fuel t name true
        | NestedOptional t name => optional_rows t name
        | Flattened => Ret []
        | Field =>
            d ← (if is_list then Ret None else sec_def defaults section_name field_name);
            Ret [field_row (required section_name field_name) field_name d]
        end) (FIELD_NAMES t);
      Ret ((if is_list then "#[[" +:+ section_name +:+ "]]" else "[" +:+ section_name +:+ "]")%string :: mjoin fields)
  end.

Lemma write_field_emits t f r d :
  f ∈ FIELD_NAMES t -> no_lf (field_row r f d) = true ->
  exists s, write_field FIELD_DOCS serialize t f r d = Ret s /\ emits s [field_row r f d].
Proof.
  intros Hf Hrow. unfold write_field, get_field_docs. rewrite bool_decide_true by done. cbn. eexists. split; [done|].
  apply (emits_app _ _ [] [_]).
  - apply emits_docs; [|apply lines_no_lf]. intros [|c l] Hcl; [done|]. cbn.
    destruct (Ascii.eqb c " "); [|exact Hcl]. by apply andb_true_iff in Hcl as [_ ?].
  - apply (emits_app _ _ [_] []); [by apply emits_line|]. by apply emits_insignificant.
Qed.

Lemma write_section_docs_emits t : emits (write_section_docs DOCS t) [].
Proof.
  unfold write_section_docs. do 2 (apply (emits_app _ _ [] []); [by apply emits_insignificant|]).
  apply (emits_app _ _ [] []); [|by apply emits_insignificant].
  by apply (emits_docs (fun l => l)), lines_no_lf.
Qed.

Lemma write_optional_section_emits t name rows :
  optional_rows t name = Ret rows -> Forall (fun l => no_lf l = true) rows ->
  exists s, write_optional_section DOCS FIELD_DOCS serialize defaults t name = Ret s /\ emits s rows.
Proof.
  intros (rss & Hr & [= <-])%bind_Ret [Hhead Hlf]%Forall_cons. unfold write_optional_section.
  match goal with |- context [traverse ?w _] => eapply (traverse_emits w) in Hr as (ss & Hss & He) end;
    [|intros f fr Hf (d & Hd & [= <-])%bind_Ret [Hrow _]%Forall_cons|exact Hlf].
  2: { rewrite Hd. by apply write_field_emits. }
  rewrite Hss. eexists. split; [done|]. apply (emits_app _ _ [] _); [apply write_section_docs_emits|].
  do 2 (apply (emits_app _ _ [] _); [by apply emits_insignificant|]).
  apply (emits_app _ _ [_] _); [by apply emits_line|]. by apply (emits_app _ _ [] _); [apply emits_insignificant|].
Qed.

Lemma write_section_emits fuel t name is_list rows :
  section_rows fuel t name is_list = Ret rows -> Forall (fun l => no_lf l = true) rows ->
  exists s, write_section_inner DOCS FIELD_DOCS serialize defaults fuel t name is_list = Ret s /\ emits s rows.
Proof.
  revert t name is_list rows. induction fuel as [|fuel IH]; intros t name is_list rows; [done|].
  cbn [section_rows write_section_inner]. intros (rss & Hr & [= <-])%bind_Ret [Hhead Hlf]%Forall_cons.
  match goal with |- context [traverse ?w _] => eapply (traverse_emits w) in Hr as (ss & Hss & He) end;
    [|intros f fr Hf Hfr Hrow|exact Hlf].
  2: { destruct (field_rendering name f) as [t' n|t' n|t' n| |].
    - by apply IH.
    - by apply IH.
    - by apply write_optional_section_emits.
    - injection Hfr as <-. eexists. split; [done|apply emits_nil].
    - apply bind_Ret in Hfr as (d & Hd & [= <-]). rewrite Hd. apply Forall_cons in Hrow as [Hrow _].
      by apply write_field_emits. }
  rewrite Hss. eexists. split; [done|]. apply (emits_app _ _ [] _); [apply write_section_docs_emits|].
  apply (emits_app _ _ [_] _); [|by apply (emits_app _ _ [] _); [apply emits_insignificant|]].
  destruct is_list; [|by apply emits_line]. do 2 (apply (emits_app _ _ [] _); [by apply emits_insignificant|]).
  by apply emits_line.
Qed.
End example_proofs.

Section example_theorem.
Context `{BranchOps} {Fp : Type}.
Context (DOCS : SectionType -> string) (FIELD_DOCS : SectionType -> string -> string) (serialize : Value -> string).

(** Values whose strings have no line feeds. *)
Fixpoint single_line (v : Value) : bool :=
  match v with
  | VString s => no_lf s
  | VInteger _ | VBoolean _ => true
  | VArray l => forallb single_line l
  | VFloat _ | VDatetime _ | VTable _ => false
  end.

Definition example_rows (PKG_VERSION : string) : list string :=
  ["[builder]"%string;
   field_row serialize false "spend_zeroconf_change" (Some (VBoolean true));
   field_row serialize false "trusted_confirmations" (Some (VInteger 3));
   field_row serialize false "tx_expiry_delta" (Some (VInteger 40));
   field_row serialize false "untrusted_confirmations" (Some (VInteger 10));
   "[builder.limits]"%string;
   field_row serialize false "orchard_actions" (Some (VInteger 50));
   "[consensus]"%string;
   field_row serialize true "network" (Some (VString "main"));
   field_row serialize false "regtest_nuparams" (Some (VArray []));
   "[database]"%string;
   field_row serialize false "wallet" (Some (VString "wallet.db"));
   "[external]"%string;
   field_row serialize false "broadcast" (Some (VBoolean true));
   field_row serialize false "export_dir" None;
   field_row serialize false "notify" None;
   "[features]"%string;
   field_row serialize true "as_of_version" (Some (VString PKG_VERSION));
   field_row serialize false "legacy_pool_seed_fingerprint" None;
   "[features.deprecated]"%string;
   "[features.experimental]"%string;
   "[indexer]"%string;
   field_row serialize false "validator_address" None;
   field_row serialize false "validator_cookie_path" None;
   field_row serialize false "validator_user" None;
   field_row serialize false "validator_password" None;
   field_row serialize false "db_path" (Some (VString "zaino"));
   "#[indexer.read_state_service]"%string;
   field_row serialize false "grpc_address" (Some (VString "127.0.0.1:8230"));
   field_row serialize false "zebra_state_path" (Some (VString "/home/<username>/.cache/zebra"));
   "[keystore]"%string;
   field_row serialize false "encryption_identity" (Some (VString "encryption-identity.txt"));
   field_row serialize false "require_backup" (Some (VBoolean true));
   "[note_management]"%string;
   field_row serialize false "min_note_value" (Some (VInteger 1000000));
   field_row serialize false "target_note_count" (Some (VInteger 4));
   "[rpc]"%string;
   field_row serialize false "bind" (Some (VArray []));
   field_row serialize false "timeout" (Some (VInteger 30));
   "#[[rpc.auth]]"%string;
   field_row serialize false "user" None;
   field_row serialize false "password" None;
   field_row serialize false "pwhash" None;
   "[sync]"%string;
   field_row serialize false "recover_batch_size" (Some (VInteger 1000))].

Lemma example_rows_spec PKG_VERSION :
  exists defaults rss, field_defaults (default_config (Fp := Fp) PKG_VERSION) = Ret defaults /\
    traverse (fun field_name =>
      match section_of field_name with
      | Some t => section_rows serialize defaults 2 t field_name false
      | None => Ret []
      end) CONFIG_FIELD_NAMES = Ret rss /\ mjoin rss = example_rows PKG_VERSION.
Proof. eexists _, _. split; [reflexivity|]. split; [vm_compute; reflexivity|]. vm_compute. reflexivity. Qed.

(** The values of the fields that the example shows as the defaults: what the
    accessors give for any section in which the field is unset. *)
Definition used_when_unset : Prop :=
  (forall c, spend_zeroconf_change_opt c = None -> spend_zeroconf_change c = true) /\
  (forall c, trusted_confirmations_opt c = None -> trusted_confirmations c = 3) /\
  (forall c, tx_expiry_delta_opt c = None -> tx_expiry_delta c = 40) /\
  (forall c, untrusted_confirmations_opt c = None -> untrusted_confirmations c = 10) /\
  (forall c, orchard_actions_opt c = None -> orchard_actions c = 50) /\
  (forall c, wallet c = None -> wallet_path c = "wallet.db"%string) /\
  (forall c, broadcast_opt c = None -> broadcast c = true) /\
  (forall c, db_path_opt c = None -> db_path c = "zaino"%string) /\
  (forall c, encryption_identity_opt c = None -> encryption_identity_path c = "encryption-identity.txt"%string) /\
  (forall c, require_backup_opt c = None -> require_backup c = true) /\
  (forall c, min_note_value_opt c = None -> min_note_value (E := Empty_set) c = Ret 1000000) /\
  (forall c, target_note_count_opt c = None -> target_note_count c = 4) /\
  (forall c, timeout c = None -> rpc_timeout c = 30) /\
  (forall c, recover_batch_size_opt c = None -> recover_batch_size c = 1000).

Lemma values_used_when_unset : used_when_unset.
Proof.
  unfold used_when_unset. split_and!; intros c Hc;
    unfold spend_zeroconf_change, trusted_confirmations, tx_expiry_delta, untrusted_confirmations, orchard_actions,
      wallet_path, broadcast, db_path, encryption_identity_path, require_backup, min_note_value, target_note_count,
      rpc_timeout, recover_batch_size; by rewrite Hc.
Qed.

(** C22. Generating the example configuration succeeds, and whatever the
    documentation of the fields, the file sets consensus.network and
    features.as_of_version and nothing else: every other field is a commented
    line under the header of its section (itself commented for the optional
    indexer.read_state_service and the repeated rpc.auth), which shows the
    value that its accessor gives in any configuration that leaves it unset,
    or the empty list for the lists, or UNSET for a field without a default;
    except for grpc_address and zebra_state_path, which have no default and
    show the made-up values 127.0.0.1:8230 and /home/<username>/.cache/zebra.
    (The TOML writer gives a value without line feeds one line.) *)
Theorem generate_example_correct PKG_VERSION
    (Hserialize : forall v, single_line v = true -> no_lf (serialize v) = true) (Hversion : no_lf PKG_VERSION = true) :
  exists text, generate_example (Fp := Fp) DOCS FIELD_DOCS serialize PKG_VERSION = Ret text /\
    List.filter significant (split_lf text) =
     ["[builder]";
      "#spend_zeroconf_change = " +:+ serialize (VBoolean true);
      "#trusted_confirmations = " +:+ serialize (VInteger 3);
      "#tx_expiry_delta = " +:+ serialize (VInteger 40);
      "#untrusted_confirmations = " +:+ serialize (VInteger 10);
      "[builder.limits]";
      "#orchard_actions = " +:+ serialize (VInteger 50);
      "[consensus]";
      "network = " +:+ serialize (VString "main");
      "#regtest_nuparams = " +:+ serialize (VArray []);
      "[database]";
      "#wallet = " +:+ serialize (VString "wallet.db");
      "[external]";
      "#broadcast = " +:+ serialize (VBoolean true);
      "#export_dir = UNSET";
      "#notify = UNSET";
      "[features]";
      "as_of_version = " +:+ serialize (VString PKG_VERSION);
      "#legacy_pool_seed_fingerprint = UNSET";
      "[features.deprecated]";
      "[features.experimental]";
      "[indexer]";
      "#validator_address = UNSET";
      "#validator_cookie_path = UNSET";
      "#validator_user = UNSET";
      "#validator_password = UNSET";
      "#db_path = " +:+ serialize (VString "zaino");
      "#[indexer.read_state_service]";
      "#grpc_address = " +:+ serialize (VString "127.0.0.1:8230");
      "#zebra_state_path = " +:+ serialize (VString "/home/<username>/.cache/zebra");
      "[keystore]";
      "#encryption_identity = " +:+ serialize (VString "encryption-identity.txt");
      "#require_backup = " +:+ serialize (VBoolean true);
      "[note_management]";
      "#min_note_value = " +:+ serialize (VInteger 1000000);
      "#target_note_count = " +:+ serialize (VInteger 4);
      "[rpc]";
      "#bind = " +:+ serialize (VArray []);
      "#timeout = " +:+ serialize (VInteger 30);
      "#[[rpc.auth]]";
      "#user = UNSET";
      "#password = UNSET";
      "#pwhash = UNSET";
      "[sync]";
      "#recover_batch_size = " +:+ serialize (VInteger 1000)]%string /\
    used_when_unset.
Proof.
  destruct (example_rows_spec PKG_VERSION) as (defaults & rss & Hd & Hr & Hrows).
  assert (Forall (fun l => no_lf l = true) (example_rows PKG_VERSION)) as Hlf.
  { unfold example_rows, field_row. repeat constructor; rewrite ?no_lf_app, ?Hserialize; done. }
  unfold generate_example. rewrite Hd. cbn [mbind outcome_bind].
  match goal with |- context [traverse ?w _] => eapply (traverse_emits w) in Hr as (ss & Hss & He) end;
    [|intros f rows Hf Hfr Hrow|by rewrite Hrows].
  2: { destruct (section_of f); [by apply write_section_emits|]. injection Hfr as <-. eexists. split; [done|apply emits_nil]. }
  rewrite Hss. eexists. split; [done|]. split; [|exact values_used_when_unset].
  assert (emits (concat_text (writeln <$> PREAMBLE) +:+ concat_text ss) ([] ++ mjoin rss)) as (ls & -> & Hls & Hsig).
  { apply emits_app; [|done]. exists PREAMBLE. split; [done|]. split; [repeat constructor|reflexivity]. }
  rewrite split_lf_unlines, List.filter_app, Hsig by done. cbn [app]. rewrite Hrows. reflexivity.
Qed.
End example_theorem.

(** *** Values and paths *)

(** The default of the smallest note, and every [u32], is an amount. *)
Lemma min_note_value_total {E} c :
  (forall v, min_note_value_opt c = Some v -> 0 <= v <= u32_max) ->
  min_note_value (E := E) c = Ret (default 1000000 (min_note_value_opt c)).
Proof.
  intros Hc. unfold min_note_value. replace (default 1000000 (min_note_value_opt c) <=? MAX_MONEY) with true; [done|].
  symmetry. apply Z.leb_le. unfold MAX_MONEY, COIN, u32_max in *. destruct (min_note_value_opt c) as [v|]; cbn; [|lia].
  specialize (Hc v eq_refl). lia.
Qed.

(** With fewer confirmations for untrusted outputs than for trusted ones there is
    no policy: the value is not ignored. *)
Lemma confirmations_policy_refused {Policy} (policy_new : Z -> Z -> bool -> option Policy) c :
  (forall t u b, policy_new t u b = None <-> u < t) ->
  0 <= untrusted_confirmations c -> 0 <= trusted_confirmations c ->
  (exists p, confirmations_policy policy_new c = Ret p) <->
  trusted_confirmations c <= Z.max 1 (untrusted_confirmations c).
Proof.
  intros Hnew Hu Ht. unfold confirmations_policy. set (u := untrusted_confirmations c) in *.
  set (t := trusted_confirmations c) in *. specialize (Hnew (non_zero_or_min t) (non_zero_or_min u) (u =? 0)).
  assert (non_zero_or_min u < non_zero_or_min t <-> Z.max 1 u < t) as Heq.
  { unfold non_zero_or_min. destruct (Z.eqb_spec u 0), (Z.eqb_spec t 0); lia. }
  destruct (policy_new _ _ _) as [p|]; cbn.
  - split; [intros _|by eexists]. destruct (Z.le_gt_cases t (Z.max 1 u)) as [|Hlt]; [done|].
    assert (non_zero_or_min u < non_zero_or_min t) as Hn by (apply Heq; lia). by apply Hnew in Hn.
  - split; [by intros [? ?]|]. pose proof (proj1 Hnew eq_refl). lia.
Qed.

(** A path of the configuration is used as it is when absolute, and is below the
    data directory otherwise. *)
Lemma resolve_config_path_spec datadir config :
  resolve_config_path datadir config =
    match config with
    | Some p => if is_absolute p then p else path_join datadir p
    | None => path_join datadir CONFIG_FILE
    end.
Proof. unfold resolve_config_path. by destruct config as [p|]. Qed.

Lemma wallet_db_path_spec `{BranchOps} {Fp E} (c : ZalletConfig Fp) d :
  datadir_opt c = Some d -> wallet_db_path (E := E) c = Ret (path_join d (default "wallet.db"%string (wallet (database c)))).
Proof. intros Hd. unfold wallet_db_path, datadir. by rewrite Hd. Qed.

(** A second process is refused while the lock is held. *)
Lemma lock_datadir_held {Guard} create (try_lock : string -> string + option Guard) datadir :
  try_lock (path_join datadir ".lock") = inr None -> exists e, lock_datadir create try_lock datadir = Err e.
Proof. intros Hl. unfold lock_datadir, resolve_datadir_path. rewrite Hl. destruct (create _); by eexists. Qed.

(** ** An example: a writer of simple values *)
Section example.
#[local] Instance toy_branches : BranchOps := {|
  BranchId := Z; branch_id_try_from := Some; u32_from_branch b := b; Overwinter := 1; Sapling := 2; Blossom := 3;
  Heartwood := 4; Canopy := 5; Nu5 := 6; Nu6 := 7; Nu6_1 := 8; Nu6_2 := 9; Nu6_3 := 10 |}.

Definition toy_serialize (v : Value) : string :=
  match v with
  | VBoolean b => if b then "true" else "false"
  | VInteger n => if n =? 3 then "3" else "0"
  | VString s => dquote +:+ s +:+ dquote
  | VArray _ => "[]"
  | VFloat _ | VDatetime _ | VTable _ => "?"
  end.

Definition toy_docs : string := "A setting." +:+ String LF (String LF (" More about it." +:+ String CR (String LF ""))).

(** The documentation of two paragraphs does not change what is set. *)
Lemma generate_example_correct_witness :
  lines toy_docs = ["A setting."; ""; " More about it."]%string /\
  exists text, generate_example (Fp := unit) (fun _ => toy_docs) (fun _ _ => toy_docs) toy_serialize "0.1.0" = Ret text /\
    "#trusted_confirmations = 3"%string ∈ split_lf text.
Proof.
  split; [vm_compute; reflexivity|].
  destruct (generate_example_correct (Fp := unit) (fun _ => toy_docs) (fun _ _ => toy_docs) toy_serialize "0.1.0") as (text & Ht & Hs & _).
  - intros [s|n|s|b|s|l|l]; cbn; try done; [|by destruct (n =? 3)|by destruct b]. intros Hs.
    by rewrite !no_lf_app, Hs.
  - reflexivity.
  - exists text. split; [exact Ht|]. apply list_elem_of_In, (proj1 (List.filter_In significant _ _)).
    rewrite Hs. vm_compute. tauto.
Defined.
End example.
