(* ===== verification/Identity.v ===== *)
(** The encryption identity
    (src/zallet/src/commands/generate_encryption_identity.rs, [KeyStore::new] and
    [decrypt_identity_file] of src/zallet-core/src/components/keystore.rs): the age
    identity that protects the keystore is generated, written to its file
    without ever replacing one, and read again when the keystore opens.

    A path is a string and the file system maps paths to files; every call to
    it may fail, and the states it goes through are kept, because other processes
    and crashes see them. The [age] crate is [AgeFiles]. *)

From stdpp Require Import gmap strings.
From S2P Require Import Prelude Rpc Text Auth Config KeystoreStore.

Section paths.
#[local] Abbreviation chars := (list Ascii.ascii).

Definition SLASH : Ascii.ascii := Ascii.ascii_of_nat 47.
Definition DOT : Ascii.ascii := Ascii.ascii_of_nat 46.

(** A path is read from its end: separators there do not count, nor does a
    component [.] that is not the first. *)
Fixpoint skip_separators (fuel : nat) (s : chars) : chars :=
  match fuel, s with
  | S fuel, c :: s' =>
      if Ascii.eqb c SLASH then skip_separators fuel s'
      else match s' with
           | d :: _ => if Ascii.eqb c DOT && Ascii.eqb d SLASH then skip_separators fuel s' else s
           | [] => s
           end
  | _, _ => s
  end.

Fixpoint skip_name (s : chars) : chars :=
  match s with
  | c :: s' => if Ascii.eqb c SLASH then s else skip_name s'
  | [] => []
  end.

(** [Path::parent]. *)
Definition path_parent (p : string) : option string :=
  let s := rev (String.list_ascii_of_string p) in
  match skip_separators (length s) s with
  | [] => None
  | s' =>
      let r := skip_name s' in
      Some match r, skip_separators (length r) r with
           | [], _ => ""%string
           | _, [] => "/"%string
           | _, q => String.string_of_list_ascii (rev q)
           end
  end.

(** [path.parent().filter(|p| !p.as_os_str().is_empty())]. *)
Definition parent_dir (p : string) : option string :=
  d ← path_parent p; if String.eqb d "" then None else Some d.
End paths.

(** ** Files *)

Abbreviation Files := (gmap string File).

(** The files now, and all the states they were in before, latest last. *)
Record Fs := { files : Files; past : list Files }.

Record IoError := { already_exists : bool; io_text : string }.

(** The failures of the calls to the system in one run. A failed [write_all]
    leaves a part of its text. The temporary file is created in some directory
    under a name of the [tempfile] crate, with some mode. *)
Record FileIo := {
  tmp_name : string;
  tmp_mode : Z;
  mkdir_io : option string;
  create_io : option string;
  chmod_io : option string;
  write_io : option (string * string);
  flush_io : option string;
  sync_io : option string;
  persist_io : option string;
  drop_io : bool
}.

(** A call that may change the files. *)
Definition sys {A} (f : Files -> outcome IoError A * Files) : M Fs IoError A := fun w =>
  let '(r, m) := f (files w) in (r, {| files := m; past := past w ++ [files w] |}).

Definition io_failed {A} (text : string) : outcome IoError A := Err {| already_exists := false; io_text := text |}.

(** A call on a file that the process has open. *)
Definition on_file (fault : option string) (name : string) (g : File -> File) : M Fs IoError unit :=
  sys (fun m => match fault with Some e => (io_failed e, m) | None => (Ret tt, alter g name m) end).

(** [NamedTempFile::new_in]. *)
Definition new_in (io : FileIo) (dir : string) : M Fs IoError string :=
  let name := path_join dir (tmp_name io) in
  sys (fun m => match create_io io, m !! name with
                | None, None => (Ret name, <[name := {| contents := ""; mode := tmp_mode io |}]> m)
                | Some e, _ => (io_failed e, m)
                | None, Some _ => (Err {| already_exists := true; io_text := "File exists" |}, m)
                end).

Definition set_permissions (io : FileIo) (name : string) (perm : Z) : M Fs IoError unit :=
  on_file (chmod_io io) name (fun f => {| contents := contents f; mode := perm |}).

(** [write_all] on a file that is still empty. *)
Definition write_body (io : FileIo) (name body : string) : M Fs IoError unit :=
  sys (fun m => match write_io io with
                | Some (part, e) => (io_failed e, alter (fun f => {| contents := part; mode := mode f |}) name m)
                | None => (Ret tt, alter (fun f => {| contents := body; mode := mode f |}) name m)
                end).

(** [persist_noclobber], on a file system whose rename can refuse to replace (on
    others, both names exist for a moment). *)
Definition persist_noclobber (io : FileIo) (name path : string) : M Fs IoError unit :=
  sys (fun m => match persist_io io, m !! path, m !! name with
                | Some e, _, _ => (io_failed e, m)
                | None, Some _, _ => (Err {| already_exists := true; io_text := "File exists" |}, m)
                | None, None, Some f => (Ret tt, <[path := f]> (delete name m))
                | None, None, None => (io_failed "No such file or directory", m)
                end).

(** [Drop for NamedTempFile]. *)
Definition drop_tmp {E} (io : FileIo) (name : string) : M Fs E unit := fun w =>
  (Ret tt, {| files := if drop_io io then files w else delete name (files w); past := past w ++ [files w] |}).

(** The [ErrorKind] of a command's error. *)
Inductive CmdError :=
  | InitE (m : message)
  | GenericE (m : message)
  | StoreE (e : keystore_error).

Definition write_failed (path error : string) : CmdError :=
  InitE (Fl "cmd-generate-encryption-identity-write-failed" [("path", Text path); ("error", Text error)]%string).

Definition identity_exists (path : string) : CmdError :=
  InitE (Fl "cmd-generate-encryption-identity-exists" [("path", Text path)]%string).

(** The calls between the creation of the temporary file and its end. *)
Definition stage (io : FileIo) (f path body : string) : M Fs CmdError unit :=
  _ ← with_err (fun e => write_failed path (io_text e))
    (_ ← set_permissions io f 0x180;
     _ ← write_body io f body;
     _ ← on_file (flush_io io) f (fun x => x);
     on_file (sync_io io) f (fun x => x));
  with_err (fun e => if already_exists e then identity_exists path else write_failed path (io_text e))
    (persist_noclobber io f path).

(** An early return drops the temporary file. *)
Definition write_identity_file (io : FileIo) (path body : string) : M Fs CmdError unit :=
  let parent := default "."%string (parent_dir path) in
  f ← with_err (fun e => write_failed path (io_text e)) (new_in io parent);
  r ← attempt (stage io f path body);
  match r with
  | inl e => _ ← drop_tmp io f; throw e
  | inr _ => mret tt
  end.

(** ** The identity *)

(** The [age] crate: native identities ([X25519], which [boxed] stores among the
    identities of any kind), encryption of a text with a passphrase in the
    armored form, files of encrypted data, and identity files. Errors are their
    texts. *)
Class AgeFiles `{KeyCrypto} := {
  X25519 : Type;
  boxed : X25519 -> Identity;
  public_string : X25519 -> string;
  secret_string : X25519 -> string;
  wrap_passphrase : string -> string -> string + string;
  Decryptor : Type;
  decryptor_new : string -> option Decryptor;
  passphrase_encrypted : Decryptor -> bool;
  IdentityFile : Type;
  (** [EncryptedIdentity::decrypt], with the passphrase that the callbacks give. *)
  decrypt_identity : Decryptor -> option string -> string + IdentityFile;
  parse_identity_file : string -> string + IdentityFile;
  into_identities : IdentityFile -> string + list Identity;
  write_recipients_file : IdentityFile -> string + string;
  fp_string : Fingerprint -> string
}.

(** [map_err(|e| ErrorKind::_.context(e))]. *)
Definition from_sum {A} (kind : message -> CmdError) (r : string + A) : outcome CmdError A :=
  match r with inl e => Err (kind (Text e)) | inr a => Ret a end.

Definition fallible (kind : message -> CmdError) (fault : option string) : outcome CmdError unit :=
  match fault with Some e => Err (kind (Text e)) | None => Ret tt end.

Section identity.
Context `{AgeFiles}.

Definition encrypt_identity (rendered passphrase : string) : outcome CmdError string :=
  from_sum GenericE (wrap_passphrase passphrase rendered).

(** [now] is the time of day as RFC 3339 text, when it can be written so. *)
Definition encode_identity (now : option string) (identity : X25519) (passphrase : option string) :
    outcome CmdError string :=
  let rendered :=
    (match now with Some created => writeln ("# created: " +:+ created) | None => "" end
     +:+ writeln ("# public key: " +:+ public_string identity)
     +:+ writeln (secret_string identity))%string in
  match passphrase with
  | Some passphrase => encrypt_identity rendered passphrase
  | None => Ret rendered
  end.

(** The variable [ZALLET_IDENTITY_PASSPHRASE], if it is set to Unicode text, and the
    answers to prompts. *)
Record Terminal := {
  passphrase_env : option string;
  passphrase_prompt : string + string;
  confirm_prompt : string + string
}.

Definition read_passphrase (t : Terminal) : outcome CmdError string :=
  match passphrase_env t with
  | Some passphrase => Ret passphrase
  | None =>
      passphrase ← from_sum GenericE (passphrase_prompt t);
      confirm ← from_sum GenericE (confirm_prompt t);
      if String.eqb passphrase confirm then Ret passphrase
      else Err (GenericE (Fl "cmd-generate-encryption-identity-passphrase-mismatch" []))
  end.

(** What a command reads and changes: the files, the keystore's tables, and what
    it has printed. *)
Record World := {
  fs : Fs;
  db : database;
  stdout : list message;
  stderr : list message
}.

Definition on_fs {A} (m : M Fs CmdError A) : M World CmdError A := fun w =>
  let '(r, f) := m (fs w) in (r, {| fs := f; db := db w; stdout := stdout w; stderr := stderr w |}).

Definition on_db {A} (m : M database keystore_error A) : M World CmdError A := fun w =>
  let '(r, d) := m (db w) in
  (map_err StoreE r, {| fs := fs w; db := d; stdout := stdout w; stderr := stderr w |}).

Definition println {E} (m : message) : M World E unit := fun w =>
  (Ret tt, {| fs := fs w; db := db w; stdout := stdout w ++ [m]; stderr := stderr w |}).

Definition eprintln {E} (m : message) : M World E unit := fun w =>
  (Ret tt, {| fs := fs w; db := db w; stdout := stdout w; stderr := stderr w ++ [m] |}).

Record GenerateEncryptionIdentityCmd := { output : option string; passphrase : bool }.

(** What one run of [generate-encryption-identity] draws and is told. *)
Record IdentityRun := {
  identity : X25519;
  now : option string;
  terminal : Terminal;
  file_io : FileIo;
  stdout_io : option string;
  configured : outcome CmdError string
}.

Definition output_path (r : IdentityRun) (cmd : GenerateEncryptionIdentityCmd) : outcome CmdError (option string) :=
  match output cmd with
  | None => path ← configured r; Ret (Some path)
  | Some path => Ret (if String.eqb path "-" then None else Some path)
  end.

(** [create_dir_all] of the parent, when there is one. *)
Definition create_parent (io : FileIo) (path : string) : outcome CmdError unit :=
  match parent_dir path with
  | Some _ => match mkdir_io io with Some e => Err (write_failed path e) | None => Ret tt end
  | None => Ret tt
  end.

Definition chosen_passphrase (t : Terminal) (cmd : GenerateEncryptionIdentityCmd) : outcome CmdError (option string) :=
  if passphrase cmd then p ← read_passphrase t; Ret (Some p) else Ret None.

Definition generate_encryption_identity (r : IdentityRun) (cmd : GenerateEncryptionIdentityCmd) :
    M World CmdError unit :=
  passphrase ← lift (chosen_passphrase (terminal r) cmd);
  body ← lift (encode_identity (now r) (identity r) passphrase);
  target ← lift (output_path r cmd);
  match target with
  | Some path =>
      _ ← lift (create_parent (file_io r) path);
      _ ← on_fs (write_identity_file (file_io r) path body);
      _ ← eprintln (Fl "cmd-generate-encryption-identity-written" [("path", Text path)]%string);
      eprintln (Fl "cmd-generate-encryption-identity-public-key"
        [("pubkey", Text (public_string (identity r)))]%string)
  | None =>
      _ ← lift (fallible GenericE (stdout_io r));
      println (Text body)
  end.

(** ** Reading it: [KeyStore::new] *)

(** The parts of a [KeyStore] that it sets from the file: the ciphertext of
    identities that are decrypted when the keystore is unlocked, and the identities
    at hand. *)
Record KeyStore := { encrypted_identities : option string; identities : list Identity }.

(** The failures of reading the file, first to decide what it is and then as an
    identity file. *)
Record ReadIo := { open_io : option string; reopen_io : option string }.

(** [IdentityFile::from_file]. *)
Definition identity_file_from (kind : message -> CmdError) (fault : option string) (m : Files) (path : string) :
    outcome CmdError IdentityFile :=
  _ ← fallible kind fault;
  f ← ok_or (m !! path) (kind (Text "No such file or directory"));
  from_sum kind (parse_identity_file (contents f)).

Definition keystore_new (io : ReadIo) (path : string) (m : Files) : outcome CmdError KeyStore :=
  f ← ok_or (m !! path) (InitE (Fl "err-init-identity-not-found" [("path", Text path)]%string));
  _ ← fallible InitE (open_io io);
  let identity_data := contents f in
  match decryptor_new identity_data with
  | Some decryptor =>
      if passphrase_encrypted decryptor then
        Ret {| encrypted_identities := Some identity_data; identities := [] |}
      else Err (InitE (Fl "err-init-identity-not-passphrase-encrypted" [("path", Text path)]%string))
  | None =>
      identity_file ← identity_file_from InitE (reopen_io io) m path;
      ids ← from_sum (fun e => InitE (Fl "err-init-identity-not-usable"
              [("path", Text path); ("error", e)]%string)) (into_identities identity_file);
      Ret {| encrypted_identities := None; identities := ids |}
  end.

(** [KeyStore::decrypt_identity_file]; the callbacks give a passphrase or none. *)
Definition decrypt_identity_file (ks : KeyStore) (callbacks : option string) :
    outcome CmdError (option IdentityFile) :=
  match encrypted_identities ks with
  | None => Ret None
  | Some data =>
      decryptor ← expect (decryptor_new data);
      _ ← assert (passphrase_encrypted decryptor);
      f ← from_sum GenericE (decrypt_identity decryptor callbacks);
      Ret (Some f)
  end.

(** The identities that [KeyStore::unlock] puts in the cache, when it succeeds. *)
Definition unlocked_identities (ks : KeyStore) (passphrase : string) : option (list Identity) :=
  match decrypt_identity_file ks (Some passphrase) with
  | Ret (Some identity_file) => match into_identities identity_file with inr ids => Some ids | inl _ => None end
  | _ => None
  end.
End identity.

(** ** Theorems *)

(** *** Writing *)

Example path_parent_examples :
  path_parent "/home/u/.zallet/identity.txt" = Some "/home/u/.zallet"%string /\
  path_parent "identity.txt" = Some ""%string /\ path_parent "/identity.txt" = Some "/"%string /\
  path_parent "a//b/" = Some "a"%string /\ path_parent "./b/." = Some "."%string /\
  path_parent "/" = None /\ path_parent "" = None.
Proof. vm_compute. done. Qed.

(** The name under which the identity is staged. *)
Definition staging_path (io : FileIo) (path : string) : string :=
  path_join (default "."%string (parent_dir path)) (tmp_name io).

Definition private_file (body : string) : File := {| contents := body; mode := 0x180 |}.

(** What another process, or a crash, can find in the place of [m]: [m] itself; [m]
    with a temporary file, which only its owner can read once it has contents; or
    [m] with the complete new file, where there was none. *)
Definition visible (t path body : string) (m m' : Files) : Prop :=
  m' = m \/
  (m !! t = None /\ exists f, m' = <[t := f]> m /\ (contents f = "" \/ mode f = 0x180)) \/
  (m !! path = None /\ m' = <[path := private_file body]> m).

(** The calls to the system succeed. *)
Definition calls_succeed (io : FileIo) : Prop :=
  create_io io = None /\ chmod_io io = None /\ write_io io = None /\ flush_io io = None /\
  sync_io io = None /\ persist_io io = None.

Lemma alter_here {A} (g : A -> A) (t : string) f (m : gmap string A) :
  alter g t (<[t := f]> m) = <[t := g f]> m.
Proof. apply map_eq. intros k. destruct (decide (k = t)) as [->|Hk]; by simplify_map_eq. Qed.

Lemma delete_here {A} (t : string) f (m : gmap string A) : m !! t = None -> delete t (<[t := f]> m) = m.
Proof. intros Ht. by rewrite delete_insert_id. Qed.

(** What [stage] does from a directory with the empty temporary file. *)
Lemma stage_spec io t path body m w :
  m !! t = None -> t <> path -> (exists f, files w = <[t := f]> m /\ contents f = "") ->
  exists r w' l, stage io t path body w = (r, w') /\ past w' = past w ++ l /\
    Forall (visible t path body m) l /\
    match r with
    | Ret _ => m !! path = None /\ files w' = <[path := private_file body]> m
    | Err e => (exists f, files w' = <[t := f]> m /\ (contents f = "" \/ mode f = 0x180)) /\
               (calls_succeed io -> m !! path <> None /\ e = identity_exists path)
    | Panic => False
    end.
Proof.
  intros Ht Hne (f & Hf & He).
  assert (forall g, contents g = "" \/ mode g = 0x180 -> visible t path body m (<[t := g]> m)) as Hv
    by (intros g Hg; right; left; eauto).
  unfold stage, set_permissions, write_body, on_file, persist_noclobber, calls_succeed, sys, io_failed, with_err,
    mbind, M_bind. cbn [files past].
  destruct (chmod_io io) as [e|]; [|destruct (write_io io) as [[part e]|]; [|destruct (flush_io io) as [e|];
    [|destruct (sync_io io) as [e|]; [|destruct (persist_io io) as [e|]; [|destruct (m !! path) as [g|] eqn:Hp]]]]];
    cbn; rewrite ?Hf, ?alter_here; cbn; rewrite ?lookup_insert_ne, ?Hp, ?lookup_insert_eq, ?delete_here by done;
    cbn; (eexists _, _, _; split; [done|]; cbn; rewrite <- ?app_assoc; split; [done|];
          split; [repeat first [constructor 1|apply Forall_cons_2; [apply Hv; cbn; tauto|]]|]);
    try (split; [eexists; split; [done|cbn; tauto]|by intros (?&?&?&?&?&?)]); done.
Qed.

(** Where there is no identity and nothing fails, the file is written. *)
Lemma write_identity_file_ok io path body w :
  let t := staging_path io path in
  t <> path -> calls_succeed io -> files w !! t = None -> files w !! path = None ->
  exists w', write_identity_file io path body w = (Ret tt, w') /\
    files w' = <[path := private_file body]> (files w).
Proof.
  intros t Hne Hok Ht Hp. unfold write_identity_file. fold (staging_path io path). unfold new_in, sys, with_err.
  change (path_join _ (tmp_name io)) with t. unfold mbind, M_bind. cbn.
  rewrite (proj1 Hok), Ht. cbn.
  set (w1 := {| files := _; past := _ |}).
  destruct (stage_spec io t path body (files w) w1 Ht Hne) as (r & w' & l & Hs & _ & _ & Hr); [by eexists|].
  unfold attempt. rewrite Hs. destruct r as [[]|e|]; [|by destruct Hr as [_ Hr]; destruct (Hr Hok)|done].
  exists w'. by split; [|apply Hr].
Qed.

(** C15. Whatever calls fail, every state the files go through is the old one,
    the old one with a temporary file that only its owner can read once it has
    contents, or the old one with the complete private identity where there
    was none; an existing identity is never replaced, a failure leaves the
    destination as it was and cleans up, and without failures the outcome is
    decided by whether an identity exists. *)
Theorem write_identity_file_safe io path body w :
  let t := staging_path io path in
  let m := files w in
  t <> path ->
  exists r w' (l : list Files), write_identity_file io path body w = (r, w') /\ past w' = past w ++ l /\
    Forall (visible t path body m) (l ++ [files w']) /\
    match r with
    | Ret _ => m !! path = None /\ files w' = <[path := private_file body]> m
    | Err _ => files w' !! path = m !! path /\ (drop_io io = false -> files w' = m)
    | Panic => False
    end /\
    (calls_succeed io -> m !! t = None ->
       r = match m !! path with Some _ => Err (identity_exists path) | None => Ret tt end).
Proof.
  intros t m Hne. unfold write_identity_file. fold (staging_path io path). unfold new_in, sys, with_err.
  change (path_join _ (tmp_name io)) with t.
  unfold mbind, M_bind. cbn. fold m. assert (visible t path body m m) as Hm by by left.
  destruct (create_io io) as [e|] eqn:Hc; [|destruct (m !! t) as [f|] eqn:Ht].
  - eexists _, _, [m]. do 2 (split; [done|]). split; [by apply Forall_cons_2, Forall_singleton|].
    split; [done|]. intros (Hc' & _). congruence.
  - eexists _, _, [m]. do 2 (split; [done|]). by split; [apply Forall_cons_2, Forall_singleton|].
  - set (w1 := {| files := <[t := {| contents := ""; mode := tmp_mode io |}]> m; past := past w ++ [m] |}).
    destruct (stage_spec io t path body m w1 Ht Hne) as (r & w' & l & Hs & Hp & Hl & Hr); [by eexists|].
    unfold attempt. cbn. fold w1. rewrite Hs. clear Hs.
    destruct r as [[]|e|]; [| |done]; cbn.
    + destruct Hr as [Hnone Hw']. eexists _, _, ([m] ++ l). split; [done|].
      split; [|split; [|split; [done|by rewrite Hnone]]].
      * rewrite Hp. cbn. by rewrite <- app_assoc.
      * apply Forall_cons_2; [done|]. apply Forall_app_2; [done|]. apply Forall_singleton. right. by right.
    + destruct Hr as [(f & Hw' & Hf) He]. eexists _, _, ([m] ++ l ++ [files w']). split; [done|].
      split; [|split; [|split; [split|]]].
      * cbn. rewrite Hp. cbn. by rewrite <- !app_assoc.
      * apply Forall_cons_2; [done|]. apply Forall_app_2; [apply Forall_app_2; [done|]|].
        { apply Forall_singleton. right. left. eauto. } apply Forall_singleton. cbn.
        destruct (drop_io io); [right; left; eauto|left]. rewrite Hw'. by apply delete_here.
      * cbn. rewrite Hw'. destruct (drop_io io); [by simplify_map_eq|]. by rewrite delete_here.
      * intros Hd. cbn. rewrite Hd, Hw'. by apply delete_here.
      * intros Hok _. destruct (He Hok) as [Hex ->]. by destruct (m !! path).
Qed.

(** *** Reading back *)

(** The lines of an identity file that are not empty and not comments. *)
Definition identity_line (l : string) : bool := negb (String.eqb l "" || starts_with "#" l).

(** What the documentation of [age] promises: an identity file is a list of
    identities, one to a line, with comments, whose recipients can be listed unless
    it has no identity; it is told from an encrypted file by
    its beginning; a passphrase opens what it encrypted, and no other does; keys
    are printable, and the recipients of identities are theirs. *)
Class AgeFileLaws `{AgeFiles} (matching : list Identity -> list Recipient -> Prop) := {
  public_plain : forall i, all_plain (public_string i) = true;
  secret_plain : forall i, all_plain (secret_string i) = true;
  secret_prefix : forall i, starts_with "AGE-SECRET-KEY-1" (secret_string i) = true;
  identity_file_format : forall text ids, ids <> [] ->
    List.filter identity_line (lines text) = secret_string <$> ids ->
    exists f, parse_identity_file text = inr f /\ into_identities f = inr (boxed <$> ids) /\
      write_recipients_file f = inr (unlines (public_string <$> ids));
  comment_not_encrypted : forall text, starts_with "#" text = true -> decryptor_new text = None;
  passphrase_round_trip : forall p text c, wrap_passphrase p text = inr c ->
    exists d, decryptor_new c = Some d /\ passphrase_encrypted d = true /\
      (forall f, parse_identity_file text = inr f -> decrypt_identity d (Some p) = inr f) /\
      (forall q, q <> Some p -> exists e, decrypt_identity d q = inl e);
  wrap_total : forall p text, exists c, wrap_passphrase p text = inr c;
  recipients_match : forall ids, ids <> [] ->
    exists rs, read_recipients (public_string <$> ids) = Some rs /\ matching (boxed <$> ids) rs;
  read_no_recipients : read_recipients [] <> None;
  encrypt_total : forall ids rs x, ids <> [] -> matching ids rs -> age_encrypt rs x <> None
}.

(** Characters that do not end a line. *)
Fixpoint no_breaks (s : string) : bool :=
  match s with
  | EmptyString => true
  | String c s => negb (Ascii.eqb c LF) && negb (Ascii.eqb c CR) && no_breaks s
  end.

Lemma no_breaks_app a b : no_breaks (a +:+ b)%string = no_breaks a && no_breaks b.
Proof. induction a as [|c a IH]; [done|]. rewrite append_cons. cbn. by rewrite IH, !andb_assoc. Qed.

Lemma plain_no_breaks s : all_plain s = true -> no_breaks s = true.
Proof.
  induction s as [|c s IH]; [done|]. cbn. intros [Hc Hs]%andb_true_iff. rewrite IH by done.
  rewrite andb_true_r. unfold plain in Hc. apply andb_true_iff in Hc as [Hc _]. apply Z.leb_le in Hc.
  apply andb_true_iff. split; apply negb_true_iff, Ascii.eqb_neq; intros ->; by compute in Hc.
Qed.

Lemma no_breaks_no_lf s : no_breaks s = true -> no_lf s = true.
Proof.
  induction s as [|c s IH]; [done|]. cbn. intros [[Hc _]%andb_true_iff Hs]%andb_true_iff. by rewrite Hc, IH.
Qed.

Lemma no_breaks_strip s : no_breaks s = true -> strip_cr s = s.
Proof.
  induction s as [|c [|d s] IH]; [done| |].
  - cbn. intros [[_ Hc]%andb_true_iff _]%andb_true_iff. apply negb_true_iff in Hc. by rewrite Hc.
  - intros Hs. change (String c (strip_cr (String d s)) = String c (String d s)). rewrite IH; [done|].
    cbn in *. by apply andb_true_iff in Hs as [_ Hs].
Qed.

Lemma lines_unlines ls : Forall (fun l => no_breaks l = true) ls -> lines (unlines ls) = ls.
Proof.
  intros Hls. unfold lines. rewrite split_lf_unlines by (eapply Forall_impl; eauto using no_breaks_no_lf).
  rewrite removelast_last, last_snoc, app_nil_r.
  induction Hls as [|l ls Hl _ IH]; [done|]. cbn. by rewrite no_breaks_strip, IH.
Qed.

Lemma starts_with_weaken p q s : starts_with (p +:+ q) s = true -> starts_with p s = true.
Proof.
  unfold starts_with. revert s. induction p as [|c p IH]; intros s; [by destruct s|].
  rewrite append_cons. destruct s as [|d s]; [done|]. cbn. case_match; [apply IH|done].
Qed.

Section reading.
Context `{HL : AgeFileLaws}.

(** The lines of an identity file of this program. *)
Definition rendered_lines (now : option string) (i : X25519) : list string :=
  (match now with Some created => [("# created: " +:+ created)%string] | None => [] end)
  ++ [("# public key: " +:+ public_string i)%string; secret_string i].

Lemma secret_identity_line i : identity_line (secret_string i) = true.
Proof.
  pose proof (secret_prefix i) as Hp. unfold identity_line, starts_with in *.
  destruct (secret_string i) as [|c s]; [done|]. cbn in *. case_match; [by subst|done].
Qed.

(** The two forms of the body of an identity file. *)
Lemma encode_identity_spec now i p :
  (forall created, now = Some created -> all_plain created = true) ->
  exists text, starts_with "#" text = true /\
    encode_identity now i p = match p with Some p => from_sum GenericE (wrap_passphrase p text) | None => Ret text end /\
    exists f, parse_identity_file text = inr f /\ into_identities f = inr [boxed i] /\
      write_recipients_file f = inr (unlines [public_string i]).
Proof.
  intros Hnow. set (text := unlines (rendered_lines now i)). exists text.
  assert (Forall (fun l => no_breaks l = true) (rendered_lines now i)) as Hb.
  { unfold rendered_lines. apply Forall_app. split.
    - destruct now; constructor; [|done]. rewrite no_breaks_app. by rewrite (plain_no_breaks s) by auto.
    - repeat constructor; [|by apply plain_no_breaks, secret_plain].
      rewrite no_breaks_app. by rewrite (plain_no_breaks (public_string i)) by apply public_plain. }
  split_and!.
  - unfold text, rendered_lines. by destruct now.
  - assert (text = (match now with Some created => writeln ("# created: " +:+ created) | None => "" end
      +:+ writeln ("# public key: " +:+ public_string i) +:+ writeln (secret_string i))%string) as Ht.
    { unfold text, rendered_lines. rewrite unlines_app. unfold unlines. cbn [fmap list_fmap concat_text foldr].
      rewrite append_nil_r. destruct now; cbn [fmap list_fmap concat_text foldr]; by rewrite ?append_nil_r. }
    unfold encode_identity. rewrite <- Ht. by destruct p.
  - apply (identity_file_format text [i]); [done|]. unfold text. rewrite lines_unlines by done.
    unfold rendered_lines. rewrite List.filter_app. cbn [List.filter]. rewrite secret_identity_line.
    by destruct now.
Qed.

(** A keystore over a file that encodes an identity. *)
Definition opens_with (p : option string) (ids : list Identity) (ks : KeyStore) : Prop :=
  match p with
  | None => encrypted_identities ks = None /\ identities ks = ids
  | Some p => encrypted_identities ks <> None /\ identities ks = [] /\ unlocked_identities ks p = Some ids /\
      forall q, q <> p -> unlocked_identities ks q = None
  end.

(** What is read from a file that encodes an identity. *)
Lemma encoded_identity_read now i p body :
  (forall created, now = Some created -> all_plain created = true) ->
  encode_identity now i p = Ret body ->
  exists f ks, opens_with p [boxed i] ks /\
    into_identities f = inr [boxed i] /\ write_recipients_file f = inr (unlines [public_string i]) /\
    decrypt_identity_file ks p = Ret (match p with Some _ => Some f | None => None end) /\
    (p = None -> parse_identity_file body = inr f) /\
    forall io path m, m !! path = Some (private_file body) -> open_io io = None -> reopen_io io = None ->
      keystore_new io path m = Ret ks.
Proof.
  intros Hnow Henc. destruct (encode_identity_spec now i p Hnow) as (text & Hs & Heq & f & Hf & Hids & Hrec).
  rewrite Henc in Heq. exists f. unfold opens_with, unlocked_identities, decrypt_identity_file. destruct p as [p|].
  - destruct (wrap_passphrase p text) as [|c] eqn:Hw; [done|]. injection Heq as ->.
    destruct (passphrase_round_trip p text c Hw) as (d & Hd & Hp & Hdec & Hwrong).
    exists {| encrypted_identities := Some c; identities := [] |}. cbn. rewrite Hd. cbn. rewrite Hp. cbn.
    rewrite (Hdec f Hf). cbn. rewrite Hids. split_and!; try done.
    + intros q Hq. destruct (Hwrong (Some q)) as [e ->]; [congruence|done].
    + intros io path m Hm Ho _. unfold keystore_new. rewrite Hm. cbn. rewrite Ho. cbn. by rewrite Hd, Hp.
  - injection Heq as ->. exists {| encrypted_identities := None; identities := [boxed i] |}. split_and!; try done.
    intros io path m Hm Ho Hr. unfold keystore_new, identity_file_from. rewrite Hm. cbn. rewrite Ho. cbn.
    rewrite (comment_not_encrypted text Hs), Hr. cbn. rewrite Hf. cbn. by rewrite Hids.
Qed.

(** The keystore opens on the file of an identity, and has the identity: at once, or
    after unlocking with the passphrase it was encrypted with. *)
Theorem identity_file_opens now i p path body m io :
  (forall created, now = Some created -> all_plain created = true) ->
  encode_identity now i p = Ret body -> m !! path = Some (private_file body) ->
  open_io io = None -> reopen_io io = None ->
  exists ks, keystore_new io path m = Ret ks /\ opens_with p [boxed i] ks.
Proof.
  intros Hnow Henc Hm Ho Hr. destruct (encoded_identity_read now i p body Hnow Henc) as (f & ks & Hks & _ & _ & _ & _ & Hnew).
  exists ks. split; [by apply Hnew|done].
Qed.
End reading.

(** *** A concrete instance: two identities, and a framing as "encryption" *)

Fixpoint toy_frame (p : string) : string :=
  match p with
  | EmptyString => "."
  | String c p => String "x" (String c (toy_frame p))
  end.

Definition toy_secret (b : bool) : string := if b then "AGE-SECRET-KEY-1A" else "AGE-SECRET-KEY-1B".
Definition toy_public (b : bool) : string := if b then "age1a" else "age1bc".

Fixpoint toy_parse (ls : list string) : string + list bool :=
  match ls with
  | [] => inr []
  | l :: ls =>
      match (if String.eqb l (toy_secret true) then Some true
             else if String.eqb l (toy_secret false) then Some false else None), toy_parse ls with
      | Some b, inr bs => inr (b :: bs)
      | _, _ => inl "not an identity"%string
      end
  end.

Definition toy_parse_file (text : string) : string + list bool := toy_parse (List.filter identity_line (lines text)).

Definition toy_boxed (b : bool) : Z := if b then 5 else 6.

Definition toy_age : @AgeFiles example_crypto := {|
  X25519 := bool;
  boxed := toy_boxed : bool -> @Identity example_crypto;
  public_string := toy_public;
  secret_string := toy_secret;
  wrap_passphrase p text := inr (String "!" (toy_frame p +:+ text));
  Decryptor := string;
  decryptor_new c := strip_prefix "!" c;
  passphrase_encrypted _ := true;
  IdentityFile := list bool;
  decrypt_identity d p :=
    match p with
    | Some p => match strip_prefix (toy_frame p) d with Some text => toy_parse_file text
                | None => inl "wrong passphrase"%string end
    | None => inl "no passphrase"%string
    end;
  parse_identity_file := toy_parse_file;
  into_identities f := inr (toy_boxed <$> f);
  write_recipients_file f :=
    match f with [] => inl "no identities"%string | _ => inr (unlines (toy_public <$> f)) end;
  fp_string _ := "fp"%string |}.

Lemma toy_frame_strip q p t :
  strip_prefix (toy_frame q) (toy_frame p +:+ t) = if String.eqb q p then Some t else None.
Proof.
  revert p. induction q as [|c q IH]; intros [|d p]; cbn [toy_frame]; rewrite ?append_cons; try done.
  cbn. destruct (Ascii.eqb c d); [apply IH|done].
Qed.

Lemma toy_parse_secrets ids : toy_parse (toy_secret <$> ids) = inr ids.
Proof. induction ids as [|[] ids IH]; cbn in *; by rewrite ?IH. Qed.

Lemma toy_age_laws : @AgeFileLaws example_crypto toy_age example_matching.
Proof.
  constructor; try (by intros []); try done.
  - intros text ids Hne Ht. exists ids. cbn in *. unfold toy_parse_file. rewrite Ht, toy_parse_secrets. by destruct ids.
  - intros text. unfold starts_with. destruct text as [|c text]; [done|]. cbn. case_match; [by subst|done].
  - intros p text c Hw. injection Hw as <-. eexists. split; [done|]. split; [done|]. split.
    + intros f Hf. cbn in *. by rewrite toy_frame_strip, String.eqb_refl.
    + intros [q|] Hq; cbn; [|by eexists]. rewrite toy_frame_strip.
      destruct (String.eqb_spec q p); [congruence|by eexists].
  - intros p text. by eexists.
  - intros ids _. eexists. split; [done|]. unfold example_matching. induction ids as [|[] ids IH]; [done| |];
      cbn in *; by rewrite IH.
  - intros ids rs x Hne Hm. unfold example_matching in Hm. subst. by destruct rs.
Defined.

Definition quiet_io : FileIo := {|
  tmp_name := ".tmpQ"; tmp_mode := 0x180; mkdir_io := None; create_io := None; chmod_io := None;
  write_io := None; flush_io := None; sync_io := None; persist_io := None; drop_io := false |}.

(** A second identity is refused, and the first stays. *)
Lemma write_identity_file_safe_witness :
  exists w', write_identity_file quiet_io "d/identity.txt" "new"
    {| files := {["d/identity.txt" := private_file "old"]}; past := [] |} =
      (Err (identity_exists "d/identity.txt"), w') /\
    files w' = {["d/identity.txt" := private_file "old"]}.
Proof.
  destruct (write_identity_file_safe quiet_io "d/identity.txt" "new"
    {| files := {["d/identity.txt" := private_file "old"]}; past := [] |} ltac:(by vm_compute))
    as (r & w' & l & Hr & _ & _ & Hfin & Hok).
  exists w'. rewrite Hr. specialize (Hok ltac:(done) ltac:(by vm_compute)). cbn [files] in Hok.
  rewrite lookup_singleton_eq in Hok. subst r. split; [done|]. by apply Hfin.
Defined.

Lemma identity_file_opens_witness :
  exists ks, @keystore_new _ toy_age {| open_io := None; reopen_io := None |} "i"
      {["i" := private_file (String "!" (toy_frame "pw" +:+
         unlines ["# created: 2026-01-01T00:00:00Z"; "# public key: age1a"; "AGE-SECRET-KEY-1A"]))]} = Ret ks /\
    @unlocked_identities _ toy_age ks "pw" = Some [5] /\ @unlocked_identities _ toy_age ks "no" = None.
Proof.
  destruct (@identity_file_opens _ toy_age example_matching toy_age_laws (Some "2026-01-01T00:00:00Z"%string) true
    (Some "pw"%string) "i"
    (String "!" (toy_frame "pw" +:+
         unlines ["# created: 2026-01-01T00:00:00Z"; "# public key: age1a"; "AGE-SECRET-KEY-1A"]))
    {["i" := private_file (String "!" (toy_frame "pw" +:+
         unlines ["# created: 2026-01-01T00:00:00Z"; "# public key: age1a"; "AGE-SECRET-KEY-1A"]))]}
    {| open_io := None; reopen_io := None |}) as (ks & Hks & _ & _ & Hu & Hn).
  - by intros ? [= <-].
  - by vm_compute.
  - by rewrite lookup_singleton_eq.
  - done.
  - done.
  - exists ks. split; [exact Hks|]. split; [exact Hu|]. by apply Hn.
Defined.
