(* ===== verification/Commands.v ===== *)
(** The commands around the keystore, and [start]
    (src/zallet/src/commands/init_wallet_encryption.rs, generate_mnemonic.rs,
    import_mnemonic.rs, export_mnemonic.rs,
    regtest/generate_account_and_miner_address.rs, repair/truncate_wallet.rs,
    start.rs, and [run_on_runtime] of commands.rs).

    The state is the world of [Identity] and, for the commands that use it, the
    wallet's; the wallet database's operations are [WalletOps]. Opening the database
    ([WalletDb]) gives a result here. *)

From stdpp Require Import gmap strings.
From S2P Require Import Prelude Rpc Text Amount Network Auth Config KeystoreStore Identity.

(** Mnemonics: [from_entropy] of the [bip0039] crate, phrases as the bytes that are
    encrypted, and the text in which ciphertexts are printed. *)
Class MnemonicOps `{KeyCrypto} := {
  from_entropy : list Byte.byte -> option Mnemonic;
  phrase_bytes : string -> Bytes;
  bytes_text : Bytes -> string
}.

(** What a command that locks the data directory is told by the system: [Config.lock_datadir]
    with the calls it makes, the results of [Database::open] and of its [handle], the configured path of the
    identity, reading it, the passphrase that the terminal gives for it, and the
    failure of writing to the standard output. *)
Record CommandIo := {
  datadir_path : string;
  create_lockfile : string -> string + unit;
  try_lock_exclusive : string -> string + option unit;
  database_open : outcome CmdError unit;
  database_handle : outcome CmdError unit;
  identity_path : outcome CmdError string;
  identity_io : ReadIo;
  reread_io : option string;
  ui_passphrase : option string;
  out_io : option string
}.

Section keystore_commands.
Context `{AgeFiles, !MnemonicOps}.

#[local] Abbreviation Cmd := (M World CmdError).

Definition lock (io : CommandIo) : outcome CmdError unit :=
  map_err InitE (lock_datadir (create_lockfile io) (try_lock_exclusive io) (datadir_path io)).

(** [KeyStore::new] on the files of the world. *)
Definition open_keystore (io : CommandIo) : Cmd KeyStore :=
  path ← lift (identity_path io);
  m ← gets (fun w => files (fs w));
  lift (keystore_new (identity_io io) path m).

(** How these commands begin. *)
Definition start_command (io : CommandIo) : Cmd KeyStore :=
  _ ← lift (lock io);
  _ ← lift (database_open io);
  open_keystore io.

(** The identity file from which the recipients are taken. *)
Definition identity_file_of (io : CommandIo) (ks : KeyStore) : Cmd IdentityFile :=
  decrypted ← lift (decrypt_identity_file ks (ui_passphrase io));
  match decrypted with
  | Some identity_file => mret identity_file
  | None =>
      path ← lift (identity_path io);
      m ← gets (fun w => files (fs w));
      lift (identity_file_from GenericE (reread_io io) m path)
  end.

Definition recipient_lines (f : IdentityFile) : outcome CmdError (list string) :=
  text ← from_sum GenericE (write_recipients_file f);
  _ ← ensure (valid_utf8 text) (GenericE (Text "invalid utf-8 sequence"));
  Ret (lines text).

(** [init-wallet-encryption]; [time] is the time that the database records. *)
Definition init_wallet_encryption (io : CommandIo) (time : Z) : Cmd unit :=
  ks ← start_command io;
  identity_file ← identity_file_of io ks;
  strings ← lift (recipient_lines identity_file);
  on_db (initialize_recipients time strings).

Definition seed_fingerprint_message (fp : Fingerprint) : message :=
  Fl "cmd-seed-fingerprint" [("seedfp", Text (fp_string fp))]%string.

Definition store_and_print (mnemonic : Mnemonic) : Cmd unit :=
  seedfp ← on_db (encrypt_and_store_mnemonic mnemonic);
  println (seed_fingerprint_message seedfp).

(** [Count::Words24.entropy_bits() / 8]. *)
Definition ENTROPY_BYTES : nat := 32.

(** [generate-mnemonic]; [random n] is [n] bytes of the system's generator. *)
Definition generate_mnemonic (io : CommandIo) (random : nat -> list Byte.byte) : Cmd unit :=
  _ ← start_command io;
  mnemonic ← lift (expect (from_entropy (random ENTROPY_BYTES)));
  store_and_print mnemonic.

(** [import-mnemonic]; [prompt] is what the terminal gives. *)
Definition import_mnemonic (io : CommandIo) (prompt : string + string) : Cmd unit :=
  _ ← start_command io;
  phrase ← lift (from_sum GenericE prompt);
  mnemonic ← lift (ok_or (from_phrase (phrase_bytes phrase)) (GenericE (Text "invalid mnemonic")));
  store_and_print mnemonic.

(** [export-mnemonic]. [account] is what the wallet gives for the account's
    identifier: whether it has the account, and the seed fingerprint of its key
    derivation, if its keys are derived. *)
Definition export_mnemonic_command (io : CommandIo) (account : string + option (option Fingerprint)) (armored : bool) :
    Cmd unit :=
  _ ← lift (lock io);
  _ ← lift (database_open io);
  _ ← lift (database_handle io);
  ks ← open_keystore io;
  account ← lift (from_sum GenericE account);
  derivation ← lift (ok_or account (GenericE (Fl "err-account-not-found" [])));
  seed_fp ← lift (ok_or derivation (GenericE (Fl "err-account-no-payment-source" [])));
  encrypted_mnemonic ← on_db (export_mnemonic (identities ks) seed_fp armored);
  _ ← lift (fallible GenericE (out_io io));
  println (Text (bytes_text encrypted_mnemonic)).
End keystore_commands.

(** The wallet database, as the [zcash_client_sqlite] crate provides it: the height
    of its chain, the creation of an account at a birthday height, which gives the
    spending key, and truncation. [miner_address] is the default address of the
    internal transparent keys of an account, encoded. *)
Class WalletOps `{KeyCrypto} := {
  Wallet : Type;
  UnifiedSpendingKey : Type;
  chain_height : Wallet -> string + option Z;
  create_account : string -> Seed -> Z -> Wallet -> (string + UnifiedSpendingKey) * Wallet;
  miner_address : Network -> UnifiedSpendingKey -> string + string;
  truncate_to_height : Z -> Wallet -> (string + Z) * Wallet
}.

Section wallet_commands.
Context `{AgeFiles, !WalletOps}.

#[local] Abbreviation Cmd := (M (World * Wallet) CmdError).

Definition on_world {A} (m : M World CmdError A) : Cmd A := fun w =>
  let '(r, w') := m w.1 in (r, (w', w.2)).

Definition on_wallet {A} (f : Wallet -> (string + A) * Wallet) (kind : message -> CmdError) : Cmd A := fun w =>
  let '(r, v) := f w.2 in (from_sum kind r, (w.1, v)).

Definition init_text {A} (s : string) : Cmd A := throw (InitE (Text s)).

Definition miner_failed (m : message) : CmdError :=
  GenericE (Cat (Text "Failed to generate miner address: ") m).

(** [regtest generate-account-and-miner-address]. *)
Definition generate_account_and_miner_address (io : CommandIo) (params : Network) : Cmd unit :=
  _ ← lift (lock io);
  _ ← (match params with RegTest _ => mret tt | Consensus _ => init_text "Command only works on a regtest wallet" end);
  _ ← lift (database_open io);
  ks ← on_world (open_keystore io);
  _ ← lift (database_handle io);
  height ← gets (fun w => chain_height w.2);
  _ ← (match height with inr None => mret tt | _ => init_text "Command only works on a fresh wallet" end);
  seed_fps ← on_world (on_db list_seed_fingerprints);
  match seed_fps with
  | [] => init_text "Need to call generate-mnemonic or import-mnemonic first"
  | _ :: _ :: _ => init_text "This regtest API is not supported with multiple seeds"
  | [seed_fp] =>
      seed ← on_world (on_db (decrypt_seed (identities ks) seed_fp));
      usk ← on_wallet (create_account "Default account" seed 0) miner_failed;
      addr ← lift (from_sum miner_failed (miner_address params usk));
      on_world (println (Text addr))
  end.

(** [repair truncate-wallet]. *)
Definition truncate_wallet (io : CommandIo) (max_height : Z) : Cmd unit :=
  _ ← lift (lock io);
  _ ← lift (database_open io);
  _ ← lift (database_handle io);
  new_max_height ← on_wallet (truncate_to_height max_height) GenericE;
  on_world (println (Text (show_u64 new_max_height))).
End wallet_commands.

(** ** [start] *)

Inductive Task := ChainIndexer | RpcServer | SteadyState | RecoverHistory | BatchDecryptor | DataRequests.

#[export] Instance Task_eq_dec : EqDecision Task.
Proof. solve_decision. Defined.

(** What [start] does that is seen from outside. *)
Inductive StartEvent :=
  | WarnUnused (option : string)
  | Spawned (t : Task)
  | Exited (t : Task)
  | Aborted (t : Task).

Section start.
Context `{BranchOps} {Fp : Type}.

(** The options that are set and not used yet. *)
Definition unused_options (c : ZalletConfig Fp) : list string :=
  (if spend_zeroconf_change_opt (builder c) is Some _ then ["builder.spend_zeroconf_change"] else [])
  ++ (if tx_expiry_delta_opt (builder c) is Some _ then ["builder.tx_expiry_delta"] else [])
  ++ (if legacy_pool_seed_fingerprint (features c) is Some _ then ["features.legacy_pool_seed_fingerprint"] else [])
  ++ (if require_backup_opt (keystore c) is Some _ then ["keystore.require_backup"] else [])%string.

(** How a task ended, as its [JoinHandle] tells: a value, an error or a panic. *)
Abbreviation JoinResult := (outcome CmdError unit).

(** An arm of [select!]: the result of the task is logged. *)
Definition select_arm (join_result : JoinResult) : outcome CmdError (CmdError + unit) :=
  match join_result with
  | Panic => Panic
  | Ret _ | Err _ => Ret (inr tt)
  end.

Definition exit_when_task_finishes : bool := true.

Definition emit (e : StartEvent) : M (list StartEvent) CmdError unit := modify (fun l => l ++ [e]).

(** The loop, over the tasks in the order in which they end; [None] when it still
    waits. *)
Fixpoint wait_loop (ended : list (Task * JoinResult)) : M (list StartEvent) CmdError (option (CmdError + unit)) :=
  match ended with
  | [] => mret None
  | (t, join_result) :: ended =>
      result ← lift (select_arm join_result);
      _ ← emit (Exited t);
      match result with
      | inl e => mret (Some (inl e))
      | inr _ => if exit_when_task_finishes then mret (Some (inr tt)) else wait_loop ended
      end
  end.

Definition ALL_TASKS : list Task :=
  [ChainIndexer; RpcServer; SteadyState; RecoverHistory; BatchDecryptor; DataRequests].

(** The steps of the start-up, each of which may fail: locking the data directory,
    opening the database and the keystore, [factory.build], [JsonRpc::spawn]
    ([Auth.json_rpc_spawn]) and [WalletSync::spawn]. *)
Record StartUp := {
  start_lock : outcome CmdError unit;
  start_database : outcome CmdError unit;
  start_keystore : outcome CmdError unit;
  start_chain : outcome CmdError unit;
  start_rpc : outcome CmdError unit;
  start_sync : outcome CmdError unit
}.

(** [StartCmd::run_with]; [None] when it waits for its tasks. *)
Definition run_with (c : ZalletConfig Fp) (up : StartUp) (ended : list (Task * JoinResult)) :
    M (list StartEvent) CmdError (option unit) :=
  _ ← lift (start_lock up);
  _ ← for_each (fun o => emit (WarnUnused o)) (unused_options c);
  _ ← lift (start_database up);
  _ ← lift (start_keystore up);
  _ ← lift (start_chain up);
  _ ← emit (Spawned ChainIndexer);
  _ ← lift (start_rpc up);
  _ ← emit (Spawned RpcServer);
  _ ← lift (start_sync up);
  _ ← for_each (fun t => emit (Spawned t)) [SteadyState; RecoverHistory; BatchDecryptor; DataRequests];
  res ← wait_loop ended;
  match res with
  | None => mret None
  | Some res =>
      _ ← for_each (fun t => emit (Aborted t)) ALL_TASKS;
      match res with inl e => throw e | inr _ => mret (Some tt) end
  end.
End start.

(** [run_on_runtime]: the exit code of a command; [None] when a shutdown signal
    came first. *)
Definition exit_code {A} (result : option (outcome CmdError A)) : outcome Empty_set Z :=
  match result with
  | None | Some (Ret _) => Ret 0
  | Some (Err _) => Ret 1
  | Some Panic => Panic
  end.

(** ** Theorems *)

(** *** From an identity to a stored seed *)

Section first_use_proofs.
Context `{HK : KeyCryptoLaws}.
Context `{HA : !AgeFiles, HL : !AgeFileLaws matching, HM : !MnemonicOps}.

#[local] Abbreviation wf := (well_formed (matching := matching)).

(** The system lets the command run on the identity at [path]. *)
Definition ready (io : CommandIo) (path : string) : Prop :=
  lock io = Ret tt /\ database_open io = Ret tt /\ identity_path io = Ret path /\
  open_io (identity_io io) = None /\ reopen_io (identity_io io) = None /\ reread_io io = None.

(** A database in which nothing has been stored. *)
Definition fresh (d : database) : Prop :=
  available d = true /\ age_recipients d = [] /\ mnemonics d = [] /\ sapling_keys d = [].

Lemma start_command_spec io path ks w :
  ready io path -> keystore_new (identity_io io) path (files (fs w)) = Ret ks ->
  start_command io w = (Ret ks, w) /\ open_keystore io w = (Ret ks, w).
Proof.
  intros (Hl & Hd & Hp & _) Hk. unfold start_command, open_keystore, lift, gets, mbind, M_bind.
  by rewrite Hl, Hd, Hp, Hk.
Qed.

(** Writing the identity, where there is none and nothing fails. *)
Lemma generate_spec r cmd w path p body :
  let io := file_io r in
  output cmd = None -> configured r = Ret path -> chosen_passphrase (terminal r) cmd = Ret p ->
  encode_identity (now r) (identity r) p = Ret body ->
  mkdir_io io = None -> calls_succeed io -> staging_path io path <> path ->
  files (fs w) !! staging_path io path = None -> files (fs w) !! path = None ->
  exists w', generate_encryption_identity r cmd w = (Ret tt, w') /\
    files (fs w') = <[path := private_file body]> (files (fs w)) /\ db w' = db w /\ stdout w' = stdout w.
Proof.
  intros io Ho Hc Hp He Hmk Hok Hne Ht Hn.
  destruct (write_identity_file_ok io path body (fs w) Hne Hok Ht Hn) as (f' & Hw & Hf).
  unfold generate_encryption_identity, output_path, create_parent, lift, mbind, M_bind.
  rewrite Hp, He, Ho, Hc. cbn. unfold on_fs, eprintln. fold io. rewrite Hmk, Hw.
  by destruct (parent_dir path); eexists.
Qed.


(** The identity [i], encoded with [p], is at [path], and the terminal gives its
    passphrase. *)
Definition holds_identity (io : CommandIo) (path : string) (i : X25519) (p : option string) (m : Files) : Prop :=
  ui_passphrase io = p /\
  exists now body, (forall created, now = Some created -> all_plain created = true) /\
    encode_identity now i p = Ret body /\ m !! path = Some (private_file body).

(** Every command then opens a keystore with this identity, and the recipients it
    would set are those of the identity. *)
Lemma commands_see_identity io path i p w :
  ready io path -> holds_identity io path i p (files (fs w)) ->
  exists ks, opens_with p [boxed i] ks /\ start_command io w = (Ret ks, w) /\ open_keystore io w = (Ret ks, w) /\
    forall time, init_wallet_encryption io time w = on_db (initialize_recipients time [public_string i]) w.
Proof.
  intros Hr (Hu & now & body & Hnow & He & Hm).
  destruct (encoded_identity_read now i p body Hnow He) as (f & ks & Hks & _ & Hrec & Hdec & Hplain & Hnew).
  pose proof Hr as (_ & _ & Hpath & Ho & Hro & Hre).
  destruct (start_command_spec io path ks w Hr (Hnew _ _ _ Hm Ho Hro)) as [Hs Hok].
  exists ks. split_and!; [done..|]. intros time.
  assert (identity_file_of io ks w = (Ret f, w)) as Hf.
  { unfold identity_file_of, lift, gets, mbind, M_bind. rewrite Hu, Hdec. destruct p as [p|]; [done|].
    unfold identity_file_from. rewrite Hpath, Hm, Hre. cbn. by rewrite (Hplain eq_refl). }
  assert (recipient_lines f = Ret [public_string i]) as Hl.
  { pose proof (public_plain i) as Hpl. unfold recipient_lines. rewrite Hrec. cbn [from_sum mbind outcome_bind].
    assert (valid_utf8 (unlines [public_string i]) = true) as ->.
    { unfold unlines. cbn [fmap list_fmap concat_text foldr]. rewrite append_nil_r. apply valid_utf8_app; [|done].
      by apply plain_valid_utf8. }
    unfold ensure. cbn [mbind outcome_bind]. rewrite lines_unlines; [done|]. by repeat constructor; apply plain_no_breaks. }
  unfold init_wallet_encryption, mbind, M_bind. rewrite Hs, Hf. unfold lift. by rewrite Hl.
Qed.

(** Setting the recipients of a fresh database. *)
Lemma initialize_fresh i time d :
  fresh d -> exists d', initialize_recipients time [public_string i] d = (Ret tt, d') /\
    wf [boxed i] d' /\ mnemonics d' = [].
Proof.
  intros (Hav & Hr & Hm & Hs). pose proof read_no_recipients as Hnr.
  destruct (recipients_match [i] ltac:(done)) as (rs & Hrs & Hmatch).
  unfold initialize_recipients, maybe_encryptor, with_db, from_recipient_strings, with_db_mut, mbind, M_bind.
  rewrite Hav, Hr. cbn. destruct (read_recipients []); [|done]. cbn. rewrite Hav, Hr.
  eexists. split; [done|]. split; [|done]. split_and!; cbn; try done; [by exists rs| |];
    rewrite ?Hm, ?Hs; by intros ? ? ?%not_elem_of_nil.
Qed.

(** Storing a mnemonic in a database that has recipients and no mnemonic. *)
Lemma store_first i mn d :
  wf [boxed i] d -> mnemonics d = [] ->
  exists fp d', encrypt_and_store_mnemonic mn d = (Ret fp, d') /\ wf [boxed i] d' /\
    fp_from_seed (to_seed mn) = Some fp /\ decrypt_seed [boxed i] fp d' = (Ret (to_seed mn), d').
Proof.
  intros Hwf Hnil. destruct (encryptor_wf _ _ Hwf) as (e & He & Hm).
  assert (exists fp d', encrypt_and_store_mnemonic mn d = (Ret fp, d')) as (fp & d' & Hst).
  { pose proof (seed_fingerprint mn) as Hfp. pose proof (encrypt_total [boxed i] _ (into_phrase mn) ltac:(done) Hm) as Hen.
    unfold encrypt_and_store_mnemonic, mbind, M_bind, lift, encrypt, with_db_mut. rewrite He.
    destruct (fp_from_seed (to_seed mn)); [|done]. cbn. destruct (age_encrypt _ _); [|done]. cbn.
    rewrite (proj1 Hwf). by eexists _, _. }
  destruct (store_mnemonic_wf _ _ _ _ _ Hwf Hst) as (Hwf' & Hfp & c & Hdec & Hrows).
  exists fp, d'. split; [done|]. split; [done|]. split; [done|].
  destruct (decrypt_seed_wf [boxed i] d' fp c Hwf') as (m & Hd & Hdm & _).
  { rewrite Hrows, Hnil, select_insert. cbn. by rewrite bool_decide_true. }
  rewrite Hdec in Hdm. injection Hdm as Hp. apply (f_equal from_phrase) in Hp.
  rewrite !phrase_round_trip in Hp. congruence.
Qed.

(** C7. When the calls to the file system succeed, the identity is to go to
    the configured file, which does not exist yet, the user gives the
    passphrase chosen, if one was, and the phrase is a mnemonic: from a fresh
    data directory, generate-encryption-identity (plain or with a passphrase),
    init-wallet-encryption and import-mnemonic succeed in this order; the
    printed fingerprint is the mnemonic's, every later command opens the
    keystore with that identity (after unlocking with exactly that passphrase
    when there is one) and then decrypts the seed, and initialising a second
    time is refused and changes nothing. *)
Theorem first_use r cmd io w path p time prompt phrase mn :
  output cmd = None -> configured r = Ret path -> chosen_passphrase (terminal r) cmd = Ret p ->
  (forall created, now r = Some created -> all_plain created = true) ->
  mkdir_io (file_io r) = None -> calls_succeed (file_io r) -> staging_path (file_io r) path <> path ->
  files (fs w) !! staging_path (file_io r) path = None -> files (fs w) !! path = None ->
  ready io path -> ui_passphrase io = p -> fresh (db w) ->
  prompt = inr phrase -> from_phrase (phrase_bytes phrase) = Some mn ->
  exists w1 w2 w3 fp ks,
    generate_encryption_identity r cmd w = (Ret tt, w1) /\
    init_wallet_encryption io time w1 = (Ret tt, w2) /\
    import_mnemonic io prompt w2 = (Ret tt, w3) /\
    stdout w3 = stdout w ++ [seed_fingerprint_message fp] /\ fp_from_seed (to_seed mn) = Some fp /\
    open_keystore io w3 = (Ret ks, w3) /\ opens_with p [boxed (identity r)] ks /\
    decrypt_seed [boxed (identity r)] fp (db w3) = (Ret (to_seed mn), db w3) /\
    forall time', init_wallet_encryption io time' w3 = (Err (StoreE AlreadyInitialized), w3).
Proof.
  intros Ho Hc Hp Hnow Hmk Hok Hne Ht Hn Hr Hu Hfr -> Hmn.
  assert (exists body, encode_identity (now r) (identity r) p = Ret body) as [body He].
  { destruct (encode_identity_spec (now r) (identity r) p Hnow) as (text & _ & He & _). rewrite He.
    destruct p as [p|]; [|by eexists]. destruct (wrap_total p text) as [c ->]. by eexists. }
  destruct (generate_spec r cmd w path p body Ho Hc Hp He Hmk Hok Hne Ht Hn) as (w1 & Hg & Hf & Hdb & Hout).
  assert (forall v, files (fs v) = files (fs w1) -> holds_identity io path (identity r) p (files (fs v))) as Hh.
  { intros v ->. split; [done|]. exists (now r), body. split_and!; [done..|]. rewrite Hf. by rewrite lookup_insert_eq. }
  rewrite <- Hdb in Hfr.
  destruct (initialize_fresh (identity r) time (db w1) Hfr) as (d2 & Hi & Hwf2 & Hnil).
  destruct (commands_see_identity io path (identity r) p w1 Hr (Hh _ eq_refl)) as (_ & _ & _ & _ & Hinit1).
  set (w2 := {| fs := fs w1; db := d2; stdout := stdout w1; stderr := stderr w1 |}).
  destruct (commands_see_identity io path (identity r) p w2 Hr (Hh w2 eq_refl)) as (ks2 & _ & Hst2 & _).
  destruct (store_first (identity r) mn d2 Hwf2 Hnil) as (fp & d3 & Hst & Hwf3 & Hfp & Hdec).
  set (w3 := {| fs := fs w1; db := d3; stdout := stdout w1 ++ [seed_fingerprint_message fp]; stderr := stderr w1 |}).
  destruct (commands_see_identity io path (identity r) p w3 Hr (Hh w3 eq_refl)) as (ks & Hks & _ & Hopen & Hinit3).
  exists w1, w2, w3, fp, ks. split_and!; try done.
  - rewrite Hinit1. unfold on_db. by rewrite Hi.
  - unfold import_mnemonic, store_and_print, mbind, M_bind. rewrite Hst2. unfold lift. cbn. rewrite Hmn. cbn.
    unfold on_db. cbn. by rewrite Hst.
  - cbn. by rewrite Hout.
  - intros time'. rewrite Hinit3. unfold on_db, initialize_recipients, mbind, M_bind.
    destruct (maybe_encryptor_wf _ _ Hwf3) as (e & Hme & Hem & _). cbn [db w3]. by rewrite Hme, Hem.
Qed.
End first_use_proofs.

(** *** [start] *)

Section start_proofs.
Context `{BranchOps} {Fp : Type}.
Implicit Types c : ZalletConfig Fp.

Definition starts_up (up : StartUp) : Prop :=
  start_lock up = Ret tt /\ start_database up = Ret tt /\ start_keystore up = Ret tt /\
  start_chain up = Ret tt /\ start_rpc up = Ret tt /\ start_sync up = Ret tt.

Definition started (c : ZalletConfig Fp) : list StartEvent :=
  (WarnUnused <$> unused_options c) ++ (Spawned <$> ALL_TASKS).

Lemma for_each_emit {A} (f : A -> StartEvent) l log :
  for_each (fun a => emit (f a)) l log = (Ret tt, log ++ (f <$> l)).
Proof.
  revert log. induction l as [|a l IH]; intros log; [by rewrite app_nil_r|].
  cbn. unfold mbind, M_bind, emit, modify. rewrite IH. by rewrite <- app_assoc.
Qed.

(** C29. Once started, start warns of the unused options, runs its six tasks
    and waits; when the first of them ends, it asks all to stop and the
    process exits with code 0, whether the task returned a value or an error;
    a task that panics makes it panic. *)
Theorem start_runs_until_a_task_ends c up :
  starts_up up ->
  run_with c up [] [] = (Ret None, started c) /\
  forall t join ended,
    let '(result, log) := run_with c up ((t, join) :: ended) [] in
    match join with
    | Panic => result = Panic /\ log = started c
    | Ret _ | Err _ =>
        result = Ret (Some tt) /\ log = started c ++ [Exited t] ++ (Aborted <$> ALL_TASKS) /\
        exit_code (Some result) = Ret 0
    end.
Proof.
  intros (Hl & Hd & Hk & Hc & Hr & Hs).
  assert (forall ended, run_with c up ended [] =
    (res ← wait_loop ended;
     match res with
     | None => mret None
     | Some res =>
         _ ← for_each (fun t => emit (Aborted t)) ALL_TASKS;
         match res with inl e => throw e | inr _ => mret (Some tt) end
     end) (started c)) as Hrun.
  { intros ended. unfold run_with, started.
    pose proof (for_each_emit WarnUnused (unused_options c) []) as Hw.
    pose proof (for_each_emit Spawned [SteadyState; RecoverHistory; BatchDecryptor; DataRequests]
      ((WarnUnused <$> unused_options c) ++ [Spawned ChainIndexer; Spawned RpcServer])) as Hsp.
    rewrite <- !app_assoc in Hsp. unfold emit, modify in Hw, Hsp. unfold mbind, M_bind, lift, emit, modify.
    rewrite Hl, Hw, Hd, Hk, Hc, Hr, Hs. rewrite <- !app_assoc. cbn [app] in *. by rewrite Hsp. }
  split; [by rewrite Hrun|]. intros t join ended. rewrite Hrun. unfold mbind, M_bind. cbn [wait_loop].
  unfold mbind, M_bind, lift.
  pose proof (for_each_emit Aborted ALL_TASKS (started c ++ [Exited t])) as Ha. rewrite <- app_assoc in Ha.
  destruct join as [[]|e|]; cbn [select_arm]; [| |done]; unfold emit, modify in *; cbn in *; by rewrite ?Ha.
Qed.
End start_proofs.

(** *** The miner's account *)

Section miner_proofs.
Context `{AgeFiles, !WalletOps}.

(** Operations that only read. *)
Lemma bind_reads {W E A B} (m : M W E A) (f : A -> M W E B) :
  (forall w, (m w).2 = w) -> (forall a w, (f a w).2 = w) -> forall w, ((m ≫= f) w).2 = w.
Proof.
  intros Hm Hf w. specialize (Hm w). unfold mbind, M_bind. destruct (m w) as [[a|e|] w1]; cbn in Hm; subst; [|done..].
  apply Hf.
Qed.

Lemma with_db_reads {A} (f : database -> outcome keystore_error A) d : (with_db f d).2 = d.
Proof. unfold with_db. by destruct (available d). Qed.

Lemma decrypt_seed_reads ids fp d : (decrypt_seed ids fp d).2 = d.
Proof.
  revert d. unfold decrypt_seed, decrypt_mnemonic. apply bind_reads; [|by intros a; apply bind_reads].
  apply bind_reads; [by destruct ids|]. intros _. apply bind_reads; [apply with_db_reads|done].
Qed.

Lemma open_keystore_reads io w : (open_keystore io w).2 = w.
Proof. revert w. unfold open_keystore. apply bind_reads; [done|]. intros path. by apply bind_reads. Qed.

(** The run stopped before the account. *)
Ltac refused := cbn in *; simplify_eq; cbn; split; [done|intros [Hx|Hx]; [by destruct Hx|done]].

(** The command changes at most the wallet, and only to create the account of the only
    seed, in a regtest wallet without a chain. *)
Theorem miner_account_guarded io params w r w' :
  generate_account_and_miner_address io params w = (r, w') ->
  db w'.1 = db w.1 /\
  (w'.2 <> w.2 \/ r = Ret tt ->
   exists net ks fp seed,
     params = RegTest net /\ open_keystore io w.1 = (Ret ks, w.1) /\ chain_height w.2 = inr None /\
     (mnemonics (db w.1)).*1 = [fp] /\ decrypt_seed (identities ks) fp (db w.1) = (Ret seed, db w.1) /\
     w'.2 = (create_account "Default account" seed 0 w.2).2).
Proof.
  destruct w as [w v]. intros Hrun.
  unfold generate_account_and_miner_address, on_world, on_db, on_wallet, init_text, throw, println, gets, lift, mbind, M_bind in Hrun.
  destruct (lock io) as [[]|e|]; [|by refused..].
  destruct params as [|net]; [by refused|].
  destruct (database_open io) as [[]|e|]; [|by refused..]. cbn in Hrun.
  destruct (open_keystore io w) as [[ks|e|] w1] eqn:Hks;
    pose proof (open_keystore_reads io w) as Hw1; rewrite Hks in Hw1; cbn in Hw1; subst w1; [|by refused..].
  destruct (database_handle io) as [[]|e|]; [|by refused..]. cbn in Hrun.
  destruct (chain_height v) as [|[h|]] eqn:Hh; [by refused..|].
  assert (list_seed_fingerprints (db w) = (if available (db w) then Ret (mnemonics (db w)).*1 else Err DatabaseError, db w)) as Hl
    by (unfold list_seed_fingerprints, with_db; by destruct (available (db w))).
  cbn in Hrun. rewrite Hl in Hrun. cbn in Hrun.
  assert ({| fs := fs w; db := db w; stdout := stdout w; stderr := stderr w |} = w) as Hw by by destruct w.
  destruct (available (db w)); cbn in Hrun; [|rewrite Hw in Hrun; by refused]. rewrite Hw in Hrun.
  destruct ((mnemonics (db w)).*1) as [|fp [|fp2 fps]] eqn:Hfps; [by refused| |by refused].
  cbn in Hrun. pose proof (decrypt_seed_reads (identities ks) fp (db w)) as Hds.
  destruct (decrypt_seed (identities ks) fp (db w)) as [[seed|e|] d] eqn:Hseed; cbn in Hds; subst d; cbn in Hrun; rewrite Hw in Hrun;
    [|by refused..].
  cbn in Hrun. destruct (create_account "Default account" seed 0 v) as [[e|usk] v'] eqn:Hca; cbn in Hrun;
    [|destruct (miner_address _ usk); cbn in Hrun]; simplify_eq; cbn;
    (split; [done|]; intros _; exists net, ks, fp, seed; by rewrite Hca).
Qed.
End miner_proofs.

(** *** A concrete run *)

Definition toy_mnemonics : @MnemonicOps example_crypto := {|
  from_entropy l := Some (Z.of_nat (length l)) : option (@Mnemonic example_crypto);
  phrase_bytes s := Z.of_nat (String.length s) : @Bytes example_crypto;
  bytes_text _ := ""%string |}.

Definition toy_io : CommandIo := {|
  datadir_path := "z"; create_lockfile _ := inr tt; try_lock_exclusive _ := inr (Some tt);
  database_open := Ret tt; database_handle := Ret tt; identity_path := Ret "z/identity.txt"%string;
  identity_io := {| open_io := None; reopen_io := None |}; reread_io := None;
  ui_passphrase := Some "pw"%string; out_io := None |}.

Definition toy_identity_run : @IdentityRun example_crypto toy_age := @Build_IdentityRun example_crypto toy_age
  true (Some "2026-01-01T00:00:00Z"%string)
  {| passphrase_env := Some "pw"%string; passphrase_prompt := inl ""%string; confirm_prompt := inl ""%string |}
  quiet_io None (Ret "z/identity.txt"%string).

Definition toy_world : @World example_crypto :=
  @Build_World example_crypto {| files := ∅; past := [] |} (@Database example_crypto true [] [] [] [] []) [] [].

(** A passphrase-protected identity is made; the mnemonic stored with it is read
    back after unlocking with the passphrase. *)
Lemma first_use_witness :
  exists w3 fp ks,
    @import_mnemonic example_crypto toy_age toy_mnemonics toy_io (inr "abandon"%string)
      (@init_wallet_encryption example_crypto toy_age toy_io 3
        (@generate_encryption_identity example_crypto toy_age toy_identity_run
          {| output := None; passphrase := true |} toy_world).2).2 = (Ret tt, w3) /\
    @unlocked_identities example_crypto toy_age ks "pw" = Some [5] /\
    @decrypt_seed example_crypto [5] fp (db w3) = (Ret 14, db w3).
Proof.
  destruct (@first_use example_crypto example_matching example_crypto_laws toy_age toy_age_laws toy_mnemonics
    toy_identity_run {| output := None; passphrase := true |} toy_io toy_world "z/identity.txt" (Some "pw"%string) 3
    (inr "abandon"%string) "abandon" 7 eq_refl eq_refl eq_refl)
    as (w1 & w2 & w3 & fp & ks & H1 & H2 & H3 & _ & _ & _ & Hks & Hd & _).
  - by intros ? [= <-].
  - done.
  - done.
  - by vm_compute.
  - done.
  - done.
  - done.
  - done.
  - done.
  - done.
  - done.
  - exists w3, fp, ks. rewrite H1. cbn [snd]. rewrite H2. cbn [snd]. rewrite H3. split; [done|]. split; [apply Hks|exact Hd].
Defined.

Section toy_start.
#[local] Instance start_branches : BranchOps := {|
  BranchId := Z; branch_id_try_from := Some; u32_from_branch b := b; Overwinter := 1; Sapling := 2; Blossom := 3;
  Heartwood := 4; Canopy := 5; Nu5 := 6; Nu6 := 7; Nu6_1 := 8; Nu6_2 := 9; Nu6_3 := 10 |}.

Definition toy_start_up : StartUp := {|
  start_lock := Ret tt; start_database := Ret tt; start_keystore := Ret tt; start_chain := Ret tt;
  start_rpc := Ret tt; start_sync := Ret tt |}.

(** The data-requests task fails; the process exits with code 0. *)
Lemma start_runs_until_a_task_ends_witness :
  exit_code (Some (run_with (default_config (Fp := unit) "0.1.0") toy_start_up
    [(DataRequests, Err (GenericE (Text "database is locked")))] []).1) = Ret 0.
Proof.
  destruct (start_runs_until_a_task_ends (default_config (Fp := unit) "0.1.0") toy_start_up) as [_ Ht]; [by vm_compute|].
  specialize (Ht DataRequests (Err (GenericE (Text "database is locked"))) []).
  destruct (run_with _ _ _ _) as [res log]. by destruct Ht as (_ & _ & Ht).
Defined.
End toy_start.

Definition toy_wallet : @WalletOps example_crypto := {|
  Wallet := list Z; UnifiedSpendingKey := Z;
  chain_height w := inr (match w with [] => None | _ => Some 0 end);
  create_account _ _ h w := (inr 1, w ++ [h]);
  miner_address _ _ := inr "tmAddress"%string;
  truncate_to_height h w := (inr h, w) |}.

(** A regtest wallet with one seed, whose mnemonic is 16. *)
Definition toy_miner_world : @World example_crypto :=
  @Build_World example_crypto
    {| files := {["z/identity.txt" := private_file (unlines ["# public key: age1a"; "AGE-SECRET-KEY-1A"])]}; past := [] |}
    (@Database example_crypto true [] [(33, 21)] [] [] []) [] [].

Definition toy_regtest : Network := RegTest {|
  overwinter := None; sapling := None; blossom := None; heartwood := None; canopy := None; nu5 := None;
  nu6 := None; nu6_1 := None; nu6_2 := None; nu6_3 := None |}.

Lemma miner_account_guarded_witness :
  let '(r, w') := @generate_account_and_miner_address example_crypto toy_age toy_wallet toy_io toy_regtest (toy_miner_world, []) in
  r = Ret tt /\ db w'.1 = db toy_miner_world /\ w'.2 = [0].
Proof.
  destruct (@generate_account_and_miner_address example_crypto toy_age toy_wallet toy_io toy_regtest (toy_miner_world, []))
    as [r w'] eqn:Hr.
  destruct (@miner_account_guarded example_crypto toy_age toy_wallet _ _ _ _ _ Hr) as [Hdb Hg].
  assert (r = Ret tt) as Hret by (apply (f_equal fst) in Hr; vm_compute in Hr; congruence).
  split; [exact Hret|]. split; [exact Hdb|].
  destruct Hg as (net & ks & fp & seed & _ & _ & _ & _ & _ & Hw); [by right|]. exact Hw.
Defined.
