(* ===== verification/Connection.v ===== *)
(** Access to the wallet database by several tasks
    (src/zallet-core/src/components/database/connection.rs): the connections of the
    pool share a read-write lock, and each has a mutex of its own.

    A task's accesses are sequences of statements; the tasks interleave statement
    by statement. A panic of a closure poisons what is locked: std's [Mutex], and
    [RwLock] when it is locked for writing. The pool itself, which hands a connection
    to one task at a time and drops those whose mutex is poisoned, is not modelled;
    tasks may share connections here. *)

From S2P Require Import Prelude.

Inductive Mode := Read | Write.

#[export] Instance Mode_eq_dec : EqDecision Mode.
Proof. solve_decision. Defined.

(** The methods of [DbConnection] that hand a closure to the crate. *)
Definition WALLET_READ_METHODS : list string :=
  ["get_account_ids"; "get_account"; "get_derived_account"; "validate_seed"; "seed_relevance_to_derived_accounts";
   "get_account_for_ufvk"; "list_addresses"; "get_last_generated_address_matching"; "get_account_birthday";
   "get_wallet_birthday"; "get_wallet_summary"; "chain_height"; "get_block_hash"; "block_metadata";
   "block_fully_scanned"; "get_max_height_hash"; "block_max_scanned"; "suggest_scan_ranges";
   "get_target_and_anchor_heights"; "get_tx_height"; "get_unified_full_viewing_keys"; "get_memo"; "get_transaction";
   "get_sapling_nullifiers"; "get_orchard_nullifiers"; "get_ironwood_nullifiers"; "get_transparent_receivers";
   "get_ephemeral_transparent_receivers"; "get_transparent_balances"; "get_transparent_address_metadata";
   "utxo_query_height"; "transaction_data_requests"; "get_received_outputs"; "find_account_for_address"]%string.

Definition INPUT_SOURCE_METHODS : list string :=
  ["get_spendable_note"; "select_spendable_notes"; "select_unspent_notes"; "get_unspent_transparent_output";
   "get_spendable_transparent_outputs"; "get_account_metadata"]%string.

Definition WALLET_WRITE_METHODS : list string :=
  ["create_account"; "import_account_hd"; "import_account_ufvk"; "delete_account"; "import_standalone_transparent_pubkey";
   "import_standalone_transparent_script"; "get_next_available_address"; "get_address_for_index"; "update_chain_tip";
   "put_blocks"; "put_received_transparent_utxo"; "store_decrypted_tx"; "set_tx_trust";
   "store_transactions_to_be_sent"; "truncate_to_height"; "truncate_to_chain_state"; "rewind_to_chain_state";
   "reserve_next_n_ephemeral_addresses"; "set_transaction_status"; "schedule_next_check"; "notify_address_checked";
   "notify_output_verified_unspent"; "mark_transparent_addresses_exposed"]%string.

Definition COMMITMENT_TREE_METHODS : list string :=
  ["with_sapling_tree_mut"; "put_sapling_subtree_roots"; "with_orchard_tree_mut"; "put_orchard_subtree_roots";
   "with_ironwood_tree_mut"; "put_ironwood_subtree_roots"]%string.

(** Which lock a method takes. *)
Definition method_mode (name : string) : option Mode :=
  if bool_decide (name ∈ WALLET_READ_METHODS ++ INPUT_SOURCE_METHODS) then Some Read
  else if bool_decide (name ∈ WALLET_WRITE_METHODS ++ COMMITMENT_TREE_METHODS) then Some Write
  else None.

Section connection.
Context {D V : Type}.

(** A statement gives a value and the database after it, or panics. *)
Abbreviation Statement := (M D Empty_set V).

Record Access := { conn : nat; access_mode : Mode; body : list Statement }.

(** The four ways to use a connection; a closure with a shared reference only
    reads. *)
Definition with_ (c : nat) (f : list (D -> outcome Empty_set V)) : Access :=
  {| conn := c; access_mode := Read; body := (fun q d => (q d, d)) <$> f |}.

Definition with_mut (c : nat) (f : list Statement) : Access :=
  {| conn := c; access_mode := Write; body := f |}.

Definition with_raw (c : nat) (f : list (D -> outcome Empty_set V)) : Access :=
  {| conn := c; access_mode := Read; body := (fun q d => (q d, d)) <$> f |}.

Definition with_raw_mut (c : nat) (f : list Statement) : Access :=
  {| conn := c; access_mode := Write; body := f |}.

(** Where a task is in its first access: before it, with the guard of the shared
    lock, or in the closure, with the values it has read and what is left. *)
Inductive Phase :=
  | Idle
  | Locked
  | Inside (observed : list V) (rest : list Statement)
  | Panicked.

Record Thread := { phase : Phase; todo : list Access }.

Record State := {
  db : D;
  poisoned : bool;
  bad_conns : list nat;
  threads : list Thread;
  completed : list (nat * Access * list V)
}.

Definition holds_lock (mode : Mode -> bool) (th : Thread) : bool :=
  match phase th, todo th with
  | (Locked | Inside _ _), a :: _ => mode (access_mode a)
  | _, _ => false
  end.

Definition is_write (m : Mode) : bool := bool_decide (m = Write).

(** [RwLock::read] and [RwLock::write]. *)
Definition can_lock (m : Mode) (s : State) : bool :=
  match m with
  | Read => negb (existsb (holds_lock is_write) (threads s))
  | Write => negb (existsb (holds_lock (fun _ => true)) (threads s))
  end.

Definition holds_conn (c : nat) (th : Thread) : bool :=
  match phase th, todo th with
  | Inside _ _, a :: _ => bool_decide (conn a = c)
  | _, _ => false
  end.

Definition conn_free (c : nat) (s : State) : bool := negb (existsb (holds_conn c) (threads s)).

Definition set_thread (t : nat) (th : Thread) (s : State) : State :=
  {| db := db s; poisoned := poisoned s; bad_conns := bad_conns s; threads := <[t := th]> (threads s);
     completed := completed s |}.

(** The task panics in the access [a], with the guards it holds; [d] is the database
    that is left. *)
Definition panic (t : nat) (th : Thread) (a : Access) (in_closure : bool) (d : D) (s : State) : State :=
  {| db := d;
     poisoned := poisoned s || is_write (access_mode a);
     bad_conns := if in_closure then conn a :: bad_conns s else bad_conns s;
     threads := <[t := {| phase := Panicked; todo := todo th |}]> (threads s);
     completed := completed s |}.

(** The next step of task [t], if it is not blocked or at its end. *)
Definition step (t : nat) (s : State) : option State :=
  th ← threads s !! t;
  match todo th with
  | [] => None
  | a :: todo' =>
      let go p := {| phase := p; todo := todo th |} in
      match phase th with
      | Idle =>
          if can_lock (access_mode a) s then
            Some (set_thread t (go (if poisoned s then Panicked else Locked)) s)
          else None
      | Locked =>
          if conn_free (conn a) s then
            Some (if bool_decide (conn a ∈ bad_conns s) then panic t th a false (db s) s
                  else set_thread t (go (Inside [] (body a))) s)
          else None
      | Inside observed [] =>
          Some {| db := db s; poisoned := poisoned s; bad_conns := bad_conns s;
                  threads := <[t := {| phase := Idle; todo := todo' |}]> (threads s);
                  completed := completed s ++ [(t, a, observed)] |}
      | Inside observed (q :: rest) =>
          Some (match q (db s) with
                | (Ret v, d) =>
                    {| db := d; poisoned := poisoned s; bad_conns := bad_conns s;
                       threads := <[t := go (Inside (observed ++ [v]) rest)]> (threads s);
                       completed := completed s |}
                | (_, d) => panic t th a true d s
                end)
      | Panicked => None
      end
  end.

Fixpoint run (schedule : list nat) (s : State) : option State :=
  match schedule with
  | [] => Some s
  | t :: schedule => s' ← step t s; run schedule s'
  end.

Definition start (d : D) (programs : list (list Access)) : State :=
  {| db := d; poisoned := false; bad_conns := []; threads := (fun p => {| phase := Idle; todo := p |}) <$> programs;
     completed := [] |}.

(** ** The specification: accesses one after the other *)

Fixpoint serial (qs : list Statement) (d : D) : option (list V * D) :=
  match qs with
  | [] => Some ([], d)
  | q :: qs => match q d with
               | (Ret v, d') => '(vs, d'') ← serial qs d'; Some (v :: vs, d'')
               | _ => None
               end
  end.

(** The accesses of [l], run one after the other from [d], give the values recorded,
    and the database [d']. *)
Fixpoint replay (l : list (nat * Access * list V)) (d d' : D) : Prop :=
  match l with
  | [] => d = d'
  | (_, a, observed) :: l => exists d1, serial (body a) d = Some (observed, d1) /\ replay l d1 d'
  end.

Definition reads_only (a : Access) : Prop :=
  access_mode a = Read -> Forall (fun q : Statement => forall d, (q d).2 = d) (body a).

(** The task is in a closure that may write. *)
Definition writes (th : Thread) : bool :=
  match phase th, todo th with
  | Inside _ _, a :: _ => is_write (access_mode a)
  | _, _ => false
  end.

Definition writer_inside (s : State) : bool := existsb writes (threads s).

(** The accesses that task [t] has completed, in their order. *)
Definition completed_by (t : nat) (l : list (nat * Access * list V)) : list Access :=
  (fun x => x.1.2) <$> base.filter (fun x => x.1.1 = t) l.

(** ** Lemmas *)

Implicit Types (s : State) (th : Thread) (a : Access) (d : D).

Definition locked (th : Thread) : bool := holds_lock (fun _ => true) th.

Lemma existsb_threads (f : Thread -> bool) (l : list Thread) :
  existsb f l = false <-> forall t th, l !! t = Some th -> f th = false.
Proof.
  rewrite <- not_true_iff_false, existsb_exists. split.
  - intros Hn t th Ht. apply not_true_iff_false. intros Hf. apply Hn. exists th. split; [|done].
    by apply list_elem_of_In, (list_elem_of_lookup_2 _ t).
  - intros Hall (th & Hin & Hf). apply list_elem_of_In, list_elem_of_lookup in Hin as [t Ht].
    by rewrite (Hall t th Ht) in Hf.
Qed.

Lemma writes_locked th : writes th = true -> holds_lock is_write th = true.
Proof. unfold writes, holds_lock. by destruct (phase th), (todo th). Qed.

Lemma is_write_locked th : holds_lock is_write th = true -> locked th = true.
Proof. unfold locked, holds_lock. by destruct (phase th), (todo th). Qed.

Lemma serial_snoc qs q d vs d1 v d2 :
  serial qs d = Some (vs, d1) -> q d1 = (Ret v, d2) -> serial (qs ++ [q]) d = Some (vs ++ [v], d2).
Proof.
  revert d vs. induction qs as [|q0 qs IH]; intros d vs; cbn.
  - intros [= <- <-] Hq. by rewrite Hq.
  - destruct (q0 d) as [[v0| |] d0]; try done. cbn.
    destruct (serial qs d0) as [[vs0 d0']|] eqn:Hs; [|done]. cbn. intros [= <- <-] Hq.
    by rewrite (IH _ _ Hs Hq).
Qed.

Lemma serial_reads qs d vs d' :
  Forall (fun q : Statement => forall d, (q d).2 = d) qs -> serial qs d = Some (vs, d') -> d' = d.
Proof.
  intros Hqs. revert d vs. induction Hqs as [|q qs Hq _ IH]; intros d vs; cbn; [by intros [= _ <-]|].
  specialize (Hq d). destruct (q d) as [[v| |] d1]; try done. cbn in *. subst.
  destruct (serial qs d) as [[vs0 d0]|] eqn:Hs; [|done]. cbn. intros [= _ <-]. by eapply IH.
Qed.

Lemma replay_snoc l t a obs d d1 d2 :
  replay l d d1 -> serial (body a) d1 = Some (obs, d2) -> replay (l ++ [(t, a, obs)]) d d2.
Proof.
  revert d. induction l as [|[[t0 a0] o0] l IH]; intros d; cbn.
  - intros -> Hs. by exists d2.
  - intros (d' & Hs0 & Hr) Hs. exists d'. split; [done|]. by apply IH.
Qed.

Lemma completed_by_snoc t l t' a obs :
  completed_by t (l ++ [(t', a, obs)]) = completed_by t l ++ (if bool_decide (t' = t) then [a] else []).
Proof.
  unfold completed_by. rewrite filter_app, fmap_app. f_equal. rewrite filter_cons, filter_nil. cbn.
  case_decide as Ht; [by rewrite bool_decide_true|by rewrite bool_decide_false].
Qed.

(** The invariant: a writer is alone, nobody is past a poisoned lock, the completed
    accesses replay to the database that the ones under way started from, and
    each task goes through its program. *)
Record inv (d0 : D) (programs : list (list Access)) (s : State) : Prop := {
  alone : forall t1 t2 th1 th2, threads s !! t1 = Some th1 -> threads s !! t2 = Some th2 -> t1 <> t2 ->
    holds_lock is_write th1 = true -> locked th2 = false;
  poison_stops : poisoned s = true -> forall t th, threads s !! t = Some th -> locked th = false;
  replays : exists d, replay (completed s) d0 d /\
    (poisoned s = false -> (writer_inside s = false -> db s = d) /\
       forall t th observed rest a l, threads s !! t = Some th -> phase th = Inside observed rest ->
         todo th = a :: l -> exists pre, body a = pre ++ rest /\ serial pre d = Some (observed, db s));
  in_order : forall t th, threads s !! t = Some th ->
    programs !! t = Some (completed_by t (completed s) ++ todo th)
}.

Lemma start_inv d programs : inv d programs (start d programs).
Proof.
  assert (forall t th, threads (start d programs) !! t = Some th -> phase th = Idle /\ programs !! t = Some (todo th)) as Hth.
  { intros t th Ht. cbn in Ht. rewrite list_lookup_fmap in Ht. destruct (programs !! t); [|done]. by simplify_eq/=. }
  split.
  - intros t1 t2 th1 th2 H1 _ _. unfold holds_lock. by rewrite (proj1 (Hth _ _ H1)).
  - done.
  - exists d. split; [done|]. intros _. split; [done|]. intros t th o r a l Ht Hp.
    rewrite (proj1 (Hth _ _ Ht)) in Hp. done.
  - intros t th Ht. by apply Hth in Ht as [_ Ht].
Qed.

(** What is true of the tasks other than [t]. *)
Definition others (t : nat) (s : State) (P : Thread -> Prop) : Prop :=
  forall t' th, t' <> t -> threads s !! t' = Some th -> P th.

Lemma writer_is_alone d0 ps s t th :
  inv d0 ps s -> threads s !! t = Some th -> holds_lock is_write th = true -> others t s (fun th' => locked th' = false).
Proof. intros Hi Ht Hw t' th' Hne Ht'. by eapply (alone _ _ _ Hi t t'). Qed.

Lemma locked_without_writer d0 ps s t th :
  inv d0 ps s -> threads s !! t = Some th -> locked th = true ->
  others t s (fun th' => holds_lock is_write th' = false).
Proof.
  intros Hi Ht Hl t' th' Hne Ht'. apply not_true_iff_false. intros Hw.
  by rewrite (alone _ _ _ Hi t' t th' th Ht' Ht Hne Hw) in Hl.
Qed.

(** The parts of the invariant on locks, when one task changes. *)
Lemma locks_kept d0 ps s s' t th th' :
  inv d0 ps s -> threads s !! t = Some th -> threads s' = <[t := th']> (threads s) ->
  (holds_lock is_write th' = true -> others t s (fun x => locked x = false)) ->
  (locked th' = true -> others t s (fun x => holds_lock is_write x = false)) ->
  (poisoned s' = true -> locked th' = false /\ others t s (fun x => locked x = false)) ->
  (forall t1 t2 th1 th2, threads s' !! t1 = Some th1 -> threads s' !! t2 = Some th2 -> t1 <> t2 ->
    holds_lock is_write th1 = true -> locked th2 = false) /\
  (poisoned s' = true -> forall t1 th1, threads s' !! t1 = Some th1 -> locked th1 = false).
Proof.
  intros Hi Ht -> Hw Hl Hp. split.
  - intros t1 t2 th1 th2. rewrite !list_lookup_insert_Some.
    intros [(<- & <- & _)|[Hne1 H1]] [(<- & <- & _)|[Hne2 H2]] Hne Hw1; [done| | |].
    + by eapply Hw.
    + apply not_true_iff_false. intros Hl2. by rewrite (Hl Hl2 t1 th1 (not_eq_sym Hne1) H1) in Hw1.
    + by eapply (alone _ _ _ Hi t1 t2).
  - intros Hps t1 th1. destruct (Hp Hps) as [Hp1 Hp2]. rewrite list_lookup_insert_Some.
    intros [(<- & <- & _)|[Hne1 H1]]; [done|]. by eapply Hp2.
Qed.

(** The part on the programs, when the task goes on with the same access. *)
Lemma order_kept d0 ps s s' t th th' :
  inv d0 ps s -> threads s !! t = Some th -> threads s' = <[t := th']> (threads s) ->
  todo th' = todo th -> completed s' = completed s ->
  forall t1 th1, threads s' !! t1 = Some th1 -> ps !! t1 = Some (completed_by t1 (completed s') ++ todo th1).
Proof.
  intros Hi Ht -> Htd -> t1 th1. rewrite list_lookup_insert_Some.
  intros [(<- & <- & _)|[_ H1]]; [rewrite Htd|]; by apply (in_order _ _ _ Hi).
Qed.

Lemma writer_inside_insert s t th' :
  others t s (fun x => writes x = false) -> writes th' = false ->
  existsb writes (<[t := th']> (threads s)) = false.
Proof.
  intros Ho Hw. apply existsb_threads. intros t1 th1. rewrite list_lookup_insert_Some.
  intros [(<- & <- & _)|[Hne H1]]; [done|]. by eapply Ho.
Qed.

Lemma others_writes t s : others t s (fun x => holds_lock is_write x = false) -> others t s (fun x => writes x = false).
Proof.
  intros Ho t' th' Hne Ht. apply not_true_iff_false. intros Hw%writes_locked. by rewrite (Ho _ _ Hne Ht) in Hw.
Qed.

Section preservation.
Context (d0 : D) (ps : list (list Access)) (Hps : Forall (Forall reads_only) ps).

Lemma replays_kept s s' t th th' :
  inv d0 ps s -> threads s !! t = Some th -> threads s' = <[t := th']> (threads s) ->
  completed s' = completed s -> db s' = db s -> writes th = false ->
  (forall o r, phase th' <> Inside o r) -> (poisoned s' = false -> poisoned s = false) ->
  exists d, replay (completed s') d0 d /\
    (poisoned s' = false -> (writer_inside s' = false -> db s' = d) /\
       forall t th observed rest a l, threads s' !! t = Some th -> phase th = Inside observed rest ->
         todo th = a :: l -> exists pre, body a = pre ++ rest /\ serial pre d = Some (observed, db s')).
Proof.
  intros Hi Ht Hths Hc Hdb Hwr Hph Hp. destruct (replays _ _ _ Hi) as (d & Hr & Hd). exists d. rewrite Hc, Hdb.
  split; [done|]. intros Hps'. destruct (Hd (Hp Hps')) as [Hd1 Hd2]. split.
  - intros Hwi. apply Hd1. apply existsb_threads. intros t1 th1 H1. destruct (decide (t1 = t)) as [->|Hne].
    + congruence.
    + unfold writer_inside in Hwi. rewrite existsb_threads in Hwi. apply (Hwi t1). rewrite Hths.
      by rewrite list_lookup_insert_ne.
  - intros t1 th1 o r a l. rewrite Hths, list_lookup_insert_Some.
    intros [(<- & <- & _)|[_ H1]]; [by intros []%Hph|by eapply Hd2].
Qed.

Lemma locked_not_poisoned s t th :
  inv d0 ps s -> threads s !! t = Some th -> locked th = true -> poisoned s = false.
Proof.
  intros Hi Ht Hl. apply not_true_iff_false. intros Hp. by rewrite (poison_stops _ _ _ Hi Hp t th Ht) in Hl.
Qed.

Lemma acquired_inv s t th a l p :
  inv d0 ps s -> threads s !! t = Some th -> todo th = a :: l -> phase th = Idle ->
  can_lock (access_mode a) s = true -> p = (if poisoned s then Panicked else Locked) ->
  inv d0 ps (set_thread t {| phase := p; todo := todo th |} s).
Proof.
  intros Hi Ht Htd Hph Hcan Hp. set (th' := {| phase := p; todo := todo th |}).
  assert (holds_lock is_write th' = true -> others t s (fun x => locked x = false)) as H1.
  { unfold holds_lock. cbn. rewrite Htd. intros Hw0.
    assert (access_mode a = Write) as Hw by (destruct p; try done; by apply bool_decide_eq_true in Hw0).
    rewrite Hw in Hcan. cbn in Hcan. apply negb_true_iff in Hcan. rewrite existsb_threads in Hcan. intros t1 th1 _ Ht1. by apply (Hcan t1). }
  assert (locked th' = true -> others t s (fun x => holds_lock is_write x = false)) as H2.
  { intros Hl t1 th1 Hne Ht1. apply not_true_iff_false. intros Hw.
    destruct (access_mode a) eqn:Hm; cbn in Hcan; apply negb_true_iff in Hcan; rewrite existsb_threads in Hcan.
    - by rewrite (Hcan t1 th1 Ht1) in Hw.
    - apply is_write_locked in Hw. unfold locked in Hw. by rewrite (Hcan t1 th1 Ht1) in Hw. }
  assert (poisoned s = true -> locked th' = false /\ others t s (fun x => locked x = false)) as H3.
  { intros Hps'. rewrite Hps' in Hp. split; [unfold locked, holds_lock; cbn; by rewrite Hp|].
    intros t1 th1 _ Ht1. by apply (poison_stops _ _ _ Hi Hps' t1). }
  destruct (locks_kept d0 ps s (set_thread t th' s) t th th' Hi Ht eq_refl H1 H2 H3) as [Ha Hpo].
  split; [done|done| |by eapply order_kept].
  eapply replays_kept; try done; [unfold writes; by rewrite Hph|]. intros o r. cbn. subst p. by destruct (poisoned s).
Qed.

(** A task that keeps or gives up its lock. *)
Lemma locks_kept_same s s' t th th' :
  inv d0 ps s -> threads s !! t = Some th -> threads s' = <[t := th']> (threads s) ->
  locked th = true -> (locked th' = true -> todo th' = todo th) ->
  (poisoned s' = poisoned s \/ (holds_lock is_write th = true /\ locked th' = false)) ->
  (forall t1 t2 th1 th2, threads s' !! t1 = Some th1 -> threads s' !! t2 = Some th2 -> t1 <> t2 ->
    holds_lock is_write th1 = true -> locked th2 = false) /\
  (poisoned s' = true -> forall t1 th1, threads s' !! t1 = Some th1 -> locked th1 = false).
Proof.
  intros Hi Ht Hths Hl Htd Hp. eapply locks_kept; try done.
  - intros Hw. eapply writer_is_alone; [done..|]. pose proof (is_write_locked _ Hw) as Hl'. specialize (Htd Hl').
    unfold locked, holds_lock in *. rewrite Htd in *. destruct (todo th); [by destruct (phase th)|].
    by destruct (phase th), (phase th').
  - intros _. by eapply locked_without_writer.
  - intros Hps'. destruct Hp as [Heq|[Hw Hl']].
    + rewrite Heq in Hps'. by rewrite (poison_stops _ _ _ Hi Hps' t th Ht) in Hl.
    + split; [done|]. by eapply writer_is_alone.
Qed.

Lemma entered_inv s t th a l :
  inv d0 ps s -> threads s !! t = Some th -> todo th = a :: l -> phase th = Locked ->
  inv d0 ps (set_thread t {| phase := Inside [] (body a); todo := todo th |} s).
Proof.
  intros Hi Ht Htd Hph. set (th' := {| phase := Inside [] (body a); todo := todo th |}).
  assert (locked th = true) as Hl by (unfold locked, holds_lock; by rewrite Hph, Htd).
  destruct (locks_kept_same s (set_thread t th' s) t th th' Hi Ht eq_refl Hl) as [Ha Hpo]; [done|by left|].
  split; [done|done| |by eapply order_kept].
  destruct (replays _ _ _ Hi) as (d & Hr & Hd). exists d. split; [done|]. cbn. intros Hps'.
  destruct (Hd Hps') as [Hd1 Hd2].
  assert (db s = d) as Hdb.
  { apply Hd1, existsb_threads. intros t1 th1 H1. destruct (decide (t1 = t)) as [->|Hne].
    - rewrite Ht in H1. injection H1 as <-. unfold writes. by rewrite Hph.
    - apply (others_writes t s (locked_without_writer _ _ _ _ _ Hi Ht Hl) t1 th1 Hne H1). }
  split; [done|]. intros t1 th1 o r a1 l1. rewrite list_lookup_insert_Some.
  intros [(<- & <- & _)|[_ H1]]; [|by eapply Hd2]. cbn. intros [= <- <-] Htd'. rewrite Htd in Htd'. injection Htd' as <- <-.
  exists []. by rewrite Hdb.
Qed.

Lemma panicked_inv s t th a l b d :
  inv d0 ps s -> threads s !! t = Some th -> todo th = a :: l -> locked th = true ->
  (access_mode a = Read -> d = db s) -> (writes th = false -> d = db s) ->
  inv d0 ps (panic t th a b d s).
Proof.
  intros Hi Ht Htd Hl Hd Hd'. set (th' := {| phase := Panicked; todo := todo th |}).
  assert (poisoned s = false) as Hnp by by eapply locked_not_poisoned.
  assert (poisoned (panic t th a b d s) = is_write (access_mode a)) as Hpan by (cbn; by rewrite Hnp).
  assert (holds_lock is_write th = is_write (access_mode a)) as Hw.
  { unfold locked, holds_lock in *. rewrite Htd in *. by destruct (phase th). }
  destruct (locks_kept_same s (panic t th a b d s) t th th' Hi Ht eq_refl Hl) as [Ha Hpo]; [done| |].
  { rewrite Hpan, Hnp, Hw. destruct (is_write (access_mode a)); [by right|by left]. }
  split; [done|done| |by eapply order_kept].
  destruct (access_mode a) eqn:Hm.
  - eapply replays_kept; try done; [by apply Hd|].
    unfold writes. destruct (phase th); try done. by rewrite Htd, Hm.
  - destruct (replays _ _ _ Hi) as (d1 & Hr & _). exists d1. split; [done|]. rewrite Hpan. done.
Qed.

Lemma current_statement s t th a l o q rest :
  inv d0 ps s -> threads s !! t = Some th -> todo th = a :: l -> phase th = Inside o (q :: rest) ->
  exists p, p ∈ ps /\ a ∈ p /\ q ∈ body a.
Proof.
  clear Hps.
  intros Hi Ht Htd Hph. pose proof (in_order _ _ _ Hi t th Ht) as Hord.
  assert (poisoned s = false) as Hnp
    by (eapply locked_not_poisoned; [done..|]; unfold locked, holds_lock; by rewrite Hph, Htd).
  destruct (replays _ _ _ Hi) as (d & _ & Hd). destruct (Hd Hnp) as [_ Hin].
  destruct (Hin t th o (q :: rest) a l Ht Hph Htd) as (pre & Hbody & _).
  eexists. split; [by eapply list_elem_of_lookup_2|]. rewrite Htd, Hbody. set_solver.
Qed.

Lemma statement_reads s t th a l o q rest :
  inv d0 ps s -> threads s !! t = Some th -> todo th = a :: l -> phase th = Inside o (q :: rest) ->
  access_mode a = Read -> forall d, (q d).2 = d.
Proof.
  intros Hi Ht Htd Hph Hm. destruct (current_statement s t th a l o q rest Hi Ht Htd Hph) as (p & Hp & Ha & Hq).
  rewrite Forall_forall in Hps. specialize (Hps p Hp). rewrite Forall_forall in Hps. specialize (Hps a Ha Hm).
  rewrite Forall_forall in Hps. by apply Hps.
Qed.

Lemma stated_inv s t th a l o q rest v d :
  inv d0 ps s -> threads s !! t = Some th -> todo th = a :: l -> phase th = Inside o (q :: rest) ->
  q (db s) = (Ret v, d) ->
  inv d0 ps {| db := d; poisoned := poisoned s; bad_conns := bad_conns s;
               threads := <[t := {| phase := Inside (o ++ [v]) rest; todo := todo th |}]> (threads s);
               completed := completed s |}.
Proof.
  intros Hi Ht Htd Hph Hq. set (th' := {| phase := Inside (o ++ [v]) rest; todo := todo th |}).
  match goal with |- inv _ _ ?x => set (s' := x) end.
  assert (locked th = true) as Hl by (unfold locked, holds_lock; by rewrite Hph, Htd).
  assert (poisoned s = false) as Hnp by by eapply locked_not_poisoned.
  destruct (locks_kept_same s s' t th th' Hi Ht eq_refl Hl) as [Ha Hpo]; [done|by left|].
  split; [done|done| |by eapply order_kept].
  destruct (replays _ _ _ Hi) as (d1 & Hr & Hd). exists d1. split; [done|]. intros _.
  destruct (Hd Hnp) as [Hd1 Hd2]. destruct (Hd2 t th o (q :: rest) a l Ht Hph Htd) as (pre & Hbody & Hser).
  assert (exists pre', body a = pre' ++ rest /\ serial pre' d1 = Some (o ++ [v], d)) as Hmine.
  { exists (pre ++ [q]). split; [by rewrite Hbody, <- app_assoc|]. by eapply serial_snoc. }
  assert (access_mode a = Read -> d = db s) as Hread.
  { intros Hm. pose proof (statement_reads s t th a l o q rest Hi Ht Htd Hph Hm (db s)) as Hq2. by rewrite Hq in Hq2. }
  assert (access_mode a = Write -> others t s (fun x => locked x = false)) as Hwrite.
  { intros Hm. eapply writer_is_alone; [done..|]. unfold holds_lock. by rewrite Hph, Htd, Hm. }
  split.
  - intros Hwi. unfold writer_inside in Hwi. rewrite existsb_threads in Hwi.
    destruct (access_mode a) eqn:Hm; cbn [db s'].
    + rewrite Hread by done. apply Hd1, existsb_threads. intros t1 th1 H1. destruct (decide (t1 = t)) as [->|Hne].
      * rewrite Ht in H1. injection H1 as <-. unfold writes. by rewrite Hph, Htd, Hm.
      * apply (Hwi t1). cbn. by rewrite list_lookup_insert_ne.
    + specialize (Hwi t th'). cbn in Hwi. rewrite list_lookup_insert_eq in Hwi by by eapply lookup_lt_Some.
      specialize (Hwi eq_refl). unfold writes, th' in Hwi. cbn in Hwi. by rewrite Htd, Hm in Hwi.
  - intros t1 th1 o1 r1 a1 l1. cbn [threads s' db]. rewrite list_lookup_insert_Some.
    intros [(<- & <- & _)|[Hne H1]].
    + cbn. intros [= <- <-] Htd'. rewrite Htd in Htd'. by injection Htd' as <- <-.
    + intros Hph1 Htd1. destruct (access_mode a) eqn:Hm; [rewrite Hread by done; by eapply Hd2|].
      specialize (Hwrite eq_refl t1 th1 (not_eq_sym Hne) H1). unfold locked, holds_lock in Hwrite.
      by rewrite Hph1, Htd1 in Hwrite.
Qed.

Lemma finished_inv s t th a l o :
  inv d0 ps s -> threads s !! t = Some th -> todo th = a :: l -> phase th = Inside o [] ->
  inv d0 ps {| db := db s; poisoned := poisoned s; bad_conns := bad_conns s;
               threads := <[t := {| phase := Idle; todo := l |}]> (threads s);
               completed := completed s ++ [(t, a, o)] |}.
Proof.
  intros Hi Ht Htd Hph. set (th' := {| phase := Idle; todo := l |}).
  match goal with |- inv _ _ ?x => set (s' := x) end.
  assert (locked th = true) as Hl by (unfold locked, holds_lock; by rewrite Hph, Htd).
  assert (poisoned s = false) as Hnp by by eapply locked_not_poisoned.
  destruct (locks_kept_same s s' t th th' Hi Ht eq_refl Hl) as [Ha Hpo]; [done|by left|].
  split; [done|done| |].
  - destruct (replays _ _ _ Hi) as (d1 & Hr & Hd). destruct (Hd Hnp) as [Hd1 Hd2].
    destruct (Hd2 t th o [] a l Ht Hph Htd) as (pre & Hbody & Hser). rewrite app_nil_r in Hbody. subst pre.
    exists (db s). split; [by eapply replay_snoc|]. intros _. split; [done|].
    intros t1 th1 o1 r1 a1 l1. cbn [threads s' db]. rewrite list_lookup_insert_Some.
    intros [(<- & <- & _)|[Hne H1]]; [done|]. intros Hph1 Htd1.
    destruct (access_mode a) eqn:Hm.
    + assert (db s = d1) as <-; [|by eapply Hd2].
      apply Hd1, existsb_threads. intros t2 th2 H2. destruct (decide (t2 = t)) as [->|Hne2].
      * rewrite Ht in H2. injection H2 as <-. unfold writes. by rewrite Hph, Htd, Hm.
      * apply (others_writes t s (locked_without_writer _ _ _ _ _ Hi Ht Hl) t2 th2 Hne2 H2).
    + exfalso. assert (holds_lock is_write th = true) as Hw by (unfold holds_lock; by rewrite Hph, Htd, Hm).
      pose proof (writer_is_alone _ _ _ _ _ Hi Ht Hw t1 th1 (not_eq_sym Hne) H1) as Hlf.
      unfold locked, holds_lock in Hlf. by rewrite Hph1, Htd1 in Hlf.
  - intros t1 th1. cbn [threads s' completed]. rewrite completed_by_snoc, list_lookup_insert_Some.
    intros [(<- & <- & _)|[Hne H1]].
    + rewrite bool_decide_true by done. rewrite (in_order _ _ _ Hi t th Ht), Htd. cbn. by rewrite <- app_assoc.
    + rewrite bool_decide_false by done. rewrite app_nil_r. by apply (in_order _ _ _ Hi).
Qed.

Lemma step_inv t s s' : inv d0 ps s -> step t s = Some s' -> inv d0 ps s'.
Proof.
  intros Hi. unfold step. destruct (threads s !! t) as [th|] eqn:Ht; [|done]. cbn.
  destruct (todo th) as [|a l] eqn:Htd; [done|]. destruct (phase th) as [| |o [|q rest]|] eqn:Hph; [| | | |done].
  - destruct (can_lock (access_mode a) s) eqn:Hc; [|done]. intros [= <-]. rewrite <- Htd. by eapply acquired_inv.
  - assert (locked th = true) as Hl by (unfold locked, holds_lock; by rewrite Hph, Htd).
    destruct (conn_free (conn a) s); [|done]. case_bool_decide; intros [= <-].
    + by eapply panicked_inv.
    + rewrite <- Htd. by eapply entered_inv.
  - intros [= <-]. by eapply finished_inv.
  - assert (locked th = true) as Hl by (unfold locked, holds_lock; by rewrite Hph, Htd).
    destruct (q (db s)) as [[v|[]|] d] eqn:Hq; intros [= <-].
    + rewrite <- Htd. by eapply stated_inv.
    + eapply panicked_inv; [done..| |].
      * intros Hm. pose proof (statement_reads s t th a l o q rest Hi Ht Htd Hph Hm (db s)) as Hq2. by rewrite Hq in Hq2.
      * unfold writes. rewrite Hph, Htd. intros Hw. apply bool_decide_eq_false in Hw. destruct (access_mode a) eqn:Hm; [|done].
        pose proof (statement_reads s t th a l o q rest Hi Ht Htd Hph Hm (db s)) as Hq2. by rewrite Hq in Hq2.
Qed.

Lemma run_inv sched s s' : inv d0 ps s -> run sched s = Some s' -> inv d0 ps s'.
Proof.
  revert s. induction sched as [|t sched IH]; intros s Hi; cbn; [by intros [= <-]|].
  destruct (step t s) as [s1|] eqn:Hs; [|done]. cbn. by eapply IH, step_inv.
Qed.
End preservation.

(** *** Termination *)

Definition access_steps (a : Access) : nat := (length (body a) + 3)%nat.
Definition program_steps (l : list Access) : nat := sum_list_with access_steps l.

#[local] Arguments program_steps : simpl never.

Lemma program_steps_cons a l : program_steps (a :: l) = (length (body a) + 3 + program_steps l)%nat.
Proof. done. Qed.

(** The steps that a task has left, and all tasks. *)
Definition steps_left (th : Thread) : nat :=
  match phase th, todo th with
  | Panicked, _ | _, [] => 0
  | Idle, l => program_steps l
  | Locked, a :: l => length (body a) + 2 + program_steps l
  | Inside _ rest, _ :: l => length rest + 1 + program_steps l
  end%nat.

Definition all_steps_left (s : State) : nat := sum_list_with steps_left (threads s).

Lemma sum_insert {X} (f : X -> nat) (l : list X) i x y :
  l !! i = Some x -> (sum_list_with f (<[i := y]> l) + f x = sum_list_with f l + f y)%nat.
Proof.
  revert i. induction l as [|z l IH]; intros [|i]; cbn; [done..| |].
  - intros [= ->]. lia.
  - intros Hl. specialize (IH i Hl). rewrite <- !Nat.add_assoc. f_equal. exact IH.
Qed.

Lemma step_decreases t s s' : step t s = Some s' -> (all_steps_left s' < all_steps_left s)%nat.
Proof.
  intros Hs. assert (exists th th', threads s !! t = Some th /\ threads s' = <[t := th']> (threads s) /\
    (steps_left th' < steps_left th)%nat) as (th & th' & Ht & Hths & Hlt).
  { revert Hs. unfold step. destruct (threads s !! t) as [th|] eqn:Ht; [|done]. cbn. intros Hs. exists th.
    destruct (todo th) as [|a l] eqn:Htd; [done|].
    destruct (phase th) as [| |o [|q rest]|] eqn:Hph; [| | | |done]; unfold steps_left at 2;
      rewrite Hph, Htd; rewrite ?program_steps_cons.
    - destruct (can_lock (access_mode a) s); [|done]. injection Hs as <-. eexists. split_and!; [done..|].
      unfold steps_left. destruct (poisoned s); cbn; lia.
    - destruct (conn_free (conn a) s); [|done]. case_bool_decide; injection Hs as <-; eexists; (split_and!; [done..|]);
        unfold steps_left; cbn; lia.
    - injection Hs as <-. eexists. split_and!; [done..|]. unfold steps_left. cbn. destruct l; cbn; lia.
    - destruct (q (db s)) as [[v|[]|] d]; injection Hs as <-; eexists; (split_and!; [done..|]); unfold steps_left; cbn; lia. }
  unfold all_steps_left. rewrite Hths. pose proof (sum_insert steps_left (threads s) t th th' Ht). lia.
Qed.

Lemma run_bounded sched s s' : run sched s = Some s' -> (length sched + all_steps_left s' <= all_steps_left s)%nat.
Proof.
  revert s. induction sched as [|t sched IH]; intros s; cbn; [intros [= <-]; lia|].
  destruct (step t s) as [s1|] eqn:Hs; [|done]. cbn. intros Hr%IH. apply step_decreases in Hs. lia.
Qed.

(** When no task can move, none is in the middle of an access. *)
Lemma stuck_is_done s t th :
  (forall t, step t s = None) -> threads s !! t = Some th -> todo th = [] \/ phase th = Panicked.
Proof.
  intros Hstuck.
  assert (forall t th o r a l, threads s !! t = Some th -> todo th = a :: l -> phase th <> Inside o r) as Hin.
  { intros t1 th1 o r a l H1 Htd Hph. specialize (Hstuck t1). unfold step in Hstuck. rewrite H1 in Hstuck. cbn in Hstuck.
    rewrite Htd, Hph in Hstuck. destruct r as [|q r]; [done|]. by destruct (q (db s)) as [[]]. }
  assert (forall t th a l, threads s !! t = Some th -> todo th = a :: l -> phase th <> Locked) as Hlk.
  { intros t1 th1 a l H1 Htd Hph. specialize (Hstuck t1). unfold step in Hstuck. rewrite H1 in Hstuck. cbn in Hstuck.
    rewrite Htd, Hph in Hstuck. assert (conn_free (conn a) s = true) as Hf.
    { apply negb_true_iff, existsb_threads. intros t2 th2 H2. unfold holds_conn.
      destruct (phase th2) eqn:Hp2; try done. destruct (todo th2) eqn:Htd2; [done|]. by destruct (Hin t2 th2 _ _ _ _ H2 Htd2 Hp2). }
    rewrite Hf in Hstuck. by case_bool_decide. }
  intros Ht. destruct (todo th) as [|a l] eqn:Htd; [by left|]. right.
  destruct (phase th) as [| |o r|] eqn:Hph; [|by destruct (Hlk t th a l Ht Htd)|by destruct (Hin t th o r a l Ht Htd)|done].
  specialize (Hstuck t). unfold step in Hstuck. rewrite Ht in Hstuck. cbn in Hstuck. rewrite Htd, Hph in Hstuck.
  assert (forall m t2 th2, threads s !! t2 = Some th2 -> holds_lock m th2 = false) as Hno.
  { intros m t2 th2 H2. unfold holds_lock. destruct (todo th2) eqn:Htd2; [by destruct (phase th2)|].
    destruct (phase th2) eqn:Hp2; [done| | |done].
    - by destruct (Hlk t2 th2 _ _ H2 Htd2).
    - by destruct (Hin t2 th2 _ _ _ _ H2 Htd2 Hp2). }
  assert (can_lock (access_mode a) s = true) as Hc
    by (unfold can_lock; destruct (access_mode a); apply negb_true_iff, existsb_threads; intros; by eapply Hno).
  by rewrite Hc in Hstuck.
Qed.

(** ** Theorems *)

(** Statements that never panic. *)
Definition panic_free (a : Access) : Prop :=
  Forall (fun q : Statement => forall d, exists v d', q d = (Ret v, d')) (body a).

Definition unharmed (s : State) : Prop :=
  poisoned s = false /\ bad_conns s = [] /\ forall t th, threads s !! t = Some th -> phase th <> Panicked.

Lemma step_unharmed d0 ps t s s' :
  Forall (Forall panic_free) ps -> inv d0 ps s -> unharmed s -> step t s = Some s' -> unharmed s'.
Proof.
  intros Hps Hi (Hp & Hb & Hn). unfold step. destruct (threads s !! t) as [th|] eqn:Ht; [|done]. cbn.
  assert (forall x, phase x <> Panicked -> forall t1 th1, <[t := x]> (threads s) !! t1 = Some th1 -> phase th1 <> Panicked) as Hins.
  { intros x Hx t1 th1. rewrite list_lookup_insert_Some. intros [(<- & <- & _)|[_ H1]]; [done|by eapply Hn]. }
  destruct (todo th) as [|a l] eqn:Htd; [done|].
  destruct (phase th) as [| |o [|q rest]|] eqn:Hph; [| | | |done].
  - destruct (can_lock _ s); [|done]. rewrite Hp. intros [= <-]. split_and!; [done..|]. by apply Hins.
  - destruct (conn_free _ s); [|done]. rewrite Hb. intros [= <-]. split_and!; [done..|]. by apply Hins.
  - intros [= <-]. split_and!; [done..|]. by apply Hins.
  - destruct (current_statement d0 ps s t th a l o q rest Hi Ht Htd Hph) as (p & Hpp & Ha & Hq).
    rewrite Forall_forall in Hps. specialize (Hps p Hpp). rewrite Forall_forall in Hps. specialize (Hps a Ha).
    unfold panic_free in Hps. rewrite Forall_forall in Hps. destruct (Hps q Hq (db s)) as (v & d' & ->).
    intros [= <-]. split_and!; [done..|]. by apply Hins.
Qed.

(** C9. In every interleaving of the tasks' statements, the completed accesses
    read and leave what they would when run one after the other in the order
    of their completion; a writer is alone, no task is past a poisoned lock,
    and each task goes through its accesses in order. *)
Theorem accesses_serialised d programs sched s :
  Forall (Forall reads_only) programs -> run sched (start d programs) = Some s ->
  (exists d', replay (completed s) d d' /\ (poisoned s = false -> writer_inside s = false -> db s = d')) /\
  (forall t1 t2 th1 th2, threads s !! t1 = Some th1 -> threads s !! t2 = Some th2 -> t1 <> t2 ->
     holds_lock is_write th1 = true -> locked th2 = false) /\
  (poisoned s = true -> forall t th, threads s !! t = Some th -> locked th = false) /\
  (forall t th, threads s !! t = Some th -> programs !! t = Some (completed_by t (completed s) ++ todo th)).
Proof.
  intros Hps Hrun. pose proof (run_inv d programs Hps sched _ _ (start_inv d programs) Hrun) as Hi.
  split; [|by split_and!; destruct Hi]. destruct (replays _ _ _ Hi) as (d' & Hr & Hd). exists d'. split; [done|].
  intros Hp. by apply Hd.
Qed.

(** C31. There is no deadlock: every schedule is bounded by the statements of
    the programs, and when no task can move each has done all its accesses or
    has panicked; without panicking statements all accesses are completed. *)
Theorem accesses_complete d programs sched s :
  Forall (Forall reads_only) programs -> run sched (start d programs) = Some s ->
  (length sched <= sum_list_with program_steps programs)%nat /\
  ((forall t, step t s = None) -> forall t th, threads s !! t = Some th ->
     (todo th = [] \/ phase th = Panicked) /\
     (Forall (Forall panic_free) programs -> programs !! t = Some (completed_by t (completed s)))).
Proof.
  intros Hps Hrun. split.
  { apply run_bounded in Hrun. unfold all_steps_left in Hrun at 2. cbn [threads start] in Hrun.
    assert (sum_list_with steps_left ((fun p => {| phase := Idle; todo := p |}) <$> programs) =
      sum_list_with program_steps programs) as <-; [|lia].
    clear. induction programs as [|[|a p] ps IH]; [done| |]; cbn; by rewrite IH. }
  intros Hstuck t th Ht. pose proof (stuck_is_done s t th Hstuck Ht) as Hdone. split; [done|]. intros Hpf.
  assert (inv d programs s /\ unharmed s) as [Hi (_ & _ & Hn)].
  { assert (unharmed (start d programs)) as Hu0.
    { split_and!; [done..|]. intros t1 th1. cbn. rewrite list_lookup_fmap. destruct (programs !! t1); [|done].
      by intros [= <-]. }
    pose proof (start_inv d programs) as Hi0. revert Hrun Hi0 Hu0. clear -Hps Hpf. generalize (start d programs).
    induction sched as [|t sched IH]; intros s0; cbn; [by intros [= <-]|].
    destruct (step t s0) as [s1|] eqn:Hs; [|done]. cbn. intros Hrun Hi0 Hu0.
    apply (IH s1 Hrun); [by eapply step_inv|by eapply step_unharmed]. }
  rewrite (in_order _ _ _ Hi t th Ht). destruct Hdone as [->|Hp]; [by rewrite app_nil_r|by destruct (Hn t th Ht)].
Qed.
End connection.

Lemma with_reads_only {D V} c (f : list (D -> outcome Empty_set V)) : reads_only (with_ c f) /\ reads_only (with_raw c f).
Proof. split; intros _; cbn; apply Forall_fmap, Forall_forall; by intros q _ d. Qed.

Lemma mut_reads_only {D V} c (f : list (M D Empty_set V)) : reads_only (with_mut c f) /\ reads_only (with_raw_mut c f).
Proof. by split; intros [=]. Qed.

(** *** An example: a counter, incremented twice by one task and read twice by two others *)

Definition toy_read : Z -> outcome Empty_set Z := fun d => Ret d.
Definition toy_increment : M Z Empty_set Z := fun d => (Ret d, d + 1).

Definition toy_programs : list (list (@Access Z Z)) :=
  [[with_mut 0 [toy_increment; toy_increment]]; [with_ 1 [toy_read; toy_read]]; [with_raw 2 [toy_read; toy_read]]].

Definition toy_schedule : list nat := [1; 2; 1; 1; 2; 2; 1; 2; 1; 2; 0; 0; 0; 0; 0]%nat.

(** The readers interleave; a writer waits for them, and they for it. *)
Example writer_waits :
  (run [1%nat] (start 0 toy_programs) ≫= step 0) = None /\ (run [0%nat] (start 0 toy_programs) ≫= step 1) = None /\
  (run [1%nat] (start 0 toy_programs) ≫= step 2) <> None.
Proof. by vm_compute. Qed.

Lemma toy_programs_read_only : Forall (Forall reads_only) toy_programs.
Proof.
  unfold toy_programs. repeat apply Forall_cons_2; try apply Forall_nil_2;
    [apply mut_reads_only|apply with_reads_only|apply with_reads_only].
Qed.

Lemma accesses_serialised_witness :
  match run toy_schedule (start 0 toy_programs) with
  | Some s => db s = 2 /\ replay (completed s) 0 2
  | None => False
  end.
Proof.
  destruct (run toy_schedule (start 0 toy_programs)) as [s|] eqn:Hs; [|by vm_compute in Hs].
  destruct (accesses_serialised 0 toy_programs toy_schedule s toy_programs_read_only Hs) as ((d & Hr & Hd) & _).
  assert (db s = 2) as Hdb by (vm_compute in Hs; injection Hs as <-; reflexivity).
  split; [exact Hdb|]. rewrite <- Hdb. rewrite Hd; [exact Hr| |]; vm_compute in Hs; injection Hs as <-; reflexivity.
Defined.

Lemma accesses_complete_witness :
  match run toy_schedule (start 0 toy_programs) with
  | Some s => completed_by 2 (completed s) = [with_raw 2 [toy_read; toy_read]]
  | None => False
  end.
Proof.
  destruct (run toy_schedule (start 0 toy_programs)) as [s|] eqn:Hs; [|by vm_compute in Hs].
  destruct (accesses_complete 0 toy_programs toy_schedule s toy_programs_read_only Hs) as [_ Hc].
  assert (forall t, step t s = None) as Hstuck
    by (vm_compute in Hs; injection Hs as <-; intros [|[|[|t]]]; reflexivity).
  destruct (threads s !! 2%nat) as [th|] eqn:Hth; [|vm_compute in Hs; injection Hs as <-; discriminate].
  destruct (Hc Hstuck 2%nat th Hth) as [_ Hp]. cut (toy_programs !! 2%nat = Some (completed_by 2 (completed s))).
  - by intros [= <-].
  - apply Hp. unfold toy_programs. repeat apply Forall_cons_2; try apply Forall_nil_2;
      intros d; by eexists _, _.
Defined.
