(* ===== verification/Backends.v ===== *)
(** The backends as crates of their own
    (src/backends/zebra/src/chain.rs, chain/reader.rs, src/backends/zaino/src/chain.rs,
    src/crates/zebra-read-state/src/lib.rs, and the validator's client of
    src/zallet/src/components/chain/zebra/rpc.rs): what they have beyond the views of
    [ZebraView] and [Zaino]. Starting them, the networks they are started for, the
    client of the validator, the upgrades it reports, and the Ironwood pool.

    The crates' operations are arguments; a [Result] of theirs is a sum. *)

From S2P Require Import Prelude Rpc Text Network Chain Auth Config ZebraView Zaino.

(** ** Networks *)

(** The upgrades of [consensus::NetworkUpgrade], and the heights that zebra's
    [ConfiguredActivationHeights] and zaino's [ActivationHeights] hold. *)
Inductive Upgrade :=
  | UOverwinter | USapling | UBlossom | UHeartwood | UCanopy | UNu5 | UNu6 | UNu6_1 | UNu6_2 | UNu6_3.

Record ActivationHeights := {
  before_overwinter : option Z;
  z_overwinter : option Z;
  z_sapling : option Z;
  z_blossom : option Z;
  z_heartwood : option Z;
  z_canopy : option Z;
  z_nu5 : option Z;
  z_nu6 : option Z;
  z_nu6_1 : option Z;
  z_nu6_2 : option Z;
  z_nu6_3 : option Z;
  z_nu7 : option Z
}.

(** The networks of [zebra_chain] and of [zaino_common]. *)
Inductive NodeNetwork := NodeMainnet | NodeTestnet | NodeRegtest (heights : ActivationHeights).

(** [Parameters::network_type]. *)
Definition type_of_network (params : Network) : NetworkType :=
  match params with
  | Consensus MainNetwork => Main
  | Consensus TestNetwork => Test
  | RegTest _ => Regtest
  end.

(** [network_to_zebra]; [activation_height] is that of the parameters. *)
Definition network_to_zebra (activation_height : Network -> Upgrade -> option Z) (params : Network) : NodeNetwork :=
  match type_of_network params with
  | Main => NodeMainnet
  | Test => NodeTestnet
  | Regtest =>
      let height := activation_height params in
      NodeRegtest {|
        before_overwinter := Some 1; z_overwinter := height UOverwinter; z_sapling := height USapling;
        z_blossom := height UBlossom; z_heartwood := height UHeartwood; z_canopy := height UCanopy;
        z_nu5 := height UNu5; z_nu6 := height UNu6; z_nu6_1 := height UNu6_1; z_nu6_2 := height UNu6_2;
        z_nu6_3 := height UNu6_3; z_nu7 := None |}
  end.

Definition network_to_zaino (network : Network) : NodeNetwork :=
  match network with
  | Consensus MainNetwork => NodeMainnet
  | Consensus TestNetwork => NodeTestnet
  | RegTest n =>
      NodeRegtest {|
        before_overwinter := Some 1; z_overwinter := overwinter n; z_sapling := sapling n; z_blossom := blossom n;
        z_heartwood := heartwood n; z_canopy := canopy n; z_nu5 := nu5 n; z_nu6 := nu6 n; z_nu6_1 := nu6_1 n;
        z_nu6_2 := nu6_2 n; z_nu6_3 := nu6_3 n; z_nu7 := None |}
  end.

(** ** The read-state service *)

Inductive ReadStateError :=
  | ResolveGrpcAddress (address : string) (source : option string)
  | UnsupportedNetwork (msg : string)
  | DatabaseVersion (path source : string)
  | DatabaseMissing (major : Z) (path : string)
  | InitFailed (e : string).

(** [Display]; [show] prints a number. *)
Definition read_state_message (show : Z -> string) (e : ReadStateError) : string :=
  match e with
  | ResolveGrpcAddress address (Some e) =>
      "failed to resolve indexer.read_state_service.grpc_address '" +:+ address +:+ "': " +:+ e
  | ResolveGrpcAddress address None =>
      "indexer.read_state_service.grpc_address '" +:+ address +:+ "' resolved to no IP addresses"
  | UnsupportedNetwork msg => msg
  | DatabaseVersion path e => "failed to read the zebra-state database version at '" +:+ path +:+ "': " +:+ e
  | DatabaseMissing major path =>
      "no zebra-state v" +:+ show major +:+ " database found under '" +:+ path +:+
      "'; check that indexer.read_state_service.zebra_state_path points at zebrad's state cache directory, and " +:+
      "that zebrad's on-disk state format matches Zallet's zebra-state version"
  | InitFailed e => e
  end%string.

(** The system's and zebra's parts: name resolution, the version of the database on
    disk for a directory and a network, the version of this build, and the opening of
    the state with its syncer. *)
Record ReadStateOps (SocketAddr Service : Type) := {
  lookup_host : string -> string + list SocketAddr;
  version_on_disk : string -> NodeNetwork -> string + option Z;
  major_in_code : Z;
  init_read_state : string -> NodeNetwork -> SocketAddr -> string + Service
}.
Arguments lookup_host {SocketAddr Service}.
Arguments version_on_disk {SocketAddr Service}.
Arguments major_in_code {SocketAddr Service}.
Arguments init_read_state {SocketAddr Service}.

Definition init_read_state_service {SocketAddr Service} (ops : ReadStateOps SocketAddr Service) (network : NodeNetwork)
    (grpc_address zebra_state_path : string) : outcome ReadStateError Service :=
  addrs ← try_ (fun e => ResolveGrpcAddress grpc_address (Some e)) (lookup_host ops grpc_address);
  grpc_addr ← ok_or (head addrs) (ResolveGrpcAddress grpc_address None);
  version ← try_ (DatabaseVersion zebra_state_path) (version_on_disk ops zebra_state_path network);
  match version with
  | Some _ => try_ InitFailed (init_read_state ops zebra_state_path network grpc_addr)
  | None => Err (DatabaseMissing (major_in_code ops) zebra_state_path)
  end.

(** ** The validator's client *)

Inductive ValidatorAuth :=
  | AuthBasic (encoded : string)
  | AuthCookie (path : string).

Record ValidatorRpcClient := { client_url : string; client_auth : ValidatorAuth }.

Section client.
Context `{AuthOps}.

Definition validator_client_new (address user password : string) (cookie_path : option string) : ValidatorRpcClient := {|
  client_url := "http://" +:+ address;
  client_auth := match cookie_path with
                 | Some path => AuthCookie path
                 | None => AuthBasic (base64_encode (user +:+ ":" +:+ password))
                 end |}.

(** The token in the text of a cookie file. *)
Definition cookie_token (content : string) : string :=
  default (trim content) (strip_prefix "__cookie__:" (trim content)).

(** The credentials of a request; [read_to_string] reads a file as it is then. *)
Definition client_credentials (read_to_string : string -> string + string) (c : ValidatorRpcClient) :
    outcome message string :=
  match client_auth c with
  | AuthBasic encoded => Ret encoded
  | AuthCookie path =>
      content ← try_ (fun e => Text ("reading RPC cookie: " +:+ e)) (read_to_string path);
      Ret (base64_encode ("__cookie__:" +:+ cookie_token content))
  end.

(** [build_client], up to the library's builder: the URL and the header. *)
Definition build_client {Client} (read_to_string : string -> string + string)
    (build : string -> HeaderValue -> string + Client) (c : ValidatorRpcClient) : outcome message Client :=
  credentials ← client_credentials read_to_string c;
  header ← ok_or (header_from_str ("Basic " +:+ credentials)) (Text "invalid RPC auth header: failed to parse header value");
  try_ (fun e => Text ("building RPC client: " +:+ e)) (build (client_url c) header).

(** The requests: a method and its parameters, through a client built anew. *)
Definition validator_request {Client R} (read_to_string : string -> string + string)
    (build : string -> HeaderValue -> string + Client)
    (request : Client -> string -> list JsonValue -> string + R) (c : ValidatorRpcClient) (method : string)
    (params : list JsonValue) : outcome message R :=
  client ← build_client read_to_string build c;
  try_ Text (request client method params).

Definition send_raw_transaction_request {R Client} rd build request (c : ValidatorRpcClient) (tx_hex : string) :
    outcome message R :=
  validator_request (Client := Client) rd build request c "sendrawtransaction" [JString tx_hex].

Definition get_raw_mempool_request {R Client} rd build request (c : ValidatorRpcClient) : outcome message R :=
  validator_request (Client := Client) rd build request c "getrawmempool" [].

Definition get_raw_transaction_request {R Client} rd build request (c : ValidatorRpcClient) (txid_hex : string) :
    outcome message R :=
  validator_request (Client := Client) rd build request c "getrawtransaction" [JString txid_hex; JNumber "0"].

(** ** Starting the zebra backend: [ZebraChain::new] *)

(** A chain: the read-state service, the client and the parameters. *)
Record ZebraChain (Service : Type) := { service : Service; validator : ValidatorRpcClient; params : Network }.

Definition zebra_chain_new {SocketAddr Service} (show : Z -> string) (ops : ReadStateOps SocketAddr Service)
    (activation_height : Network -> Upgrade -> option Z) (network : Network) (datadir : string)
    (indexer : IndexerSection) : outcome message (ZebraChain Service) :=
  rss ← ok_or (read_state_service indexer)
    (Text "the zebra-state backend requires an [indexer.read_state_service] config section");
  validator_address ← ok_or (validator_address indexer) (Text "indexer.validator_address is required");
  let validator := validator_client_new validator_address (default ""%string (validator_user indexer))
    (default ""%string (validator_password indexer)) (validator_cookie_path indexer) in
  service ← map_err (fun e => Text (read_state_message show e))
    (init_read_state_service ops (network_to_zebra activation_height network) (grpc_address rss)
      (resolve_datadir_path datadir (zebra_state_path rss)));
  Ret {| service := service; validator := validator; params := network |}.
End client.

(** ** The upgrades a validator reports *)

Inductive UpgradeStatus := Active | Pending | Disabled.

Record ReportedUpgrade := {
  branch : Z;
  upgrade_name : string;
  upgrade_height : Z;
  status : UpgradeStatus
}.

(** zebra: the branch is text, which the message quotes; [e] is the text of the
    parser's error. *)
Definition zebra_reported_upgrade (e : string) (u : string * (string * Z * UpgradeStatus)) :
    outcome message ReportedUpgrade :=
  let '(branch_id, (name, activation_height, status)) := u in
  branch_id' ← ok_or (from_str_radix 16 u32_max branch_id)
    (Text ("invalid consensus branch ID " +:+ dquote +:+ branch_id +:+ dquote +:+ ": " +:+ e));
  Ret {| branch := branch_id'; upgrade_name := name; upgrade_height := activation_height; status := status |}.

Definition zebra_reported_upgrades (e : string) (info : string + list (string * (string * Z * UpgradeStatus))) :
    outcome message (list ReportedUpgrade) :=
  upgrades ← try_ Text info;
  traverse (zebra_reported_upgrade e) upgrades.

(** zaino: its connector has parsed the branch. *)
Inductive NetworkUpgradeStatus := NUActive | NUPending | NUDisabled.

Definition upgrade_status (status : NetworkUpgradeStatus) : UpgradeStatus :=
  match status with NUActive => Active | NUPending => Pending | NUDisabled => Disabled end.

Definition zaino_reported_upgrade (u : Z * (string * Z * NetworkUpgradeStatus)) : ReportedUpgrade :=
  let '(branch, (name, activation_height, status)) := u in
  {| branch := branch; upgrade_name := name; upgrade_height := activation_height; status := upgrade_status status |}.

Definition zaino_reported_upgrades (info : string + list (Z * (string * Z * NetworkUpgradeStatus))) :
    outcome message (list ReportedUpgrade) :=
  match info with
  | inl e => Err (Text e)
  | inr upgrades => Ret (zaino_reported_upgrade <$> upgrades)
  end.

(** ** Ironwood *)

(** The third pool, whose trees have Orchard's shape. *)
Section ironwood_zebra.
Context `{NodeOps} `{HeightOps}.
Context (env : nat -> NodeState) (interfere : nat -> gmap Z BlockHash -> gmap Z BlockHash).
Context (ironwood_tree_bytes : NodeState -> BlockHash -> outcome ChainError (option (list Byte.byte))).
Context (chain_state3 : Z -> BlockHash -> TreeState -> TreeState -> TreeState -> ChainState).

(** [tree_state_as_of] of the zebra backend. *)
Definition ironwood_tree_state_as_of (v : ZebraChainView) (height : Z) : M world ChainError (option ChainState) :=
  o ← resolve env interfere v height;
  match o with
  | None => mret None
  | Some hash =>
      let pinned_finalized := height <=? finalized_floor v in
      s ← rd env interfere (fun n => sapling_tree_bytes n hash);
      sapling ← lift (tree_or pinned_finalized "pinned sapling treestate reorged away" ZebraView.read_sapling_tree s);
      o ← rd env interfere (fun n => orchard_tree_bytes n hash);
      orchard ← lift (tree_or pinned_finalized "pinned orchard treestate reorged away" ZebraView.read_orchard_tree o);
      i ← rd env interfere (fun n => ironwood_tree_bytes n hash);
      ironwood ← lift (tree_or pinned_finalized "pinned ironwood treestate reorged away" ZebraView.read_orchard_tree i);
      mret (Some (chain_state3 height hash sapling orchard ironwood))
  end.

(** The subtree roots of a pool: the node's map from heights to roots, whose nodes
    are decoded. *)
Definition decoded_subtree_roots {Repr Root} (pool : string) (from_bytes : Repr -> option Root)
    (roots : outcome ChainError (list (Z * Repr))) : outcome ChainError (list (Z * Root)) :=
  subtrees ← roots;
  traverse (fun '(end_height, repr) =>
    node ← ok_or (from_bytes repr) (invalid_data ("non-canonical " +:+ pool +:+ " subtree root"));
    Ret (end_height, node)) subtrees.

Definition orchard_subtree_roots {Repr Root} := @decoded_subtree_roots Repr Root "orchard".
Definition ironwood_subtree_roots {Repr Root} := @decoded_subtree_roots Repr Root "ironwood".
End ironwood_zebra.

Section ironwood_zaino.
Context `{ZainoOps} `{HeightOps}.
Context (get_treestate3 : Snapshot -> BlockHash ->
  string + option (list Byte.byte) * option (list Byte.byte) * option (list Byte.byte)).
Context (new_chain_state3 : Z -> BlockHash -> SaplingTree -> OrchardTree -> OrchardTree -> ChainState).

(** [tree_state_as_of] of the zaino backend. *)
Definition zaino_ironwood_tree_state_as_of (v : Snapshot) (height : Z) : outcome ChainError (option ChainState) :=
  zaino_height ← to_zaino_height height;
  block_hash ← try_ backend (get_block_hash v zaino_height);
  match block_hash with
  | Some hash =>
      '(sapling_treestate, orchard_treestate, ironwood_treestate) ← try_ backend (get_treestate3 v hash);
      final_sapling_tree ← tree_or_empty empty_sapling_tree Zaino.read_sapling_tree sapling_treestate;
      final_orchard_tree ← tree_or_empty empty_orchard_tree Zaino.read_orchard_tree orchard_treestate;
      final_ironwood_tree ← tree_or_empty empty_orchard_tree Zaino.read_orchard_tree ironwood_treestate;
      Ret (Some (new_chain_state3 height hash final_sapling_tree final_orchard_tree final_ironwood_tree))
  | None => Ret None
  end.

(** [get_ironwood_subtree_roots] is that of the other pools, on its own roots. *)
Definition zaino_ironwood_subtree_roots {Node} (from_bytes : list Byte.byte -> option Node)
    (roots : string + list (list Byte.byte * Z)) : outcome ChainError (list (Z * Node)) :=
  roots ← try_ backend roots;
  traverse (fun '(root_hash, end_height) =>
    node ← expect (from_bytes root_hash);
    Ret (end_height, node)) roots.
End ironwood_zaino.

(** ** Theorems *)

(** *** Both backends are started for the same network, and report alike *)

(** The height of an upgrade in the local parameters. *)
Definition local_height (n : LocalNetwork) (u : Upgrade) : option Z :=
  match u with
  | UOverwinter => overwinter n
  | USapling => sapling n
  | UBlossom => blossom n
  | UHeartwood => heartwood n
  | UCanopy => canopy n
  | UNu5 => nu5 n
  | UNu6 => nu6 n
  | UNu6_1 => nu6_1 n
  | UNu6_2 => nu6_2 n
  | UNu6_3 => nu6_3 n
  end.

Definition heights_list (h : ActivationHeights) : list (option Z) :=
  [z_overwinter h; z_sapling h; z_blossom h; z_heartwood h; z_canopy h; z_nu5 h; z_nu6 h; z_nu6_1 h; z_nu6_2 h; z_nu6_3 h].

(** Both backends are started for the network that the configuration names; on regtest
    with the height of each upgrade that the parameters give it, or else the next
    upgrade that has one. *)
Theorem backend_networks_agree `{BranchOps} (activation_height : Network -> Upgrade -> option Z) t nuparams :
  (forall n u, activation_height (RegTest n) u = local_height n u) ->
  let network := from_type t nuparams in
  network_to_zebra activation_height network = network_to_zaino network /\
  match t with
  | Main => network_to_zaino network = NodeMainnet
  | Test => network_to_zaino network = NodeTestnet
  | Regtest => exists h, network_to_zaino network = NodeRegtest h /\
      heights_list h = cascade (find_nu nuparams) upgrades /\ before_overwinter h = Some 1 /\ z_nu7 h = None
  end.
Proof.
  intros Hah network. unfold network. destruct t; [done..|].
  destruct (from_type_regtest nuparams) as (n & -> & Ha). split.
  - unfold network_to_zebra, type_of_network, network_to_zaino. by rewrite !Hah.
  - eexists. split; [done|]. split_and!; [|done..]. rewrite <- Ha. done.
Qed.

(** The upgrades that a validator reports come out alike, the branch being the text of
    eight hexadecimal digits for one and a number for the other. *)
Theorem reported_upgrades_agree e (l : list (Z * (string * Z * NetworkUpgradeStatus))) :
  Forall (fun u => 0 <= u.1 <= u32_max) l ->
  zebra_reported_upgrades e (inr ((fun u => (hex_fixed 8 u.1, (u.2.1, upgrade_status u.2.2))) <$> l)) =
    zaino_reported_upgrades (inr l).
Proof.
  intros Hl. unfold zebra_reported_upgrades, zaino_reported_upgrades. cbn [try_ mbind outcome_bind].
  apply traverse_Ret. induction Hl as [|[b [[name h] st]] l Hb _ IH];
    cbn -[hex_fixed from_str_radix]; constructor; [|done].
  unfold zebra_reported_upgrade. cbn -[hex_fixed from_str_radix] in *. rewrite from_str_radix_hex by done. done.
Qed.

(** *** The read-state service *)

(** It is opened only over a database that exists for the network, and whatever
    fails before, nothing is opened. *)
Lemma read_state_needs_database {SocketAddr Service} (ops : ReadStateOps SocketAddr Service) network addr path s :
  init_read_state_service ops network addr path = Ret s ->
  exists v a, version_on_disk ops path network = inr (Some v) /\ init_read_state ops path network a = inr s.
Proof.
  unfold init_read_state_service. destruct (lookup_host ops addr) as [|[|a l]]; [done..|]. cbn.
  destruct (version_on_disk ops path network) as [|[v|]]; [done| |done]. cbn.
  destruct (init_read_state ops path network a) eqn:Hi; [done|]. intros [= <-]. eauto.
Qed.

(** *** The validator's client *)

Section client_proofs.
Context `{AuthLaws}.

Definition keep_header (url : string) (h : HeaderValue) : string + string * HeaderValue := inr (url, h).

(** The header of a request carries the name and password, or those of the cookie as it
    is in its file when the request is made, whether the file has the name or not. *)
Theorem validator_credentials read c :
  match client_auth c with
  | AuthBasic encoded => forall user password, valid_utf8 (user +:+ ":" +:+ password) = true ->
      encoded = base64_encode (user +:+ ":" +:+ password) ->
      exists h, build_client read keep_header c = Ret (client_url c, h) /\
        encoded_user_pass h = Some (user +:+ ":" +:+ password)%string
  | AuthCookie path => forall content token, read path = inr content -> valid_utf8 token = true ->
      strip_prefix "__cookie__:" token = None ->
      trim content = token \/ trim content = ("__cookie__:" +:+ token)%string ->
      exists h, build_client read keep_header c = Ret (client_url c, h) /\
        encoded_user_pass h = Some ("__cookie__:" +:+ token)%string
  end.
Proof.
  assert (forall plain_text, valid_utf8 plain_text = true -> client_credentials read c = Ret (base64_encode plain_text) ->
    exists h, build_client read keep_header c = Ret (client_url c, h) /\ encoded_user_pass h = Some plain_text) as Hgo.
  { intros x Hx Hc. destruct (header_round_trip (base64_encode x) (base64_plain x)) as (h & Hh & Hs).
    exists h. unfold build_client. rewrite Hc. cbn. rewrite Hh. split; [done|].
    apply encoded_user_pass_Some. eexists. split_and!; [done|apply base64_round_trip|done]. }
  unfold client_credentials in Hgo. destruct (client_auth c) as [encoded|path].
  - intros user password Hv ->. by apply Hgo.
  - intros content token Hr Hv Hn Ht. apply Hgo.
    + by apply (valid_utf8_app "__cookie__:").
    + rewrite Hr. cbn [try_ mbind outcome_bind]. unfold cookie_token. destruct Ht as [->| ->]; [by rewrite Hn|].
      by rewrite (proj2 (strip_prefix_Some _ _ _) eq_refl).
Qed.
End client_proofs.

(** *** Tree states before Ironwood *)

Section ironwood_proofs.
Context `{NodeOps} `{HeightOps}.
Context (env : nat -> NodeState) (interfere : nat -> gmap Z BlockHash -> gmap Z BlockHash).
Context (ironwood_tree_bytes : NodeState -> BlockHash -> outcome ChainError (option (list Byte.byte))).
Context (chain_state3 : Z -> BlockHash -> TreeState -> TreeState -> TreeState -> ChainState).

(** C28. When the node has no Ironwood tree, as before its activation, every
    tree state that the Sapling and Orchard trees give is given below the
    finalized floor with the empty tree, and refused above it as reorged away
    although nothing reorganised. *)
Theorem ironwood_treestates_before_activation v h w cs w1 :
  (forall n x, ironwood_tree_bytes n x = Ret None) ->
  tree_state_as_of env interfere v h w = (Ret (Some cs), w1) ->
  exists x sapling orchard, cs = chain_state h x sapling orchard /\
    (ironwood_tree_state_as_of env interfere ironwood_tree_bytes chain_state3 v h w).1 =
      if h <=? finalized_floor v then Ret (Some (chain_state3 h x sapling orchard empty_tree))
      else Err (unavailable "pinned ironwood treestate reorged away").
Proof.
  intros Hnone Hold. unfold tree_state_as_of, ironwood_tree_state_as_of, mbind, M_bind, rd, lift in *.
  destruct (resolve env interfere v h w) as [[[x|]|e|] w0]; [|done..].
  destruct (sapling_tree_bytes (env (clock w0)) x) as [s|e|]; [|done..].
  destruct (tree_or _ _ ZebraView.read_sapling_tree s) as [sapling|e|]; [|done..]. cbn [clock] in *.
  destruct (orchard_tree_bytes _ x) as [o|e|]; [|done..].
  destruct (tree_or _ _ ZebraView.read_orchard_tree o) as [orchard|e|]; [|done..].
  injection Hold as <- _. exists x, sapling, orchard. split; [done|]. rewrite Hnone. cbn [tree_or].
  by destruct (h <=? finalized_floor v).
Qed.
End ironwood_proofs.

Section ironwood_zaino_proofs.
Context `{ZainoOps} `{HeightOps}.

(** The zaino backend takes the empty tree at every height. *)
Lemma zaino_ironwood_before_activation get_treestate3 new_chain_state3 v h cs :
  (forall v x, get_treestate3 v x =
    match get_treestate v x with inl e => inl e | inr (s, o) => inr (s, o, None) end) ->
  zaino_tree_state_as_of v h = Ret (Some cs) ->
  exists x sapling orchard, cs = new_chain_state h x sapling orchard /\
    zaino_ironwood_tree_state_as_of get_treestate3 new_chain_state3 v h =
      Ret (Some (new_chain_state3 h x sapling orchard empty_orchard_tree)).
Proof.
  intros H3. unfold zaino_tree_state_as_of, zaino_ironwood_tree_state_as_of.
  destruct (to_zaino_height h) as [k|e|]; [|done..]. cbn. destruct (get_block_hash v k) as [e|[x|]]; [done| |done]. cbn.
  rewrite H3. destruct (get_treestate v x) as [e|[s o]]; [done|]. cbn.
  destruct (tree_or_empty empty_sapling_tree _ s) as [sapling|e|]; [|done..]. cbn.
  destruct (tree_or_empty empty_orchard_tree _ o) as [orchard|e|]; [|done..]. cbn. intros [= <-].
  by exists x, sapling, orchard.
Qed.
End ironwood_zaino_proofs.

(** *** A concrete node *)

#[local] Existing Instances node_types example_node.

(** Above the finalized floor, Sapling and Orchard answer and Ironwood refuses. *)
Lemma ironwood_treestates_before_activation_witness :
  (ironwood_tree_state_as_of example_env example_interfere
    (fun _ _ => Ret None) (fun h x _ _ _ => (h, x)) example_view 6 example_world).1 =
  Err (unavailable "pinned ironwood treestate reorged away").
Proof.
  destruct (@tree_state_as_of node_types example_node example_env example_interfere example_view 6 example_world) as [[[cs|]|e|] w1] eqn:Ht;
    [|vm_compute in Ht; discriminate..].
  destruct (@ironwood_treestates_before_activation node_types example_node example_env example_interfere (fun _ _ => Ret None)
    (fun h x _ _ _ => (h, x)) example_view 6 example_world cs w1 (fun _ _ => eq_refl) Ht) as (x & s & o & _ & Hi).
  rewrite Hi. reflexivity.
Defined.
