(* ===== verification/Mempool.v ===== *)
(** The rest of the zebra-state backend (src/zallet/src/components/chain/zebra.rs,
    and [GetSpendingTx] of src/zallet-core/src/components/sync.rs): the stream of
    mempool transactions, and the status of spent outputs.

    The stream polls the validator once per tick of a timer. What the validator
    answers at the [k]-th tick is a function of [k]. *)

From S2P Require Import Prelude Chain.

(** The validator over time: the tip of the best chain, the mempool, and the text of a
    transaction; and the crates' decoders, at the branch of the next block. *)
Class MempoolOps `{ChainTypes} := {
  tip_at : nat -> ChainError + option ChainBlock;
  raw_mempool_at : nat -> string + list string;
  raw_transaction_at : nat -> string -> string + string;
  decode_hex : string -> string + list Byte.byte;
  read_mempool_transaction : list Byte.byte -> string + Transaction
}.

(** ** Spent outputs *)

Inductive SpendStatus (TxId : Type) := Unspent | SpentBy (txid : TxId) | SpentSpenderUnknown.
Arguments Unspent {TxId}.
Arguments SpentBy {TxId} _.
Arguments SpentSpenderUnknown {TxId}.

(** [outpoint_spend_status]: the set of unspent outputs, then the index of spenders. *)
Definition outpoint_spend_status {TxId} (is_unspent : outcome ChainError bool)
    (spending_transaction : outcome ChainError (option TxId)) : outcome ChainError (SpendStatus TxId) :=
  unspent ← is_unspent;
  if unspent : bool then Ret Unspent
  else
    h ← spending_transaction;
    Ret match h with Some h => SpentBy h | None => SpentSpenderUnknown end.

(** The request [GetSpendingTx]: [notify] and [store] change the wallet; an error of the
    status query is logged. *)
Definition service_get_spending_tx {W E TxId Tx} (chain_error : ChainError -> E)
    (status : outcome ChainError (SpendStatus TxId)) (notify : M W E unit)
    (get_transaction : TxId -> outcome ChainError (option Tx)) (store : Tx -> M W E unit) : M W E unit :=
  match status with
  | Ret Unspent => notify
  | Ret (SpentBy txid) =>
      o ← lift (map_err chain_error (get_transaction txid));
      match o with Some tx => store tx | None => mret tt end
  | Ret SpentSpenderUnknown | Err _ => mret tt
  | Panic => lift Panic
  end.

Section stream.
Context `{MempoolOps}.

(** The state of the stream; [ticks] counts the ticks so far. *)
Record State := {
  tip_hash : BlockHash;
  ticks : nat;
  seen : list string;
  pending : list Transaction
}.

(** What the validator's answers for a transaction at a tick come to. *)
Definition fetch (k : nat) (txid : string) : option Transaction :=
  match raw_transaction_at k txid with
  | inl _ => None
  | inr raw_hex =>
      match decode_hex raw_hex with
      | inl _ => None
      | inr bytes => match read_mempool_transaction bytes with inl _ => None | inr tx => Some tx end
      end
  end.

(** One round of the loop over the mempool. *)
Definition see (k : nat) (s : list string * list Transaction) (txid : string) : list string * list Transaction :=
  if bool_decide (txid ∈ s.1) then s
  else (txid :: s.1, match fetch k txid with Some tx => s.2 ++ [tx] | None => s.2 end).

(** A turn of the stream's loop: it yields a transaction, or waits for a tick and
    polls, or ends. *)
Inductive Turn := Yield (tx : Transaction) (s : State) | Polled (s : State) | Ended.

Definition turn (s : State) : Turn :=
  match pending s with
  | tx :: rest => Yield tx {| tip_hash := tip_hash s; ticks := ticks s; seen := seen s; pending := rest |}
  | [] =>
      let k := ticks s in
      match tip_at k with
      | inr (Some tip) =>
          if bool_decide (hash tip = tip_hash s) then
            let '(seen', pending') :=
              match raw_mempool_at k with
              | inl _ => (seen s, [])
              | inr txids => foldl (see k) (seen s, []) txids
              end in
            Polled {| tip_hash := tip_hash s; ticks := S k; seen := seen'; pending := pending' |}
          else Ended
      | _ => Ended
      end
  end.

(** The stream over a number of turns: what it yields, and where it is, or [None] once
    it has ended. *)
Fixpoint stream_turns (n : nat) (s : State) : list Transaction * option State :=
  match n with
  | O => ([], Some s)
  | S n =>
      match turn s with
      | Yield tx s => let '(txs, e) := stream_turns n s in (tx :: txs, e)
      | Polled s => stream_turns n s
      | Ended => ([], None)
      end
  end.

(** [get_mempool_stream]; [current_tip] is read before the stream is made. *)
Definition get_mempool_stream (current_tip : outcome ChainError (option ChainBlock)) (tip : ChainBlock) :
    outcome ChainError (option State) :=
  current_tip ← current_tip;
  if bool_decide (hash <$> current_tip = Some (hash tip)) then
    Ret (Some {| tip_hash := hash tip; ticks := 0; seen := []; pending := [] |})
  else Ret None.

(** ** The specification *)

(** The transactions listed at the first [n] ticks, with the tick, in their order. *)
Definition listed_at (k : nat) : list (nat * string) :=
  match raw_mempool_at k with inl _ => [] | inr txids => (fun t => (k, t)) <$> txids end.

Definition listed (n : nat) : list (nat * string) := mjoin (listed_at <$> seq 0 n).

(** The first listing of each. *)
Fixpoint first_listings (seen : list string) (l : list (nat * string)) : list (nat * string) :=
  match l with
  | [] => []
  | (k, t) :: l =>
      if bool_decide (t ∈ seen) then first_listings seen l else (k, t) :: first_listings (t :: seen) l
  end.

Definition stream_spec (n : nat) : list Transaction :=
  omap (fun x => fetch x.1 x.2) (first_listings [] (listed n)).

Definition same_tip (x : BlockHash) (k : nat) : Prop := exists tip, tip_at k = inr (Some tip) /\ hash tip = x.

(** ** Lemmas *)

Lemma first_listings_ext (l : list (nat * string)) : forall s1 s2 : list string,
  (forall t, t ∈ s1 <-> t ∈ s2) -> first_listings s1 l = first_listings s2 l.
Proof.
  induction l as [|[k t] l IH]; intros s1 s2 Hs; simpl; [done|].
  case_bool_decide as H1; case_bool_decide as H2; try (exfalso; set_solver); auto.
  f_equal. apply IH. set_solver.
Qed.

Lemma first_listings_app (l l' : list (nat * string)) : forall s : list string,
  first_listings s (l ++ l') = first_listings s l ++ first_listings ((l.*2) ++ s) l'.
Proof.
  induction l as [|[k t] l IH]; intros s; simpl; [done|].
  case_bool_decide as Ht; rewrite IH; [|simpl; f_equal];
    f_equal; apply first_listings_ext; set_solver.
Qed.

Lemma first_listings_fresh (l : list (nat * string)) : forall (s : list string) x,
  x ∈ first_listings s l -> (x.2 ∉ s) /\ x ∈ l.
Proof.
  induction l as [|[k t] l IH]; intros s x Hx; simpl in Hx; [set_solver|].
  case_bool_decide as Ht; [apply IH in Hx; set_solver|].
  apply elem_of_cons in Hx as [->|Hx]; [set_solver|apply IH in Hx; set_solver].
Qed.

Lemma first_listings_NoDup (l : list (nat * string)) : forall s : list string,
  NoDup (first_listings s l).*2.
Proof.
  induction l as [|[k t] l IH]; intros s; simpl; [constructor|].
  case_bool_decide; [apply IH|]. simpl. constructor; [|apply IH].
  intros ((k', t') & Heq & Hx)%list_elem_of_fmap. simpl in Heq. subst t'.
  apply first_listings_fresh in Hx. set_solver.
Qed.

Lemma first_listings_covers (l : list (nat * string)) : forall (s : list string) x,
  x ∈ l -> x.2 ∈ s \/ x.2 ∈ (first_listings s l).*2.
Proof.
  induction l as [|[k t] l IH]; intros s x Hx; [set_solver|]. simpl.
  apply elem_of_cons in Hx as [->|Hx]; simpl; case_bool_decide; [set_solver|set_solver|by apply IH|].
  destruct (IH (t :: s) x Hx); set_solver.
Qed.

Lemma see_all (k : nat) (txids : list string) : forall s p, exists s',
  foldl (see k) (s, p) txids =
    (s', p ++ omap (fun x => fetch x.1 x.2) (first_listings s ((fun t => (k, t)) <$> txids))) /\
  forall t, t ∈ s' <-> t ∈ txids ++ s.
Proof.
  induction txids as [|t txids IH]; intros s p; simpl.
  { exists s. rewrite app_nil_r. set_solver. }
  unfold see at 2. simpl. case_bool_decide as Ht.
  - destruct (IH s p) as (s' & -> & Hs'). exists s'. set_solver.
  - destruct (IH (t :: s) (match fetch k t with Some tx => p ++ [tx] | None => p end)) as (s' & -> & Hs').
    exists s'. split; [|set_solver]. simpl. destruct (fetch k t); simpl; [by rewrite <- app_assoc|done].
Qed.

Lemma listed_S (n : nat) : listed (S n) = listed n ++ listed_at n.
Proof. unfold listed. rewrite seq_S, fmap_app, join_app. simpl. by rewrite app_nil_r. Qed.

(** What holds of the stream after its first [ticks] ticks, having yielded [out]. *)
Definition stream_inv (x : BlockHash) (out : list Transaction) (s : State) : Prop :=
  tip_hash s = x /\ out ++ pending s = stream_spec (ticks s) /\
  (forall t, t ∈ seen s <-> t ∈ (listed (ticks s)).*2) /\
  forall k, (k < ticks s)%nat -> same_tip x k.

Lemma poll_spec (s : State) : pending s = [] -> same_tip (tip_hash s) (ticks s) ->
  exists s', turn s = Polled s' /\ ticks s' = S (ticks s) /\ tip_hash s' = tip_hash s /\
    pending s' = omap (fun x => fetch x.1 x.2) (first_listings (seen s) (listed_at (ticks s))) /\
    forall t, t ∈ seen s' <-> t ∈ (listed_at (ticks s)).*2 ++ seen s.
Proof.
  intros Hp (tip & Htip & Hhash). unfold turn. rewrite Hp, Htip. simpl.
  rewrite bool_decide_true by done. unfold listed_at.
  destruct (raw_mempool_at (ticks s)) as [e|txids]; [eexists; split_and!; done|].
  destruct (see_all (ticks s) txids (seen s) []) as (s' & -> & Hs').
  eexists; split_and!; [done..|]. simpl. intros t. rewrite Hs', <- list_fmap_compose. simpl.
  unfold compose. simpl. by rewrite list_fmap_id.
Qed.

Lemma poll_inv x out (s : State) : stream_inv x out s -> pending s = [] -> same_tip x (ticks s) ->
  exists s', turn s = Polled s' /\ ticks s' = S (ticks s) /\ stream_inv x out s'.
Proof.
  intros (Hx & Hout & Hseen & Htips) Hp Htip. subst x.
  destruct (poll_spec s Hp Htip) as (s' & Hturn & Hk & Hx' & Hp' & Hseen').
  exists s'. split_and!; try done. unfold stream_inv, stream_spec. rewrite Hk, Hx', Hp', listed_S.
  rewrite Hp, app_nil_r in Hout. split; [done|]. split_and!.
  - rewrite first_listings_app, omap_app, Hout. unfold stream_spec. f_equal. f_equal.
    apply first_listings_ext. set_solver.
  - intros t. rewrite Hseen', fmap_app. set_solver.
  - intros k Hlt. destruct (decide (k = ticks s)) as [->|]; [done|]. apply Htips. lia.
Qed.

Lemma turn_cases x out (s : State) : stream_inv x out s ->
  (exists tx s', turn s = Yield tx s' /\ stream_inv x (out ++ [tx]) s' /\ ticks s' = ticks s /\
     pending s = tx :: pending s') \/
  (exists s', turn s = Polled s' /\ ticks s' = S (ticks s) /\ stream_inv x out s') \/
  (turn s = Ended /\ pending s = [] /\ ~ same_tip x (ticks s)).
Proof.
  intros Hi. destruct (pending s) as [|tx rest] eqn:Hp.
  - right. destruct Hi as (Hx & Hrest). destruct (tip_at (ticks s)) as [e|[tip|]] eqn:Htip.
    2: destruct (decide (hash tip = x)) as [Hh|Hh].
    2: { left. apply poll_inv; [by split|done|by exists tip]. }
    all: right; unfold turn; rewrite Hp, Htip; subst x; try rewrite bool_decide_false by done;
      split_and!; try done; intros (tip' & Ht & He); congruence.
  - left. unfold turn. rewrite Hp. eexists _, _. split; [done|]. split; [|done].
    destruct Hi as (Hx & Hout & Hseen & Htips). split_and!; simpl; try done.
    rewrite <- Hout, Hp. by rewrite <- app_assoc.
Qed.

Lemma stream_turns_inv (n : nat) : forall x out s txs e, stream_inv x out s -> stream_turns n s = (txs, e) ->
  match e with
  | Some s' => stream_inv x (out ++ txs) s'
  | None => exists k, out ++ txs = stream_spec k /\ ~ same_tip x k /\ forall j, (j < k)%nat -> same_tip x j
  end.
Proof.
  induction n as [|n IH]; intros x out s txs e Hi Hn; simpl in Hn.
  { simplify_eq. by rewrite app_nil_r. }
  destruct (turn_cases x out s Hi) as [(tx & s' & Ht & Hi' & _)|[(s' & Ht & _ & Hi')|(Ht & Hp & Hno)]];
    rewrite Ht in Hn.
  - destruct (stream_turns n s') as [txs' e'] eqn:Hn'. simplify_eq.
    specialize (IH _ _ _ _ _ Hi' Hn'). by rewrite <- app_assoc in IH.
  - by apply (IH _ _ _ _ _ Hi').
  - simplify_eq. destruct Hi as (_ & Hout & _ & Htips). exists (ticks s).
    rewrite Hp in Hout. done.
Qed.

Lemma stream_turns_add (n m : nat) : forall s txs s', stream_turns n s = (txs, Some s') ->
  stream_turns (n + m) s = (txs ++ (stream_turns m s').1, (stream_turns m s').2).
Proof.
  induction n as [|n IH]; intros s txs s' Hn; simpl in Hn |- *.
  { simplify_eq. by destruct (stream_turns m s'). }
  destruct (turn s) as [tx s1|s1|]; [| by apply IH|done].
  destruct (stream_turns n s1) as [txs1 e1] eqn:H1. simplify_eq. by rewrite (IH _ _ _ H1).
Qed.

Lemma stream_drains x out (s : State) : stream_inv x out s ->
  exists n s', stream_turns n s = (pending s, Some s') /\ pending s' = [] /\ ticks s' = ticks s.
Proof.
  intros _. destruct s as [h k sn p]. simpl. induction p as [|tx p (n & s' & Hn & Hp)].
  - exists 0%nat. eexists. done.
  - exists (S n), s'. simpl. by rewrite Hn.
Qed.

Lemma stream_reaches x (s : State) : stream_inv x [] s -> ticks s = 0%nat -> pending s = [] -> forall k,
  (forall j, (j < k)%nat -> same_tip x j) ->
  exists n s', stream_turns n s = (stream_spec k, Some s') /\ pending s' = [] /\ ticks s' = k.
Proof.
  intros Hi Hk0 Hp0. induction k as [|k IH]; intros Htips.
  { exists 0%nat, s. done. }
  destruct IH as (n & s1 & Hn & Hp & Hk); [intros; apply Htips; lia|].
  pose proof (stream_turns_inv _ _ _ _ _ _ Hi Hn) as Hi1. simpl in Hi1.
  destruct (poll_inv _ _ _ Hi1 Hp) as (s2 & Ht & Hk2 & Hi2); [apply Htips; lia|].
  destruct (stream_drains _ _ _ Hi2) as (m & s3 & Hm & Hp3 & Hk3).
  exists (n + S m)%nat, s3. rewrite (stream_turns_add _ _ _ _ _ Hn). simpl. rewrite Ht, Hm. simpl.
  split_and!; [|done|lia]. destruct Hi2 as (_ & Hout & _). by rewrite Hout, Hk2, Hk.
Qed.
End stream.

(** C30. The stream yields, while the tip stays, each transaction of the
    mempool once: after k ticks and enough turns exactly those that could be
    fetched when first listed, in that order; it is given and goes on only
    while the tip is the view's, and ends at the first tick where it is not,
    having yielded everything it had fetched. *)
Theorem mempool_stream_correct `{MempoolOps} (current : outcome ChainError (option ChainBlock)) (tip : ChainBlock) (s : State)
  (Hs : get_mempool_stream current tip = Ret (Some s)) :
  (exists t, current = Ret (Some t) /\ hash t = hash tip) /\
  (forall n txs e, stream_turns n s = (txs, e) ->
     match e with
     | Some s' => txs ++ pending s' = stream_spec (ticks s') /\ forall j, (j < ticks s')%nat -> same_tip (hash tip) j
     | None => exists k, txs = stream_spec k /\ ~ same_tip (hash tip) k /\ forall j, (j < k)%nat -> same_tip (hash tip) j
     end) /\
  (forall k, (forall j, (j < k)%nat -> same_tip (hash tip) j) ->
     exists n s', stream_turns n s = (stream_spec k, Some s') /\ ticks s' = k) /\
  (forall k, NoDup (first_listings [] (listed k)).*2 /\
     forall x, x ∈ listed k -> x.2 ∈ (first_listings [] (listed k)).*2).
Proof.
  assert (Hi : stream_inv (hash tip) [] s /\ ticks s = 0%nat /\ pending s = [] /\
    exists t, current = Ret (Some t) /\ hash t = hash tip).
  { destruct current as [o|e|]; [|done..]. unfold get_mempool_stream, mbind in Hs. simpl in Hs.
    case_bool_decide as Ht; [|done]. simplify_eq. destruct o as [t|]; simplify_eq/=.
    split_and!; try done; [split_and!; simpl; [done|done|intros; set_solver|lia]|by exists t]. }
  destruct Hi as (Hi & Hk & Hp & Hc). split; [done|]. split; [|split].
  - intros n txs e Hn. apply (stream_turns_inv _ _ _ _ _ _ Hi) in Hn. destruct e; [|done].
    by destruct Hn as (_ & ? & _ & ?).
  - intros k Htips. destruct (stream_reaches _ _ Hi Hk Hp k Htips) as (n & s' & ? & _ & ?). eauto.
  - intros k. split; [apply first_listings_NoDup|]. intros x Hx.
    destruct (first_listings_covers _ [] _ Hx); [set_solver|done].
Qed.

(** ** An example: "b" cannot be fetched at the tick that first lists it, so it is never
    yielded; the tip moves at the fourth tick. *)
Section example.
#[local] Instance toy_types : ChainTypes := {|
  BlockHash := Z; BlockHeader := Z; Block := Z; Transaction := list Byte.byte; TxId := Z; ChainState := Z;
  header_hash h := h; claimed_height b := b; block_header b := b |}.

#[local] Instance toy_mempool : MempoolOps := {|
  tip_at k := inr (Some {| height := 7; hash := if (k <? 3)%nat then 70 else 71 |});
  raw_mempool_at k := inr (match k with 0 => ["a"; "b"] | 1 => ["b"; "a"; "c"] | _ => ["c"] end)%nat%string;
  raw_transaction_at k t :=
    if String.eqb t "b" && (k =? 0)%nat then inl "timeout"%string else inr t;
  decode_hex t := inr (String.list_byte_of_string t);
  read_mempool_transaction raw := inr raw |}.

Lemma mempool_stream_correct_witness :
  let tip := {| height := 7; hash := 70 |} in
  exists s, get_mempool_stream (Ret (Some tip)) tip = Ret (Some s) /\
    stream_turns 4 s = ([[Byte.x61]; [Byte.x63]], Some {| tip_hash := 70; ticks := 2; seen := ["c"; "b"; "a"]%string; pending := [] |}) /\
    stream_turns 9 s = ([[Byte.x61]; [Byte.x63]], None) /\
    (exists k, [[Byte.x61]; [Byte.x63]] = stream_spec k /\ ~ same_tip 70 k /\ forall j, (j < k)%nat -> same_tip 70 j).
Proof.
  intros tip. eexists. split; [reflexivity|]. split; [reflexivity|]. split; [reflexivity|].
  apply (proj1 (proj2 (mempool_stream_correct (Ret (Some tip)) tip _ eq_refl)) 9%nat _ None). reflexivity.
Defined.
End example.
