(* ===== verification/Reader.v ===== *)
(** The requests of the zebra-state backend
    (src/zallet/src/components/chain/zebra/reader.rs, zebra/convert.rs).

    [ReadStateChainReader] turns the answers of the read-state service into the
    wallet's types. The service is [ReadStateService], its documented behaviour
    [ReadStateLaws]. The reader implements the interface [NodeOps] against which the
    pinned view is modelled ([reader_node]), and a view captured through it meets
    [NodeLaws]. *)

From S2P Require Import Prelude Chain ZebraView Mempool.

(** zebra's types; its hashes and heights hold the same bytes and numbers as the
    wallet's, between which [convert] goes. *)
Class ZebraTypes `{ChainTypes} := {
  ZBlock : Type;
  ZHeader : Type;
  ZTransaction : Type;
  ZTree : Type;
  OutPoint : Type;
  Utxo : Type;
  SaplingNode : Type;
  OrchardRoot : Type;
  OrchardNode : Type;
  zblock_hash : ZBlock -> BlockHash;
  zheader_previous_block_hash : ZHeader -> BlockHash;
  (** [zcash_serialize_to_vec] and [to_rpc_bytes]. *)
  serialize_block : ZBlock -> string + list Byte.byte;
  serialize_transaction : ZTransaction -> string + list Byte.byte;
  to_rpc_bytes : ZTree -> list Byte.byte;
  (** [MerkleHashOrchard::from_bytes] of a root's bytes. *)
  orchard_node_from_root : OrchardRoot -> option OrchardNode
}.

Section requests.
Context `{ZebraTypes}.

Inductive ReadRequest :=
  | Tip
  | Depth (h : BlockHash)
  | BestChainBlockHash (height : Z)
  | AnyChainBlock (h : BlockHash)
  | BlockHeaderOf (h : BlockHash)
  | SaplingTreeOf (h : BlockHash)
  | OrchardTreeOf (h : BlockHash)
  | TransactionOf (txid : TxId)
  | AnyChainTransaction (txid : TxId)
  | UnspentBestChainUtxo (outpoint : OutPoint)
  | SpendingTransactionId (outpoint : OutPoint)
  | SaplingSubtrees (start_index : Z) (limit : option Z)
  | OrchardSubtrees (start_index : Z) (limit : option Z).

Record MinedTx := { mined_tx : ZTransaction; mined_tx_height : Z; timestamp : Z }.
Inductive AnyTx := AnyMined (m : MinedTx) | Side (tx : ZTransaction) (h : BlockHash).

(** Of a subtree, the height of its end and its root, in the order of the index. *)
Inductive ReadResponse :=
  | TipIs (o : option (Z * BlockHash))
  | DepthIs (o : option Z)
  | BlockHashIs (o : option BlockHash)
  | BlockIs (o : option ZBlock)
  | BlockHeaderIs (header : ZHeader) (height : Z)
  | SaplingTreeIs (o : option ZTree)
  | OrchardTreeIs (o : option ZTree)
  | TransactionIs (o : option MinedTx)
  | AnyChainTransactionIs (o : option AnyTx)
  | UtxoIs (o : option Utxo)
  | TransactionIdIs (o : option TxId)
  | SaplingSubtreesAre (l : list (Z * SaplingNode))
  | OrchardSubtreesAre (l : list (Z * OrchardRoot)).
End requests.

(** The service, a request to it at a moment, and the crates' decoders and the
    validator's RPC that the view uses besides. *)
Class ReadStateService `{ZebraTypes} := {
  ServiceState : Type;
  Tree : Type;
  oneshot : ServiceState -> ReadRequest -> string + ReadResponse;
  svc_raw_mempool : ServiceState -> outcome string (list string);
  svc_raw_transaction : ServiceState -> string -> outcome string string;
  svc_hex_decode : string -> outcome string (list Byte.byte);
  svc_txid_to_string : TxId -> string;
  svc_read_sapling_tree : list Byte.byte -> outcome string Tree;
  svc_read_orchard_tree : list Byte.byte -> outcome string Tree;
  svc_empty_tree : Tree;
  svc_chain_state : Z -> BlockHash -> Tree -> Tree -> ChainState;
  svc_read_header : list Byte.byte -> outcome string BlockHeader;
  svc_read_block : list Byte.byte -> outcome string Block;
  svc_read_transaction : list Byte.byte -> Z -> outcome string Transaction
}.

Section reader.
Context `{ReadStateService}.
Implicit Type s : ServiceState.

(** [result.map_err(f)?]. *)
Definition sum_err {A} (f : string -> ChainError) (r : string + A) : outcome ChainError A :=
  match r with inl e => Err (f e) | inr a => Ret a end.

Definition call s (req : ReadRequest) : outcome ChainError ReadResponse := sum_err backend (oneshot s req).

Definition block_to_bytes (block : ZBlock) : outcome ChainError (list Byte.byte) :=
  sum_err backend (serialize_block block).

Definition tx_to_bytes (tx : ZTransaction) : outcome ChainError (list Byte.byte) :=
  sum_err backend (serialize_transaction tx).

(** [i64::try_into::<u32>]. *)
Definition time_to_u32 (t : Z) : outcome ChainError Z :=
  if (0 <=? t) && (t <=? u32_max) then Ret t
  else Err (invalid_data "out of range integral type conversion attempted").

(** The operations of [ReadStateChainReader]; [Panic] is [unreachable!]. *)
Definition reader_tip s : outcome ChainError (option ChainBlock) :=
  r ← call s Tip;
  match r with
  | TipIs (Some (h, x)) => Ret (Some {| height := h; hash := x |})
  | TipIs None => Ret None
  | _ => Panic
  end.

(** One request of the loop of [find_fork_point]. *)
Definition reader_depth s (x : BlockHash) : outcome ChainError (option Z) :=
  r ← call s (Depth x);
  match r with DepthIs depth => Ret depth | _ => Panic end.

Definition reader_best_chain_block_hash s (height : Z) : outcome ChainError (option BlockHash) :=
  r ← call s (BestChainBlockHash height);
  match r with BlockHashIs opt => Ret opt | _ => Panic end.

Definition reader_raw_block_by_hash s (x : BlockHash) : outcome ChainError (option (list Byte.byte)) :=
  r ← call s (AnyChainBlock x);
  match r with
  | BlockIs (Some block) => Some <$> block_to_bytes block
  | BlockIs None => Ret None
  | _ => Panic
  end.

(** An error of the service is taken as an unknown block. *)
Definition reader_block_header_by_hash s (x : BlockHash) : outcome ChainError (option HeaderInfo) :=
  match oneshot s (BlockHeaderOf x) with
  | inr (BlockHeaderIs header h) =>
      Ret (Some {| info_height := h; previous_block_hash := zheader_previous_block_hash header |})
  | inr _ => Panic
  | inl _ => Ret None
  end.

Definition reader_sapling_tree_bytes s (x : BlockHash) : outcome ChainError (option (list Byte.byte)) :=
  r ← call s (SaplingTreeOf x);
  match r with SaplingTreeIs opt => Ret (to_rpc_bytes <$> opt) | _ => Panic end.

Definition reader_orchard_tree_bytes s (x : BlockHash) : outcome ChainError (option (list Byte.byte)) :=
  r ← call s (OrchardTreeOf x);
  match r with OrchardTreeIs opt => Ret (to_rpc_bytes <$> opt) | _ => Panic end.

Definition reader_transaction s (txid : TxId) : outcome ChainError (option MinedTxInfo) :=
  r ← call s (TransactionOf txid);
  match r with
  | TransactionIs (Some mined) =>
      raw ← tx_to_bytes (mined_tx mined);
      block_time ← time_to_u32 (timestamp mined);
      Ret (Some {| mined_raw := raw; tx_height := mined_tx_height mined; tx_block_time := block_time |})
  | TransactionIs None => Ret None
  | _ => Panic
  end.

Definition reader_side_chain_transaction s (txid : TxId) : outcome ChainError (option SideTxInfo) :=
  r ← call s (AnyChainTransaction txid);
  match r with
  | AnyChainTransactionIs (Some (Side tx x)) =>
      raw ← tx_to_bytes tx;
      Ret (Some {| side_raw := raw; side_block_hash := x |})
  | AnyChainTransactionIs _ => Ret None
  | _ => Panic
  end.

Definition reader_is_unspent s (outpoint : OutPoint) : outcome ChainError bool :=
  r ← call s (UnspentBestChainUtxo outpoint);
  match r with UtxoIs opt => Ret (bool_decide (is_Some opt)) | _ => Panic end.

Definition reader_spending_transaction s (outpoint : OutPoint) : outcome ChainError (option TxId) :=
  r ← call s (SpendingTransactionId outpoint);
  match r with TransactionIdIs opt => Ret opt | _ => Panic end.

Definition reader_sapling_subtree_roots s : outcome ChainError (list (Z * SaplingNode)) :=
  r ← call s (SaplingSubtrees 0 None);
  match r with SaplingSubtreesAre l => Ret l | _ => Panic end.

Definition reader_orchard_subtree_roots s : outcome ChainError (list (Z * OrchardNode)) :=
  r ← call s (OrchardSubtrees 0 None);
  match r with
  | OrchardSubtreesAre l =>
      traverse (fun '(end_height, root) =>
        node ← ok_or (orchard_node_from_root root) (invalid_data "non-canonical orchard subtree root");
        Ret (end_height, node)) l
  | _ => Panic
  end.

(** The node of the pinned view. *)
#[export] Instance reader_node : NodeOps := {|
  NodeState := ServiceState;
  TreeState := Tree;
  node_tip := reader_tip;
  node_depth := reader_depth;
  best_chain_block_hash := reader_best_chain_block_hash;
  raw_block_by_hash := reader_raw_block_by_hash;
  block_header_by_hash := reader_block_header_by_hash;
  sapling_tree_bytes := reader_sapling_tree_bytes;
  orchard_tree_bytes := reader_orchard_tree_bytes;
  node_transaction := reader_transaction;
  side_chain_transaction := reader_side_chain_transaction;
  get_raw_mempool := svc_raw_mempool;
  get_raw_transaction := svc_raw_transaction;
  hex_decode := svc_hex_decode;
  txid_to_string := svc_txid_to_string;
  read_sapling_tree := svc_read_sapling_tree;
  read_orchard_tree := svc_read_orchard_tree;
  empty_tree := svc_empty_tree;
  chain_state := svc_chain_state;
  read_header := svc_read_header;
  read_block := svc_read_block;
  read_transaction := svc_read_transaction
|}.

(** The spend status of an output; the two requests see the service at two moments. *)
Definition reader_spend_status s s' (outpoint : OutPoint) : outcome ChainError (SpendStatus TxId) :=
  outpoint_spend_status (reader_is_unspent s outpoint) (reader_spending_transaction s' outpoint).

(** ** What the service promises *)

(** Each request has its kind of response. *)
Definition in_kind (req : ReadRequest) (r : ReadResponse) : bool :=
  match req, r with
  | Tip, TipIs _ | Depth _, DepthIs _ | BestChainBlockHash _, BlockHashIs _ | AnyChainBlock _, BlockIs _
  | BlockHeaderOf _, BlockHeaderIs _ _ | SaplingTreeOf _, SaplingTreeIs _ | OrchardTreeOf _, OrchardTreeIs _
  | TransactionOf _, TransactionIs _ | AnyChainTransaction _, AnyChainTransactionIs _
  | UnspentBestChainUtxo _, UtxoIs _ | SpendingTransactionId _, TransactionIdIs _
  | SaplingSubtrees _ _, SaplingSubtreesAre _ | OrchardSubtrees _ _, OrchardSubtreesAre _ => true
  | _, _ => false
  end.

(** The blocks form a tree by [parent]; [state k] is the service at the [k]-th moment. *)
Class ReadStateLaws (parent : BlockHash -> BlockHash) (height_of : BlockHash -> Z) (state : nat -> ServiceState) := {
  parent_height_of : forall x, height_of (parent x) = height_of x - 1;
  answers_in_kind : forall k req r, oneshot (state k) req = inr r -> in_kind req r = true;
  tip_answer : forall k h x, oneshot (state k) Tip = inr (TipIs (Some (h, x))) -> height_of x = h /\ 0 <= h < u32_max;
  header_answer : forall k x hd h, oneshot (state k) (BlockHeaderOf x) = inr (BlockHeaderIs hd h) ->
    zheader_previous_block_hash hd = parent x;
  block_answer : forall k x b, oneshot (state k) (AnyChainBlock x) = inr (BlockIs (Some b)) -> zblock_hash b = x;
  (** A block more than the reorg limit below a tip stays on the best chain. *)
  final_answer : forall k k' h x h' o, oneshot (state k) Tip = inr (TipIs (Some (h, x))) -> (k < k')%nat ->
    0 <= h' <= h - MAX_REORG_DEPTH -> oneshot (state k') (BestChainBlockHash h') = inr (BlockHashIs o) ->
    o = Some (Nat.iter (Z.to_nat (h - h')) parent x);
  (** The genesis block is every best chain's. *)
  genesis_answer : forall k k' h x o, oneshot (state k) Tip = inr (TipIs (Some (h, x))) -> (k < k')%nat ->
    oneshot (state k') (BestChainBlockHash 0) = inr (BlockHashIs o) -> o = Some (Nat.iter (Z.to_nat h) parent x);
  (** The two crates agree on the encoding of blocks. *)
  block_codec : forall b bytes blk, serialize_block b = inr bytes -> svc_read_block bytes = Ret blk ->
    header_hash (block_header blk) = zblock_hash b /\ claimed_height blk = height_of (zblock_hash b);
  header_codec : forall b bytes hd, serialize_block b = inr bytes -> svc_read_header bytes = Ret hd ->
    header_hash hd = zblock_hash b;
  svc_decoders_never_panic : forall bytes, svc_read_block bytes <> Panic /\ svc_read_header bytes <> Panic /\
    svc_read_sapling_tree bytes <> Panic /\ svc_read_orchard_tree bytes <> Panic
}.

(** ** The reader implements the node *)

Lemma sum_err_Ret {A} f (r : string + A) a : sum_err f r = Ret a <-> r = inr a.
Proof. destruct r; cbn; naive_solver. Qed.

Lemma sum_err_not_Panic {A} f (r : string + A) : sum_err f r <> Panic.
Proof. by destruct r. Qed.

Section implements.
Context (parent : BlockHash -> BlockHash) (height_of : BlockHash -> Z) (state : nat -> ServiceState).
Context `{!ReadStateLaws parent height_of state}.

(** The answer to a request is an error or of the request's kind. *)
Lemma call_not_Panic {A} k req (f : ReadResponse -> outcome ChainError A) :
  (forall r, in_kind req r = true -> f r <> Panic) -> (r ← call (state k) req; f r) <> Panic.
Proof.
  intros Hf. unfold call. destruct (oneshot (state k) req) as [e|r] eqn:Hr; [done|].
  apply Hf. by eapply answers_in_kind.
Qed.

Lemma reader_tip_Ret s o : reader_tip s = Ret o <->
  oneshot s Tip = inr (TipIs ((fun b => (height b, hash b)) <$> o)).
Proof.
  unfold reader_tip, call. split.
  - intros (r & Hr%sum_err_Ret & Ho)%bind_Ret. rewrite Hr. by destruct r as [[[h x]|]| | | | | | | | | | | |]; simplify_eq/=.
  - intros ->. by destruct o as [[]|].
Qed.

Lemma reader_tip_not_Panic k : reader_tip (state k) <> Panic.
Proof. apply call_not_Panic. by intros [[[]|]| | | | | | | | | | | |]. Qed.

Lemma reader_raw_block_Ret k x bytes : reader_raw_block_by_hash (state k) x = Ret (Some bytes) ->
  exists b, zblock_hash b = x /\ serialize_block b = inr bytes.
Proof.
  intros (r & Hr%sum_err_Ret & Ho)%bind_Ret.
  destruct r as [| | |[b|]| | | | | | | | |]; try done. apply fmap_Ret in Ho as (bytes' & Hb%sum_err_Ret & [= ->]).
  exists b. split; [by eapply block_answer|done].
Qed.

Lemma reader_header_Ret k x i : reader_block_header_by_hash (state k) x = Ret (Some i) ->
  previous_block_hash i = parent x.
Proof.
  unfold reader_block_header_by_hash. destruct (oneshot _ _) as [e|r] eqn:Hr; [done|].
  destruct r; try done. intros [= <-]. by eapply header_answer.
Qed.

Lemma reader_header_not_Panic k x : reader_block_header_by_hash (state k) x <> Panic.
Proof.
  unfold reader_block_header_by_hash. destruct (oneshot _ _) as [e|r] eqn:Hr; [done|].
  apply answers_in_kind in Hr. by destruct r.
Qed.

Lemma captured_tip interfere w v w' : snapshot state interfere w = (Ret v, w') ->
  oneshot (state (clock w)) Tip = inr (TipIs (Some (height (view_tip v), hash (view_tip v)))) /\
  clock w' = S (clock w) /\ finalized_floor v = Z.max 0 (height (view_tip v) - MAX_REORG_DEPTH).
Proof.
  unfold snapshot. intros (o & w1 & Ho & Hr)%run_bind_Ret. unfold rd in Ho. injection Ho as Ho <-.
  apply reader_tip_Ret in Ho. apply run_bind_Ret in Hr as (t & w2 & Ht & Hr).
  destruct o as [t'|]; [|done]. cbn in Ht. injection Ht as <- <-.
  apply run_bind_Ret in Hr as ([] & w3 & Hm & Hr). injection Hm as <-.
  apply run_ret_Ret in Hr as [-> ->]. cbn. unfold saturating_sub. split_and!; [done|done|lia].
Qed.

Lemma captured_node_laws interfere w v w' : snapshot state interfere w = (Ret v, w') ->
  NodeLaws parent height_of state v (clock w').
Proof.
  intros (Ht & -> & Hfl)%captured_tip. destruct (tip_answer _ _ _ Ht) as [Hh Hr]. split.
  - done.
  - rewrite Hfl. unfold MAX_REORG_DEPTH. lia.
  - done.
  - apply parent_height_of.
  - apply reader_header_Ret.
  - intros k h o Hk Hh' (r & Hr'%sum_err_Ret & Ho)%bind_Ret. destruct r; try done. injection Ho as ->.
    rewrite Hfl in Hh'. destruct (decide (h <= height (view_tip v) - MAX_REORG_DEPTH)) as [|Hlow].
    + eapply (final_answer (clock w) k); [exact Ht|lia|lia|exact Hr'].
    + assert (h = 0) as -> by lia. unfold ancestor. rewrite Z.sub_0_r.
      eapply (genesis_answer (clock w) k); [exact Ht|lia|exact Hr'].
  - intros k x bytes b (zb & <- & Hb)%reader_raw_block_Ret Hd. by eapply block_codec.
  - intros k x bytes hd (zb & <- & Hb)%reader_raw_block_Ret Hd. by eapply header_codec.
  - intros k. split_and!; [apply reader_tip_not_Panic| | | |apply reader_header_not_Panic| |];
      intros x; apply call_not_Panic; intros r; destruct r; try done; intros _.
    destruct o as [b|]; [|done]. unfold block_to_bytes. by destruct (serialize_block b).
  - apply svc_decoders_never_panic.
Qed.

(** C19. A view captured through the reader from a read-state service that
    keeps its documented promises meets the laws the pinned view is modelled
    against: its tip is the service's at that moment, and every block it reads
    afterwards, whatever the service's best chain becomes, is the block at
    that height of the chain below that tip, or reported absent above the tip
    or when the service dropped it; no answer makes it panic. *)
Theorem captured_view_reads_one_chain interfere w v w' (Hs : snapshot state interfere w = (Ret v, w')) :
  oneshot (state (clock w)) Tip = inr (TipIs (Some (height (view_tip v), hash (view_tip v)))) /\
  NodeLaws parent height_of state v (clock w') /\ view_ok parent v (clock w') w' /\
  ((forall k c, cache_ok parent v c -> cache_ok parent v (interfere k c)) -> forall h, 0 <= h ->
    ok_reads parent v (clock w') (ZebraView.get_block state interfere v h) (fun o =>
      match o with
      | Some b => claimed_height b = h /\ pinned parent v h = Some (header_hash (block_header b))
      | None => pinned parent v h = None \/ dropped parent state v (clock w') h
      end)).
Proof.
  pose proof (captured_node_laws _ _ _ _ Hs) as Hl. split_and!.
  - by apply captured_tip in Hs as [? _].
  - exact Hl.
  - by eapply snapshot_ok.
  - intros Hothers h Hh. by eapply get_block_ok.
Qed.

(** The spend status never panics; an output is called unspent when it is in the set of
    unspent outputs, and spent when it is not, by the transaction the index has. *)
Theorem reader_spend_status_correct k k' outpoint :
  reader_spend_status (state k) (state k') outpoint <> Panic /\
  forall st, reader_spend_status (state k) (state k') outpoint = Ret st ->
    match st with
    | Unspent => exists u, oneshot (state k) (UnspentBestChainUtxo outpoint) = inr (UtxoIs (Some u))
    | SpentBy txid => oneshot (state k) (UnspentBestChainUtxo outpoint) = inr (UtxoIs None) /\
        oneshot (state k') (SpendingTransactionId outpoint) = inr (TransactionIdIs (Some txid))
    | SpentSpenderUnknown => oneshot (state k) (UnspentBestChainUtxo outpoint) = inr (UtxoIs None) /\
        oneshot (state k') (SpendingTransactionId outpoint) = inr (TransactionIdIs None)
    end.
Proof.
  unfold reader_spend_status, outpoint_spend_status, reader_is_unspent, reader_spending_transaction, call.
  destruct (oneshot (state k) _) as [e|r] eqn:Hr; [done|]. pose proof (answers_in_kind _ _ _ Hr) as Hk.
  destruct r as [| | | | | | | | |u| | |]; try done. cbn. case_bool_decide as Hu.
  { destruct Hu as [y ->]. split; [done|]. intros st [= <-]. by exists y. }
  destruct u as [y|]; [by destruct Hu|].
  destruct (oneshot (state k') _) as [e|r] eqn:Hr'; [done|]. pose proof (answers_in_kind _ _ _ Hr') as Hk'.
  destruct r as [| | | | | | | | | |t| |]; try done. split; [done|]. intros st [= <-]. by destruct t.
Qed.

(** The subtree roots of the Orchard pool never panic: they are all the service's, at
    their heights, or an error when a root is not canonical. *)
Theorem reader_orchard_subtree_roots_correct k :
  reader_orchard_subtree_roots (state k) <> Panic /\
  forall roots, reader_orchard_subtree_roots (state k) = Ret roots ->
    exists l, oneshot (state k) (OrchardSubtrees 0 None) = inr (OrchardSubtreesAre l) /\
      Forall2 (fun r n => r.1 = n.1 /\ orchard_node_from_root r.2 = Some n.2) l roots.
Proof.
  assert (forall (l : list (Z * OrchardRoot)) m, m = traverse (fun '(end_height, root) =>
      node ← ok_or (orchard_node_from_root root) (invalid_data "non-canonical orchard subtree root");
      Ret (end_height, node)) l -> m <> Panic /\ forall roots, m = Ret roots ->
      Forall2 (fun r n => r.1 = n.1 /\ orchard_node_from_root r.2 = Some n.2) l roots) as Hl.
  { induction l as [|[h r] l IH]; intros m ->; cbn; [split; [done|]; by intros _ [= <-]|].
    destruct (orchard_node_from_root r) as [n|] eqn:Hn; [|done]. cbn. destruct (IH _ eq_refl) as [Hp Hr].
    destruct (traverse _ l) as [ns| |]; [|done..]. split; [done|]. intros _ [= <-]. by constructor; [|apply Hr]. }
  unfold reader_orchard_subtree_roots, call.
  destruct (oneshot (state k) _) as [e|r] eqn:Hr; [done|]. pose proof (answers_in_kind _ _ _ Hr) as Hk.
  destruct r as [| | | | | | | | | | | |l]; try done. destruct (Hl l _ eq_refl) as [Hp Ho]. split; [exact Hp|]. intros roots Hroots. eauto.
Qed.
End implements.
End reader.

(** ** An example: the node of [ZebraView], asked by requests

    It is on branch 1 when the view is captured, and on branch 2 afterwards; blocks
    off its best chain are dropped, their headers are not. *)
Section example.
#[local] Existing Instance node_types.
#[local] Existing Instance node_heights.
#[local] Existing Instance node_heights_laws.

Definition example_bytes (x : Z * Z) : list Byte.byte := [example_byte x.1; example_byte x.2].

#[local] Instance example_zebra : ZebraTypes := {|
  ZBlock := Z * Z; ZHeader := Z * Z; ZTransaction := Z; ZTree := unit; OutPoint := Z; Utxo := Z;
  SaplingNode := Z; OrchardRoot := Z; OrchardNode := Z; orchard_node_from_root := Some;
  zblock_hash x := x; zheader_previous_block_hash := example_parent;
  serialize_block x := if bool_decide (example_decode (example_bytes x) = Ret x)
    then inr (example_bytes x) else inl "height out of range"%string;
  serialize_transaction t := inr []; to_rpc_bytes _ := [] |}.

(** Output 1 is unspent; the index knows the spender of output 2 only. *)
Definition example_answer (s : Z * Z) (req : ReadRequest) : string + ReadResponse :=
  match req with
  | Tip => inr (TipIs (Some (s.1, example_block s.1 s.2)))
  | Depth x => inr (DepthIs (if bool_decide (0 <= x.1 <= s.1 /\ x = example_block x.1 s.2) then Some (s.1 - x.1) else None))
  | BestChainBlockHash h => inr (BlockHashIs (Some (example_block h s.2)))
  | AnyChainBlock x => inr (BlockIs (if bool_decide (x = example_block x.1 s.2) then Some x else None))
  | BlockHeaderOf x => if x.1 <? 0 then inl "not found"%string else inr (BlockHeaderIs x x.1)
  | SaplingTreeOf x => inr (SaplingTreeIs (Some tt))
  | OrchardTreeOf x => inr (OrchardTreeIs (Some tt))
  | TransactionOf t => inr (TransactionIs None)
  | AnyChainTransaction t => inr (AnyChainTransactionIs None)
  | UnspentBestChainUtxo o => inr (UtxoIs (if o =? 1 then Some o else None))
  | SpendingTransactionId o => inr (TransactionIdIs (if o =? 2 then Some 7 else None))
  | SaplingSubtrees _ _ => inr (SaplingSubtreesAre [])
  | OrchardSubtrees _ _ => inr (OrchardSubtreesAre [])
  end.

#[local] Instance example_service : ReadStateService := {|
  ServiceState := Z * Z; Tree := unit; oneshot := example_answer;
  svc_raw_mempool s := Ret []; svc_raw_transaction s t := Ret ""%string; svc_hex_decode t := Ret [];
  svc_txid_to_string t := ""%string; svc_read_sapling_tree _ := Ret tt; svc_read_orchard_tree _ := Ret tt;
  svc_empty_tree := tt; svc_chain_state h x _ _ := (h, x);
  svc_read_header := example_decode;
  svc_read_block bytes := (fun x => (x.1, x)) <$> example_decode bytes;
  svc_read_transaction _ _ := Ret 7 |}.

Lemma example_codec (x : Z * Z) bytes : serialize_block x = inr bytes -> example_decode bytes = Ret x.
Proof. cbn -[example_decode example_bytes]. case_bool_decide; [|done]. by intros [= <-]. Qed.

Lemma example_service_laws : ReadStateLaws example_parent fst example_env.
Proof.
  split.
  - done.
  - intros k req r. destruct req; cbn; try (by intros [= <-]). destruct (_ <? 0); [done|]. by intros [= <-].
  - intros k h x. unfold example_env. destruct (k =? 0)%nat; intros [= <- <-]; done.
  - intros k x hd h. cbn. destruct (_ <? 0); [done|]. by intros [= <- _].
  - intros k x b. cbn. case_bool_decide; [|done]. by intros [= <-].
  - intros k k' h x h' o Ht _ Hh. exfalso. unfold MAX_REORG_DEPTH in Hh. unfold example_env in Ht.
    destruct (k =? 0)%nat; injection Ht as <- _; lia.
  - intros k k' h x o Ht _ Hb. cbn in Hb. injection Hb as <-. unfold example_env in *.
    destruct (k =? 0)%nat; injection Ht as <- <-; by vm_compute.
  - intros b bytes blk Hb%example_codec. cbn -[example_decode]. rewrite Hb. by intros [= <-].
  - intros b bytes hd Hb%example_codec. cbn -[example_decode]. rewrite Hb. by intros [= <-].
  - intros bytes. cbn. unfold example_decode. split_and!; try done; by destruct bytes as [|? [|? [|]]].
Qed.

(** After the reorganisation the block at height 4 is read, which both branches
    have; the pinned one at height 7 is gone. *)
Lemma captured_view_reads_one_chain_witness :
  snapshot example_env example_interfere (World 0 ∅) = (Ret example_view, example_world) /\
  (ZebraView.get_block example_env example_interfere example_view 4 example_world).1 = Ret (Some (4, (4, 0))) /\
  (ZebraView.get_block example_env example_interfere example_view 7 example_world).1 = Ret None /\
  NodeLaws example_parent fst example_env example_view 1 /\
  ok_reads example_parent example_view 1 (ZebraView.get_block example_env example_interfere example_view 4) (fun o =>
    match o with
    | Some b => b.1 = 4 /\ pinned example_parent example_view 4 = Some b.2
    | None => pinned example_parent example_view 4 = None \/ dropped example_parent example_env example_view 1 4
    end).
Proof.
  assert (snapshot example_env example_interfere (World 0 ∅) = (Ret example_view, example_world)) as Hs
    by (vm_compute; reflexivity).
  split; [exact Hs|]. split; [vm_compute; reflexivity|]. split; [vm_compute; reflexivity|].
  destruct (@captured_view_reads_one_chain node_types example_zebra example_service example_parent fst example_env example_service_laws
    example_interfere _ _ _ Hs) as (_ & Hl & _ & Hr).
  split; [exact Hl|]. exact (Hr example_others 4 ltac:(lia)).
Defined.

Example spend_statuses :
  reader_spend_status (12, 2) (12, 2) 1 = Ret Unspent /\ reader_spend_status (12, 2) (12, 2) 2 = Ret (SpentBy 7) /\
  reader_spend_status (12, 2) (12, 2) 3 = Ret SpentSpenderUnknown.
Proof. done. Qed.
End example.
