(* ===== verification/Literal.v ===== *)
(** Rust string literals, as the build script (src/zallet/build.rs) writes them
    and the compiler reads them back: [str::chars], [str::escape_default], the
    escapes of a string literal, and the byte slice [&line[1..]].

    A [str] is its UTF-8 bytes, a [char] its code point. *)

From S2P Require Import Prelude Amount Text.

(** ** Characters *)

Definition byte (n : Z) : Ascii.ascii := Ascii.ascii_of_nat (Z.to_nat n).
Definition code_of (c : Ascii.ascii) : Z := Z.of_nat (Ascii.nat_of_ascii c).

(** The six bits of a continuation byte. *)
Definition cont (c : Ascii.ascii) : Z := code_of c - 128.

(** [str::chars], of a well-formed [str]. *)
Fixpoint chars (s : string) : list Z :=
  match s with
  | EmptyString => []
  | String a s =>
      let n := code_of a in
      if n <? 128 then n :: chars s
      else if n <? 224 then
        match s with String b s => ((n - 192) * 64 + cont b) :: chars s | _ => [] end
      else if n <? 240 then
        match s with
        | String b (String c s) => ((n - 224) * 4096 + cont b * 64 + cont c) :: chars s
        | _ => []
        end
      else
        match s with
        | String b (String c (String d s)) =>
            ((n - 240) * 262144 + cont b * 4096 + cont c * 64 + cont d) :: chars s
        | _ => []
        end
  end.

(** [char::encode_utf8]. *)
Definition encode_utf8 (c : Z) : string :=
  let tail k := byte (128 + (c / k) mod 64) in
  if c <? 128 then String (byte c) EmptyString
  else if c <? 2048 then String (byte (192 + c / 64)) (String (tail 1) EmptyString)
  else if c <? 65536 then
    String (byte (224 + c / 4096)) (String (tail 64) (String (tail 1) EmptyString))
  else
    String (byte (240 + c / 262144))
      (String (tail 4096) (String (tail 64) (String (tail 1) EmptyString))).

Fixpoint of_chars (l : list Z) : string :=
  match l with [] => EmptyString | c :: l => (encode_utf8 c +:+ of_chars l)%string end.

(** [char::from_u32]: a code point that is not a surrogate. *)
Definition is_scalar (c : Z) : bool :=
  ((0 <=? c) && (c <? 55296)) || ((57344 <=? c) && (c <=? 1114111)).

(** [&line[1..]]: panics when the second byte is inside a character. *)
Definition slice_from_1 {E} (line : string) : outcome E string :=
  match line with
  | EmptyString => Panic
  | String _ rest =>
      match rest with
      | String d _ => if (128 <=? code_of d) && (code_of d <? 192) then Panic else Ret rest
      | EmptyString => Ret rest
      end
  end.

(** ** Escapes *)

Definition backslash : Ascii.ascii := byte 92.

(** The digits of [{:x}]: as many as the number needs. *)
Definition hex_len (n : Z) : nat :=
  if n <? 16 then 1 else if n <? 256 then 2 else if n <? 4096 then 3
  else if n <? 65536 then 4 else if n <? 1048576 then 5 else 6.

(** [char::escape_default]. *)
Definition escape_char (c : Z) : string :=
  let esc x := String backslash (String x EmptyString) in
  if c =? 9 then esc "t"%char
  else if c =? 13 then esc "r"%char
  else if c =? 10 then esc "n"%char
  else if (c =? 39) || (c =? 34) || (c =? 92) then esc (byte c)
  else if (32 <=? c) && (c <=? 126) then String (byte c) EmptyString
  else (String backslash "u{" +:+ hex_fixed (hex_len c) c +:+ "}")%string.

Fixpoint escape_chars (l : list Z) : string :=
  match l with [] => EmptyString | c :: l => (escape_char c +:+ escape_chars l)%string end.

(** [str::escape_default]. *)
Definition escape_default (s : string) : string := escape_chars (chars s).

(** Reading a string literal after its opening quotation mark: the string it
    denotes, and the text after the closing one. The escapes are those that
    [escape_default] writes. *)
Inductive lex_state :=
  | InText
  | InEscape
  | InUnicode
  | InHex (n : nat) (acc : Z).

Definition push (c : Z) (r : option (string * string)) : option (string * string) :=
  match r with Some (s, rest) => Some (encode_utf8 c +:+ s, rest)%string | None => None end.

Fixpoint lex_str (st : lex_state) (s : string) : option (string * string) :=
  match s with
  | EmptyString => None
  | String x s =>
      match st with
      | InText =>
          if Ascii.eqb x (byte 34) then Some (EmptyString, s)
          else if Ascii.eqb x backslash then lex_str InEscape s
          else match lex_str InText s with
               | Some (t, rest) => Some (String x t, rest)
               | None => None
               end
      | InEscape =>
          if Ascii.eqb x "t" then push 9 (lex_str InText s)
          else if Ascii.eqb x "r" then push 13 (lex_str InText s)
          else if Ascii.eqb x "n" then push 10 (lex_str InText s)
          else if Ascii.eqb x (byte 39) || Ascii.eqb x (byte 34) || Ascii.eqb x backslash
          then push (code_of x) (lex_str InText s)
          else if Ascii.eqb x "u" then lex_str InUnicode s
          else None
      | InUnicode => if Ascii.eqb x "{" then lex_str (InHex 0 0) s else None
      | InHex n acc =>
          if Ascii.eqb x "}" then
            if (1 <=? n)%nat && is_scalar acc then push acc (lex_str InText s) else None
          else match to_digit 16 x with
               | Some d => if (n <? 6)%nat then lex_str (InHex (S n) (acc * 16 + d)) s else None
               | None => None
               end
      end
  end.

(** ** Lemmas *)

Lemma code_of_byte n : 0 <= n < 256 -> code_of (byte n) = n.
Proof.
  intros Hn. unfold code_of, byte. rewrite Ascii.nat_ascii_embedding by lia. lia.
Qed.

Lemma byte_code_of c : byte (code_of c) = c.
Proof. unfold code_of, byte. rewrite Nat2Z.id. apply Ascii.ascii_nat_embedding. Qed.

Lemma code_of_bounds c : 0 <= code_of c < 256.
Proof. unfold code_of. pose proof (Ascii.nat_ascii_bounded c). lia. Qed.

Lemma byte_eq n c : code_of c = n -> byte n = c.
Proof. intros <-. apply byte_code_of. Qed.

Lemma utf8_expected lo hi e t :
  utf8_run ((lo, hi) :: e) t = Some [] ->
  exists b t', t = String b t' /\ lo <= code_of b <= hi /\ utf8_run e t' = Some [].
Proof.
  destruct t as [|b t]; [done|]. cbn [utf8_run]. fold (code_of b).
  destruct (Z.leb_spec lo (code_of b)), (Z.leb_spec (code_of b) hi); cbn [andb]; [|done..].
  intros Hr. exists b, t. split; [done|]. split; [lia|done].
Qed.

(** What well-formedness says of the leading character: its bytes, and that
    they are its only encoding. *)
Definition utf8_first (a : Ascii.ascii) (s : string) : Prop :=
  (code_of a < 128 /\ valid_utf8 s = true)
  \/ (194 <= code_of a < 224 /\ exists b s', s = String b s' /\ 128 <= code_of b <= 191 /\ valid_utf8 s' = true)
  \/ (224 <= code_of a < 240 /\ exists b c s', s = String b (String c s')
        /\ 128 <= code_of b <= 191 /\ 128 <= code_of c <= 191 /\ (code_of a = 224 -> 160 <= code_of b)
        /\ (code_of a = 237 -> code_of b <= 159) /\ valid_utf8 s' = true)
  \/ (240 <= code_of a <= 244 /\ exists b c d s', s = String b (String c (String d s'))
        /\ 128 <= code_of b <= 191 /\ 128 <= code_of c <= 191 /\ 128 <= code_of d <= 191
        /\ (code_of a = 240 -> 144 <= code_of b) /\ (code_of a = 244 -> code_of b <= 143)
        /\ valid_utf8 s' = true).

Lemma valid_utf8_run s : utf8_run [] s = Some [] -> valid_utf8 s = true.
Proof. apply bool_decide_eq_true_2. Qed.

Lemma utf8_first_3 a s lo hi :
  utf8_run [(lo, hi); (128, 191)] s = Some [] -> 224 <= code_of a < 240 -> 128 <= lo -> hi <= 191 ->
  (code_of a = 224 -> 160 <= lo) -> (code_of a = 237 -> hi <= 159) -> utf8_first a s.
Proof.
  intros (b & t & -> & Hb & (c & t' & -> & Hc & Hr)%utf8_expected)%utf8_expected Ha ????.
  right; right; left. split; [lia|]. exists b, c, t'.
  repeat split; try lia. by apply valid_utf8_run.
Qed.

Lemma utf8_first_4 a s lo hi :
  utf8_run [(lo, hi); (128, 191); (128, 191)] s = Some [] -> 240 <= code_of a <= 244 -> 128 <= lo -> hi <= 191 ->
  (code_of a = 240 -> 144 <= lo) -> (code_of a = 244 -> hi <= 143) -> utf8_first a s.
Proof.
  intros (b & t & -> & Hb & (c & t' & -> & Hc & (d & t'' & -> & Hd & Hr)%utf8_expected)%utf8_expected)%utf8_expected
    Ha ????.
  right; right; right. split; [lia|]. exists b, c, d, t''.
  repeat split; try lia. by apply valid_utf8_run.
Qed.

Lemma utf8_cons a s : valid_utf8 (String a s) = true -> utf8_first a s.
Proof.
  unfold valid_utf8 at 1. rewrite bool_decide_eq_true. cbn [utf8_run]. fold (code_of a). unfold utf8_lead.
  destruct (Z.ltb_spec (code_of a) 128); [intros Hr%valid_utf8_run; by left|].
  destruct (Z.ltb_spec (code_of a) 194); [done|].
  destruct (Z.ltb_spec (code_of a) 224).
  { intros (b & t & -> & Hb & Hr%valid_utf8_run)%utf8_expected. right; left. split; [lia|]. by exists b, t. }
  destruct (Z.eqb_spec (code_of a) 224); [intros Hr; eapply utf8_first_3; eauto; lia|].
  destruct (Z.eqb_spec (code_of a) 237); [intros Hr; eapply utf8_first_3; eauto; lia|].
  destruct (Z.ltb_spec (code_of a) 240); [intros Hr; eapply utf8_first_3; eauto; lia|].
  destruct (Z.eqb_spec (code_of a) 240); [intros Hr; eapply utf8_first_4; eauto; lia|].
  destruct (Z.ltb_spec (code_of a) 244); [intros Hr; eapply utf8_first_4; eauto; lia|].
  destruct (Z.eqb_spec (code_of a) 244); [intros Hr; eapply utf8_first_4; eauto; lia|done].
Qed.

Lemma is_scalar_spec c : is_scalar c = true <-> 0 <= c < 55296 \/ 57344 <= c <= 1114111.
Proof.
  unfold is_scalar.
  destruct (Z.leb_spec 0 c), (Z.ltb_spec c 55296), (Z.leb_spec 57344 c), (Z.leb_spec c 1114111); cbn;
    intuition (lia || done).
Qed.

Ltac euclid := Z.to_euclidean_division_equations; lia.

(** The first character of a well-formed [str], and the rest. *)
Lemma chars_cons a s :
  valid_utf8 (String a s) = true ->
  exists c s', chars (String a s) = c :: chars s' /\ (encode_utf8 c +:+ s')%string = String a s
    /\ is_scalar c = true /\ valid_utf8 s' = true /\ (String.length s' < String.length (String a s))%nat.
Proof.
  intros Hs%utf8_cons. pose proof (code_of_bounds a).
  destruct Hs as [[Ha Hs]|[(Ha & b & t & -> & Hb & Hs)|[(Ha & b & c & t & -> & Hb & Hc & H1 & H2 & Hs)|
    (Ha & b & c & d & t & -> & Hb & Hc & Hd & H1 & H2 & Hs)]]].
  - exists (code_of a), s. cbn [chars]. unfold encode_utf8.
    rewrite (proj2 (Z.ltb_lt (code_of a) 128)), byte_code_of by lia.
    do 2 (split; [done|]). split; [apply is_scalar_spec; lia|]. split; [done|cbn; lia].
  - exists ((code_of a - 192) * 64 + cont b), t. cbn [chars]. unfold cont.
    set (n := (code_of a - 192) * 64 + (code_of b - 128)).
    rewrite (proj2 (Z.ltb_ge (code_of a) 128)), (proj2 (Z.ltb_lt (code_of a) 224)) by lia.
    split; [done|]. unfold encode_utf8.
    rewrite (proj2 (Z.ltb_ge n 128)), (proj2 (Z.ltb_lt n 2048)) by (unfold n; euclid).
    rewrite (byte_eq _ a), (byte_eq _ b) by (unfold n; euclid).
    split; [done|]. split; [apply is_scalar_spec; unfold n; lia|]. split; [done|cbn; lia].
  - exists ((code_of a - 224) * 4096 + cont b * 64 + cont c), t. cbn [chars]. unfold cont.
    set (n := (code_of a - 224) * 4096 + (code_of b - 128) * 64 + (code_of c - 128)).
    rewrite (proj2 (Z.ltb_ge (code_of a) 128)), (proj2 (Z.ltb_ge (code_of a) 224)),
      (proj2 (Z.ltb_lt (code_of a) 240)) by lia.
    split; [done|]. unfold encode_utf8.
    rewrite (proj2 (Z.ltb_ge n 128)), (proj2 (Z.ltb_ge n 2048)), (proj2 (Z.ltb_lt n 65536)) by (unfold n; euclid).
    rewrite (byte_eq _ a), (byte_eq _ b), (byte_eq _ c) by (unfold n; euclid).
    split; [done|]. split; [apply is_scalar_spec; unfold n; lia|]. split; [done|cbn; lia].
  - exists ((code_of a - 240) * 262144 + cont b * 4096 + cont c * 64 + cont d), t. cbn [chars]. unfold cont.
    set (n := (code_of a - 240) * 262144 + (code_of b - 128) * 4096 + (code_of c - 128) * 64 + (code_of d - 128)).
    rewrite (proj2 (Z.ltb_ge (code_of a) 128)), (proj2 (Z.ltb_ge (code_of a) 224)),
      (proj2 (Z.ltb_ge (code_of a) 240)) by lia.
    split; [done|]. unfold encode_utf8.
    rewrite (proj2 (Z.ltb_ge n 128)), (proj2 (Z.ltb_ge n 2048)), (proj2 (Z.ltb_ge n 65536)) by (unfold n; euclid).
    rewrite (byte_eq _ a), (byte_eq _ b), (byte_eq _ c), (byte_eq _ d) by (unfold n; euclid).
    split; [done|]. split; [apply is_scalar_spec; unfold n; lia|]. split; [done|cbn; lia].
Qed.

(** Induction over the characters of a well-formed [str]. *)
Lemma str_ind (P : string -> Prop) :
  P EmptyString ->
  (forall c s, is_scalar c = true -> valid_utf8 s = true -> P s -> P (encode_utf8 c +:+ s)%string) ->
  forall s, valid_utf8 s = true -> P s.
Proof.
  intros H0 Hc s. induction s as [s IH] using (induction_ltof1 _ String.length). intros Hs.
  destruct s as [|a s]; [done|]. destruct (chars_cons a s Hs) as (c & s' & _ & Heq & Hsc & Hv & Hlen).
  rewrite <- Heq. apply Hc; [done|done|]. by apply IH.
Qed.

(** The characters are the [str]: encoding them gives it back. *)
Lemma of_chars_chars s : valid_utf8 s = true -> of_chars (chars s) = s /\ Forall (fun c => is_scalar c = true) (chars s).
Proof.
  induction s as [s IH] using (induction_ltof1 _ String.length). intros Hs.
  destruct s as [|a s]; [by split|].
  destruct (chars_cons a s Hs) as (c & s' & -> & Heq & Hsc & Hv & Hlen). cbn [of_chars].
  destruct (IH s' Hlen Hv) as [-> Hf]. split; [done|]. by constructor.
Qed.

(** A slice that does not panic drops one ASCII character. *)
Lemma slice_from_1_Ret {E} line s :
  valid_utf8 line = true -> slice_from_1 (E:=E) line = Ret s -> valid_utf8 s = true.
Proof.
  destruct line as [|a line]; [done|]. intros Hv%utf8_cons. cbn [slice_from_1].
  destruct Hv as [[_ Hv]|[(_ & b & t & -> & Hb & _)|[(_ & b & c & t & -> & Hb & _)|(_ & b & c & d & t & -> & Hb & _)]]].
  - destruct line as [|d line]; [|destruct (_ && _)]; intros [= <-]; done.
  - by rewrite (proj2 (Z.leb_le _ _)), (proj2 (Z.ltb_lt (code_of b) 192)) by lia.
  - by rewrite (proj2 (Z.leb_le _ _)), (proj2 (Z.ltb_lt (code_of b) 192)) by lia.
  - by rewrite (proj2 (Z.leb_le _ _)), (proj2 (Z.ltb_lt (code_of b) 192)) by lia.
Qed.

Lemma slice_from_1_ascii {E} a s :
  valid_utf8 (String a s) = true -> code_of a < 128 -> slice_from_1 (E:=E) (String a s) = Ret s.
Proof.
  intros Hv%utf8_cons Ha. destruct Hv as [[_ Hv]|[(? & _)|[(? & _)|(? & _)]]]; [|lia..].
  cbn [slice_from_1]. destruct s as [|d s]; [done|].
  destruct (utf8_cons d s Hv) as [[? _]|[(? & _)|[(? & _)|(? & _)]]];
    destruct (Z.leb_spec 128 (code_of d)), (Z.ltb_spec (code_of d) 192); cbn [andb]; done || lia.
Qed.

(** *** Reading back *)

Lemma hex_len_bound n : 0 <= n < 1114112 -> n < 16 ^ Z.of_nat (hex_len n) /\ (1 <= hex_len n <= 6)%nat.
Proof.
  intros Hn. unfold hex_len.
  repeat (match goal with |- context [n <? ?k] => destruct (Z.ltb_spec n k) end);
    cbn; lia.
Qed.

Lemma hex_digit_not_brace d : 0 <= d < 16 -> Ascii.eqb (hex_digit d) "}" = false.
Proof.
  intros Hd. assert (exists k, (k < 16)%nat /\ d = Z.of_nat k) as (k & Hk & ->) by (exists (Z.to_nat d); lia).
  do 16 (destruct k as [|k]; [reflexivity|]). lia.
Qed.

(** The digits of a number of at most [k] digits, read in the state [InHex]. *)
Lemma lex_hex k n m acc rest :
  0 <= n < 16 ^ Z.of_nat k -> (m + k <= 6)%nat ->
  lex_str (InHex m acc) (hex_fixed k n +:+ rest)%string
  = lex_str (InHex (m + k) (acc * 16 ^ Z.of_nat k + n)) rest.
Proof.
  revert n m acc rest. induction k as [|k IH]; intros n m acc rest Hn Hm.
  { cbn in Hn. cbn [hex_fixed]. rewrite Nat.add_0_r. change (16 ^ Z.of_nat 0) with 1.
    change ((EmptyString +:+ rest)%string) with rest. repeat f_equal; lia. }
  rewrite Nat2Z.inj_succ, Z.pow_succ_r in * by lia. cbn [hex_fixed].
  rewrite append_assoc_text, IH; [|euclid|lia].
  set (acc' := acc * 16 ^ Z.of_nat k + n / 16).
  change ((String (hex_digit (n mod 16)) EmptyString +:+ rest)%string) with (String (hex_digit (n mod 16)) rest).
  assert (Hd : 0 <= n mod 16 < 16) by (apply Z.mod_pos_bound; lia).
  cbn [lex_str]. rewrite hex_digit_not_brace, to_digit_hex by done.
  rewrite (proj2 (Nat.ltb_lt _ _)) by lia. f_equal. f_equal; [lia|]. unfold acc'. euclid.
Qed.

(** One escaped character reads back as itself. *)
Lemma lex_escape_char c rest :
  is_scalar c = true -> lex_str InText (escape_char c +:+ rest)%string = push c (lex_str InText rest).
Proof.
  intros Hc. pose proof (proj1 (is_scalar_spec c) Hc) as Hr. unfold escape_char.
  destruct (Z.eqb_spec c 9) as [->|]; [reflexivity|].
  destruct (Z.eqb_spec c 13) as [->|]; [reflexivity|].
  destruct (Z.eqb_spec c 10) as [->|]; [reflexivity|].
  destruct (Z.eqb_spec c 39) as [->|]; [reflexivity|].
  destruct (Z.eqb_spec c 34) as [->|]; [reflexivity|].
  destruct (Z.eqb_spec c 92) as [->|]; [reflexivity|]. cbn [orb].
  destruct (Z.leb_spec 32 c), (Z.leb_spec c 126); cbn [andb].
  1: { rewrite append_cons. cbn [lex_str]. unfold backslash.
       destruct (Ascii.eqb_spec (byte c) (byte 34)) as [Heq|_].
       { apply (f_equal code_of) in Heq. rewrite !code_of_byte in Heq; lia. }
       destruct (Ascii.eqb_spec (byte c) (byte 92)) as [Heq|_].
       { apply (f_equal code_of) in Heq. rewrite !code_of_byte in Heq; lia. }
       change (EmptyString +:+ rest)%string with rest.
       unfold push, encode_utf8. rewrite (proj2 (Z.ltb_lt c 128)) by lia. by destruct (lex_str InText rest) as [[]|]. }
  all: destruct (hex_len_bound c ltac:(lia)) as [Hlt Hlen].
  all: rewrite append_cons; change ("u{" +:+ ?x)%string with (String "u" (String "{" x)).
  all: rewrite !append_cons, append_assoc_text.
  all: change (lex_str InText (String backslash (String "u" (String "{" ?s)))) with (lex_str (InHex 0 0) s).
  all: rewrite lex_hex by lia; rewrite append_cons; cbn [lex_str].
  all: change (Ascii.eqb "}" "}") with true; cbv iota.
  all: rewrite (proj2 (Nat.leb_le 1 (0 + hex_len c))) by lia; cbn [andb].
  all: by rewrite Z.add_0_l, Hc.
Qed.

Lemma lex_escape_chars l rest :
  Forall (fun c => is_scalar c = true) l ->
  lex_str InText (escape_chars l +:+ rest)%string
  = match lex_str InText rest with Some (t, r) => Some (of_chars l +:+ t, r)%string | None => None end.
Proof.
  induction 1 as [|c l Hc _ IH].
  { change (escape_chars [] +:+ rest)%string with rest. by destruct (lex_str InText rest) as [[]|]. }
  cbn [escape_chars of_chars]. rewrite append_assoc_text, lex_escape_char, IH by done.
  destruct (lex_str InText rest) as [[t r]|]; [|done]. cbn [push]. by rewrite append_assoc_text.
Qed.

(** The escaped text of a [str], inside a literal, denotes that [str]. *)
Lemma lex_escape_default s rest :
  valid_utf8 s = true ->
  lex_str InText (escape_default s +:+ rest)%string
  = match lex_str InText rest with Some (t, r) => Some (s +:+ t, r)%string | None => None end.
Proof.
  intros [Heq Hf]%of_chars_chars. unfold escape_default. by rewrite lex_escape_chars, Heq.
Qed.

(** The literal ends at the quotation mark that the writer put there. *)
Lemma lex_quote rest : lex_str InText (dquote +:+ rest)%string = Some (EmptyString, rest).
Proof. reflexivity. Qed.
