(* ===== verification/OpenRpc.v ===== *)
(** The description of the JSON-RPC methods: the table that the build script
    generates from the traits of the server (src/zallet/build.rs,
    [generate_rpc_openrpc]), the [rpc.discover] document and the [help] and
    [stop] methods (src/zallet/src/components/json_rpc/methods/openrpc.rs,
    help.rs, stop.rs).

    The syntax tree of [syn] is kept as far as the script looks at it. *)

From stdpp Require Import sorting list_monad.
From S2P Require Import Prelude Amount Text Rpc Params Network Literal.

(** ** The syntax the build script reads *)

(** [syn::Type], [syn::PathArguments], [syn::GenericArgument]; what the script
    does not take apart is kept as its text. *)
Inductive RustTy :=
  | TyPath (leading_colon : bool) (segments : list (string * PathArguments))
  | TyReference (elem : RustTy)
  | TyOther (tokens : string)
with PathArguments :=
  | NoArguments
  | AngleBracketed (args : list GenericArgument)
  | Parenthesized (tokens : string)
with GenericArgument :=
  | GType (ty : RustTy)
  | GOther (tokens : string).

(** [syn::Meta]. The entries of a list are those that [parse_nested_meta]
    visits: [Some s] for [key = s] with a string literal, [None] for one at
    which the script's closure fails. *)
Inductive Expr := LitStr (s : string) | ExprOther.
Inductive Meta :=
  | MetaPath
  | MetaList (nested : list (option string))
  | MetaNameValue (value : Expr).

Record Attribute := { attr_path : string; meta : Meta }.

Inductive Pat := PatIdent (ident : string) | PatOther.
Inductive FnArg := Receiver | Typed (pat : Pat) (ty : RustTy).

Record TraitItemFn := {
  ident : string;
  attrs : list Attribute;
  inputs : list FnArg;
  output : option RustTy
}.

Inductive TraitItem := ItemFn (method : TraitItemFn) | ItemOther.
Inductive Item := ItemTrait (ident : string) (items : list TraitItem) | OtherItem.

Definition is_ident (name : string) (a : Attribute) : bool := String.eqb (attr_path a) name.

(** ** What the script takes from a method *)

(** The script only fails by panicking. *)
Abbreviation build := (outcome Empty_set).

Definition expect {A} (o : option A) : build A := match o with Some a => Ret a | None => Panic end.

(** The trait of this name. *)
Definition find_trait (name : string) (items : list Item) : build (list TraitItem) :=
  expect (head (omap (fun i => match i with
                               | ItemTrait n l => if String.eqb n name then Some l else None
                               | OtherItem => None
                               end) items)).

(** The assignments of [command] before the closure's first failure. *)
Fixpoint nested_command (command : option string) (nested : list (option string)) : option string :=
  match nested with
  | Some s :: nested => nested_command (Some s) nested
  | _ => command
  end.

(** The [#[method(name = "command")]] attribute. *)
Definition command_of (m : TraitItemFn) : option string :=
  match List.find (is_ident "method") (attrs m) with
  | Some a => match meta a with MetaList nested => nested_command None nested | _ => None end
  | None => None
  end.

(** The module of the return type. *)
Definition module_of (m : TraitItemFn) : build string :=
  match output m with
  | Some (TyPath _ ((seg, _) :: _)) => Ret seg
  | _ => Panic
  end.

(** The type to describe and, when it can be determined, whether the parameter
    is required. *)
Definition optionality (rust_ty : RustTy) : build (RustTy * option bool) :=
  match rust_ty with
  | TyPath leading_colon segments =>
      match segments with
      | [] => Panic
      | (first, arguments) :: _ =>
          let is_standalone_ident := negb leading_colon && bool_decide (length segments = 1%nat) in
          if String.eqb first "Option" && is_standalone_ident then
            match arguments with
            | AngleBracketed (GType ty :: _) => Ret (ty, Some false)
            | _ => Panic
            end
          else if String.eqb first "Vec" then Ret (rust_ty, None)
          else Ret (rust_ty, Some true)
      end
  | _ => Ret (rust_ty, Some true)
  end.

(** The text of each doc comment line. *)
Definition doc_line (a : Attribute) : option string :=
  if is_ident "doc" a then
    match meta a with MetaNameValue (LitStr s) => Some s | _ => None end
  else None.

Definition doc_lines (m : TraitItemFn) : list string := omap doc_line (attrs m).

(** "Trim the leading space from the doc comment line." *)
Definition trim_doc (line : string) : build string :=
  match line with EmptyString => Ret line | _ => slice_from_1 line end.

Definition escaped_newline : string := String backslash "n".

Definition description_literal (m : TraitItemFn) : build string :=
  foldM (fun contents line =>
    trimmed_line ← trim_doc line;
    Ret (contents +:+ escape_default trimmed_line +:+ escaped_newline)%string) EmptyString (doc_lines m).

(** [to_uppercase], of an ASCII identifier. *)
Fixpoint to_uppercase (s : string) : string :=
  match s with
  | EmptyString => EmptyString
  | String c s =>
      let n := code_of c in
      String (if (97 <=? n) && (n <=? 122) then byte (n - 32) else c) (to_uppercase s)
  end.

Record Param := {
  parameter : string;
  schema_ty : string;
  required : option bool
}.

Record Entry := {
  command : string;
  module : string;
  description_text : string;
  parameters : list Param;
  deprecated : bool
}.

Section generator.

(** [to_token_stream().to_string()]: how [quote] and [proc_macro2] print a type. *)
Variable token_string : RustTy -> string.

Definition param_of (arg : FnArg) : build (option Param) :=
  match arg with
  | Receiver => Ret None
  | Typed PatOther _ => Ret None
  | Typed (PatIdent name) rust_ty =>
      '(param_ty, req) ← optionality rust_ty;
      let param_ty := token_string param_ty in
      let schema := if String.eqb param_ty "age :: secrecy :: SecretString" then "String" else param_ty in
      Ret (Some {| parameter := name; schema_ty := schema; required := req |})
  end.

Fixpoint params_of (args : list FnArg) : build (list Param) :=
  match args with
  | [] => Ret []
  | a :: args =>
      p ← param_of a;
      ps ← params_of args;
      Ret (match p with Some p => p :: ps | None => ps end)
  end.

(** A method without a command has no entry. *)
Definition entry_of (m : TraitItemFn) : build (option Entry) :=
  match command_of m with
  | None => Ret None
  | Some command =>
      module ← module_of m;
      text ← description_literal m;
      ps ← params_of (inputs m);
      Ret (Some {| command := command; module := module; description_text := text; parameters := ps;
                   deprecated := existsb (is_ident "deprecated") (attrs m) |})
  end.

Fixpoint entries_of (items : list TraitItem) : build (list Entry) :=
  match items with
  | [] => Ret []
  | ItemOther :: items => entries_of items
  | ItemFn m :: items =>
      e ← entry_of m;
      es ← entries_of items;
      Ret (match e with Some e => e :: es | None => es end)
  end.

(** ** The generated file *)

Definition nl : string := String (byte 10) EmptyString.
Definition bool_text (b : bool) : string := if b then "true" else "false".

Definition const_path (module parameter suffix : string) : string :=
  ("super::" +:+ module +:+ "::PARAM_" +:+ to_uppercase parameter +:+ suffix)%string.

Definition render_param (module : string) (p : Param) : string :=
  ("        _g.param::<" +:+ schema_ty p +:+ ">(" +:+ dquote +:+ parameter p +:+ dquote +:+ ", "
    +:+ const_path module (parameter p) "_DESC" +:+ ", "
    +:+ match required p with
        | Some b => bool_text b
        | None => const_path module (parameter p) "_REQUIRED"
        end
    +:+ ")," +:+ nl)%string.

Definition concat_str (l : list string) : string := foldr String.append EmptyString l.

Definition render_entry (e : Entry) : string :=
  (dquote +:+ command e +:+ dquote +:+ " => RpcMethod {" +:+ nl
    +:+ "    description: " +:+ dquote +:+ description_text e +:+ dquote +:+ "," +:+ nl
    +:+ "    params: |_g| vec![" +:+ nl
    +:+ concat_str (render_param (module e) <$> parameters e)
    +:+ "    ]," +:+ nl
    +:+ "    result: |g| g.result::<super::" +:+ module e +:+ "::ResultType>("
    +:+ dquote +:+ command e +:+ "_result" +:+ dquote +:+ ")," +:+ nl
    +:+ "    deprecated: " +:+ bool_text (deprecated e) +:+ "," +:+ nl
    +:+ "}," +:+ nl)%string.

Definition generated_header : string :=
  ("#[allow(unused_qualifications)]" +:+ nl
    +:+ "pub(super) static METHODS: ::phf::Map<&str, RpcMethod> = ::phf::phf_map! {" +:+ nl)%string.

Definition table_of (items : list Item) : build (list Entry) :=
  rpc_trait ← find_trait "Rpc" items;
  wallet_rpc_trait ← find_trait "WalletRpc" items;
  entries_of (rpc_trait ++ wallet_rpc_trait).

(** The text of [rpc_openrpc.rs]. *)
Definition generate_rpc_openrpc (items : list Item) : build string :=
  es ← table_of items;
  Ret (generated_header +:+ concat_str (render_entry <$> es) +:+ "};")%string.

End generator.

(** ** The document *)

(** A constant of a method's module. *)
Inductive Const := ConstStr (s : string) | ConstBool (b : bool).

Section document.

(** [schemars]: its generator, the schema of a type by name, and the
    definitions it collected. *)
Context {Generator Schema Components : Type}.
Variable new_generator : Generator.
Variable subschema_for : string -> Generator -> Schema * Generator.
Variable take_definitions : Generator -> Components.

(** The [DOCS] that [documented] derives for a module's [ResultType]. *)
Variable result_docs : string -> string.

Record ContentDescriptor := {
  cd_name : string;
  cd_summary : string;
  cd_description : string;
  cd_required : bool;
  cd_schema : Schema;
  cd_deprecated : bool
}.

Record RpcMethod := {
  description : string;
  params : Generator -> list ContentDescriptor * Generator;
  result : Generator -> ContentDescriptor * Generator;
  method_deprecated : bool
}.

Record Method := {
  name : string;
  summary : string;
  m_description : string;
  m_params : list ContentDescriptor;
  m_result : ContentDescriptor;
  m_deprecated : bool
}.

(** The text before the first line break. *)
Definition first_line (s : string) : string :=
  match split_once (byte 10) s with Some (summary, _) => summary | None => s end.

(** [Generator::param] and [Generator::result]. *)
Definition generator_param (ty name description : string) (required : bool) (g : Generator)
    : ContentDescriptor * Generator :=
  let '(schema, g) := subschema_for ty g in
  ({| cd_name := name; cd_summary := first_line description; cd_description := description;
      cd_required := required; cd_schema := schema; cd_deprecated := false |}, g).

Definition generator_result (module name : string) (g : Generator) : ContentDescriptor * Generator :=
  let '(schema, g) := subschema_for ("super::" +:+ module +:+ "::ResultType")%string g in
  ({| cd_name := name; cd_summary := first_line (result_docs module); cd_description := result_docs module;
      cd_required := false; cd_schema := schema; cd_deprecated := false |}, g).

(** Left-to-right evaluation of a [vec!] or a [map] over the generator. *)
Fixpoint run_all {A} (l : list (Generator -> A * Generator)) (g : Generator) : list A * Generator :=
  match l with
  | [] => ([], g)
  | f :: l => let '(x, g) := f g in let '(xs, g) := run_all l g in (x :: xs, g)
  end.

(** [RpcMethod::generate]. *)
Definition generate (m : RpcMethod) (name : string) (g : Generator) : Method * Generator :=
  let desc := trim (description m) in
  let '(ps, g) := params m g in
  let '(r, g) := result m g in
  ({| name := name; summary := first_line desc; m_description := desc; m_params := ps; m_result := r;
      m_deprecated := method_deprecated m |}, g).

(** *** What the generated file means

    The values of its initialisers, the constants being looked up in the
    modules; [None] when it does not compile. [METHODS] holds them in the order
    of its hash table. *)
Variable consts : string -> string -> option Const.

Definition const_str (module parameter : string) : option string :=
  match consts module ("PARAM_" +:+ to_uppercase parameter +:+ "_DESC")%string with
  | Some (ConstStr s) => Some s
  | _ => None
  end.

Definition const_required (module : string) (p : Param) : option bool :=
  match required p with
  | Some b => Some b
  | None =>
      match consts module ("PARAM_" +:+ to_uppercase (parameter p) +:+ "_REQUIRED")%string with
      | Some (ConstBool b) => Some b
      | _ => None
      end
  end.

Definition compile_param (module : string) (p : Param)
    : option (Generator -> ContentDescriptor * Generator) :=
  desc ← const_str module (parameter p);
  req ← const_required module p;
  Some (generator_param (schema_ty p) (parameter p) desc req).

Definition compile_entry (e : Entry) : option (string * RpcMethod) :=
  '(desc, rest) ← lex_str InText (description_text e +:+ dquote)%string;
  ps ← list_monad.list.mapM (M:=option) (compile_param (module e)) (parameters e);
  if String.eqb rest EmptyString then
    Some (command e,
          {| description := desc; params := run_all ps;
             result := generator_result (module e) (command e +:+ "_result")%string;
             method_deprecated := deprecated e |})
  else None.

(** [phf_map!] refuses a key given twice. *)
Definition compile (es : list Entry) : option (list (string * RpcMethod)) :=
  if bool_decide (NoDup (command <$> es)) then list_monad.list.mapM (M:=option) compile_entry es else None.

(** [rpc.discover]. *)
Record OpenRpc := {
  openrpc : string;
  title : string;
  info_description : string;
  version : string;
  methods : list Method;
  components : Components
}.

(** The package's description and version, known at build time. *)
Variables PKG_DESCRIPTION PKG_VERSION : string.

Definition openrpc_call (METHODS : list (string * RpcMethod)) : OpenRpc :=
  let '(ms, g) := run_all ((fun '(n, m) => generate m n) <$> METHODS) new_generator in
  {| openrpc := "1.3.2"; title := "Zallet"; info_description := PKG_DESCRIPTION; version := PKG_VERSION;
     methods := ms; components := take_definitions g |}.

(** ** [help] *)

Definition name_le (a b : string * RpcMethod) : Prop := String.leb a.1 b.1 = true.

#[global] Instance name_le_dec a b : Decision (name_le a b) := decide (_ = _).

Definition get_method (METHODS : list (string * RpcMethod)) (command : string) : option RpcMethod :=
  snd <$> List.find (fun e => String.eqb e.1 command) METHODS.

Definition help_call (METHODS : list (string * RpcMethod)) (command : option string) : string :=
  match command with
  | Some command =>
      match get_method METHODS command with
      | None => ("help: unknown command: " +:+ command +:+ nl)%string
      | Some method => (command +:+ nl +:+ nl +:+ description method)%string
      end
  | None =>
      concat_str ((fun e => e.1 +:+ nl)%string <$> merge_sort name_le METHODS)
  end.

End document.

(** ** [stop]

    [raise] tells whether the signal could be sent; a build for Windows refuses. *)
Definition stop_call `{ParamOps} (windows : bool) (network : NetworkType) (raise : bool) : RpcResult unit :=
  if windows then Err (of_code MethodNotFound)
  else match network with
       | Regtest => if raise then Ret tt else Err (of_code InternalError)
       | _ => Err (of_code MethodNotFound)
       end.

(** ** Lemmas *)

(** What a doc comment says: its lines without their first character. *)
Definition tail_str (s : string) : string := match s with EmptyString => s | String _ s => s end.
Definition doc_text (m : TraitItemFn) : string :=
  concat_str ((fun l => tail_str l +:+ nl)%string <$> doc_lines m).

Lemma trim_doc_Ret line s : trim_doc line = Ret s -> s = tail_str line.
Proof.
  destruct line as [|a line]; cbn; [by intros [= <-]|]. destruct line as [|d line]; [by intros [= <-]|].
  by destruct (_ && _); intros [= <-].
Qed.

Lemma trim_doc_valid line s : valid_utf8 line = true -> trim_doc line = Ret s -> valid_utf8 s = true.
Proof. destruct line as [|a line]; [by intros _ [= <-]|]. apply slice_from_1_Ret. Qed.

(** A line whose first character is ASCII does not make the script panic. *)
Lemma trim_doc_ascii a s : valid_utf8 (String a s) = true -> code_of a < 128 -> trim_doc (String a s) = Ret s.
Proof. apply slice_from_1_ascii. Qed.

Lemma lex_newline r :
  lex_str InText (escaped_newline +:+ r)%string
  = match lex_str InText r with Some (t, rest) => Some (nl +:+ t, rest)%string | None => None end.
Proof. reflexivity. Qed.

Lemma literal_lines lines acc text :
  Forall (fun l => valid_utf8 l = true) lines ->
  foldM (E:=Empty_set) (fun contents line =>
    trimmed_line ← trim_doc line;
    Ret (contents +:+ escape_default trimmed_line +:+ escaped_newline)%string) acc lines = Ret text ->
  exists t, text = (acc +:+ t)%string /\
    forall r, lex_str InText (t +:+ r)%string
    = match lex_str InText r with
      | Some (x, rest) => Some (concat_str ((fun l => tail_str l +:+ nl)%string <$> lines) +:+ x, rest)%string
      | None => None
      end.
Proof.
  intros Hv. revert acc. induction Hv as [|line lines Hl _ IH]; intros acc.
  { intros [= <-]. exists EmptyString. split.
    - by rewrite append_nil_r.
    - intros r. change (EmptyString +:+ r)%string with r. by destruct (lex_str InText r) as [[]|]. }
  cbn [foldM]. intros (acc' & (line' & Hline & [= <-])%bind_Ret & (t & -> & Ht)%IH)%bind_Ret.
  exists (escape_default line' +:+ escaped_newline +:+ t)%string. rewrite !append_assoc_text. split; [done|].
  intros r. rewrite !append_assoc_text, lex_escape_default, lex_newline, Ht by (by eapply trim_doc_valid).
  destruct (lex_str InText r) as [[x rest]|]; [|done]. cbn [fmap list_fmap concat_str foldr].
  rewrite (trim_doc_Ret _ _ Hline). fold (concat_str ((fun l => tail_str l +:+ nl)%string <$> lines)).
  by rewrite !append_assoc_text.
Qed.

(** The description that the generated file holds is the doc comment: whatever
    characters it has, its literal reads back as its text and ends where the
    script closed it. *)
Lemma description_literal_reads_back m text r :
  Forall (fun l => valid_utf8 l = true) (doc_lines m) -> description_literal m = Ret text ->
  lex_str InText (text +:+ dquote +:+ r)%string = Some (doc_text m, r).
Proof.
  intros Hv (t & -> & Ht)%literal_lines; [|done].
  change (EmptyString +:+ t)%string with t. rewrite Ht, lex_quote. unfold doc_text.
  by rewrite append_nil_r.
Qed.

Lemma entry_of_Some token m e :
  entry_of token m = Ret (Some e) ->
  command_of m = Some (command e) /\ module_of m = Ret (module e) /\ description_literal m = Ret (description_text e)
  /\ params_of token (inputs m) = Ret (parameters e) /\ deprecated e = existsb (is_ident "deprecated") (attrs m).
Proof.
  unfold entry_of. destruct (command_of m) as [c|]; [|done].
  rewrite bind_Ret. intros (mo & Hmod & H). rewrite bind_Ret in H. destruct H as (text & Htext & H).
  rewrite bind_Ret in H. by destruct H as (ps & Hps & [= <-]).
Qed.

(** The parameters of a method, as it declares them. *)
Definition param_arg (a : FnArg) : option (string * RustTy) :=
  match a with Typed (PatIdent p) t => Some (p, t) | _ => None end.
Definition declared (m : TraitItemFn) : list (string * RustTy) := omap param_arg (inputs m).

(** The entry has them in order, with the script's view of their optionality. *)
Lemma params_of_Ret token args ps :
  params_of token args = Ret ps ->
  Forall2 (fun '(p, t) q => parameter q = p /\ exists t', optionality t = Ret (t', required q))
    (omap param_arg args) ps.
Proof.
  revert ps. induction args as [|a args IH]; intros ps; [intros [= <-]; constructor|].
  cbn [params_of]. intros (o & Ho & (qs & Hqs%IH & [= <-])%bind_Ret)%bind_Ret.
  destruct a as [|[p|] t]; cbn in Ho |- *; [injection Ho as <-; done| |injection Ho as <-; done].
  destruct (optionality t) as [[t' req]| |] eqn:Hopt; [|done..]. cbn in Ho. injection Ho as <-.
  constructor; [split; [done|]; by exists t'|done].
Qed.

Section described.
Context {Generator Schema : Type}.
Variable subschema_for : string -> Generator -> Schema * Generator.
Variable result_docs : string -> string.
Variable consts : string -> string -> option Const.

Abbreviation compile_entry := (compile_entry subschema_for result_docs consts).
Abbreviation compile_param := (compile_param subschema_for consts).

(** A parameter's descriptor says what its entry and its constants say. *)
Definition describes (module : string) (p : Param) (d : ContentDescriptor (Schema:=Schema)) : Prop :=
  cd_name d = parameter p /\ const_str consts module (parameter p) = Some (cd_description d)
  /\ const_required consts module p = Some (cd_required d) /\ cd_deprecated d = false.

Lemma compile_param_spec module p f g :
  compile_param module p = Some f -> describes module p (f g).1.
Proof.
  unfold OpenRpc.compile_param, describes. destruct (const_str _ _ _) as [desc|]; [|done]. cbn.
  destruct (const_required _ _ _) as [req|]; [|done]. intros [= <-].
  unfold generator_param. by destruct (subschema_for _ _).
Qed.

Lemma run_params_spec module ps fs g :
  list_monad.list.mapM (M:=option) (compile_param module) ps = Some fs ->
  Forall2 (describes module) ps (run_all fs g).1.
Proof.
  revert fs g. induction ps as [|p ps IH]; intros fs g; cbn; [intros [= <-]; constructor|].
  destruct (compile_param module p) as [f|] eqn:Hf; [|done]. cbn.
  destruct (list_monad.list.mapM _ ps) as [fs'|] eqn:Hfs; [|done]. intros [= <-]. cbn [run_all].
  pose proof (compile_param_spec module p f g Hf) as Hd. destruct (f g) as [x g1].
  specialize (IH fs' g1 eq_refl). destruct (run_all fs' g1). by constructor.
Qed.

(** What a compiled entry holds. *)
Definition method_spec (m : TraitItemFn) (e : Entry) (c : string * RpcMethod (Generator:=Generator) (Schema:=Schema)) : Prop :=
  c.1 = command e /\ description c.2 = doc_text m /\ method_deprecated c.2 = deprecated e
  /\ (forall g, Forall2 (describes (module e)) (parameters e) (params c.2 g).1)
  /\ result c.2 = generator_result subschema_for result_docs (module e) (command e +:+ "_result")%string.

Lemma compile_entry_spec token m e c :
  Forall (fun l => valid_utf8 l = true) (doc_lines m) -> entry_of token m = Ret (Some e) ->
  compile_entry e = Some c -> method_spec m e c.
Proof.
  intros Hv (_ & _ & Htext & _ & _)%entry_of_Some. unfold OpenRpc.compile_entry.
  assert (Hlex := description_literal_reads_back m _ EmptyString Hv Htext).
  change (dquote +:+ "")%string with dquote in Hlex. rewrite Hlex. cbn.
  destruct (list_monad.list.mapM _ _) as [fs|] eqn:Hfs; [|done]. cbn. intros [= <-].
  repeat split. intros g. by apply run_params_spec.
Qed.

(** The method that a descriptor document gives for a compiled entry. *)
Definition documented (m : TraitItemFn) (e : Entry) (d : Method (Schema:=Schema)) : Prop :=
  name d = command e /\ m_description d = trim (doc_text m) /\ summary d = first_line (trim (doc_text m))
  /\ Forall2 (describes (module e)) (parameters e) (m_params d) /\ m_deprecated d = deprecated e
  /\ cd_name (m_result d) = (command e +:+ "_result")%string
  /\ cd_description (m_result d) = result_docs (module e).

Lemma method_generate_spec m e c g : method_spec m e c -> documented m e (generate c.2 c.1 g).1.
Proof.
  intros (Hn & Hd & Hdep & Hps & Hr). unfold generate, documented. specialize (Hps g).
  destruct (params c.2 g) as [ps g1]. rewrite Hr, Hd, Hn, Hdep. unfold generator_result.
  by destruct (subschema_for _ g1).
Qed.

(** The document has the methods in the order of the table. *)
Lemma generate_all_spec (R : Method -> Prop) (METHODS : list (string * RpcMethod (Generator:=Generator) (Schema:=Schema))) g :
  Forall (fun c => forall g, R (generate c.2 c.1 g).1) METHODS ->
  let ms := (run_all ((fun '(n, m) => generate m n) <$> METHODS) g).1 in
  Forall R ms /\ (name <$> ms) = METHODS.*1.
Proof.
  intros HR. revert g. induction HR as [|[n m] l Hc _ IH]; intros g; [by split|]. cbn in Hc.
  cbn [fmap list_fmap run_all]. specialize (Hc g). assert (Hn : name (generate m n g).1 = n).
  { unfold generate. destruct (params m g) as [ps g1]. by destruct (result m g1). }
  destruct (generate m n g) as [x g1]. specialize (IH g1).
  change (list_fmap _ _ ?f l) with (f <$> l) in *.
  destruct (run_all _ g1) as [xs g2]. cbn in *. destruct IH as [IH ->]. split; [by constructor|by rewrite Hn].
Qed.

(** *** [help] *)

Lemma get_method_elem (METHODS : list (string * RpcMethod (Generator:=Generator) (Schema:=Schema))) c :
  NoDup METHODS.*1 -> c ∈ METHODS -> get_method METHODS c.1 = Some c.2.
Proof.
  induction METHODS as [|x l IH]; [by intros _ ?%elem_of_nil|]. cbn [fmap list_fmap].
  intros [Hx Hnd]%NoDup_cons [->|Hc]%elem_of_cons; unfold get_method; cbn [List.find].
  - by rewrite String.eqb_refl.
  - destruct (String.eqb_spec x.1 c.1) as [Heq|]; [|by apply IH].
    destruct Hx. rewrite Heq. by apply list_elem_of_fmap_2.
Qed.

Lemma get_method_None (METHODS : list (string * RpcMethod (Generator:=Generator) (Schema:=Schema))) c :
  c ∉ METHODS.*1 -> get_method METHODS c = None.
Proof.
  induction METHODS as [|x l IH]; [done|]. cbn [fmap list_fmap]. rewrite not_elem_of_cons. intros [Hne Hc].
  unfold get_method; cbn [List.find]. destruct (String.eqb_spec x.1 c) as [Heq|]; [by destruct Hne|by apply IH].
Qed.

#[local] Instance name_le_total : Total (name_le (Generator:=Generator) (Schema:=Schema)).
Proof. intros a b. apply String.leb_total. Qed.

(** The listing is the names in order, whatever the order of the hash table. *)
Lemma help_listing (METHODS : list (string * RpcMethod (Generator:=Generator) (Schema:=Schema))) :
  exists names, help_call METHODS None = concat_str ((fun n => n +:+ nl)%string <$> names) /\ names ≡ₚ METHODS.*1
    /\ Sorted (fun a b => String.leb a b = true) names.
Proof.
  exists (merge_sort name_le METHODS).*1. cbn [help_call]. rewrite <- list_fmap_compose.
  split; [done|]. split; [by rewrite merge_sort_Permutation|].
  apply Sorted_fmap with (R1 := name_le); [done|]. apply Sorted_merge_sort, _.
Qed.

End described.
