(* ===== verification/MethodTable.v ===== *)
(** The methods of the JSON-RPC server
    (src/zallet/src/components/json_rpc/methods.rs): the two traits with their
    documentation, the constants that describe the parameters (methods/*.rs),
    and the implementations, which hand each call to a module.

    The texts are those of the source; [quoted] stands a caret for a quotation
    mark. *)

From stdpp Require Import sorting.
From S2P Require Import Prelude Amount Text Rpc Params Network Literal OpenRpc.

(** The text with each caret replaced by a quotation mark. *)
Fixpoint quoted (s : string) : string :=
  match s with
  | EmptyString => EmptyString
  | String c s => String (if Ascii.eqb c "^" then byte 34 else c) (quoted s)
  end.

(** ** How the methods are declared *)

(** A type named by one identifier, and one with a type argument. *)
Definition ty (name : string) : RustTy := TyPath false [(name, NoArguments)].
Definition ty_of (name : string) (arg : RustTy) : RustTy :=
  TyPath false [(name, AngleBracketed [GType arg])].

(** A method with its doc comment, its [#[method(name = "...")]] attribute, its
    parameters after [&self], and the return type [module::Response]. *)
Definition rpc_method (command ident : string) (docs : list string) (params : list (string * RustTy))
    (module : string) : TraitItemFn :=
  {| ident := ident;
     attrs := ((fun s => {| attr_path := "doc"; meta := MetaNameValue (LitStr s) |}) <$> docs)
              ++ [{| attr_path := "method"; meta := MetaList [Some command] |}];
     inputs := Receiver :: ((fun '(p, t) => Typed (PatIdent p) t) <$> params);
     output := Some (TyPath false [(module, NoArguments); ("Response", NoArguments)]) |}.

(** ** How the methods are implemented

    What an implementation passes to the function of a module: a part of the
    server, or a parameter of the method. *)
Inductive Part :=
  | WalletRef
  | WalletMut
  | WalletParams
  | WalletHandle
  | KeystoreRef
  | KeystoreClone
  | ChainClone
  | AsyncOpsRead
  | AsyncOpsWrite.

Inductive Passed := Server (p : Part) | Arg (name : string).

Record Handler := {
  h_ident : string;
  callee : string * string;
  passed : list Passed;
  starts_async : bool
}.

(** ** [trait Rpc] *)
Module RpcTrait.

Definition get_wallet_status : TraitItemFn := rpc_method "getwalletstatus" "get_wallet_status"
  [" Returns wallet status information."]
  [] "get_wallet_status".

Definition list_accounts : TraitItemFn := rpc_method "z_listaccounts" "list_accounts"
  [" Returns the list of accounts created with `z_getnewaccount` or `z_recoveraccounts`.";
   "";
   " # Arguments";
   " - `include_addresses` (bool, optional, default=true) Also include the addresses";
   "   known to the wallet for this account."]
  [("include_addresses", (ty_of "Option" (ty "bool")))] "list_accounts".

Definition get_accounts : TraitItemFn := rpc_method "z_getaccount" "get_accounts"
  [" Returns details about the given account.";
   "";
   " # Arguments";
   " - `account_uuid` (string, required): The UUID of the wallet account."]
  [("account_uuid", (ty "String"))] "get_account".

Definition get_address_for_account : TraitItemFn := rpc_method "z_getaddressforaccount" "get_address_for_account"
  [" For the given account, derives a Unified Address in accordance with the remaining";
   " arguments:";
   "";
   " - If no list of receiver types is given (or the empty list `[]`), the best and";
   (quoted "   second-best shielded receiver types, along with the ^p2pkh^ (i.e. transparent)");
   "   receiver type, will be used.";
   " - If no diversifier index is given, then:";
   "   - If a transparent receiver would be included (either because no list of";
   (quoted "     receiver types is given, or the provided list includes ^p2pkh^), the next");
   "     unused index (that is valid for the list of receiver types) will be selected.";
   "   - If only shielded receivers would be included (because a list of receiver types";
   (quoted "     is given that does not include ^p2pkh^), a time-based index will be selected.");
   "";
   " The account parameter must be a UUID or account number that was previously";
   " generated by a call to the `z_getnewaccount` RPC method. The legacy account number";
   " is only supported for wallets containing a single seed phrase.";
   "";
   " Once a Unified Address has been derived at a specific diversifier index,";
   " re-deriving it (via a subsequent call to `z_getaddressforaccount` with the same";
   " account and index) will produce the same address with the same list of receiver";
   " types. An error will be returned if a different list of receiver types is";
   " requested, including when the empty list `[]` is provided (if the default receiver";
   " types don't match)."]
  [("account", (ty "JsonValue")); ("receiver_types", (ty_of "Option" (ty_of "Vec" (ty "String"))));
      ("diversifier_index", (ty_of "Option" (ty "u128")))] "get_address_for_account".

Definition list_addresses : TraitItemFn := rpc_method "listaddresses" "list_addresses"
  [" Lists the addresses managed by this wallet by source.";
   "";
   " Sources include:";
   " - Addresses generated from randomness by a legacy `zcashd` wallet.";
   " - Sapling addresses generated from the legacy `zcashd` HD seed.";
   " - Imported watchonly transparent addresses.";
   " - Shielded addresses tracked using imported viewing keys.";
   " - Addresses derived from mnemonic seed phrases.";
   "";
   " In the case that a source does not have addresses for a value pool, the key";
   " associated with that pool will be absent.";
   "";
   " REMINDER: It is recommended that you back up your wallet files regularly. If you";
   " have not imported externally-produced keys, it only necessary to have backed up";
   " the wallet's key storage file."]
  [] "list_addresses".

Definition list_unified_receivers : TraitItemFn := rpc_method "z_listunifiedreceivers" "list_unified_receivers"
  [" Returns a record of the individual receivers contained within the provided UA,";
   " keyed by receiver type. The UA may not have receivers for some receiver types,";
   " in which case those keys will be absent.";
   "";
   " Transactions that send funds to any of the receivers returned by this RPC";
   " method will be detected by the wallet as having been sent to the unified";
   " address.";
   "";
   " # Arguments";
   " - `unified_address` (string, required) The unified address to inspect."]
  [("unified_address", (TyReference (ty "str")))] "list_unified_receivers".

Definition list_transactions : TraitItemFn := rpc_method "z_listtransactions" "list_transactions"
  [" Returns a list of the wallet's transactions, optionally filtered by account and block";
   " range.";
   "";
   " # Arguments";
   " - `account_uuid`: The UUID of the wallet account. If omitted, return transactions for all";
   "   accounts in the wallet.";
   " - `start_height`: The inclusive lower bound of block heights for which transactions mined";
   "   in those blocks should be returned. If omitted, the start height will default to the";
   "   account birthday height if an account UUID is specified, or the minimum birthday";
   "   height among accounts in the wallet if no account is specified.";
   " - `end_height`: The exclusive upper bound of block heights for which transactions mined";
   "   in those blocks should be returned. If omitted, return all transactions mined or created";
   "   above the start height.";
   " - `offset`: An optional number of transactions to skip over before a page of results is";
   "   returned. Defaults to zero.";
   " - `limit`: An optional upper bound on the number of results that should be returned in a";
   "   page.";
   "";
   " WARNING: This is currently an experimental feature; arguments and result data may change at";
   " any time."]
  [("account_uuid", (ty_of "Option" (ty "String"))); ("start_height", (ty_of "Option" (ty "u32")));
      ("end_height", (ty_of "Option" (ty "u32"))); ("offset", (ty_of "Option" (ty "u32")));
      ("limit", (ty_of "Option" (ty "u32")))] "list_transactions".

Definition get_raw_transaction : TraitItemFn := rpc_method "getrawtransaction" "get_raw_transaction"
  [" Returns the raw transaction data for the given transaction ID.";
   "";
   " NOTE: If `blockhash` is provided, only that block will be searched, and if the";
   " transaction is in the mempool or other blocks, or if the node backing this wallet";
   " does not have the given block available, the transaction will not be found.";
   "";
   " # Arguments";
   " - `txid` (string, required) The transaction ID.";
   " - `verbose` (numeric, optional, default=0) If 0, return a string of hex-encoded";
   "   data. If non-zero, return a JSON object with information about `txid`.";
   " - `blockhash` (string, optional) The block in which to look for the transaction."]
  [("txid", (TyReference (ty "str"))); ("verbose", (ty_of "Option" (ty "u64")));
      ("blockhash", (ty_of "Option" (ty "String")))] "get_raw_transaction".

Definition decode_raw_transaction : TraitItemFn := rpc_method "decoderawtransaction" "decode_raw_transaction"
  [" Return a JSON object representing the serialized, hex-encoded transaction.";
   "";
   " # Arguments";
   " - `hexstring` (string, required) The transaction hex string."]
  [("hexstring", (TyReference (ty "str")))] "decode_raw_transaction".

Definition view_transaction : TraitItemFn := rpc_method "z_viewtransaction" "view_transaction"
  [" Returns detailed information about in-wallet transaction `txid`.";
   "";
   " This method returns information about spends and outputs within the transaction";
   " that are visible to the wallet. Importantly, this does not include information";
   " about spent notes that are not controlled by spending or viewing keys in the";
   " wallet, and so callers MUST NOT use the `spends` or `outputs` fields to compute";
   " balances or fees themselves. Use the provided `accounts` and `fee` fields instead."]
  [("txid", (TyReference (ty "str")))] "view_transaction".

Definition stop : TraitItemFn := rpc_method "stop" "stop"
  [" Stop the running zallet process.";
   "";
   " # Notes";
   "";
   " - Works for non windows targets only.";
   " - Works only if the network of the running zallet process is `Regtest`."]
  [] "stop".

Definition validate_address : TraitItemFn := rpc_method "validateaddress" "validate_address"
  [" Validate a transparent Zcash address, returning information about it.";
   "";
   " # Arguments";
   " - `address` (string, required): The transparent address to validate."]
  [("address", (TyReference (ty "str")))] "validate_address".

Definition verify_message : TraitItemFn := rpc_method "verifymessage" "verify_message"
  [" Verify a signed message.";
   "";
   " # Arguments";
   " - `zcashaddress` (string, required): The Zcash transparent address used to sign the message.";
   " - `signature` (string, required): The signature provided by the signer in base64 encoding.";
   " - `message` (string, required): The message that was signed."]
  [("zcashaddress", (TyReference (ty "str"))); ("signature", (TyReference (ty "str")));
      ("message", (TyReference (ty "str")))] "verify_message".

Definition convert_tex : TraitItemFn := rpc_method "z_converttex" "convert_tex"
  [" Converts a transparent P2PKH Zcash address to a TEX address.";
   "";
   " TEX addresses (defined in ZIP 320) are transparent-source-only addresses.";
   "";
   " The input address must be valid for the network this node is running on.";
   "";
   " # Arguments";
   " - `transparent_address` (string, required): The transparent P2PKH address to convert."]
  [("transparent_address", (TyReference (ty "str")))] "convert_tex".

Definition decode_script : TraitItemFn := rpc_method "decodescript" "decode_script"
  [" Decodes a hex-encoded script.";
   "";
   " # Arguments";
   " - `hexstring` (string, required): The hex-encoded script."]
  [("hexstring", (TyReference (ty "str")))] "decode_script".

Definition items : list TraitItem :=
  ItemFn <$> [get_wallet_status; list_accounts; get_accounts; get_address_for_account; list_addresses;
      list_unified_receivers; list_transactions; get_raw_transaction; decode_raw_transaction; view_transaction;
      stop; validate_address; verify_message; convert_tex; decode_script].

End RpcTrait.

(** ** [trait WalletRpc] *)
Module WalletRpcTrait.

Definition help : TraitItemFn := rpc_method "help" "help"
  [" List all commands, or get help for a specified command.";
   "";
   " # Arguments";
   " - `command` (string, optional) The command to get help on."]
  [("command", (ty_of "Option" (TyReference (ty "str"))))] "help".

Definition openrpc : TraitItemFn := rpc_method "rpc.discover" "openrpc"
  [" Returns an OpenRPC schema as a description of this service."]
  [] "openrpc".

Definition list_operation_ids : TraitItemFn := rpc_method "z_listoperationids" "list_operation_ids"
  [" Returns the list of operation ids currently known to the wallet.";
   "";
   " # Arguments";
   (quoted " - `status` (string, optional) Filter result by the operation's state e.g. ^success^.")]
  [("status", (ty_of "Option" (TyReference (ty "str"))))] "list_operation_ids".

Definition get_operation_status : TraitItemFn := rpc_method "z_getoperationstatus" "get_operation_status"
  [" Get operation status and any associated result or error data.";
   "";
   " The operation will remain in memory.";
   "";
   " - If the operation has failed, it will include an error object.";
   " - If the operation has succeeded, it will include the result value.";
   " - If the operation was cancelled, there will be no error object or result value.";
   "";
   " # Arguments";
   " - `operationid` (array, optional) A list of operation ids we are interested in.";
   "   If not provided, examine all operations known to the node."]
  [("operationid", (ty_of "Vec" (ty "OperationId")))] "get_operation".

Definition get_operation_result : TraitItemFn := rpc_method "z_getoperationresult" "get_operation_result"
  [" Retrieve the result and status of an operation which has finished, and then remove";
   " the operation from memory.";
   "";
   " - If the operation has failed, it will include an error object.";
   " - If the operation has succeeded, it will include the result value.";
   " - If the operation was cancelled, there will be no error object or result value.";
   "";
   " # Arguments";
   " - `operationid` (array, optional) A list of operation ids we are interested in.";
   "   If not provided, retrieve all finished operations known to the node."]
  [("operationid", (ty_of "Vec" (ty "OperationId")))] "get_operation".

Definition get_wallet_info : TraitItemFn := rpc_method "getwalletinfo" "get_wallet_info"
  [" Returns wallet state information."]
  [] "get_wallet_info".

Definition unlock_wallet : TraitItemFn := rpc_method "walletpassphrase" "unlock_wallet"
  [" Stores the wallet decryption key in memory for `timeout` seconds.";
   "";
   " If the wallet is locked, this API must be invoked prior to performing operations";
   " that require the availability of private keys, such as sending funds.";
   "";
   " Issuing the `walletpassphrase` command while the wallet is already unlocked will";
   " set a new unlock time that overrides the old one."]
  [("passphrase", (TyPath false [("age", NoArguments); ("secrecy", NoArguments); ("SecretString", NoArguments)]));
      ("timeout", (ty "u64"))] "unlock_wallet".

Definition lock_wallet : TraitItemFn := rpc_method "walletlock" "lock_wallet"
  [" Removes the wallet encryption key from memory, locking the wallet.";
   "";
   " After calling this method, you will need to call `walletpassphrase` again before";
   " being able to call any methods which require the wallet to be unlocked."]
  [] "lock_wallet".

Definition get_new_account : TraitItemFn := rpc_method "z_getnewaccount" "get_new_account"
  [" Prepares and returns a new account.";
   "";
   " If the wallet contains more than one UA-compatible HD seed phrase, the `seedfp`";
   " argument must be provided. Available seed fingerprints can be found in the output";
   " of the `listaddresses` RPC method.";
   "";
   " Within a UA-compatible HD seed phrase, accounts are numbered starting from zero;";
   " this RPC method selects the next available sequential account number.";
   "";
   " Each new account is a separate group of funds within the wallet, and adds an";
   " additional performance cost to wallet scanning.";
   "";
   " Use the `z_getaddressforaccount` RPC method to obtain addresses for an account."]
  [("account_name", (TyReference (ty "str")));
      ("seedfp", (ty_of "Option" (TyReference (ty "str"))))] "get_new_account".

Definition recover_accounts : TraitItemFn := rpc_method "z_recoveraccounts" "recover_accounts"
  [" Tells the wallet to track specific accounts.";
   "";
   " Returns the UUIDs within this Zallet instance of the newly-tracked accounts.";
   " Accounts that are already tracked by the wallet are ignored.";
   "";
   " After calling this method, a subsequent call to `z_getnewaccount` will add the";
   " first account with index greater than all indices provided here for the";
   " corresponding `seedfp` (as well as any already tracked by the wallet).";
   "";
   " Each tracked account is a separate group of funds within the wallet, and adds an";
   " additional performance cost to wallet scanning.";
   "";
   " Use the `z_getaddressforaccount` RPC method to obtain addresses for an account.";
   "";
   " # Arguments";
   "";
   " - `accounts` (array, required) An array of JSON objects representing the accounts";
   "   to recover, with the following fields:";
   "   - `name` (string, required)";
   "   - `seedfp` (string, required) The seed fingerprint for the mnemonic phrase from";
   "     which the account is derived. Available seed fingerprints can be found in the";
   "     output of the `listaddresses` RPC method.";
   "   - `zip32_account_index` (numeric, required)";
   "   - `birthday_height` (numeric, required)"]
  [("accounts", (ty_of "Vec" (TyPath false [("recover_accounts", NoArguments);
      ("AccountParameter", AngleBracketed [(GOther "'_")])])))] "recover_accounts".

Definition get_balances : TraitItemFn := rpc_method "z_getbalances" "get_balances"
  [" Returns the balances available for each independent spending authority held by the";
   " wallet, and optionally the balances and received amounts associated with imported";
   " watch-only addresses and viewing keys.";
   "";
   " This includes funds held by each HD-derived Unified Account in the wallet,";
   " spending keys imported with `z_importkey`, and (if enabled) the legacy transparent";
   " pool of funds.";
   "";
   " # Arguments";
   "";
   " - `minconf` (numeric, optional, default=1) Only include unspent outputs in";
   "   transactions confirmed at least this many times."]
  [("minconf", (ty_of "Option" (ty "u32")))] "get_balances".

Definition import_address : TraitItemFn := rpc_method "z_importaddress" "import_address"
  [" Imports a transparent address into the wallet for a given account.";
   "";
   " The hex data can be either:";
   " - A compressed or uncompressed public key (imports as P2PKH).";
   " - A redeem script (imports as P2SH).";
   "";
   " Returns the type of address imported and the corresponding transparent address.";
   "";
   " # Arguments";
   " - `account` (string, required) The account UUID.";
   " - `hex_data` (string, required) Hex-encoded public key or redeem script.";
   " - `rescan` (boolean, optional, default=true) If true, rescan the chain for UTXOs";
   "   belonging to all wallet transparent addresses after importing."]
  [("account", (TyReference (ty "str"))); ("hex_data", (TyReference (ty "str")));
      ("rescan", (ty_of "Option" (ty "bool")))] "z_import_address".

Definition z_get_total_balance : TraitItemFn := rpc_method "z_gettotalbalance" "z_get_total_balance"
  [" Returns the total value of funds stored in the node's wallet.";
   "";
   " TODO: Currently watchonly addresses cannot be omitted; `include_watchonly` must be";
   " set to true.";
   "";
   " # Arguments";
   "";
   " - `minconf` (numeric, optional, default=1) Only include private and transparent";
   "   transactions confirmed at least this many times.";
   " - `include_watchonly` (bool, optional, default=false) Also include balance in";
   "   watchonly addresses (see 'importaddress' and 'z_importviewingkey')."]
  [("minconf", (ty_of "Option" (ty "u32")));
      ("include_watchonly", (ty_of "Option" (ty "bool")))] "z_get_total_balance".

Definition list_unspent : TraitItemFn := rpc_method "z_listunspent" "list_unspent"
  [" Returns an array of unspent shielded notes with between minconf and maxconf";
   " (inclusive) confirmations.";
   "";
   " Results may be optionally filtered to only include notes sent to specified";
   " addresses. When `minconf` is 0, unspent notes with zero confirmations are";
   " returned, even though they are not immediately spendable.";
   "";
   " # Arguments";
   " - `minconf`: Select outputs with at least this many confirmations (default = 1). Must be at";
   "   least 1 when `as_of_height` is provided.";
   " - `maxconf`: Select outputs with at most this many confirmations (default = unlimited).";
   " - `include_watchonly`: Include notes/utxos for which the wallet does not provide spending";
   "   capability (default = false).";
   " - `addresses`: A list of addresses for which to retrieve UTXOs. For shielded addresses that";
   "   correspond to a unified account, unspent notes belonging to that account are returned";
   "   irrespective of whether the provided address's diversifier corresponds to the diversifier";
   "   of the address that received the funds. If this parameter is omitted or empty, all notes";
   "   are returned, irrespective of account. (default = None)";
   " - `as_of_height`: Execute the query as if it were run when the blockchain was at the height";
   "   specified by this argument. The default is to use the entire blockchain that the node is";
   "   aware of. -1 can be used as in other RPC calls to indicate the current height (including";
   "   the mempool), but this does not support negative values in general. A “future” height will";
   "   fall back to the current height."]
  [("minconf", (ty_of "Option" (ty "u32"))); ("maxconf", (ty_of "Option" (ty "u32")));
      ("include_watchonly", (ty_of "Option" (ty "bool")));
      ("addresses", (ty_of "Option" (ty_of "Vec" (ty "String"))));
      ("as_of_height", (ty_of "Option" (ty "i64")))] "list_unspent".

Definition get_notes_count : TraitItemFn := rpc_method "z_getnotescount" "get_notes_count"
  [" Returns the number of notes available in the wallet for each shielded value pool.";
   "";
   " # Arguments";
   " - `minconf`: Only include notes in transactions confirmed at least this many times";
   "   (default = 1). Must be at least 1 when `as_of_height` is provided.";
   " - `as_of_height`: Execute the query as if it were run when the blockchain was at the height";
   "   specified by this argument. The default is to use the entire blockchain that the node is";
   "   aware of. -1 can be used as in other RPC calls to indicate the current height (including";
   "   the mempool), but this does not support negative values in general. A “future” height will";
   "   fall back to the current height."]
  [("minconf", (ty_of "Option" (ty "u32"))); ("as_of_height", (ty_of "Option" (ty "i64")))] "get_notes_count".

Definition export_key : TraitItemFn := rpc_method "z_exportkey" "export_key"
  [" Exports the spending key for a Sapling payment address.";
   "";
   " The wallet must be unlocked to use this method.";
   "";
   " # Warning";
   "";
   " This exports **only** the Sapling spending key. It is **not** a complete backup of";
   " the funds reachable from this account's root of spending authority: in particular,";
   " any Orchard funds derived from the same seed are **not** represented by the exported";
   " key. Do not rely on `z_exportkey` as a wallet backup — use a full seed/wallet backup";
   " instead, or you may lose access to funds.";
   "";
   " # Arguments";
   "";
   " - `address` (string, required) The Sapling payment address corresponding to the";
   "   spending key to export."]
  [("address", (TyReference (ty "str")))] "export_key".

Definition import_key : TraitItemFn := rpc_method "z_importkey" "import_key"
  [" Imports a spending key into the wallet.";
   "";
   " Only Sapling extended spending keys are supported.";
   "";
   " # Arguments";
   "";
   " - `key` (string, required) The spending key to import.";
   (quoted " - `rescan` (string, optional, default=^whenkeyisnew^) Whether to rescan the");
   (quoted "   blockchain for transactions (^yes^, ^no^, or ^whenkeyisnew^). When rescan is");
   "   enabled, the wallet's background sync engine will scan for historical";
   "   transactions from the given start height.";
   " - `startHeight` (numeric, optional, default=0) Block height from which to begin";
   (quoted "   the rescan. Only used when rescan is ^yes^ or ^whenkeyisnew^ (for a new key).")]
  [("key", (TyReference (ty "str"))); ("rescan", (ty_of "Option" (TyReference (ty "str"))));
      ("start_height", (ty_of "Option" (ty "u64")))] "import_key".

Definition z_send_many : TraitItemFn := rpc_method "z_sendmany" "z_send_many"
  [" Send a transaction with multiple recipients.";
   "";
   " This is an async operation; it returns an operation ID string that you can pass to";
   " `z_getoperationstatus` or `z_getoperationresult`.";
   "";
   " Amounts are decimal numbers with at most 8 digits of precision.";
   "";
   " Change generated from one or more transparent addresses flows to a new transparent";
   " address, while change generated from a legacy Sapling address returns to itself.";
   " TODO: <https://github.com/zcash/zallet/issues/138>";
   "";
   " When sending from a unified address, change is returned to the internal-only";
   " address for the associated unified account.";
   "";
   " When spending coinbase UTXOs, only shielded recipients are permitted and change is";
   " not allowed; the entire value of the coinbase UTXO(s) must be consumed.";
   " TODO: <https://github.com/zcash/zallet/issues/137>";
   "";
   " # Arguments";
   "";
   " - `fromaddress` (string, required) The transparent or shielded address to send the";
   "   funds from. The following special strings are also accepted:";
   (quoted "   - `^ANY_TADDR^`: Select non-coinbase UTXOs from any transparent addresses");
   "     belonging to the wallet. Use `z_shieldcoinbase` to shield coinbase UTXOs from";
   "     multiple transparent addresses.";
   "   If a unified address is provided for this argument, the TXOs to be spent will be";
   "   selected from those associated with the account corresponding to that unified";
   "   address, from value pools corresponding to the receivers included in the UA.";
   " - `amounts` (array, required) An array of JSON objects representing the amounts to";
   "   send, with the following fields:";
   "   - `address` (string, required) A taddr, zaddr, or Unified Address.";
   "   - `amount` (numeric, required) The numeric amount in ZEC.";
   "   - `memo` (string, optional) If the address is a zaddr, raw data represented in";
   "     hexadecimal string format. If the output is being sent to a transparent";
   "     address, it’s an error to include this field.";
   " - `minconf` (numeric, optional) Only use funds confirmed at least this many times.";
   " - `fee` (numeric, optional) If set, it must be null. Zallet always uses a fee";
   "   calculated according to ZIP 317.";
   (quoted " - `privacy_policy` (string, optional, default=`^FullPrivacy^`) Policy for what");
   "   information leakage is acceptable. One of the following strings:";
   (quoted "   - `^FullPrivacy^`: Only allow fully-shielded transactions (involving a single");
   "     shielded value pool).";
   (quoted "   - `^AllowRevealedAmounts^`: Allow funds to cross between shielded value pools,");
   "     revealing the amount that crosses pools.";
   (quoted "   - `^AllowRevealedRecipients^`: Allow transparent recipients. This also implies");
   (quoted "     revealing information described under `^AllowRevealedAmounts^`.");
   (quoted "   - `^AllowRevealedSenders^`: Allow transparent funds to be spent, revealing the");
   "     sending addresses and amounts. This implies revealing information described";
   (quoted "     under `^AllowRevealedAmounts^`.");
   (quoted "   - `^AllowFullyTransparent^`: Allow transaction to both spend transparent funds");
   "     and have transparent recipients. This implies revealing information described";
   (quoted "     under `^AllowRevealedSenders^` and `^AllowRevealedRecipients^`.");
   (quoted "   - `^AllowLinkingAccountAddresses^`: Allow selecting transparent coins from the");
   "     full account, rather than just the funds sent to the transparent receiver in";
   "     the provided Unified Address. This implies revealing information described";
   (quoted "     under `^AllowRevealedSenders^`.");
   (quoted "   - `^NoPrivacy^`: Allow the transaction to reveal any information necessary to");
   "     create it. This implies revealing information described under";
   (quoted "     `^AllowFullyTransparent^` and `^AllowLinkingAccountAddresses^`.")]
  [("fromaddress", (ty "String")); ("amounts", (ty_of "Vec" (ty "AmountParameter")));
      ("minconf", (ty_of "Option" (ty "u32"))); ("fee", (ty_of "Option" (ty "JsonValue")));
      ("privacy_policy", (ty_of "Option" (ty "String")))] "z_send_many".

Definition z_shieldcoinbase : TraitItemFn := rpc_method "z_shieldcoinbase" "z_shieldcoinbase"
  [" Shields coinbase UTXOs from a single wallet-owned source into a";
   " shielded address.";
   "";
   " This is an asynchronous operation; it returns an operation id that";
   " can be used with `z_getoperationstatus` or `z_getoperationresult`.";
   "";
   " # Arguments";
   " - `fromaddress`: Either a single transparent address owned by this";
   "   wallet, or an account UUID (string) to sweep every coinbase UTXO";
   "   across that account's transparent receivers. Arrays of addresses";
   "   are not accepted; pass the account UUID instead if you need to";
   "   sweep across multiple receivers. Unlike `zcashd`, the wildcard";
   (quoted "   `^*^` (sweep all wallet t-addrs) is rejected with an");
   "   `InvalidParameter` error: cross-account sweeps would correlate";
   "   otherwise-unrelated accounts on-chain, so callers must scope the";
   "   sweep to a single account by passing its UUID.";
   " - `toaddress`: Any Zcash shielded address (Sapling, Orchard, or";
   "   Unified with a shielded receiver) that will receive the shielded";
   "   funds. Need not belong to this wallet. Transparent / TEX";
   "   destinations are rejected by the backend.";
   " - `fee` (numeric, optional): If set, it must be null. Zallet always";
   "   uses a fee calculated according to ZIP 317; the parameter is";
   "   accepted for positional compatibility with `zcashd`'s";
   "   `z_shieldcoinbase` only.";
   " - `limit` (numeric, optional): If supplied, caps the number of";
   "   selected coinbase UTXOs to the highest-value `n` of those";
   "   eligible. Recommended for wallets with many eligible coinbase";
   "   UTXOs: without it, a single transaction is built containing all";
   "   eligible UTXOs, which can exceed transaction-size limits at";
   "   broadcast time.";
   " - `memo` (string, optional): If supplied, stored in the memo field";
   "   of the resulting shielded payment. Hex-encoded, up to 1024 hex";
   "   characters (= 512 bytes).";
   " - `privacy_policy` (string, optional): Policy for what information";
   "   leakage is acceptable. Coinbase shielding always reveals the";
   "   source transparent address(es), so only two policy values are";
   "   accepted:";
   (quoted "   - `^AllowRevealedSenders^`: Allow revealing the source transparent");
   "     address. Sufficient when sweeping from a single t-addr.";
   (quoted "   - `^AllowLinkingAccountAddresses^`: Additionally allow linking");
   "     multiple source t-addrs on-chain. Required when sweeping from";
   "     an account UUID that expands to >1 transparent receiver with";
   "     eligible coinbase UTXOs.";
   "";
   "   When omitted or `null`, the default is chosen from `fromaddress`:";
   (quoted "   `^AllowRevealedSenders^` for a single t-addr, or");
   (quoted "   `^AllowLinkingAccountAddresses^` for an account UUID. Any other");
   (quoted "   policy name (including stricter values like `^FullPrivacy^` and");
   (quoted "   looser ones like `^NoPrivacy^`) is rejected.");
   "";
   " # Returns";
   " An object matching `zcashd`'s `z_shieldcoinbase` shape:";
   " - `remainingUTXOs` (numeric): Eligible-but-not-selected coinbase UTXO";
   "   count.";
   " - `remainingValue` (numeric, ZEC): Total value of those UTXOs.";
   " - `shieldingUTXOs` (numeric): Number of coinbase UTXOs being";
   "   shielded by this operation.";
   " - `shieldingValue` (numeric, ZEC): Total value being shielded.";
   " - `opid` (string): Operation id."]
  [("fromaddress", (ty "String")); ("toaddress", (ty "String")); ("fee", (ty_of "Option" (ty "JsonValue")));
      ("limit", (ty_of "Option" (ty "u32"))); ("memo", (ty_of "Option" (ty "String")));
      ("privacy_policy", (ty_of "Option" (ty "String")))] "z_shieldcoinbase".

Definition items : list TraitItem :=
  ItemFn <$> [help; openrpc; list_operation_ids; get_operation_status; get_operation_result; get_wallet_info;
      unlock_wallet; lock_wallet; get_new_account; recover_accounts; get_balances; import_address;
      z_get_total_balance; list_unspent; get_notes_count; export_key; import_key; z_send_many; z_shieldcoinbase].

End WalletRpcTrait.

(** ** The constants of the modules *)
Module ParamConsts.

Definition convert_tex : list (string * Const) :=
  [("PARAM_TRANSPARENT_ADDRESS_DESC", ConstStr "The transparent P2PKH address to convert.")].

Definition decode_raw_transaction : list (string * Const) :=
  [("PARAM_HEXSTRING_DESC", ConstStr "The transaction hex string")].

Definition decode_script : list (string * Const) :=
  [("PARAM_HEXSTRING_DESC", ConstStr "The hex-encoded script.")].

Definition export_key : list (string * Const) :=
  [("PARAM_ADDRESS_DESC", ConstStr "The Sapling payment address corresponding to the spending key to export.")].

Definition get_account : list (string * Const) :=
  [("PARAM_ACCOUNT_UUID_DESC", ConstStr "The UUID of the account.")].

Definition get_address_for_account : list (string * Const) :=
  [("PARAM_ACCOUNT_DESC", ConstStr "Either the UUID or ZIP 32 account index of the account to derive from.");
   ("PARAM_RECEIVER_TYPES_DESC", ConstStr "Receiver types to include in the derived address.");
   ("PARAM_DIVERSIFIER_INDEX_DESC", ConstStr "A specific diversifier index to derive at.")].

Definition get_balances : list (string * Const) :=
  [("PARAM_MINCONF_DESC", ConstStr "Only include unspent outputs in transactions confirmed at least this many times.")].

Definition get_new_account : list (string * Const) :=
  [("PARAM_ACCOUNT_NAME_DESC", ConstStr "A human-readable name for the account.");
   ("PARAM_SEEDFP_DESC", ConstStr "ZIP 32 seed fingerprint for the BIP 39 mnemonic phrase from which to derive the account.")].

Definition get_notes_count : list (string * Const) :=
  [("PARAM_MINCONF_DESC", ConstStr "Only include notes in transactions confirmed at least this many times.");
   ("PARAM_AS_OF_HEIGHT_DESC", ConstStr "Execute the query as if it were run when the blockchain was at the height specified by this argument.")].

Definition get_operation : list (string * Const) :=
  [("PARAM_OPERATIONID_DESC", ConstStr "A list of operation ids we are interested in.");
   ("PARAM_OPERATIONID_REQUIRED", ConstBool false)].

Definition get_raw_transaction : list (string * Const) :=
  [("PARAM_TXID_DESC", ConstStr "The ID of the transaction to fetch.");
   ("PARAM_VERBOSE_DESC", ConstStr "If 0, return a string of hex-encoded data. If non-zero, return a JSON object with information about `txid`");
   ("PARAM_BLOCKHASH_DESC", ConstStr "The block in which to look for the transaction.")].

Definition help : list (string * Const) :=
  [("PARAM_COMMAND_DESC", ConstStr "The command to get help on.")].

Definition import_key : list (string * Const) :=
  [("PARAM_KEY_DESC", ConstStr "The spending key (only Sapling extended spending keys are supported).");
   ("PARAM_RESCAN_DESC", ConstStr (quoted "Whether to rescan the blockchain for transactions (^yes^, ^no^, or ^whenkeyisnew^; default is ^whenkeyisnew^). When rescan is enabled, the wallet's background sync engine will scan for historical transactions from the given start height."));
   ("PARAM_START_HEIGHT_DESC", ConstStr (quoted "Block height from which to begin the rescan (default is 0). Only used when rescan is ^yes^ or ^whenkeyisnew^ (for a new key)."))].

Definition list_accounts : list (string * Const) :=
  [("PARAM_INCLUDE_ADDRESSES_DESC", ConstStr "Also include the addresses known to the wallet for this account.")].

Definition list_operation_ids : list (string * Const) :=
  [("PARAM_STATUS_DESC", ConstStr (quoted "Filter result by the operation's state e.g. ^success^."))].

Definition list_transactions : list (string * Const) :=
  [("PARAM_ACCOUNT_UUID_DESC", ConstStr "The UUID of the account to list transactions for.");
   ("PARAM_START_HEIGHT_DESC", ConstStr "The (inclusive) lower bound on block heights for which transactions should be retrieved");
   ("PARAM_END_HEIGHT_DESC", ConstStr "The (exclusive) upper bound on block heights for which transactions should be retrieved");
   ("PARAM_OFFSET_DESC", ConstStr "The number of results to skip before returning a page of results.");
   ("PARAM_LIMIT_DESC", ConstStr "The maximum number of results to return from a single call.")].

Definition list_unified_receivers : list (string * Const) :=
  [("PARAM_UNIFIED_ADDRESS_DESC", ConstStr "The unified address to inspect.")].

Definition list_unspent : list (string * Const) :=
  [("PARAM_MINCONF_DESC", ConstStr "Only include outputs of transactions confirmed at least this many times.");
   ("PARAM_MAXCONF_DESC", ConstStr "Only include outputs of transactions confirmed at most this many times.");
   ("PARAM_INCLUDE_WATCHONLY_DESC", ConstStr "Also include outputs received at watch-only addresses.");
   ("PARAM_ADDRESSES_DESC", ConstStr "If non-empty, only outputs received by the provided addresses will be returned.");
   ("PARAM_AS_OF_HEIGHT_DESC", ConstStr "Execute the query as if it were run when the blockchain was at the height specified by this argument.")].

Definition recover_accounts : list (string * Const) :=
  [("PARAM_ACCOUNTS_DESC", ConstStr "An array of JSON objects representing the accounts to recover.");
   ("PARAM_ACCOUNTS_REQUIRED", ConstBool true)].

Definition unlock_wallet : list (string * Const) :=
  [("PARAM_PASSPHRASE_DESC", ConstStr "The passphrase for decrypting the wallet's age identity.");
   ("PARAM_TIMEOUT_DESC", ConstStr "Time in seconds after which the wallet will relock.")].

Definition validate_address : list (string * Const) :=
  [("PARAM_ADDRESS_DESC", ConstStr "The transparent address to validate.")].

Definition verify_message : list (string * Const) :=
  [("PARAM_ZCASHADDRESS_DESC", ConstStr "The zcash transparent address to use for the signature.");
   ("PARAM_SIGNATURE_DESC", ConstStr "The signature provided by the signer in base64 encoding.");
   ("PARAM_MESSAGE_DESC", ConstStr "The message that was signed.")].

Definition view_transaction : list (string * Const) :=
  [("PARAM_TXID_DESC", ConstStr "The ID of the transaction to view.")].

Definition z_get_total_balance : list (string * Const) :=
  [("PARAM_MINCONF_DESC", ConstStr "Only include notes in transactions confirmed at least this many times.");
   ("PARAM_INCLUDE_WATCHONLY_DESC", ConstStr "Also include balance in watchonly addresses.")].

Definition z_import_address : list (string * Const) :=
  [("PARAM_ACCOUNT_DESC", ConstStr "The account UUID to import the address into.");
   ("PARAM_HEX_DATA_DESC", ConstStr "Hex-encoded public key (P2PKH) or redeem script (P2SH).");
   ("PARAM_RESCAN_DESC", ConstStr "If true (default), rescan the chain for UTXOs belonging to all wallet transparent addresses.")].

Definition z_send_many : list (string * Const) :=
  [("PARAM_FROMADDRESS_DESC", ConstStr "The transparent or shielded address to send the funds from.");
   ("PARAM_AMOUNTS_DESC", ConstStr "An array of JSON objects representing the amounts to send.");
   ("PARAM_AMOUNTS_REQUIRED", ConstBool true);
   ("PARAM_MINCONF_DESC", ConstStr "Only use funds confirmed at least this many times.");
   ("PARAM_FEE_DESC", ConstStr "If set, it must be null.");
   ("PARAM_PRIVACY_POLICY_DESC", ConstStr "Policy for what information leakage is acceptable.")].

Definition z_shieldcoinbase : list (string * Const) :=
  [("PARAM_FROMADDRESS_DESC", ConstStr (quoted "Source of coinbase UTXOs to shield. Either a single transparent address owned by this wallet, or an account UUID to sweep every coinbase UTXO across that account's transparent receivers. Unlike `zcashd`, the wildcard `^*^` (sweep all wallet t-addrs) is rejected: scope the sweep to a single account by passing its UUID."));
   ("PARAM_TOADDRESS_DESC", ConstStr "Any Zcash shielded address (Sapling, Orchard, or Unified with a shielded receiver) that will receive the shielded funds. Need not belong to this wallet. Transparent or TEX destinations are rejected.");
   ("PARAM_FEE_DESC", ConstStr "If provided, must be null. Zallet always calculates and applies the ZIP-317 fee internally.");
   ("PARAM_LIMIT_DESC", ConstStr "If supplied, caps the number of selected coinbase UTXOs to the highest-value `n` of those eligible. Recommended for wallets with many eligible coinbase UTXOs: without it, a single transaction is built containing all eligible UTXOs, which can exceed transaction-size limits at broadcast time.");
   ("PARAM_MEMO_DESC", ConstStr "If supplied, stored in the memo field of the resulting shielded payment. Must be a hex-encoded string (up to 1024 hex characters = 512 bytes).");
   ("PARAM_PRIVACY_POLICY_DESC", ConstStr "Policy for what information leakage is acceptable. May be omitted or set to null to use a default chosen from `fromaddress`: `AllowRevealedSenders` when `fromaddress` is a single transparent address, `AllowLinkingAccountAddresses` when it is an account UUID. If provided explicitly, must be one of `AllowRevealedSenders` or `AllowLinkingAccountAddresses`; any other value is rejected. Coinbase shielding always reveals the source transparent address(es), so policies stricter than `AllowRevealedSenders` cannot be satisfied.")].

Definition all : list (string * list (string * Const)) :=
  [("convert_tex", convert_tex);
   ("decode_raw_transaction", decode_raw_transaction);
   ("decode_script", decode_script);
   ("export_key", export_key);
   ("get_account", get_account);
   ("get_address_for_account", get_address_for_account);
   ("get_balances", get_balances);
   ("get_new_account", get_new_account);
   ("get_notes_count", get_notes_count);
   ("get_operation", get_operation);
   ("get_raw_transaction", get_raw_transaction);
   ("help", help);
   ("import_key", import_key);
   ("list_accounts", list_accounts);
   ("list_operation_ids", list_operation_ids);
   ("list_transactions", list_transactions);
   ("list_unified_receivers", list_unified_receivers);
   ("list_unspent", list_unspent);
   ("recover_accounts", recover_accounts);
   ("unlock_wallet", unlock_wallet);
   ("validate_address", validate_address);
   ("verify_message", verify_message);
   ("view_transaction", view_transaction);
   ("z_get_total_balance", z_get_total_balance);
   ("z_import_address", z_import_address);
   ("z_send_many", z_send_many);
   ("z_shieldcoinbase", z_shieldcoinbase)].

End ParamConsts.

(** ** [impl RpcServer for RpcImpl] *)
Definition rpc_handlers : list Handler :=
  [{| h_ident := "get_wallet_status"; callee := ("get_wallet_status", "call"); passed := [Server WalletRef;
      Server ChainClone]; starts_async := false |};
   {| h_ident := "list_accounts"; callee := ("list_accounts", "call"); passed := [Server WalletRef;
      Arg "include_addresses"]; starts_async := false |};
   {| h_ident := "get_accounts"; callee := ("get_account", "call"); passed := [Server WalletRef;
      Arg "account_uuid"]; starts_async := false |};
   {| h_ident := "get_address_for_account"; callee := ("get_address_for_account", "call");
      passed := [Server WalletMut; Server KeystoreClone; Arg "account"; Arg "receiver_types";
      Arg "diversifier_index"]; starts_async := false |};
   {| h_ident := "list_addresses"; callee := ("list_addresses", "call"); passed := [Server WalletRef];
      starts_async := false |};
   {| h_ident := "list_unified_receivers"; callee := ("list_unified_receivers", "call");
      passed := [Server WalletRef; Arg "unified_address"]; starts_async := false |};
   {| h_ident := "list_transactions"; callee := ("list_transactions", "call"); passed := [Server WalletRef;
      Arg "account_uuid"; Arg "start_height"; Arg "end_height"; Arg "offset"; Arg "limit"]; starts_async := false |};
   {| h_ident := "get_raw_transaction"; callee := ("get_raw_transaction", "call"); passed := [Server WalletRef;
      Server ChainClone; Arg "txid"; Arg "verbose"; Arg "blockhash"]; starts_async := false |};
   {| h_ident := "decode_raw_transaction"; callee := ("decode_raw_transaction", "call");
      passed := [Server WalletParams; Arg "hexstring"]; starts_async := false |};
   {| h_ident := "view_transaction"; callee := ("view_transaction", "call"); passed := [Server WalletRef;
      Server ChainClone; Arg "txid"]; starts_async := false |};
   {| h_ident := "stop"; callee := ("stop", "call"); passed := [Server WalletHandle]; starts_async := false |};
   {| h_ident := "validate_address"; callee := ("validate_address", "call"); passed := [Server WalletParams;
      Arg "address"]; starts_async := false |};
   {| h_ident := "verify_message"; callee := ("verify_message", "call"); passed := [Server WalletParams;
      Arg "zcashaddress"; Arg "signature"; Arg "message"]; starts_async := false |};
   {| h_ident := "convert_tex"; callee := ("convert_tex", "call"); passed := [Server WalletParams;
      Arg "transparent_address"]; starts_async := false |};
   {| h_ident := "decode_script"; callee := ("decode_script", "call"); passed := [Server WalletParams;
      Arg "hexstring"]; starts_async := false |}].

(** ** [impl WalletRpcServer for WalletRpcImpl] *)
Definition wallet_rpc_handlers : list Handler :=
  [{| h_ident := "help"; callee := ("help", "call"); passed := [Arg "command"]; starts_async := false |};
   {| h_ident := "openrpc"; callee := ("openrpc", "call"); passed := []; starts_async := false |};
   {| h_ident := "list_operation_ids"; callee := ("list_operation_ids", "call"); passed := [Server AsyncOpsRead;
      Arg "status"]; starts_async := false |};
   {| h_ident := "get_operation_status"; callee := ("get_operation", "status"); passed := [Server AsyncOpsRead;
      Arg "operationid"]; starts_async := false |};
   {| h_ident := "get_operation_result"; callee := ("get_operation", "result"); passed := [Server AsyncOpsWrite;
      Arg "operationid"]; starts_async := false |};
   {| h_ident := "get_wallet_info"; callee := ("get_wallet_info", "call"); passed := [Server KeystoreRef];
      starts_async := false |};
   {| h_ident := "unlock_wallet"; callee := ("unlock_wallet", "call"); passed := [Server KeystoreRef;
      Arg "passphrase"; Arg "timeout"]; starts_async := false |};
   {| h_ident := "lock_wallet"; callee := ("lock_wallet", "call"); passed := [Server KeystoreRef];
      starts_async := false |};
   {| h_ident := "get_new_account"; callee := ("get_new_account", "call"); passed := [Server WalletMut;
      Server KeystoreRef; Server ChainClone; Arg "account_name"; Arg "seedfp"]; starts_async := false |};
   {| h_ident := "recover_accounts"; callee := ("recover_accounts", "call"); passed := [Server WalletMut;
      Server KeystoreRef; Server ChainClone; Arg "accounts"]; starts_async := false |};
   {| h_ident := "get_balances"; callee := ("get_balances", "call"); passed := [Server WalletRef; Arg "minconf"];
      starts_async := false |};
   {| h_ident := "import_address"; callee := ("z_import_address", "call"); passed := [Server WalletMut;
      Server ChainClone; Arg "account"; Arg "hex_data"; Arg "rescan"]; starts_async := false |};
   {| h_ident := "z_get_total_balance"; callee := ("z_get_total_balance", "call"); passed := [Server WalletRef;
      Arg "minconf"; Arg "include_watchonly"]; starts_async := false |};
   {| h_ident := "list_unspent"; callee := ("list_unspent", "call"); passed := [Server WalletRef; Arg "minconf";
      Arg "maxconf"; Arg "include_watchonly"; Arg "addresses"; Arg "as_of_height"]; starts_async := false |};
   {| h_ident := "get_notes_count"; callee := ("get_notes_count", "call"); passed := [Server WalletRef;
      Arg "minconf"; Arg "as_of_height"]; starts_async := false |};
   {| h_ident := "export_key"; callee := ("export_key", "call"); passed := [Server WalletRef; Server KeystoreRef;
      Arg "address"]; starts_async := false |};
   {| h_ident := "import_key"; callee := ("import_key", "call"); passed := [Server WalletMut; Server KeystoreRef;
      Server ChainClone; Arg "key"; Arg "rescan"; Arg "start_height"]; starts_async := false |};
   {| h_ident := "z_send_many"; callee := ("z_send_many", "call"); passed := [Server WalletHandle;
      Server KeystoreClone; Server ChainClone; Arg "fromaddress"; Arg "amounts"; Arg "minconf"; Arg "fee";
      Arg "privacy_policy"]; starts_async := true |};
   {| h_ident := "z_shieldcoinbase"; callee := ("z_shieldcoinbase", "call"); passed := [Server WalletHandle;
      Server KeystoreClone; Server ChainClone; Arg "fromaddress"; Arg "toaddress"; Arg "fee"; Arg "limit";
      Arg "memo"; Arg "privacy_policy"]; starts_async := true |}].

(** What an implementation calls: the function of a module, with the parts of
    the server and the values it passes. *)
Record Invocation (V : Type) := {
  called : string * string;
  arguments : list (Part + V);
  as_operation : bool
}.
Arguments called {V}.
Arguments arguments {V}.
Arguments as_operation {V}.

(** The wallet is reached through a handle of the connection pool, whose failure
    is an internal error; the chain and the keystore are cloned. *)
Definition needs_handle (p : Part) : bool :=
  match p with WalletRef | WalletMut | WalletParams | WalletHandle => true | _ => false end.

Section dispatch.
Context `{ParamOps}.

(** [RpcImpl::wallet]: whether the pool gives a handle. *)
Definition acquire (handle : bool) (p : Part) : RpcResult Part :=
  if needs_handle p && negb handle then Err (of_code InternalError) else Ret p.

(** The expressions of a call, from left to right; an unbound name does not
    compile. *)
Fixpoint evaluate {V} (handle : bool) (env : list (string * V)) (l : list Passed) : RpcResult (list (Part + V)) :=
  match l with
  | [] => Ret []
  | Server p :: l =>
      p ← acquire handle p;
      vs ← evaluate handle env l;
      Ret (inl p :: vs)
  | Arg n :: l =>
      v ← match List.find (fun b => String.eqb b.1 n) env with Some b => Ret b.2 | None => Panic end;
      vs ← evaluate handle env l;
      Ret (inr v :: vs)
  end.

Definition serve {V} (handle : bool) (env : list (string * V)) (h : Handler) : RpcResult (Invocation V) :=
  vs ← evaluate handle env (passed h);
  Ret {| called := callee h; arguments := vs; as_operation := starts_async h |}.

End dispatch.

Definition handlers : list Handler := rpc_handlers ++ wallet_rpc_handlers.

(** The items of methods.rs that the build script looks for, after its imports
    and modules and before the implementations. *)
Definition source : list Item :=
  [OtherItem; ItemTrait "Rpc" RpcTrait.items; ItemTrait "WalletRpc" WalletRpcTrait.items; OtherItem].

Definition fn_of (i : TraitItem) : option TraitItemFn := match i with ItemFn m => Some m | ItemOther => None end.

(** The methods that the server registers: those of both traits. *)
Definition trait_methods : list TraitItemFn := omap fn_of (RpcTrait.items ++ WalletRpcTrait.items).

Definition consts (module name : string) : option Const :=
  c ← List.find (fun e => String.eqb e.1 module) ParamConsts.all;
  snd <$> List.find (fun e => String.eqb e.1 name) c.2.

(** The names of the methods. *)
Definition commands : list string := omap command_of trait_methods.

(** [Option<_>], which a caller may leave out. *)
Definition optional_type (t : RustTy) : bool :=
  match t with TyPath false [("Option", _)] => true | _ => false end.

(** *** Checks of the two tables, by evaluation *)

#[export] Instance Part_eq_dec : EqDecision Part.
Proof. solve_decision. Defined.
#[export] Instance Passed_eq_dec : EqDecision Passed.
Proof. solve_decision. Defined.

(** Whether the document says that a parameter is required. *)
Definition advertised (module parameter : string) (t : RustTy) : option bool :=
  match optionality t with
  | Ret (_, r) => const_required consts module {| parameter := parameter; schema_ty := EmptyString; required := r |}
  | _ => None
  end.

(** All parameters but those of type [Option], and the operation ids. *)
Definition stated (p : string) (t : RustTy) : bool := negb (optional_type t) && negb (String.eqb p "operationid").

Definition doc_checked (m : TraitItemFn) : bool :=
  forallb valid_utf8 (doc_lines m) && bool_decide (is_Some (command_of m)) &&
  negb (existsb (is_ident "deprecated") (attrs m)) &&
  match module_of m with
  | Ret module => forallb (fun '(p, t) => bool_decide (advertised module p t = Some (stated p t))) (declared m)
  | _ => false
  end.

Lemma docs_checked : Forall (fun m => doc_checked m = true) trait_methods.
Proof.
  apply Forall_forall. intros m Hm%list_elem_of_In. revert m Hm. apply List.forallb_forall.
  vm_compute. reflexivity.
Qed.

(** The parts of the server that a call takes, before the parameters. *)
Definition parts (h : Handler) : list Part :=
  omap (fun a => match a with Server p => Some p | Arg _ => None end) (passed h).

(** The implementation of a method calls a function of the module of its result
    type, with parts of the server and then all its parameters in order. *)
Definition forwards (m : TraitItemFn) (h : Handler) : Prop :=
  h_ident h = ident m /\ module_of m = Ret (callee h).1
  /\ passed h = (Server <$> parts h) ++ (Arg <$> (declared m).*1) /\ NoDup (declared m).*1.

Definition forwards_checked (mh : TraitItemFn * Handler) : bool :=
  String.eqb (h_ident mh.2) (ident mh.1)
  && match module_of mh.1 with Ret mo => String.eqb mo (callee mh.2).1 | _ => false end
  && bool_decide (passed mh.2 = (Server <$> parts mh.2) ++ (Arg <$> (declared mh.1).*1))
  && bool_decide (NoDup (declared mh.1).*1).

Lemma handlers_forward : Forall2 forwards trait_methods handlers.
Proof.
  assert (Hc : forallb forwards_checked (zip trait_methods handlers) = true) by (vm_compute; reflexivity).
  assert (Hl : length trait_methods = length handlers) by (vm_compute; reflexivity).
  revert Hc Hl. generalize trait_methods, handlers. clear.
  intros ms. induction ms as [|m ms IH]; intros [|h hs]; try done. cbn [zip zip_with forallb].
  unfold forwards_checked at 1. cbn [fst snd]. rewrite !andb_true_iff. intros [[[[Hid%String.eqb_eq Hmo] Hp] Hnd] Hc] [= Hl].
  constructor; [|by apply IH]. split; [done|]. split; [|by split; eapply bool_decide_eq_true_1].
  cbn in Hmo. destruct (module_of m); [|done..]. by apply String.eqb_eq in Hmo as ->.
Qed.

Section dispatch_lemmas.
Context `{ParamOps}.

Lemma evaluate_args {V} handle (env : list (string * V)) names vs :
  Forall2 (fun n v => List.find (fun b => String.eqb b.1 n) env = Some (n, v)) names vs ->
  evaluate handle env (Arg <$> names) = Ret (inr <$> vs).
Proof.
  induction 1 as [|n v names vs Hn _ IH]; [done|]. cbn. rewrite Hn. cbn.
  change (list_fmap _ _ ?f names) with (f <$> names). by rewrite IH.
Qed.

Lemma find_zip {V} names (vs : list V) :
  NoDup names -> length vs = length names ->
  Forall2 (fun n v => List.find (fun b => String.eqb b.1 n) (zip names vs) = Some (n, v)) names vs.
Proof.
  revert vs. induction names as [|n names IH]; intros [|v vs]; try done.
  intros [Hn Hnd]%NoDup_cons [= Hl]. cbn [zip zip_with]. constructor.
  - cbn [List.find fst]. by rewrite String.eqb_refl.
  - eapply Forall2_impl; [|]. { exact (Forall2_impl _ _ _ _ (IH vs Hnd Hl) (fun _ _ H => H)). }
    intros x y Hx. cbn [List.find fst]. destruct (String.eqb_spec n x) as [->|]; [|done].
    apply List.find_some in Hx as [Hx _]. destruct Hn. apply list_elem_of_In in Hx.
    by apply elem_of_zip_l in Hx.
Qed.

Lemma evaluate_parts {V} handle (env : list (string * V)) ps l vs :
  evaluate handle env l = Ret vs ->
  evaluate handle env ((Server <$> ps) ++ l)
  = if existsb needs_handle ps && negb handle then Err (of_code InternalError) else Ret ((inl <$> ps) ++ vs).
Proof.
  intros Hl. induction ps as [|p ps IH]; [done|]. cbn. unfold acquire.
  change (list_fmap _ _ ?f ps) with (f <$> ps). rewrite IH.
  destruct (needs_handle p), handle, (existsb needs_handle ps); done.
Qed.

(** A call reaches its module with every value, unless it needs a handle that
    the pool does not give. *)
Lemma serve_spec {V} m h handle (vs : list V) :
  forwards m h -> length vs = length (declared m) ->
  serve handle (zip (declared m).*1 vs) h
  = if existsb needs_handle (parts h) && negb handle then Err (of_code InternalError)
    else Ret {| called := callee h; arguments := (inl <$> parts h) ++ (inr <$> vs); as_operation := starts_async h |}.
Proof.
  intros (_ & _ & Hp & Hnd) Hl. unfold serve. rewrite Hp at 1.
  rewrite (evaluate_parts _ _ _ _ (inr <$> vs)).
  - by destruct (_ && _).
  - apply evaluate_args, find_zip; [done|]. by rewrite length_fmap.
Qed.

End dispatch_lemmas.

Section server.
Variable token_string : RustTy -> string.
Context {Generator Schema Components : Type}.
Variable new_generator : Generator.
Variable subschema_for : string -> Generator -> Schema * Generator.
Variable take_definitions : Generator -> Components.
Variable result_docs : string -> string.
Variables PKG_DESCRIPTION PKG_VERSION : string.

(** The generated table. *)
Definition table : list Entry :=
  match table_of token_string source with Ret es => es | _ => [] end.

Definition METHODS : list (string * RpcMethod (Generator:=Generator) (Schema:=Schema)) :=
  default [] (compile subschema_for result_docs consts table).

(** ** Lemmas *)

(** The script does not panic on the traits of the server. *)
Lemma table_generated : table_of token_string source = Ret table.
Proof. vm_compute. reflexivity. Qed.

(** Its file compiles: every constant that it names is in the module. *)
Lemma table_compiles : compile subschema_for result_docs consts table = Some METHODS.
Proof. vm_compute. reflexivity. Qed.

(** Every method of the traits has its entry, in order. *)
Lemma entries_of_methods items es :
  entries_of token_string items = Ret es -> Forall (fun m => is_Some (command_of m)) (omap fn_of items) ->
  Forall2 (fun m e => entry_of token_string m = Ret (Some e)) (omap fn_of items) es.
Proof.
  revert es. induction items as [|[m|] items IH]; intros es; [intros [= <-]; constructor| |by apply IH].
  cbn [entries_of]. rewrite bind_Ret. intros (o & Ho & (es' & Hes & [= <-])%bind_Ret) [Hm Hc]%Forall_cons.
  destruct o as [e|]; [constructor; [done|by apply IH]|]. destruct Hm as [c Hm].
  exfalso. revert Ho. unfold entry_of. rewrite Hm. rewrite bind_Ret. intros (? & _ & Ho).
  rewrite bind_Ret in Ho. destruct Ho as (? & _ & Ho). rewrite bind_Ret in Ho. by destruct Ho as (? & _ & ?).
Qed.

Lemma table_methods : Forall2 (fun m e => entry_of token_string m = Ret (Some e)) trait_methods table.
Proof.
  apply entries_of_methods; [vm_compute; reflexivity|].
  eapply Forall_impl; [apply docs_checked|]. intros m Hm. unfold doc_checked in Hm.
  rewrite !andb_true_iff in Hm. destruct Hm as [[[_ Hm] _] _]. by apply bool_decide_eq_true_1 in Hm.
Qed.

(** What the table of the server holds: an entry for each method of the traits,
    with its documentation. *)
Definition entry_spec (m : TraitItemFn) (c : string * RpcMethod (Generator:=Generator) (Schema:=Schema)) : Prop :=
  exists e, entry_of token_string m = Ret (Some e) /\ method_spec subschema_for result_docs consts m e c.

Lemma compiled_names es cs :
  list_monad.list.mapM (M:=option) (compile_entry subschema_for result_docs consts) es = Some cs ->
  cs.*1 = command <$> es.
Proof.
  intros Hc%list_monad.list.mapM_Some. induction Hc as [|e c es cs Hec _ IH]; [done|].
  cbn [fmap list_fmap]. f_equal; [|done]. unfold compile_entry in Hec.
  destruct (lex_str _ _) as [[]|]; [|done]. cbn in Hec. destruct (list_monad.list.mapM _ _); [|done]. cbn in Hec.
  destruct (String.eqb _ _); [|done]. by injection Hec as <-.
Qed.

Lemma compiled_spec es cs ms :
  compile subschema_for result_docs consts es = Some cs ->
  Forall2 (fun m e => entry_of token_string m = Ret (Some e)) ms es ->
  Forall (fun m => doc_checked m = true) ms -> NoDup cs.*1 /\ Forall2 entry_spec ms cs.
Proof.
  unfold compile. case_bool_decide as Hnd; [|done]. intros Hc Ht Hd.
  split; [by rewrite (compiled_names _ _ Hc)|]. apply list_monad.list.mapM_Some in Hc.
  revert ms Ht Hd. induction Hc as [|e c es cs Hec _ IH]; intros ms Hm;
    inversion Hm as [|m ? ms' ? Hme Hms]; subst; [constructor|].
  intros [Hd Hds]%Forall_cons. cbn [fmap list_fmap] in Hnd. apply NoDup_cons in Hnd as [_ Hnd].
  constructor; [|by apply IH].
  exists e. split; [done|]. eapply compile_entry_spec; [|done|done].
  unfold doc_checked in Hd. rewrite !andb_true_iff in Hd. destruct Hd as [[[Hd _] _] _].
  apply Forall_forall. intros l Hl%list_elem_of_In. by eapply List.forallb_forall in Hd.
Qed.

Lemma METHODS_spec : NoDup METHODS.*1 /\ Forall2 entry_spec trait_methods METHODS.
Proof. exact (compiled_spec _ _ _ table_compiles table_methods docs_checked). Qed.

Lemma entry_command m c : entry_spec m c -> command_of m = Some c.1.
Proof. intros (e & (Hc & _)%entry_of_Some & (-> & _)). done. Qed.

Lemma specified_names ms cs : Forall2 entry_spec ms cs -> cs.*1 = omap command_of ms.
Proof.
  induction 1 as [|m c ms cs Hm _ IH]; [done|]. cbn [fmap list_fmap omap list_omap].
  rewrite (entry_command m c Hm). by f_equal.
Qed.

Lemma METHODS_commands : METHODS.*1 = commands.
Proof. exact (specified_names _ _ (proj2 METHODS_spec)). Qed.

(** The order of the hash table is not that of the traits. *)
Lemma permuted_names entries : entries ≡ₚ METHODS -> entries.*1 ≡ₚ commands.
Proof. intros Hp. rewrite <- METHODS_commands. exact (fmap_Permutation fst _ _ Hp). Qed.

(** An entry in the hash table's order belongs to a method. *)
Lemma METHODS_elem c : c ∈ METHODS -> exists m, m ∈ trait_methods /\ entry_spec m c.
Proof.
  destruct METHODS_spec as [_ Hs]. intros (i & Hi)%list_elem_of_lookup.
  destruct (Forall2_lookup_r _ _ _ _ _ Hs Hi) as (m & Hm & He). exists m. split; [|done].
  by eapply list_elem_of_lookup_2.
Qed.

Lemma METHODS_method m : m ∈ trait_methods -> exists c, c ∈ METHODS /\ entry_spec m c.
Proof.
  destruct METHODS_spec as [_ Hs]. intros (i & Hi)%list_elem_of_lookup.
  destruct (Forall2_lookup_l _ _ _ _ _ Hs Hi) as (c & Hc & He). exists c. split; [|done].
  by eapply list_elem_of_lookup_2.
Qed.

Lemma METHODS_handler m : m ∈ trait_methods -> exists h, h ∈ handlers /\ forwards m h.
Proof.
  intros (i & Hi)%list_elem_of_lookup.
  destruct (Forall2_lookup_l _ _ _ _ _ handlers_forward Hi) as (h & Hh & Hf). exists h. split; [|done].
  by eapply list_elem_of_lookup_2.
Qed.

(** The parameters of a documented method are those that it declares. *)
Lemma documented_params m e (d : Method (Schema:=Schema)) :
  m ∈ trait_methods -> entry_of token_string m = Ret (Some e) -> documented result_docs consts m e d ->
  Forall2 (fun '(p, t) pd => cd_name pd = p /\ cd_required pd = stated p t) (declared m) (m_params d)
  /\ m_deprecated d = false.
Proof.
  intros Hm He (_ & _ & _ & Hps & Hdep & _).
  pose proof (proj1 (Forall_forall _ _) docs_checked m Hm) as Hd. unfold doc_checked in Hd.
  apply entry_of_Some in He as (_ & Hmo & _ & Hpar%params_of_Ret & Hdp). rewrite Hmo, !andb_true_iff in Hd.
  destruct Hd as [[[_ _] Hdd] Hd]. split; [|by rewrite Hdep, Hdp; apply negb_true_iff].
  fold (declared m) in Hpar. revert Hd Hps. generalize (m_params d). clear - Hpar.
  induction Hpar as [|[p t] q ds ps [Hq (t' & Hopt)] _ IH]; intros pds Hd Hps;
    inversion Hps as [|? pd ? pds' (Hn & _ & Hreq & _) Hrest]; subst; [constructor|].
  cbn [forallb] in Hd. apply andb_true_iff in Hd as [Hh%bool_decide_eq_true_1 Hd].
  constructor; [|by apply IH]. split; [done|].
  unfold advertised in Hh. rewrite Hopt in Hh.
  change (const_required consts (module e) q = Some (stated (parameter q) t)) in Hh.
  rewrite Hreq in Hh. by injection Hh.
Qed.

(** ** The properties *)

(** C39. [help], whatever the order of the hash table: without a command it lists
    the commands of both traits, each once and in order; with one it gives the
    doc comment of that method, whatever characters it has; and any other text
    is refused by name. *)
Theorem help_correct entries :
  entries ≡ₚ METHODS ->
  (exists names, help_call entries None = concat_str ((fun n => n +:+ nl)%string <$> names)
     /\ names ≡ₚ commands /\ NoDup names /\ Sorted (fun a b => String.leb a b = true) names)
  /\ (forall m c, m ∈ trait_methods -> command_of m = Some c ->
        help_call entries (Some c) = (c +:+ nl +:+ nl +:+ doc_text m)%string)
  /\ (forall c, c ∉ commands -> help_call entries (Some c) = ("help: unknown command: " +:+ c +:+ nl)%string).
Proof.
  intros Hp. pose proof (proj1 METHODS_spec) as Hnd. rewrite <- Hp in Hnd. split_and!.
  - destruct (help_listing entries) as (names & -> & Hn & Hs). exists names. split_and!; [done|..|done].
    + exact (Permutation_trans Hn (permuted_names _ Hp)).
    + by rewrite Hn.
  - intros m c Hm Hc. destruct (METHODS_method m Hm) as (x & Hx & Hs). rewrite <- Hp in Hx.
    assert (c = x.1) as -> by (apply entry_command in Hs; congruence).
    cbn [help_call]. rewrite (get_method_elem entries x) by done. by destruct Hs as (e & _ & _ & -> & _).
  - intros c Hc. cbn [help_call]. rewrite get_method_None; [done|]. by rewrite Hp, METHODS_commands.
Qed.

(** C40. [rpc.discover] describes the server: its methods are those of both
    traits, each once; each has the doc comment of its method, and its first
    line as the summary; its parameters are those that the method declares, in
    order, stated as required unless of type [Option] or named [operationid];
    and the implementation of that method calls a function of the module of its
    result type with one value for each of them, in that order, refusing only
    when it needs a wallet handle and gets none. *)
Theorem rpc_discover_correct `{ParamOps} entries :
  entries ≡ₚ METHODS ->
  let doc := openrpc_call new_generator take_definitions PKG_DESCRIPTION PKG_VERSION entries in
  (name <$> methods doc) ≡ₚ commands /\
  Forall (fun d => exists m h, m ∈ trait_methods /\ command_of m = Some (name d)
    /\ m_description d = trim (doc_text m) /\ summary d = first_line (trim (doc_text m))
    /\ Forall2 (fun '(p, t) pd => cd_name pd = p /\ cd_required pd = stated p t) (declared m) (m_params d)
    /\ m_deprecated d = false
    /\ h ∈ handlers /\ h_ident h = ident m /\ module_of m = Ret (callee h).1
    /\ cd_description (m_result d) = result_docs (callee h).1
    /\ forall V handle (vs : list V), length vs = length (m_params d) ->
         serve handle (zip (cd_name <$> m_params d) vs) h
         = if existsb needs_handle (parts h) && negb handle then Err (of_code InternalError)
           else Ret {| called := callee h; arguments := (inl <$> parts h) ++ (inr <$> vs);
                       as_operation := starts_async h |}) (methods doc).
Proof.
  intros Hp doc.
  set (R := fun d : Method (Schema:=Schema) => exists m e, m ∈ trait_methods
    /\ entry_of token_string m = Ret (Some e) /\ documented result_docs consts m e d).
  assert (HR : Forall (fun c => forall g, R (generate c.2 c.1 g).1) entries).
  { apply Forall_forall. intros c Hc g. rewrite Hp in Hc. destruct (METHODS_elem c Hc) as (m & Hm & e & He & Hs).
    exists m, e. split; [done|]. split; [done|]. by eapply method_generate_spec. }
  pose proof (generate_all_spec R entries new_generator HR) as [HR' Hnames]. clear HR.
  assert (Hms : methods doc = (run_all ((fun '(n, m) => generate m n) <$> entries) new_generator).1).
  { unfold doc, openrpc_call. by destruct (run_all _ _). }
  rewrite Hms. split; [rewrite Hnames; exact (permuted_names _ Hp)|].
  eapply Forall_impl; [exact HR'|]. intros d (m & e & Hm & He & Hd).
  destruct (METHODS_handler m Hm) as (h & Hh & Hf). destruct (documented_params m e d Hm He Hd) as [Hps Hdep].
  exists m, h. pose proof Hf as (Hid & Hmo & _). destruct Hd as (Hn & Hdesc & Hsum & _ & _ & _ & Hres).
  pose proof (entry_of_Some _ _ _ He) as (Hcmd & Hmod & _).
  assert (module e = (callee h).1) as Hme by congruence. rewrite <- Hn in Hcmd. rewrite Hme in Hres.
  assert (Hnm : (cd_name <$> m_params d) = (declared m).*1).
  { clear - Hps. induction Hps as [|[p t] pd ds pds [Hn _] _ IH]; [done|]. cbn. by rewrite Hn, <- IH. }
  split_and!; try done. intros V handle vs Hl. rewrite Hnm. apply (serve_spec m); [done|].
  by rewrite Hl, (Forall2_length _ _ _ Hps).
Qed.

End server.

(** ** An example: types by their first segment, schemas by their text *)
Definition print_ty (t : RustTy) : string := match t with TyPath _ ((n, _) :: _) => n | _ => "str" end.

Definition example_schema (t : string) (seen : list string) : string * list string := (t, t :: seen).
Definition example_docs (module : string) : string := module.

Abbreviation example_METHODS := (METHODS print_ty example_schema example_docs).

Lemma example_reversed : rev example_METHODS ≡ₚ example_METHODS.
Proof. exact (Permutation_sym (Permutation_rev example_METHODS)). Qed.

Lemma help_correct_witness :
  let entries := rev example_METHODS in
  help_call entries (Some "stop") = ("stop" +:+ nl +:+ nl +:+ doc_text RpcTrait.stop)%string
  /\ help_call entries (Some "halt") = ("help: unknown command: halt" +:+ nl)%string.
Proof.
  destruct (help_correct print_ty example_schema example_docs (rev example_METHODS) example_reversed) as (_ & Hdoc & Hunk).
  split.
  - apply Hdoc; [|reflexivity]. apply (list_elem_of_lookup_2 _ 10). reflexivity.
  - apply Hunk. apply (bool_decide_eq_true_1 ("halt" ∉ commands)). vm_compute. reflexivity.
Defined.

Lemma rpc_discover_correct_witness :
  let doc := openrpc_call [] (fun seen => seen) "A Zcash wallet." "0.1.0" (rev example_METHODS) in
  (name <$> methods doc) ≡ₚ commands.
Proof.
  exact (proj1 (rpc_discover_correct (H:=example_params) print_ty [] example_schema (fun seen => seen)
    example_docs "A Zcash wallet." "0.1.0" (rev example_METHODS) example_reversed)).
Defined.

(** The start of the list that [help] prints. *)
Example help_starts : String.prefix ("decoderawtransaction" +:+ nl +:+ "decodescript" +:+ nl +:+ "getrawtransaction" +:+ nl)
  (help_call example_METHODS None) = true.
Proof. vm_compute. reflexivity. Qed.
